(* ===== verification/_CoqProject ===== *)
-Q . S2P
Prelude.v
CString.v
Js.v
JsArray.v
MpegTables.v
BitReader.v
MpegCopy.v
MpegBlock.v
MpegDecoder.v
Canvas.v
MpegStream.v
MpegPicture.v
MpegCoefficients.v
MpegCells.v
MpegFilm.v
VMManager.v
LoadBalancer.v
Accounts.v
WebServer.v
PicturePlayer.v
VideoSession.v
MpegFile.v
MpegSeek.v
Streaming.v
Session.v
FrameBuffer.v
InputCore.v
PS2.v
PCKbd.v
SdlUI.v
NetInput.v
I8259.v
