(* ===== verification/Prelude.v ===== *)
(** * SSM_IaaS: virtual machines in the browser

    The system lets a user start a virtual machine from a web page, see its
    screen in a browser and operate it from there.  This library models the
    programs on the way and proves what each does and that they fit together.

    ** The program

    - The load balancer (src/LoadBalancer) logs users in, keeps their images,
      gives out the ports of the web server's workers and sends requests to the
      VM manager.
    - The VM manager (src/VMManager/vm_manager.c) parses a request, writes
      client_data.dat into the user's directory, keeps the table of base images
      and runs src/command.sh, which starts the emulator.
    - The emulator (src/Qemu-2.4.1) is QEMU with changes: vl.c reads
      client_data.dat and ships sound files, audio/alsaaudio.c writes them,
      ui/sdl.c mirrors the screen into a file that ffmpeg streams, and a thread
      of ui/sdl.c turns messages of the browser into input events.  These go
      through ui/input.c to hw/input/ps2.c, hw/input/pckbd.c and
      hw/intc/i8259.c to the guest.
    - A worker of the web server (src/WebServer/bin/www) passes pictures and
      sound on to the browsers and input back to the emulator.
    - The pages (src/WebServer/public/js) send input; public/lib/jsmpg.js
      decodes the MPEG-1 stream and draws it.

    ** The files

    - Prelude: results of C code that may go wrong, machine integers, arrays,
      the tactics and hint databases of the library.  CString: the C string
      functions.  Js, JsArray: JavaScript values, typed arrays and 32-bit
      arithmetic.
    - MpegTables, BitReader, MpegCopy, MpegBlock, MpegDecoder: the decoder of
      jsmpg.js, bottom up: tables, bits and codes, motion compensation, blocks,
      and macroblocks, slices, pictures, sequences and the recorder.  The
      record [jsmpeg] is the fields of the JavaScript object.  Canvas: the
      conversion to RGBA.  MpegStream, MpegPicture, MpegCoefficients,
      MpegCells, MpegFilm: a reference encoder (codes and vectors, slices,
      blocks of coefficients, macroblocks, pictures), the picture that should
      appear ([paint]), and the proof that decoding gives it.
    - VMManager, LoadBalancer, Accounts, WebServer (modules Browser, Worker,
      Routes): the programs of these names.  [server], [lb], [page] and
      [worker] hold their variables; one definition per handler or function.
    - PicturePlayer: the streaming half of jsmpg.js (ring buffer, search for
      pictures, hand-over to the decoder).  MpegFile: the half that plays files,
      and the recorder's files; MpegSeek: seeking in them.
      VideoSession: worker, player and decoder together.
    - Streaming: vl.c and the sound files.  Session: command.sh, the page of
      the load balancer, and the path of a start request.
    - FrameBuffer, SdlUI, NetInput: the parts of ui/sdl.c: the screen file, the
      window, the thread that reads the browser's messages.
    - InputCore, PS2, PCKbd, I8259: the files of QEMU of these names.  InputCore
      reaches the devices through the class [InputDevices], of which PS2 gives
      the instance.

    Code is translated to functions on explicit states.  Undefined behaviour in
    C and exceptions in JavaScript are [Crash] or a constructor of the result;
    C integers are wrapped to their width where they are stored.  Concurrency
    is a list or relation of steps: the callbacks and Redis commands of the
    load balancer, the processes made by fork, the writer and the shipper of
    sound, the events of a worker, the messages and animation frames of a
    browser, the guest's port accesses.  Uninitialised arrays are arguments.

    ** The theorems

    - Accounts: users log in exactly with what they registered
      ([login_iff_registered]).
    - A session: a start request that is granted leads to an emulator, worker
      and page that agree on user, image and ports ([session_connects], if the
      calls succeed and the stack byte behind the session file is NUL, with
      [start_request_served] and [session_roundtrip] for its halves; the latter
      says for every content of the stack what is read); ports stay with their
      users ([ports_exclusive]), and once the three are taken none is given back
      and no machine is started, however requests interleave
      ([started_ports_never_released]).
    - Pictures: what ffmpeg sends to the worker, one picture per chunk, is on
      the canvas at an animation frame once the next picture has begun, if at
      most two messages come between two frames ([stream_reaches_canvas]; with
      three the canvas can fall back to an old picture,
      [third_callback_repeats]), since the ring buffer implements a cutter of
      the whole stream ([socket_refines_cutter]) and decoding inverts encoding
      ([coded_picture] for intra and predicted pictures, [block_round_trip] for
      blocks, [codewords_decoded] for the codes).  All sizes, coefficients,
      scales, vectors and f_codes are covered; a browser may join in the middle
      of a group of pictures.  [block_paths_agree] compares the paths for blocks,
      [readCode_terminates] is about arbitrary streams.  Recordings play back
      ([recording_plays_back]); seeking finds the nearest intra picture of any
      file ([seek_finds_intra]), and an exact seek shows what playing up to
      that picture shows ([exact_seek]).
    - The screen file, in desktop mode: it is the screen, pixel by pixel
      ([make_frameData_copies_screen]), and partial updates of full width agree
      with full ones ([Update_frameData_band_equiv]).
    - Sound: what reaches the sound files, the whole stdio blocks of each
      buffer, is shipped in order and complete ([sound_files_fifo]); the ring of
      the voice keeps its invariant, and its writer ends unless the device
      reports errors that it recovers from without end ([run_out_keeps_ring],
      [recovered_errors_loop]).
    - The window: modifiers, grab and buttons agree with what was told to
      others ([ui_view_reachable]), apart from modifiers that the network thread
      pressed.
    - Input: the page tracks the button ([page_button_in_step]), the worker
      relays messages ([worker_relays_messages]), the thread applies them
      ([thread_follows_browser]), keys reach the guest
      ([browser_key_reaches_guest]); the queues on the way are FIFOs
      ([keyboard_queue_fifo], [ps2_queue_refines_fifo]), the controller shows
      what they hold ([kbc_reachable_inv], [port60_drains]), mouse motion is
      conserved ([mouse_sync_conserves]), and interrupts arrive by priority with
      their vectors, and again after the end of the interrupt
      ([highest_priority_first], [line_reaches_processor],
      [output_follows_registers], the last while no write changes a special
      mode).
    - Errors: [start_error_paths]; and lemmas that
      show, on concrete inputs or in general, where the code goes wrong
      (for instance [command_overflow_iff],
      [overlapping_starts_share_port], [narrow_update_dropped],
      [coalesced_messages_lost], [post_load_damages_queue],
      [short_macroblock_lost], [negative_levels_round_away],
      [recording_counts_one_more]).

    ** Bounds and fuel

    - The decoder's loops over coefficients, macroblocks and slices end when the
      stream says so; they carry fuel, and the theorems that a picture is decoded
      ask for at least the number of macroblocks in a row, the number of rows
      (48 and 80 for the size a worker announces), and 65, for the coefficients
      of a block and its end ([enough]).  Loading a file takes one more turn, for
      the group header behind the sequence header.
    - [readCode] has the length of the table, which is proved enough: it ends
      within the longest code word of the table, of 16 bits at most;
      the searches for start codes and pictures have the length of the buffer
      plus one, each turn consuming a byte.
    - The buffers of the reader theorems are below 16777216 bytes, so that a bit
      index is exact in 32 bits; the ring of the player has 524288.
      Pictures of a stream have up to 130000 bytes, so that two of them fit into
      half of the ring.
    - Pictures are up to 4096 pixels wide and 2800 high, the most that slice
      start codes can number (175 rows of macroblocks); both even, since the
      conversion walks 2 by 2 squares.  A recording holds widths below 4096.
    - The loop that sends a mouse packet has 16 turns (a packet has at least
      three bytes and the queue 16), the priority loop of the interrupt
      controller 8 (its lines), the port search 3 (the workers), decimal
      printing 20 digits (64 bits).

    - The last macroblock of a row takes a byte at least: a shorter one can be
      lost ([short_macroblock_lost]).

    ** Not modelled

    - The rest of QEMU (processor, block layer, network, other devices, main
      loop, monitor): unmodified, and not on the path between browser and guest.
    - The WebGL renderer of jsmpg.js: shaders run by the driver; the canvas
      renderer is modelled.  The clock of the file player, its request and its
      progress bar are calls of the browser; sound is decoded by the browser.
    - Redis, MongoDB, ws, binaryjs, Express, SDL, ALSA, ffmpeg, the kernel:
      present through the events and results the code gets from them, which are
      arguments of the definitions.
    - Set-up code (Express, options, object model, save-state tables) and the
      server of VMManager/server_for_web.c, which no longer compiles against its
      header. *)

From stdpp Require Export base tactics list numbers strings relations.
From Stdlib Require Export ZArith Lia.

#[global] Open Scope Z_scope.

(** ** Results of C code that may go wrong

    [Crash] stands for undefined behaviour of the C code: a NULL pointer
    passed to the library, a read past the end of an array, a write past the
    end of a fixed-size buffer. *)

Inductive outcome (A : Type) : Type :=
| Ok (a : A)
| Crash.
Arguments Ok {A} a.
Arguments Crash {A}.

#[export] Instance outcome_ret : MRet outcome := fun A a => Ok a.
#[export] Instance outcome_bind : MBind outcome := fun A B f m =>
  match m with Ok a => f a | Crash => Crash end.

Lemma outcome_bind_Ok {A B} (f : A -> outcome B) m b :
  m ≫= f = Ok b <-> exists a, m = Ok a /\ f a = Ok b.
Proof.
  split.
  - destruct m as [a|]; simpl; [eauto | discriminate].
  - intros (a & -> & Hf). exact Hf.
Qed.

(** ** Machine integers

    A C integer is a [Z]; the conversions below are the ones the compiler
    inserts when a value is stored in an object of that width. *)

Definition u8 (x : Z) : Z := x mod 256.
Definition u16 (x : Z) : Z := x mod 65536.
Definition u32 (x : Z) : Z := x mod 4294967296.
Definition u64 (x : Z) : Z := x mod 18446744073709551616.
Definition s8 (x : Z) : Z := (x + 128) mod 256 - 128.
Definition s16 (x : Z) : Z := (x + 32768) mod 65536 - 32768.
Definition s32 (x : Z) : Z := (x + 2147483648) mod 4294967296 - 2147483648.

(** C truth values. *)
Definition b2z (b : bool) : Z := if b then 1 else 0.
Definition nz (x : Z) : bool := negb (x =? 0).

Create HintDb wrap.
Create Rewrite HintDb wrap.

Lemma u8_range x : 0 <= u8 x < 256.
Proof. unfold u8. apply Z.mod_pos_bound. lia. Qed.
Lemma u16_range x : 0 <= u16 x < 65536.
Proof. unfold u16. apply Z.mod_pos_bound. lia. Qed.
Lemma u32_range x : 0 <= u32 x < 4294967296.
Proof. unfold u32. apply Z.mod_pos_bound. lia. Qed.
Lemma u64_range x : 0 <= u64 x < 18446744073709551616.
Proof. unfold u64. apply Z.mod_pos_bound. lia. Qed.
Lemma u8_small x : 0 <= x < 256 -> u8 x = x.
Proof. apply Z.mod_small. Qed.
Lemma u16_small x : 0 <= x < 65536 -> u16 x = x.
Proof. apply Z.mod_small. Qed.
Lemma u32_small x : 0 <= x < 4294967296 -> u32 x = x.
Proof. apply Z.mod_small. Qed.
Lemma s32_small x : -2147483648 <= x < 2147483648 -> s32 x = x.
Proof. intros. unfold s32. rewrite Z.mod_small; lia. Qed.
Lemma s8_small x : -128 <= x < 128 -> s8 x = x.
Proof. intros. unfold s8. rewrite Z.mod_small; lia. Qed.
Lemma s8_range x : -128 <= s8 x < 128.
Proof. unfold s8. pose proof (Z.mod_pos_bound (x + 128) 256). lia. Qed.
Lemma s32_range x : -2147483648 <= s32 x < 2147483648.
Proof. unfold s32. pose proof (Z.mod_pos_bound (x + 2147483648) 4294967296). lia. Qed.
Lemma u8_idem x : u8 (u8 x) = u8 x.
Proof. apply u8_small, u8_range. Qed.

#[export] Hint Resolve u8_range u16_range u32_range u64_range s8_range s32_range : wrap.
#[export] Hint Rewrite u8_idem : wrap.

(** ** Bits *)

Lemma land_range a b n : 0 <= n -> 0 <= a < 2 ^ n -> 0 <= Z.land a b < 2 ^ n.
Proof.
  intros Hn Ha.
  assert (Z.land a b = Z.land a b mod 2 ^ n) as ->.
  { rewrite <- !Z.land_ones by lia.
    rewrite <- Z.land_assoc, (Z.land_comm b), Z.land_assoc, Z.land_ones by lia.
    now rewrite Z.mod_small by lia. }
  apply Z.mod_pos_bound. lia.
Qed.

Lemma land_range_r a b n : 0 <= n -> 0 <= b < 2 ^ n -> 0 <= Z.land a b < 2 ^ n.
Proof. rewrite Z.land_comm. apply land_range. Qed.

Lemma lor_range a b n :
  0 <= n -> 0 <= a < 2 ^ n -> 0 <= b < 2 ^ n -> 0 <= Z.lor a b < 2 ^ n.
Proof.
  intros Hn Ha Hb.
  assert (Z.lor a b = Z.lor a b mod 2 ^ n) as ->.
  { rewrite <- Z.land_ones, Z.land_lor_distr_l, !Z.land_ones by lia.
    now rewrite !Z.mod_small by lia. }
  apply Z.mod_pos_bound. lia.
Qed.

Lemma land_range_u8 a b : 0 <= a < 256 -> 0 <= Z.land a b < 256.
Proof. apply (land_range a b 8). lia. Qed.
Lemma land_range_u8_r a b : 0 <= b < 256 -> 0 <= Z.land a b < 256.
Proof. apply (land_range_r a b 8). lia. Qed.
Lemma lor_range_u8 a b : 0 <= a < 256 -> 0 <= b < 256 -> 0 <= Z.lor a b < 256.
Proof. apply (lor_range a b 8). lia. Qed.

#[export] Hint Resolve land_range_u8 land_range_u8_r lor_range_u8 : wrap.

(** [x & (1 << n)] is non-zero exactly when bit [n] is set. *)
Lemma land_pow2_testbit x n :
  0 <= n -> Z.land x (2 ^ n) = if Z.testbit x n then 2 ^ n else 0.
Proof.
  intros Hn. apply Z.bits_inj'. intros k Hk.
  rewrite Z.land_spec, Z.pow2_bits_eqb by lia.
  destruct (Z.eqb_spec n k) as [->|Hne].
  - destruct (Z.testbit x k) eqn:E; simpl.
    + now rewrite Z.pow2_bits_true.
    + now rewrite Z.testbit_0_l.
  - rewrite andb_false_r. destruct (Z.testbit x n).
    + now rewrite Z.pow2_bits_false by lia.
    + now rewrite Z.testbit_0_l.
Qed.

Lemma nz_land_pow2 x n : 0 <= n -> nz (Z.land x (2 ^ n)) = Z.testbit x n.
Proof.
  intros Hn. rewrite land_pow2_testbit by lia. unfold nz.
  destruct (Z.testbit x n); [|reflexivity].
  pose proof (Z.pow_pos_nonneg 2 n). destruct (Z.eqb_spec (2 ^ n) 0); [lia|reflexivity].
Qed.

(** ** Arrays

    A C array is a list; [aget] and [aset] are the accesses [a[i]] and
    [a[i] = v] for an index in range.  Accesses whose index the code does not
    check go through [aget_chk] and [aset_chk], which report [Crash]. *)

Definition aget (l : list Z) (i : Z) : Z := default 0 (l !! Z.to_nat i).
Definition aset (l : list Z) (i v : Z) : list Z := <[Z.to_nat i := v]> l.

Definition aget_chk (l : list Z) (i : Z) : outcome Z :=
  if (0 <=? i) && (i <? Z.of_nat (length l)) then Ok (aget l i) else Crash.
Definition aset_chk (l : list Z) (i v : Z) : outcome (list Z) :=
  if (0 <=? i) && (i <? Z.of_nat (length l)) then Ok (aset l i v) else Crash.

Lemma length_aset l i v : length (aset l i v) = length l.
Proof. apply length_insert. Qed.

Lemma aget_aset_eq l i v :
  0 <= i < Z.of_nat (length l) -> aget (aset l i v) i = v.
Proof.
  intros Hi. unfold aget, aset. rewrite list_lookup_insert_eq by lia. reflexivity.
Qed.

Lemma aget_aset_ne l i j v :
  0 <= i -> 0 <= j -> i <> j -> aget (aset l i v) j = aget l j.
Proof.
  intros Hi Hj Hne. unfold aget, aset. rewrite list_lookup_insert_ne by lia. reflexivity.
Qed.

Lemma aget_ext (l1 l2 : list Z) :
  length l1 = length l2 ->
  (forall i, 0 <= i < Z.of_nat (length l1) -> aget l1 i = aget l2 i) -> l1 = l2.
Proof.
  intros Hlen Hget. apply list_eq_same_length with (n := length l1); [done|done|].
  intros i x y Hi Hx Hy. specialize (Hget (Z.of_nat i)).
  unfold aget in Hget. rewrite Nat2Z.id, Hx, Hy in Hget. apply Hget. lia.
Qed.

#[export] Hint Rewrite length_aset : wrap.

(** ** Case analysis on the tests of the code *)

Ltac zdecide :=
  repeat match goal with
  | |- context [?a =? ?b] => destruct (Z.eqb_spec a b)
  | |- context [?a <? ?b] => destruct (Z.ltb_spec a b)
  | |- context [?a <=? ?b] => destruct (Z.leb_spec a b)
  end.

Ltac zdecide_in H :=
  repeat match type of H with
  | context [?a =? ?b] => destruct (Z.eqb_spec a b)
  | context [?a <? ?b] => destruct (Z.ltb_spec a b)
  | context [?a <=? ?b] => destruct (Z.leb_spec a b)
  end.

(** Decide the comparisons the context settles. *)
Ltac zknown :=
  repeat match goal with
  | |- context [?a <=? ?b] =>
      first [ replace (a <=? b) with true by (symmetry; apply Z.leb_le; lia)
            | replace (a <=? b) with false by (symmetry; apply Z.leb_gt; lia) ]
  | |- context [?a <? ?b] =>
      first [ replace (a <? b) with true by (symmetry; apply Z.ltb_lt; lia)
            | replace (a <? b) with false by (symmetry; apply Z.ltb_ge; lia) ]
  end; rewrite ?andb_false_r; cbn [andb].

(** Split every [match]/[if] of the goal on a fresh equation. *)
Ltac cases :=
  repeat match goal with
  | |- context [match ?x with _ => _ end] => destruct x eqn:?
  end.

(** ** Counted loops

    [for (i = i0; i < i0 + n; i++) body], where the body may crash. *)
Fixpoint for_up {T : Type} (n : nat) (i : Z) (body : Z -> T -> outcome T) (s : T) : outcome T :=
  match n with
  | O => Ok s
  | S n' => s' ← body i s; for_up n' (i + 1) body s'
  end.

Lemma for_up_inv {T} (P : Z -> T -> Prop) n i body (s : T) :
  P i s ->
  (forall j s, i <= j < i + Z.of_nat n -> P j s -> exists s', body j s = Ok s' /\ P (j + 1) s') ->
  exists s', for_up n i body s = Ok s' /\ P (i + Z.of_nat n) s'.
Proof.
  revert i s. induction n as [|n IH]; intros i s HP Hb; simpl.
  { exists s. rewrite Z.add_0_r. done. }
  destruct (Hb i s) as (s1 & -> & HP1); [lia|done|]. cbn [mbind outcome_bind].
  destruct (IH (i + 1) s1 HP1) as (s' & Hs' & HP').
  { intros j t Hj. apply Hb. lia. }
  exists s'. split; [done|]. by replace (i + Z.of_nat (S n)) with (i + 1 + Z.of_nat n) by lia.
Qed.

Lemma for_up_app {T} n m i body (s : T) :
  for_up (n + m) i body s = (s' ← for_up n i body s; for_up m (i + Z.of_nat n) body s').
Proof.
  revert i s. induction n as [|n IH]; intros i s.
  - cbn. by rewrite Z.add_0_r.
  - cbn [for_up Nat.add]. destruct (body i s) as [s1|]; cbn [mbind outcome_bind]; [|done].
    rewrite IH. by replace (i + Z.of_nat (S n)) with (i + 1 + Z.of_nat n) by lia.
Qed.

Lemma for_up_ext {T} n i b1 b2 (s : T) :
  (forall j t, i <= j < i + Z.of_nat n -> b1 j t = b2 j t) -> for_up n i b1 s = for_up n i b2 s.
Proof.
  revert i s. induction n as [|n IH]; intros i s Hb; simpl; [done|].
  rewrite Hb by lia. destruct (b2 i s) as [s1|]; [|done]. cbn [mbind outcome_bind].
  apply IH. intros j t Hj. apply Hb. lia.
Qed.

(** ** Filters *)

Lemma Forall_filter {A} (P Q : A -> Prop) `{forall x, Decision (Q x)} (l : list A) :
  Forall P l -> Forall P (filter Q l).
Proof. rewrite !Forall_forall. intros Hl x [_ Hx]%list_elem_of_filter. auto. Qed.

Lemma filter_all {A} (Q : A -> Prop) `{forall x, Decision (Q x)} (l : list A) :
  Forall Q l -> filter Q l = l.
Proof.
  induction 1 as [|x l Hx _ IH]; [done|]. by rewrite filter_cons_True, IH.
Qed.

(** ** Properties of bytes, by evaluation *)

Definition all_below (n : nat) (p : Z -> bool) : bool := forallb p (Z.of_nat <$> seq 0 n).

Lemma all_below_spec n p x : all_below n p = true -> 0 <= x < Z.of_nat n -> p x = true.
Proof.
  intros Hall Hx. unfold all_below in Hall. rewrite forallb_forall in Hall. apply Hall.
  apply list_elem_of_In, list_elem_of_fmap. exists (Z.to_nat x). split; [lia|].
  apply elem_of_seq. lia.
Qed.

(** Prove [P x] for a byte [x], where [P] is decidable, by checking all. *)
Lemma byte_ind (P : Z -> Prop) `{forall x, Decision (P x)} x :
  all_below 256 (fun x => bool_decide (P x)) = true -> 0 <= x < 256 -> P x.
Proof. intros Hall Hx. by apply (all_below_spec 256 _ x) in Hall as ?%bool_decide_eq_true; [|lia]. Qed.
