(* ===== verification/CString.v ===== *)
(** * The C library functions the system calls on strings

    [atoi], [strtok], [strlen], [strcpy] and the [%d]/[%s] conversions of
    [sprintf], on buffers that are lists of byte values.  A position in a
    buffer plays the role of a [char *]; reading past the end of the list is
    [Crash]. *)

From S2P Require Import Prelude.

(** String literals as byte lists. *)
Fixpoint bytes (s : String.string) : list Z :=
  match s with
  | String.EmptyString => []
  | String.String a s' => Z.of_nat (Ascii.nat_of_ascii a) :: bytes s'
  end.

(** The bytes before the first NUL, if there is one. *)
Fixpoint cstr (l : list Z) : outcome (list Z) :=
  match l with
  | [] => Crash
  | c :: l' => if c =? 0 then Ok [] else s ← cstr l'; Ok (c :: s)
  end.

(** [%s] or [strlen] of the string that starts at position [p] of [buf]. *)
Definition cstr_at (buf : list Z) (p : nat) : outcome (list Z) := cstr (drop p buf).

(** ** strtok with a one-character delimiter *)

(** Number of leading bytes equal to [d] ([strspn]). *)
Fixpoint spn (d : Z) (l : list Z) : nat :=
  match l with
  | [] => O
  | c :: l' => if c =? d then S (spn d l') else O
  end.

(** Distance to the first [d] or NUL ([strcspn]); [None] when the scan leaves
    the buffer. *)
Fixpoint cspn (d : Z) (l : list Z) : option nat :=
  match l with
  | [] => None
  | c :: l' => if (c =? d) || (c =? 0) then Some O else S <$> cspn d l'
  end.

(** One call of [strtok] on [buf] from position [s] (the argument, or the
    saved position for a NULL argument): the token's position or NULL, the
    buffer in which the delimiter was overwritten, and the new saved
    position. *)
Definition strtok (d : Z) (buf : list Z) (s : nat) : outcome (option nat * list Z * nat) :=
  let s1 := (s + spn d (drop s buf))%nat in
  match buf !! s1 with
  | None => Crash
  | Some c =>
      if c =? 0 then Ok (None, buf, s1)
      else match cspn d (drop s1 buf) with
           | None => Crash
           | Some n =>
               let e := (s1 + n)%nat in
               if aget buf (Z.of_nat e) =? 0 then Ok (Some s1, buf, e)
               else Ok (Some s1, <[e := 0]> buf, S e)
           end
  end.

(** ** atoi *)

Definition is_space (c : Z) : bool := (c =? 32) || ((9 <=? c) && (c <=? 13)).
Definition is_digit (c : Z) : bool := (48 <=? c) && (c <=? 57).

Fixpoint skip_spaces (s : list Z) : list Z :=
  match s with
  | c :: s' => if is_space c then skip_spaces s' else s
  | [] => []
  end.

(** The value of the leading digits, accumulated in [acc]. *)
Fixpoint digits_val (acc : Z) (s : list Z) : Z :=
  match s with
  | c :: s' => if is_digit c then digits_val (10 * acc + (c - 48)) s' else acc
  | [] => acc
  end.

(** [atoi] is [(int) strtol (s, NULL, 10)]: the value saturates at the range
    of [long] and is then truncated to [int]. *)
Definition atoi (s : list Z) : Z :=
  let clamp x := Z.max (-9223372036854775808) (Z.min 9223372036854775807 x) in
  match skip_spaces s with
  | [] => 0
  | c :: s' =>
      s32 (clamp (if c =? 45 then - digits_val 0 s'
                  else if c =? 43 then digits_val 0 s'
                  else digits_val 0 (c :: s')))
  end.

(** [atoi] applied to a token of [buf]; a NULL token crashes. *)
Definition atoi_at (buf : list Z) (tok : option nat) : outcome Z :=
  match tok with
  | None => Crash
  | Some p => s ← cstr_at buf p; Ok (atoi s)
  end.

(** ** sprintf *)

(** Decimal digits of a non-negative number, most significant first; twenty
    digits are enough for every integer type of the program. *)
Fixpoint dec_digits (fuel : nat) (n : Z) : list Z :=
  match fuel with
  | O => []
  | S f => (if n <? 10 then [] else dec_digits f (n / 10)) ++ [48 + n mod 10]
  end.

Definition dec (n : Z) : list Z :=
  if n <? 0 then 45 :: dec_digits 20 (- n) else dec_digits 20 n.

(** Zero-padded conversion [%03d] of a non-negative number. *)
Definition dec03 (n : Z) : list Z :=
  let s := dec n in replicate (3 - length s) 48 ++ s.

(** [sprintf] into an array of [cap] bytes: the text and its NUL have to fit. *)
Definition sprintf_to (cap : Z) (s : list Z) : outcome (list Z) :=
  if Z.of_nat (length s) + 1 <=? cap then Ok s else Crash.

(** ** Lemmas *)

(** A byte that can appear in a token: not NUL and not the delimiter. *)
Definition tok_byte (d c : Z) : Prop := c <> 0 /\ c <> d.

Lemma cstr_app s l : Forall (fun c => c <> 0) s -> cstr (s ++ 0 :: l) = Ok s.
Proof.
  induction 1 as [|c s Hc _ IH]; [reflexivity|].
  simpl. destruct (Z.eqb_spec c 0); [lia|]. now rewrite IH.
Qed.

Lemma cstr_total l : 0 ∈ l -> exists s, cstr l = Ok s.
Proof.
  induction l as [|c l IH]; [by intros ?%elem_of_nil|]. simpl.
  destruct (Z.eqb_spec c 0); [eauto|]. intros [Heq|Hin]%elem_of_cons; [congruence|].
  destruct (IH Hin) as [s ->]. simpl. eauto.
Qed.

Lemma cstr_none l : 0 ∉ l -> cstr l = Crash.
Proof.
  induction l as [|c l IH]; [done|]. intros [Hc Hl]%not_elem_of_cons. simpl.
  destruct (Z.eqb_spec c 0); [congruence|]. by rewrite IH.
Qed.

Lemma cspn_app d s e l :
  Forall (tok_byte d) s -> e = d \/ e = 0 -> cspn d (s ++ e :: l) = Some (length s).
Proof.
  intros Hs He. induction Hs as [|c s [Hc0 Hcd] _ IH]; simpl.
  - destruct He as [->| ->]; [now rewrite Z.eqb_refl | ].
    now rewrite orb_comm.
  - destruct (Z.eqb_spec c d), (Z.eqb_spec c 0); try lia. simpl. now rewrite IH.
Qed.

Lemma spn_nil_head d c l : c <> d -> spn d (c :: l) = O.
Proof. intros. simpl. now destruct (Z.eqb_spec c d). Qed.

(** The scan of [strtok] over a non-empty token that ends at a byte [e]. *)
Lemma strtok_scan d pre s e post :
  s <> [] -> Forall (tok_byte d) s -> e = d \/ e = 0 ->
  strtok d (pre ++ s ++ e :: post) (length pre) =
  if e =? 0 then Ok (Some (length pre), pre ++ s ++ e :: post, (length pre + length s)%nat)
  else Ok (Some (length pre), pre ++ s ++ 0 :: post, S (length pre + length s)).
Proof.
  intros Hne Hs He.
  assert (spn d (s ++ e :: post) = O) as Hspn.
  { destruct Hs as [|c s [_ Hc] _]; [done|]. by apply spn_nil_head. }
  assert (forall x, (pre ++ s ++ x :: post) !! (length pre + length s)%nat = Some x) as Hat.
  { intros x. rewrite app_assoc, lookup_app_r, length_app by (rewrite length_app; lia).
    by rewrite Nat.sub_diag. }
  unfold strtok. rewrite drop_app_length, Hspn, Nat.add_0_r, drop_app_length, cspn_app by done.
  unfold aget. rewrite Nat2Z.id, Hat.
  rewrite lookup_app_r, Nat.sub_diag by lia. simpl (default 0 _).
  destruct Hs as [|c s [Hc _] _]; [done|]. simpl (_ !! _); cbv beta iota.
  destruct (Z.eqb_spec c 0); [lia|].
  destruct (Z.eqb_spec e 0); [done|].
  do 3 f_equal. rewrite !app_assoc. rewrite <- length_app at 1.
  by rewrite insert_app_r_alt, Nat.sub_diag by lia.
Qed.

(** [strtok] at a non-empty token that a delimiter follows: the token's
    position is returned and the delimiter becomes a NUL. *)
Lemma strtok_delim d pre s post :
  d <> 0 -> s <> [] -> Forall (tok_byte d) s ->
  strtok d (pre ++ s ++ d :: post) (length pre) =
  Ok (Some (length pre), pre ++ s ++ 0 :: post, S (length pre + length s)).
Proof.
  intros Hd Hne Hs. rewrite strtok_scan by auto. by destruct (Z.eqb_spec d 0).
Qed.

(** [strtok] at a token that the end of the string follows. *)
Lemma strtok_last d pre s post :
  s <> [] -> Forall (tok_byte d) s ->
  strtok d (pre ++ s ++ 0 :: post) (length pre) =
  Ok (Some (length pre), pre ++ s ++ 0 :: post, (length pre + length s)%nat).
Proof. intros Hne Hs. by rewrite strtok_scan by auto. Qed.

(** At the end of the string [strtok] returns NULL. *)
Lemma strtok_end d pre post :
  d <> 0 -> strtok d (pre ++ 0 :: post) (length pre) = Ok (None, pre ++ 0 :: post, length pre).
Proof.
  intros Hd. unfold strtok. rewrite drop_app_length, spn_nil_head by lia.
  rewrite Nat.add_0_r, lookup_app_r, Nat.sub_diag by lia. reflexivity.
Qed.

(** *** Decimal printing and reading *)

Lemma digits_val_app acc s c :
  Forall (fun x => is_digit x = true) s -> is_digit c = true ->
  digits_val acc (s ++ [c]) = 10 * digits_val acc s + (c - 48).
Proof.
  intros Hs Hc. revert acc. induction Hs as [|x s Hx _ IH]; intros acc; simpl.
  - by rewrite Hc.
  - by rewrite Hx, IH.
Qed.

(** Digits continue a number that has been begun. *)
Lemma digits_val_shift acc s :
  Forall (fun x => is_digit x = true) s ->
  digits_val acc s = acc * 10 ^ Z.of_nat (length s) + digits_val 0 s.
Proof.
  induction s as [|c s IH] using rev_ind; intros Hs.
  { simpl. rewrite Z.pow_0_r. lia. }
  apply Forall_app in Hs as [Hs Hc]. rewrite Forall_singleton in Hc.
  rewrite !digits_val_app, IH, length_app, Nat2Z.inj_add, Z.pow_add_r by (done || lia).
  change (10 ^ Z.of_nat (length [c])) with 10. lia.
Qed.

Lemma is_digit_mod n : is_digit (48 + n mod 10) = true.
Proof.
  pose proof (Z.mod_pos_bound n 10). unfold is_digit.
  destruct (Z.leb_spec 48 (48 + n mod 10)), (Z.leb_spec (48 + n mod 10) 57); lia.
Qed.

Lemma dec_digits_digit fuel n : Forall (fun c => is_digit c = true) (dec_digits fuel n).
Proof.
  revert n. induction fuel as [|f IH]; intros n; simpl; [done|].
  apply Forall_app. split; [destruct (n <? 10); [done|apply IH]|].
  constructor; [apply is_digit_mod | done].
Qed.

Lemma dec_digits_val fuel n :
  0 <= n < 10 ^ Z.of_nat fuel -> digits_val 0 (dec_digits fuel n) = n.
Proof.
  revert n. induction fuel as [|f IH]; intros n Hn.
  { change (10 ^ Z.of_nat 0) with 1 in Hn. simpl. lia. }
  rewrite Nat2Z.inj_succ, Z.pow_succ_r in Hn by lia. simpl.
  rewrite digits_val_app.
  2: { destruct (n <? 10); [done|apply dec_digits_digit]. }
  2: apply is_digit_mod.
  destruct (Z.ltb_spec n 10); simpl.
  - rewrite Z.mod_small by lia. lia.
  - rewrite IH by (split; [apply Z.div_pos; lia | apply Z.div_lt_upper_bound; lia]).
    pose proof (Z.div_mod n 10). lia.
Qed.

Lemma dec_digits_length fuel k n :
  (1 <= k)%nat -> n < 10 ^ Z.of_nat k -> (length (dec_digits fuel n) <= k)%nat.
Proof.
  revert k n. induction fuel as [|f IH]; intros k n Hk Hn; simpl; [lia|].
  rewrite length_app. simpl. destruct (Z.ltb_spec n 10); simpl; [lia|].
  destruct k as [|[|k]]; [lia|simpl in Hn; lia|].
  rewrite Nat2Z.inj_succ, Z.pow_succ_r in Hn by lia.
  assert (length (dec_digits f (n / 10)) <= S k)%nat; [|lia].
  apply IH; [lia|]. apply Z.div_lt_upper_bound; lia.
Qed.

Lemma dec_digits_nonempty fuel n : dec_digits (S fuel) n <> [].
Proof. simpl. intros H%app_nil. by destruct H. Qed.

Lemma digit_not c e : is_digit c = true -> e < 48 \/ 57 < e -> c <> e.
Proof. unfold is_digit. intros Hc He ->. zdecide_in Hc; simpl in Hc; lia. Qed.

Lemma dec_nonneg n : 0 <= n -> dec n = dec_digits 20 n.
Proof. intros. unfold dec. destruct (Z.ltb_spec n 0); [lia|done]. Qed.

Lemma dec_nonempty n : dec n <> [].
Proof. unfold dec. destruct (n <? 0); [done|apply dec_digits_nonempty]. Qed.

Lemma dec_tok_byte n : Forall (tok_byte 32) (dec n).
Proof.
  assert (forall m, Forall (tok_byte 32) (dec_digits 20 m)) as Hd.
  { intros m. eapply Forall_impl; [apply dec_digits_digit|].
    intros c Hc. split; eapply digit_not; eauto; lia. }
  unfold dec. destruct (n <? 0); [|done]. constructor; [|done]. split; lia.
Qed.

Lemma tok_byte_nonzero d s : Forall (tok_byte d) s -> Forall (fun c => c <> 0) s.
Proof. intros H. eapply Forall_impl; [exact H|]. by intros c []. Qed.

Lemma dec_no_nul n : 0 ∉ dec n.
Proof.
  intros H. pose proof (dec_tok_byte n) as Hd. rewrite Forall_forall in Hd. by destruct (Hd 0 H).
Qed.

Lemma dec_length k n :
  (1 <= k)%nat -> 0 <= n < 10 ^ Z.of_nat k -> (length (dec n) <= k)%nat.
Proof. intros Hk Hn. rewrite dec_nonneg by lia. apply dec_digits_length; lia. Qed.

(** Values of C type [int] survive printing with [%d] and reading back with
    [atoi]. *)
Definition no_digit_first (rest : list Z) : Prop :=
  match rest with [] => True | c :: _ => is_digit c = false end.

Lemma digits_val_stop acc s rest :
  Forall (fun c => is_digit c = true) s -> no_digit_first rest ->
  digits_val acc (s ++ rest) = digits_val acc s.
Proof.
  intros Hs Hr. revert acc. induction Hs as [|c s Hc _ IH]; intros acc; simpl.
  - destruct rest as [|c rest]; [done|]. simpl. by rewrite Hr.
  - by rewrite Hc.
Qed.

(** Reading stops at the first byte that is not a digit. *)
Lemma atoi_dec_stop n rest : 0 <= n < 2147483648 -> no_digit_first rest -> atoi (dec n ++ rest) = n.
Proof.
  intros Hn Hr. rewrite dec_nonneg by lia. unfold atoi.
  pose proof (dec_digits_digit 20 n) as Hd. pose proof (dec_digits_nonempty 19 n) as Hne.
  assert (digits_val 0 (dec_digits 20 n ++ rest) = n) as Hv.
  { rewrite digits_val_stop by done. apply dec_digits_val.
    change (10 ^ Z.of_nat 20) with 100000000000000000000. lia. }
  destruct Hd as [|c s Hc _]; [done|]. cbn [app skip_spaces] in *.
  replace (is_space c) with false.
  2: { symmetry. unfold is_space, is_digit in *. zdecide_in Hc; simpl in Hc; try discriminate.
       zdecide; simpl; lia. }
  pose proof (digit_not c 45 Hc ltac:(lia)). pose proof (digit_not c 43 Hc ltac:(lia)).
  destruct (Z.eqb_spec c 45), (Z.eqb_spec c 43); try lia.
  rewrite Hv, Z.min_r, Z.max_r by lia. apply s32_small. lia.
Qed.

Lemma atoi_dec_nonneg n : 0 <= n < 2147483648 -> atoi (dec n) = n.
Proof. intros Hn. rewrite <- (app_nil_r (dec n)). by apply atoi_dec_stop. Qed.

Lemma atoi_dec n : -2147483648 <= n < 2147483648 -> atoi (dec n) = n.
Proof.
  intros Hn. destruct (Z.lt_ge_cases n 0); [|apply atoi_dec_nonneg; lia].
  unfold dec. destruct (Z.ltb_spec n 0); [|lia].
  change (s32 (Z.max (-9223372036854775808) (Z.min 9223372036854775807 (- digits_val 0 (dec_digits 20 (- n))))) = n).
  rewrite dec_digits_val by (change (10 ^ Z.of_nat 20) with 100000000000000000000; lia).
  rewrite Z.opp_involutive, Z.min_r, Z.max_r by lia. apply s32_small. lia.
Qed.

Lemma dec_one_digit n : 0 <= n < 10 -> dec n = [48 + n].
Proof.
  intros Hn. rewrite dec_nonneg by lia.
  change (dec_digits 20 n)
    with ((if n <? 10 then [] else dec_digits 19 (n / 10)) ++ [48 + n mod 10]).
  destruct (Z.ltb_spec n 10); [|lia]. by rewrite Z.mod_small.
Qed.

Lemma dec_digits_length_lower fuel k n :
  10 ^ Z.of_nat k <= n < 10 ^ Z.of_nat fuel -> (k < length (dec_digits fuel n))%nat.
Proof.
  revert k n. induction fuel as [|f IH]; intros k n Hn.
  { change (10 ^ Z.of_nat 0) with 1 in Hn. pose proof (Z.pow_pos_nonneg 10 (Z.of_nat k)). lia. }
  cbn [dec_digits]. rewrite length_app. simpl (length [_]).
  destruct k as [|k]; [lia|].
  rewrite !Nat2Z.inj_succ, !Z.pow_succ_r in Hn by lia.
  pose proof (Z.pow_pos_nonneg 10 (Z.of_nat k)).
  destruct (Z.ltb_spec n 10); [lia|].
  assert (k < length (dec_digits f (n / 10)))%nat; [|lia]. apply IH.
  split; [apply Z.div_le_lower_bound; lia | apply Z.div_lt_upper_bound; lia].
Qed.

Lemma dec_length_lower k n :
  0 <= n -> 10 ^ Z.of_nat k <= n < 10 ^ 20 -> (k < length (dec n))%nat.
Proof. intros H0 Hn. rewrite dec_nonneg by lia. by apply dec_digits_length_lower. Qed.

#[global] Arguments dec_digits : simpl never.
#[global] Arguments dec : simpl never.

(** *** Reading the fields of a space-separated line

    The buffer is [pre ++ field ++ post]: [pre] has been tokenised, the saved
    position is its end.  Each lemma runs one field through [strtok] and hands
    the rest [k] the buffer in which the field is terminated. *)

Lemma strtok_field pre s post :
  s <> [] -> Forall (tok_byte 32) s ->
  strtok 32 (pre ++ s ++ 32 :: post) (length pre) =
  Ok (Some (length pre), (pre ++ s ++ [0]) ++ post, length (pre ++ s ++ [0])).
Proof.
  intros Hne Hs. rewrite strtok_delim by (done || lia).
  do 2 f_equal; [f_equal|].
  - by rewrite <- !app_assoc.
  - rewrite !length_app. simpl. lia.
Qed.

Lemma cstr_at_field pre s post :
  Forall (tok_byte 32) s -> cstr_at ((pre ++ s ++ [0]) ++ post) (length pre) = Ok s.
Proof.
  intros Hs. unfold cstr_at. rewrite <- !app_assoc, drop_app_length. simpl.
  apply cstr_app. by eapply tok_byte_nonzero.
Qed.

(** The string at [length pre] of a buffer whose later part has changed. *)
Lemma cstr_at_field_later pre s post :
  Forall (tok_byte 32) s -> cstr_at (pre ++ s ++ 0 :: post) (length pre) = Ok s.
Proof.
  intros Hs. unfold cstr_at. rewrite drop_app_length.
  apply cstr_app. by eapply tok_byte_nonzero.
Qed.

Section Fields.
Context {B : Type}.

(** A field that reads as [n]. *)
Lemma text_field (k : Z -> list Z -> nat -> outcome B) pre t n post :
  t <> [] -> Forall (tok_byte 32) t -> atoi t = n ->
  ('(t, buf, sv) ← strtok 32 (pre ++ t ++ 32 :: post) (length pre);
   v ← atoi_at buf t; k v buf sv) =
  k n ((pre ++ t ++ [0]) ++ post) (length (pre ++ t ++ [0])).
Proof.
  intros Hne Ht Hn. rewrite strtok_field by done. cbn -[atoi]. rewrite cstr_at_field by done.
  cbn -[atoi]. by rewrite Hn.
Qed.

Lemma num_field (k : Z -> list Z -> nat -> outcome B) pre n post :
  0 <= n < 2147483648 ->
  ('(t, buf, sv) ← strtok 32 (pre ++ dec n ++ 32 :: post) (length pre);
   v ← atoi_at buf t; k v buf sv) =
  k n ((pre ++ dec n ++ [0]) ++ post) (length (pre ++ dec n ++ [0])).
Proof.
  intros Hn. by apply text_field; [apply dec_nonempty|apply dec_tok_byte|apply atoi_dec_nonneg].
Qed.

Lemma num_field_last (k : Z -> list Z -> nat -> outcome B) pre n post :
  0 <= n < 2147483648 ->
  ('(t, buf, sv) ← strtok 32 (pre ++ dec n ++ 0 :: post) (length pre);
   v ← atoi_at buf t; k v buf sv) =
  k n (pre ++ dec n ++ 0 :: post) (length pre + length (dec n))%nat.
Proof.
  intros Hn. rewrite strtok_last by auto using dec_nonempty, dec_tok_byte.
  cbn -[dec atoi]. rewrite cstr_at_field_later by apply dec_tok_byte.
  cbn -[dec atoi]. by rewrite atoi_dec_nonneg.
Qed.

(** A number whose token goes on with other bytes, up to a delimiter or NUL. *)
Lemma num_field_junk (k : Z -> list Z -> nat -> outcome B) pre n junk e post :
  0 <= n < 2147483648 -> no_digit_first junk -> Forall (tok_byte 32) junk -> e = 32 \/ e = 0 ->
  exists buf sv,
  ('(t, buf, sv) ← strtok 32 (pre ++ (dec n ++ junk) ++ e :: post) (length pre);
   v ← atoi_at buf t; k v buf sv) = k n buf sv /\ buf = pre ++ (dec n ++ junk) ++ 0 :: post.
Proof.
  intros Hn Hj Hb He. assert (Forall (tok_byte 32) (dec n ++ junk)) as Ht.
  { apply Forall_app. split; [apply dec_tok_byte|done]. }
  assert (dec n ++ junk <> []) as Hne. { intros [H _]%app_nil. by apply (dec_nonempty n). }
  rewrite strtok_scan by done. destruct He as [-> | ->]; cbn [Z.eqb mbind outcome_bind];
    unfold atoi_at; rewrite cstr_at_field_later by done; cbn [mbind outcome_bind];
    rewrite atoi_dec_stop by done; eauto.
Qed.

(** Everything up to the first delimiter or NUL. *)
Lemma split_token l :
  0 ∈ l -> exists junk e post, l = junk ++ e :: post /\ Forall (tok_byte 32) junk /\ (e = 32 \/ e = 0).
Proof.
  induction l as [|c l IH]; [by intros ?%elem_of_nil|]. intros Hin.
  destruct (decide (c = 32 \/ c = 0)) as [Hc|Hc].
  { exists [], c, l. split; [done|]. split; [constructor|done]. }
  apply elem_of_cons in Hin as [<-|Hin]; [destruct Hc; auto|]. destruct (IH Hin) as (j & e & post & -> & Hj & He).
  exists (c :: j), e, post. split; [done|]. split; [constructor; [split; tauto|done]|done].
Qed.

(** The bytes up to the first space or NUL. *)
Fixpoint stray (l : list Z) : list Z :=
  match l with
  | [] => []
  | c :: l' => if (c =? 32) || (c =? 0) then [] else c :: stray l'
  end.

Lemma stray_split l :
  0 ∈ l -> exists e post, l = stray l ++ e :: post /\ Forall (tok_byte 32) (stray l) /\ (e = 32 \/ e = 0).
Proof.
  intros (junk & e & post & -> & Hj & He)%split_token. exists e, post.
  assert (stray (junk ++ e :: post) = junk) as ->; [|done].
  induction Hj as [|c junk [H0 H32] _ IH]; simpl.
  - destruct He as [-> | ->]; done.
  - destruct (Z.eqb_spec c 32), (Z.eqb_spec c 0); try lia. simpl. by rewrite IH.
Qed.

(** [strtok] overwrites delimiters with NUL and nothing else. *)
Lemma strtok_keeps d buf s t buf' sv :
  strtok d buf s = Ok (t, buf', sv) ->
  length buf' = length buf /\ forall i, buf !! i = Some 0 -> buf' !! i = Some 0.
Proof.
  unfold strtok. intros H. repeat (case_match; simplify_eq); split; try done.
  all: rewrite ?length_insert; try done.
  all: intros i Hi; destruct (decide (i = (s + spn d (drop s buf) + n)%nat)) as [->|];
    [rewrite list_lookup_insert_eq; [done|by eapply lookup_lt_Some]|by rewrite list_lookup_insert_ne by congruence].
Qed.

Lemma str_field (k : option nat -> list Z -> nat -> outcome B) pre s post :
  s <> [] -> Forall (tok_byte 32) s ->
  ('(t, buf, sv) ← strtok 32 (pre ++ s ++ 32 :: post) (length pre); k t buf sv) =
  k (Some (length pre)) ((pre ++ s ++ [0]) ++ post) (length (pre ++ s ++ [0])).
Proof. intros Hne Hs. by rewrite strtok_field. Qed.

Lemma str_field_last (k : option nat -> list Z -> nat -> outcome B) pre s post :
  s <> [] -> Forall (tok_byte 32) s ->
  ('(t, buf, sv) ← strtok 32 (pre ++ s ++ 0 :: post) (length pre); k t buf sv) =
  k (Some (length pre)) (pre ++ s ++ 0 :: post) (length pre + length s)%nat.
Proof. intros Hne Hs. by rewrite strtok_last. Qed.

End Fields.
