(* ===== verification/Js.v ===== *)
(** * JavaScript values

    The part of the language the web tier uses: strings as byte lists,
    binary64 numbers (the executable semantics of the standard library),
    [toString], string concatenation, [ToNumber] of a string, loose equality
    and [parseInt].  A [TypeError] is [Crash]. *)

From Stdlib Require Import SpecFloat.
From S2P Require Import Prelude CString.

(** ** Numbers *)

Definition fdiv : spec_float -> spec_float -> spec_float := SFdiv 53 1024.
Definition fmul : spec_float -> spec_float -> spec_float := SFmul 53 1024.
Definition of_Z (z : Z) : spec_float := binary_normalize 53 1024 z 0 false.

(** The double nearest to [m * 10 ^ e]. *)
Definition of_decimal (neg : bool) (m : Z) (e : Z) : spec_float :=
  match m with
  | Zpos p =>
      if 0 <=? e then
        let v := Zpos p * 10 ^ e in
        binary_normalize 53 1024 (if neg then - v else v) 0 false
      else
        match 10 ^ (- e) with
        | Zpos q => fdiv (S754_finite neg p 0) (S754_finite false q 0)
        | _ => S754_nan
        end
  | _ => S754_zero neg
  end.

(** Truncation towards zero; [None] for NaN and the infinities. *)
Definition trunc (f : spec_float) : option Z :=
  match f with
  | S754_zero _ => Some 0
  | S754_finite s m e => Some ((if s then -1 else 1) * Z.shiftl (Zpos m) e)
  | _ => None
  end.

(** ** ToNumber of a string *)

Definition strip (s : list Z) : list Z := rev (skip_spaces (rev (skip_spaces s))).

(** The leading decimal digits: their value, their number, and the rest. *)
Fixpoint digits (acc : Z) (n : Z) (s : list Z) : Z * Z * list Z :=
  match s with
  | c :: s' => if is_digit c then digits (10 * acc + (c - 48)) (n + 1) s' else (acc, n, s)
  | [] => (acc, n, [])
  end.

Definition hex_val (c : Z) : option Z :=
  if is_digit c then Some (c - 48)
  else if (97 <=? c) && (c <=? 102) then Some (c - 87)
  else if (65 <=? c) && (c <=? 70) then Some (c - 55) else None.

Fixpoint radix_digits (b acc : Z) (s : list Z) : option Z :=
  match s with
  | [] => Some acc
  | c :: s' =>
      match hex_val c with
      | Some d => if d <? b then radix_digits b (b * acc + d) s' else None
      | None => None
      end
  end.

(** An optional exponent that ends the literal. *)
Definition exponent (s : list Z) : option Z :=
  match s with
  | [] => Some 0
  | c :: s' =>
      if (c =? 101) || (c =? 69) then
        let '(neg, s') := match s' with
          | 43 :: t => (false, t) | 45 :: t => (true, t) | _ => (false, s') end in
        match digits 0 0 s' with
        | (e, n, []) => if n =? 0 then None else Some (if neg then - e else e)
        | _ => None
        end
      else None
  end.

Definition unsigned_decimal (neg : bool) (s : list Z) : spec_float :=
  if bool_decide (s = bytes "Infinity") then S754_infinity neg
  else
    let '(m, n, s) := digits 0 0 s in
    let '(m, n, k, s) := match s with
      | 46 :: s' => let '(m', n', s'') := digits m 0 s' in (m', n + n', n', s'')
      | _ => (m, n, 0, s)
      end in
    if n =? 0 then S754_nan
    else match exponent s with
         | Some e => of_decimal neg m (e - k)
         | None => S754_nan
         end.

Definition prefixed (b : Z) (s : list Z) : spec_float :=
  match s with
  | [] => S754_nan
  | _ => match radix_digits b 0 s with Some v => of_Z v | None => S754_nan end
  end.

Definition to_number (s : list Z) : spec_float :=
  match strip s with
  | [] => S754_zero false
  | 48 :: 120 :: t | 48 :: 88 :: t => prefixed 16 t
  | 48 :: 111 :: t | 48 :: 79 :: t => prefixed 8 t
  | 48 :: 98 :: t | 48 :: 66 :: t => prefixed 2 t
  | 43 :: t => unsigned_decimal false t
  | 45 :: t => unsigned_decimal true t
  | t => unsigned_decimal false t
  end.

(** ** Values

    The numbers the web tier turns into text are integers. *)

Inductive jsval :=
| JUndefined
| JNull
| JBool (b : bool)
| JNum (n : Z)
| JStr (s : list Z).

#[export] Instance jsval_eq_dec : EqDecision jsval.
Proof. solve_decision. Defined.

Definition show (v : jsval) : list Z :=
  match v with
  | JUndefined => bytes "undefined"
  | JNull => bytes "null"
  | JBool b => bytes (if b then "true" else "false")
  | JNum n => dec n
  | JStr s => s
  end.

(** [v.toString()]. *)
Definition toString (v : jsval) : outcome (list Z) :=
  match v with JUndefined | JNull => Crash | _ => Ok (show v) end.

(** [a + b] where one of the two is a string. *)
Definition concat_js (a b : jsval) : list Z := show a ++ show b.

(** Booleans compare as numbers. *)
Definition unbool (v : jsval) : jsval := match v with JBool b => JNum (b2z b) | _ => v end.

(** [a == b]. *)
Definition loose_eq (a b : jsval) : bool :=
  match unbool a, unbool b with
  | (JUndefined | JNull), (JUndefined | JNull) => true
  | JStr s, JStr t => bool_decide (s = t)
  | JNum n, JNum m => n =? m
  | JNum n, JStr s | JStr s, JNum n => SFeqb (of_Z n) (to_number s)
  | _, _ => false
  end.

(** [parseInt(s)] of a string; [None] is NaN. *)
Definition parseInt (s : list Z) : option Z :=
  let s := skip_spaces s in
  let '(neg, s) := match s with 45 :: t => (true, t) | 43 :: t => (false, t) | _ => (false, s) end in
  let sign v : Z := if neg then - v else v in
  match s with
  | 48 :: 120 :: t | 48 :: 88 :: t =>
      let fix go acc n t := match t with
        | c :: t' => match hex_val c with Some d => go (16 * acc + d) (S n) t' | None => (acc, n) end
        | [] => (acc, n) end in
      match go 0 O t with (_, O) => None | (v, _) => Some (sign v) end
  | _ => match digits 0 0 s with (v, n, _) => if n =? 0 then None else Some (sign v) end
  end.

(** ** Lemmas *)

Lemma loose_eq_str s t : loose_eq (JStr s) (JStr t) = bool_decide (s = t).
Proof. done. Qed.

Lemma digits_dec acc n s :
  Forall (fun c => is_digit c = true) s ->
  digits acc n s = (digits_val acc s, n + Z.of_nat (length s), []).
Proof.
  intros Hs. revert acc n. induction Hs as [|c s Hc _ IH]; intros acc n; simpl.
  - by rewrite Z.add_0_r.
  - rewrite Hc, IH. f_equal. f_equal. lia.
Qed.

(** The decimal form of a number is read back. *)
Lemma parseInt_dec n : 0 <= n < 2147483648 -> parseInt (dec n) = Some n.
Proof.
  intros Hn. pose proof (atoi_dec_nonneg n Hn) as Hval. rewrite dec_nonneg in * by lia.
  pose proof (dec_digits_digit 20 n) as Hd. pose proof (dec_digits_nonempty 19 n) as Hne.
  pose proof (dec_digits_val 20 n) as Hdv.
  assert (digits 0 0 (dec_digits 20 n) = (n, Z.of_nat (length (dec_digits 20 n)), [])) as Hdig
    by (rewrite digits_dec, Hdv by (done || (simpl; lia)); done).
  destruct (dec_digits 20 n) as [|c s] eqn:E; [done|]. unfold parseInt.
  pose proof Hd as [Hc Hs]%Forall_cons.
  assert (is_space c = false) as Hsp.
  { unfold is_space, is_digit in *. zdecide_in Hc; try done. zdecide; simpl; lia. }
  cbn [skip_spaces]. rewrite Hsp.
  assert (c <> 43 /\ c <> 45) as [? ?] by (split; apply digit_not; (done || lia)).
  replace (match c :: s with 45 :: t => (true, t) | 43 :: t => (false, t) | _ => (false, c :: s) end)
    with (false, c :: s).
  2: { repeat (case_match; try done); lia. }
  assert (match s with 120 :: _ | 88 :: _ => False | _ => True end) as Hx.
  { destruct s as [|d s]; [done|]. apply Forall_cons in Hs as [Hd' _].
    assert (d <> 120 /\ d <> 88) by (split; apply digit_not; (done || lia)).
    repeat (case_match; try done); lia. }
  rewrite Hdig. cbn [length]. destruct (Z.eqb_spec (Z.of_nat (S (length s))) 0); [lia|].
  repeat (case_match; try done).
Qed.
