(* ===== verification/JsArray.v ===== *)
(** * JavaScript integers and typed arrays

    The arithmetic of the video decoder: shifts and bit operations on 32-bit
    integers, reads of a typed array that give [undefined] outside it ([None],
    which arithmetic turns into NaN and the bit operations into 0), writes that
    are ignored there, the clamped array of the picture planes and its 32-bit
    view on a little-endian machine. *)

From S2P Require Import Prelude.

(** A number that may be [undefined] or NaN. *)
Abbreviation num := (option Z).

Definition nadd (a b : num) : num :=
  match a, b with Some x, Some y => Some (x + y) | _, _ => None end.

(** ToInt32. *)
Definition int (a : num) : Z := s32 (default 0 a).

(** [a >> k] and [a << k], for [0 <= k < 32]. *)
Definition shr (a : Z) (k : Z) : Z := Z.shiftr (s32 a) k.
Definition shl (a : Z) (k : Z) : Z := s32 (Z.shiftl (s32 a) k).

(** ** Typed arrays *)

Definition tget (a : list Z) (i : Z) : num := if 0 <=? i then a !! Z.to_nat i else None.
Definition tset (a : list Z) (i v : Z) : list Z :=
  if (0 <=? i) && (i <? Z.of_nat (length a)) then aset a i v else a.

(** What an element of a [Uint8ClampedArray] makes of an integer. *)
Definition clamp8 (v : Z) : Z := if 255 <? v then 255 else if v <? 0 then 0 else v.

(** [view32[i] = v], four bytes of the underlying buffer. *)
Definition put32 (a : list Z) (i v : Z) : list Z :=
  if (0 <=? i) && (4 * i + 3 <? Z.of_nat (length a)) then
    let v := u32 v in
    aset (aset (aset (aset a (4 * i) (v mod 256)) (4 * i + 1) (v / 256 mod 256))
               (4 * i + 2) (v / 65536 mod 256)) (4 * i + 3) (v / 16777216 mod 256)
  else a.

(** [a.subarray(b, e)], for offsets that are not negative. *)
Definition subarray (a : list Z) (b e : Z) : list Z :=
  take (Z.to_nat (e - b)) (drop (Z.to_nat b) a).

(** [a.set(src, off)]: a RangeError when it does not fit. *)
Definition set_at (a src : list Z) (off : Z) : outcome (list Z) :=
  if (0 <=? off) && (off + Z.of_nat (length src) <=? Z.of_nat (length a)) then
    Ok (take (Z.to_nat off) a ++ src ++ drop (Z.to_nat off + length src) a)
  else Crash.

Definition byte (x : Z) : Prop := 0 <= x < 256.
#[export] Instance byte_dec x : Decision (byte x) := _.

(** ** Lemmas *)

Create HintDb js.

Lemma shr_small a k : -2147483648 <= a < 2147483648 -> shr a k = Z.shiftr a k.
Proof. intros. unfold shr. by rewrite s32_small. Qed.

Lemma shr_div a k : -2147483648 <= a < 2147483648 -> 0 <= k -> shr a k = a / 2 ^ k.
Proof. intros. rewrite shr_small by done. by rewrite Z.shiftr_div_pow2. Qed.

Lemma shl_small a k :
  0 <= k -> -2147483648 <= a < 2147483648 -> -2147483648 <= a * 2 ^ k < 2147483648 ->
  shl a k = a * 2 ^ k.
Proof.
  intros. unfold shl. rewrite (s32_small a), Z.shiftl_mul_pow2 by done. by apply s32_small.
Qed.

Lemma clamp8_byte v : byte (clamp8 v).
Proof. unfold clamp8, byte. zdecide; lia. Qed.

Lemma clamp8_id v : byte v -> clamp8 v = v.
Proof. unfold clamp8, byte. zdecide; lia. Qed.

(** Disjoint bits add up. *)
Lemma lor_shift_add v k b :
  0 <= k -> 0 <= b < 2 ^ k -> Z.lor (v * 2 ^ k) b = v * 2 ^ k + b.
Proof.
  intros Hk Hb.
  assert (Z.land (v * 2 ^ k) b = 0) as Hd.
  { apply Z.bits_inj'. intros n Hn. rewrite Z.land_spec, Z.testbit_0_l.
    destruct (Z.lt_ge_cases n k).
    - by rewrite Z.mul_pow2_bits_low by lia.
    - destruct (Z.eq_dec b 0) as [->|]; [by rewrite Z.testbit_0_l, andb_false_r|].
      assert (Z.log2 b < k) by (apply Z.log2_lt_pow2; lia).
      rewrite (Z.bits_above_log2 b n) by lia. apply andb_false_r. }
  by rewrite <- Z.lxor_lor, <- Z.add_nocarry_lxor by done.
Qed.

Lemma tget_in a i : 0 <= i < Z.of_nat (length a) -> tget a i = Some (aget a i).
Proof.
  intros Hi. unfold tget, aget. destruct (Z.leb_spec 0 i); [|lia].
  destruct (lookup_lt_is_Some_2 a (Z.to_nat i)) as [x ->]; [lia|]. done.
Qed.

Lemma tget_out a i : i < 0 \/ Z.of_nat (length a) <= i -> tget a i = None.
Proof.
  intros Hi. unfold tget. destruct (Z.leb_spec 0 i); [|done].
  apply lookup_ge_None_2. lia.
Qed.

Lemma tget_byte a i x : Forall byte a -> tget a i = Some x -> byte x.
Proof.
  unfold tget. intros Ha Hx. destruct (0 <=? i); [|done].
  by eapply Forall_lookup_1 in Hx.
Qed.

Lemma aget_byte a i : Forall byte a -> byte (aget a i).
Proof.
  intros Ha. unfold aget. destruct (a !! Z.to_nat i) eqn:E; cbn; [|done].
  by eapply Forall_lookup_1 in E.
Qed.

Lemma length_tset a i v : length (tset a i v) = length a.
Proof. unfold tset. case_match; [apply length_aset|done]. Qed.

Lemma length_put32 a i v : length (put32 a i v) = length a.
Proof. unfold put32. case_match; [by rewrite !length_aset|done]. Qed.

Lemma aset_byte a i v : Forall byte a -> byte v -> Forall byte (aset a i v).
Proof. intros. by apply Forall_insert. Qed.

Lemma tset_byte a i v : Forall byte a -> byte v -> Forall byte (tset a i v).
Proof. intros. unfold tset. case_match; [by apply aset_byte|done]. Qed.

Lemma put32_byte a i v : Forall byte a -> Forall byte (put32 a i v).
Proof.
  intros. unfold put32. case_match; [|done].
  repeat apply aset_byte; [done|..]; apply Z.mod_pos_bound; lia.
Qed.

Lemma aget_tset_eq a i v : 0 <= i < Z.of_nat (length a) -> aget (tset a i v) i = v.
Proof.
  intros. unfold tset. destruct (Z.leb_spec 0 i), (Z.ltb_spec i (Z.of_nat (length a)));
    try lia. by apply aget_aset_eq.
Qed.

Lemma aget_tset_ne a i j v : 0 <= j -> i <> j -> aget (tset a i v) j = aget a j.
Proof.
  intros. unfold tset. destruct (Z.leb_spec 0 i); cbn; [|done].
  case_match; [|done]. apply aget_aset_ne; lia.
Qed.

(** The four bytes of a word. *)
Lemma word_bytes b0 b1 b2 b3 v :
  byte b0 -> byte b1 -> byte b2 -> byte b3 ->
  u32 v = b0 + 256 * b1 + 65536 * b2 + 16777216 * b3 ->
  u32 v mod 256 = b0 /\ u32 v / 256 mod 256 = b1 /\ u32 v / 65536 mod 256 = b2 /\
  u32 v / 16777216 mod 256 = b3.
Proof.
  unfold byte. intros H0 H1 H2 H3 ->. repeat split.
  - symmetry. apply Z.mod_unique with (q := b1 + 256 * b2 + 65536 * b3); lia.
  - replace ((_ + 16777216 * b3) / 256) with (b1 + 256 * b2 + 65536 * b3).
    + symmetry. apply Z.mod_unique with (q := b2 + 256 * b3); lia.
    + apply Z.div_unique with (r := b0); lia.
  - replace ((_ + 16777216 * b3) / 65536) with (b2 + 256 * b3).
    + symmetry. apply Z.mod_unique with (q := b3); lia.
    + apply Z.div_unique with (r := b0 + 256 * b1); lia.
  - replace ((_ + 16777216 * b3) / 16777216) with b3.
    + apply Z.mod_small. lia.
    + apply Z.div_unique with (r := b0 + 256 * b1 + 65536 * b2); lia.
Qed.

Lemma put32_get a i v b0 b1 b2 b3 j :
  0 <= i -> 4 * i + 3 < Z.of_nat (length a) ->
  byte b0 -> byte b1 -> byte b2 -> byte b3 ->
  u32 v = b0 + 256 * b1 + 65536 * b2 + 16777216 * b3 -> 0 <= j ->
  aget (put32 a i v) j =
    if j =? 4 * i then b0 else if j =? 4 * i + 1 then b1
    else if j =? 4 * i + 2 then b2 else if j =? 4 * i + 3 then b3 else aget a j.
Proof.
  intros Hi Hl H0 H1 H2 H3 Hv Hj.
  destruct (word_bytes b0 b1 b2 b3 v) as (E0 & E1 & E2 & E3); [done..|].
  unfold put32. destruct (Z.leb_spec 0 i), (Z.ltb_spec (4 * i + 3) (Z.of_nat (length a)));
    try lia. cbn [andb]. rewrite E0, E1, E2, E3.
  zdecide; subst; try lia;
    repeat first [ rewrite aget_aset_eq by (rewrite ?length_aset; lia)
                 | rewrite aget_aset_ne by lia ]; done.
Qed.

(** ** Blocks in a plane

    Which offsets from the corner ([c], [r]) of a block of [B] by [B] pixels, in a
    plane [w] pixels wide, are in the block. *)
Lemma block_offset B w x y r c :
  0 < B -> 0 <= c -> c + B <= w -> 0 <= x < w ->
  (r * w + c <=? y * w + x) && (y * w + x <? r * w + c + B * w) &&
    ((y * w + x - (r * w + c)) mod w <? B) =
  (r <=? y) && (y <? r + B) && (c <=? x) && (x <? c + B).
Proof.
  intros HB Hc Hw Hx.
  destruct (Z.leb_spec c x) as [Hcx|Hcx].
  - assert ((y * w + x - (r * w + c)) mod w = x - c) as ->.
    { symmetry. apply Z.mod_unique with (q := y - r); lia. }
    rewrite andb_true_r. destruct (Z.ltb_spec (x - c) B), (Z.ltb_spec x (c + B));
      try lia. rewrite !andb_true_r.
    zdecide; cbn; try done; nia.
  - assert ((y * w + x - (r * w + c)) mod w = x - c + w) as ->.
    { symmetry. apply Z.mod_unique with (q := y - r - 1); lia. }
    destruct (Z.ltb_spec (x - c + w) B); [lia|]. by rewrite !andb_false_r.
Qed.

#[export] Hint Resolve clamp8_byte aset_byte tset_byte put32_byte aget_byte : js.

Ltac decide_bytes := apply (bool_decide_eq_true_1 _); vm_compute; reflexivity.
