(* ===== verification/MpegTables.v ===== *)
(** * Tables of the video decoder (public/lib/jsmpg.js)

    The constants of the MPEG-1 decoder, and next to each variable-length
    table the list of codewords its comments document.  A table is an array of
    triples: where to go on a 0, where to go on a 1, and the decoded value of a
    triple that starts with two zeros; -1 is the link of a code that does not
    exist. *)

From Stdlib Require Import Ascii.
From S2P Require Import Prelude.

(** ** Constants *)

Definition PICTURE_TYPE_I : Z := 1.
Definition PICTURE_TYPE_P : Z := 2.
Definition PICTURE_TYPE_B : Z := 3.
Definition START_SEQUENCE : Z := 179.
Definition START_SLICE_FIRST : Z := 1.
Definition START_SLICE_LAST : Z := 175.
Definition START_PICTURE : Z := 0.
Definition START_EXTENSION : Z := 181.
Definition START_USER_DATA : Z := 178.

(** Pictures in 1000 seconds. *)
Definition PICTURE_RATE : list Z :=
  [0; 23976; 24000; 25000; 29970; 30000; 50000; 59940;
   60000; 0; 0; 0; 0; 0; 0; 0].

Definition ZIG_ZAG : list Z :=
  [0; 1; 8; 16; 9; 2; 3; 10; 17; 24; 32; 25; 18; 11; 4; 5;
   12; 19; 26; 33; 40; 48; 41; 34; 27; 20; 13; 6; 7; 14; 21; 28;
   35; 42; 49; 56; 57; 50; 43; 36; 29; 22; 15; 23; 30; 37; 44; 51;
   58; 59; 52; 45; 38; 31; 39; 46; 53; 60; 61; 54; 47; 55; 62; 63].

Definition DEFAULT_INTRA_QUANT_MATRIX : list Z :=
  [8; 16; 19; 22; 26; 27; 29; 34; 16; 16; 22; 24; 27; 29; 34; 37;
   19; 22; 26; 27; 29; 34; 34; 38; 22; 22; 26; 27; 29; 34; 37; 40;
   22; 26; 27; 29; 32; 35; 40; 48; 26; 27; 29; 32; 35; 40; 48; 58;
   26; 27; 29; 34; 38; 46; 56; 69; 27; 29; 35; 38; 46; 56; 69; 83].

Definition DEFAULT_NON_INTRA_QUANT_MATRIX : list Z :=
  [16; 16; 16; 16; 16; 16; 16; 16; 16; 16; 16; 16; 16; 16; 16; 16;
   16; 16; 16; 16; 16; 16; 16; 16; 16; 16; 16; 16; 16; 16; 16; 16;
   16; 16; 16; 16; 16; 16; 16; 16; 16; 16; 16; 16; 16; 16; 16; 16;
   16; 16; 16; 16; 16; 16; 16; 16; 16; 16; 16; 16; 16; 16; 16; 16].

Definition PREMULTIPLIER_MATRIX : list Z :=
  [32; 44; 42; 38; 32; 25; 17; 9; 44; 62; 58; 52; 44; 35; 24; 12;
   42; 58; 55; 49; 42; 33; 23; 12; 38; 52; 49; 44; 38; 30; 20; 10;
   32; 44; 42; 38; 32; 25; 17; 9; 25; 35; 33; 30; 25; 20; 14; 7;
   17; 24; 23; 20; 17; 14; 9; 5; 9; 12; 12; 10; 9; 7; 5; 2].

Definition MACROBLOCK_ADDRESS_INCREMENT : list Z :=
  [1*3; 2*3; 0;  3*3; 4*3; 0;  0; 0; 1;  5*3; 6*3; 0;  7*3; 8*3; 0;  9*3; 10*3; 0;
   11*3; 12*3; 0;  0; 0; 3;  0; 0; 2;  13*3; 14*3; 0;  15*3; 16*3; 0;  0; 0; 5;  0; 0; 4;
   17*3; 18*3; 0;  19*3; 20*3; 0;  0; 0; 7;  0; 0; 6;  21*3; 22*3; 0;  23*3; 24*3; 0;
   25*3; 26*3; 0;  27*3; 28*3; 0;  -1; 29*3; 0;  -1; 30*3; 0;  31*3; 32*3; 0;
   33*3; 34*3; 0;  35*3; 36*3; 0;  37*3; 38*3; 0;  0; 0; 9;  0; 0; 8;  39*3; 40*3; 0;
   41*3; 42*3; 0;  43*3; 44*3; 0;  45*3; 46*3; 0;  0; 0; 15;  0; 0; 14;  0; 0; 13;
   0; 0; 12;  0; 0; 11;  0; 0; 10;  47*3; -1; 0;  -1; 48*3; 0;  49*3; 50*3; 0;
   51*3; 52*3; 0;  53*3; 54*3; 0;  55*3; 56*3; 0;  57*3; 58*3; 0;  59*3; 60*3; 0;
   61*3; -1; 0;  -1; 62*3; 0;  63*3; 64*3; 0;  65*3; 66*3; 0;  67*3; 68*3; 0;
   69*3; 70*3; 0;  71*3; 72*3; 0;  73*3; 74*3; 0;  0; 0; 21;  0; 0; 20;  0; 0; 19;
   0; 0; 18;  0; 0; 17;  0; 0; 16;  0; 0; 35;  0; 0; 34;  0; 0; 33;  0; 0; 32;  0; 0; 31;
   0; 0; 30;  0; 0; 29;  0; 0; 28;  0; 0; 27;  0; 0; 26;  0; 0; 25;  0; 0; 24;  0; 0; 23;
   0; 0; 22].

Definition MACROBLOCK_TYPE_I : list Z :=
  [1*3; 2*3; 0;  -1; 3*3; 0;  0; 0; 1;  0; 0; 17].

Definition MACROBLOCK_TYPE_P : list Z :=
  [1*3; 2*3; 0;  3*3; 4*3; 0;  0; 0; 10;  5*3; 6*3; 0;  0; 0; 2;  7*3; 8*3; 0;  0; 0; 8;
   9*3; 10*3; 0;  11*3; 12*3; 0;  -1; 13*3; 0;  0; 0; 18;  0; 0; 26;  0; 0; 1;  0; 0; 17].

Definition MACROBLOCK_TYPE_B : list Z :=
  [1*3; 2*3; 0;  3*3; 5*3; 0;  4*3; 6*3; 0;  8*3; 7*3; 0;  0; 0; 12;  9*3; 10*3; 0;
   0; 0; 14;  13*3; 14*3; 0;  12*3; 11*3; 0;  0; 0; 4;  0; 0; 6;  18*3; 16*3; 0;
   15*3; 17*3; 0;  0; 0; 8;  0; 0; 10;  -1; 19*3; 0;  0; 0; 1;  20*3; 21*3; 0;  0; 0; 30;
   0; 0; 17;  0; 0; 22;  0; 0; 26].

Definition CODE_BLOCK_PATTERN : list Z :=
  [2*3; 1*3; 0;  3*3; 6*3; 0;  4*3; 5*3; 0;  8*3; 11*3; 0;  12*3; 13*3; 0;  9*3; 7*3; 0;
   10*3; 14*3; 0;  20*3; 19*3; 0;  18*3; 16*3; 0;  23*3; 17*3; 0;  27*3; 25*3; 0;
   21*3; 28*3; 0;  15*3; 22*3; 0;  24*3; 26*3; 0;  0; 0; 60;  35*3; 40*3; 0;  44*3; 48*3; 0;
   38*3; 36*3; 0;  42*3; 47*3; 0;  29*3; 31*3; 0;  39*3; 32*3; 0;  0; 0; 32;  45*3; 46*3; 0;
   33*3; 41*3; 0;  43*3; 34*3; 0;  0; 0; 4;  30*3; 37*3; 0;  0; 0; 8;  0; 0; 16;  0; 0; 44;
   50*3; 56*3; 0;  0; 0; 28;  0; 0; 52;  0; 0; 62;  61*3; 59*3; 0;  52*3; 60*3; 0;  0; 0; 1;
   55*3; 54*3; 0;  0; 0; 61;  0; 0; 56;  57*3; 58*3; 0;  0; 0; 2;  0; 0; 40;  51*3; 62*3; 0;
   0; 0; 48;  64*3; 63*3; 0;  49*3; 53*3; 0;  0; 0; 20;  0; 0; 12;  80*3; 83*3; 0;
   0; 0; 63;  77*3; 75*3; 0;  65*3; 73*3; 0;  84*3; 66*3; 0;  0; 0; 24;  0; 0; 36;  0; 0; 3;
   69*3; 87*3; 0;  81*3; 79*3; 0;  68*3; 71*3; 0;  70*3; 78*3; 0;  67*3; 76*3; 0;
   72*3; 74*3; 0;  86*3; 85*3; 0;  88*3; 82*3; 0;  -1; 94*3; 0;  95*3; 97*3; 0;  0; 0; 33;
   0; 0; 9;  106*3; 110*3; 0;  102*3; 116*3; 0;  0; 0; 5;  0; 0; 10;  93*3; 89*3; 0;
   0; 0; 6;  0; 0; 18;  0; 0; 17;  0; 0; 34;  113*3; 119*3; 0;  103*3; 104*3; 0;
   90*3; 92*3; 0;  109*3; 107*3; 0;  117*3; 118*3; 0;  101*3; 99*3; 0;  98*3; 96*3; 0;
   100*3; 91*3; 0;  114*3; 115*3; 0;  105*3; 108*3; 0;  112*3; 111*3; 0;  121*3; 125*3; 0;
   0; 0; 41;  0; 0; 14;  0; 0; 21;  124*3; 122*3; 0;  120*3; 123*3; 0;  0; 0; 11;  0; 0; 19;
   0; 0; 7;  0; 0; 35;  0; 0; 13;  0; 0; 50;  0; 0; 49;  0; 0; 58;  0; 0; 37;  0; 0; 25;
   0; 0; 45;  0; 0; 57;  0; 0; 26;  0; 0; 29;  0; 0; 38;  0; 0; 53;  0; 0; 23;  0; 0; 43;
   0; 0; 46;  0; 0; 42;  0; 0; 22;  0; 0; 54;  0; 0; 51;  0; 0; 15;  0; 0; 30;  0; 0; 39;
   0; 0; 47;  0; 0; 55;  0; 0; 27;  0; 0; 59;  0; 0; 31].

Definition MOTION : list Z :=
  [1*3; 2*3; 0;  4*3; 3*3; 0;  0; 0; 0;  6*3; 5*3; 0;  8*3; 7*3; 0;  0; 0; -1;  0; 0; 1;
   9*3; 10*3; 0;  12*3; 11*3; 0;  0; 0; 2;  0; 0; -2;  14*3; 15*3; 0;  16*3; 13*3; 0;
   20*3; 18*3; 0;  0; 0; 3;  0; 0; -3;  17*3; 19*3; 0;  -1; 23*3; 0;  27*3; 25*3; 0;
   26*3; 21*3; 0;  24*3; 22*3; 0;  32*3; 28*3; 0;  29*3; 31*3; 0;  -1; 33*3; 0;
   36*3; 35*3; 0;  0; 0; -4;  30*3; 34*3; 0;  0; 0; 4;  0; 0; -7;  0; 0; 5;  37*3; 41*3; 0;
   0; 0; -5;  0; 0; 7;  38*3; 40*3; 0;  42*3; 39*3; 0;  0; 0; -6;  0; 0; 6;  51*3; 54*3; 0;
   50*3; 49*3; 0;  45*3; 46*3; 0;  52*3; 47*3; 0;  43*3; 53*3; 0;  44*3; 48*3; 0;  0; 0; 10;
   0; 0; 9;  0; 0; 8;  0; 0; -8;  57*3; 66*3; 0;  0; 0; -9;  60*3; 64*3; 0;  56*3; 61*3; 0;
   55*3; 62*3; 0;  58*3; 63*3; 0;  0; 0; -10;  59*3; 65*3; 0;  0; 0; 12;  0; 0; 16;
   0; 0; 13;  0; 0; 14;  0; 0; 11;  0; 0; 15;  0; 0; -16;  0; 0; -12;  0; 0; -14;
   0; 0; -15;  0; 0; -11;  0; 0; -13].

Definition DCT_DC_SIZE_LUMINANCE : list Z :=
  [2*3; 1*3; 0;  6*3; 5*3; 0;  3*3; 4*3; 0;  0; 0; 1;  0; 0; 2;  9*3; 8*3; 0;  7*3; 10*3; 0;
   0; 0; 0;  12*3; 11*3; 0;  0; 0; 4;  0; 0; 3;  13*3; 14*3; 0;  0; 0; 5;  0; 0; 6;
   16*3; 15*3; 0;  17*3; -1; 0;  0; 0; 7;  0; 0; 8].

Definition DCT_DC_SIZE_CHROMINANCE : list Z :=
  [2*3; 1*3; 0;  4*3; 3*3; 0;  6*3; 5*3; 0;  8*3; 7*3; 0;  0; 0; 2;  0; 0; 1;  0; 0; 0;
   10*3; 9*3; 0;  0; 0; 3;  12*3; 11*3; 0;  0; 0; 4;  14*3; 13*3; 0;  0; 0; 5;
   16*3; 15*3; 0;  0; 0; 6;  17*3; -1; 0;  0; 0; 7;  0; 0; 8].

Definition DCT_COEFF : list Z :=
  [1*3; 2*3; 0;  4*3; 3*3; 0;  0; 0; 1;  7*3; 8*3; 0;  6*3; 5*3; 0;  13*3; 9*3; 0;
   11*3; 10*3; 0;  14*3; 12*3; 0;  0; 0; 257;  20*3; 22*3; 0;  18*3; 21*3; 0;
   16*3; 19*3; 0;  0; 0; 513;  17*3; 15*3; 0;  0; 0; 2;  0; 0; 3;  27*3; 25*3; 0;
   29*3; 31*3; 0;  24*3; 26*3; 0;  32*3; 30*3; 0;  0; 0; 1025;  23*3; 28*3; 0;  0; 0; 769;
   0; 0; 258;  0; 0; 1793;  0; 0; 65535;  0; 0; 1537;  37*3; 36*3; 0;  0; 0; 1281;
   35*3; 34*3; 0;  39*3; 38*3; 0;  33*3; 42*3; 0;  40*3; 41*3; 0;  52*3; 50*3; 0;
   54*3; 53*3; 0;  48*3; 49*3; 0;  43*3; 45*3; 0;  46*3; 44*3; 0;  0; 0; 2049;  0; 0; 4;
   0; 0; 514;  0; 0; 2305;  51*3; 47*3; 0;  55*3; 57*3; 0;  60*3; 56*3; 0;  59*3; 58*3; 0;
   61*3; 62*3; 0;  0; 0; 2561;  0; 0; 3329;  0; 0; 6;  0; 0; 259;  0; 0; 5;  0; 0; 770;
   0; 0; 2817;  0; 0; 3073;  76*3; 75*3; 0;  67*3; 70*3; 0;  73*3; 71*3; 0;  78*3; 74*3; 0;
   72*3; 77*3; 0;  69*3; 64*3; 0;  68*3; 63*3; 0;  66*3; 65*3; 0;  81*3; 87*3; 0;
   91*3; 80*3; 0;  82*3; 79*3; 0;  83*3; 86*3; 0;  93*3; 92*3; 0;  84*3; 85*3; 0;
   90*3; 94*3; 0;  88*3; 89*3; 0;  0; 0; 515;  0; 0; 260;  0; 0; 7;  0; 0; 1026;
   0; 0; 1282;  0; 0; 4097;  0; 0; 3841;  0; 0; 3585;  105*3; 107*3; 0;  111*3; 114*3; 0;
   104*3; 97*3; 0;  125*3; 119*3; 0;  96*3; 98*3; 0;  -1; 123*3; 0;  95*3; 101*3; 0;
   106*3; 121*3; 0;  99*3; 102*3; 0;  113*3; 103*3; 0;  112*3; 116*3; 0;  110*3; 100*3; 0;
   124*3; 115*3; 0;  117*3; 122*3; 0;  109*3; 118*3; 0;  120*3; 108*3; 0;  127*3; 136*3; 0;
   139*3; 140*3; 0;  130*3; 126*3; 0;  145*3; 146*3; 0;  128*3; 129*3; 0;  0; 0; 2050;
   132*3; 134*3; 0;  155*3; 154*3; 0;  0; 0; 8;  137*3; 133*3; 0;  143*3; 144*3; 0;
   151*3; 138*3; 0;  142*3; 141*3; 0;  0; 0; 10;  0; 0; 9;  0; 0; 11;  0; 0; 5377;
   0; 0; 1538;  0; 0; 771;  0; 0; 5121;  0; 0; 1794;  0; 0; 4353;  0; 0; 4609;  0; 0; 4865;
   148*3; 152*3; 0;  0; 0; 1027;  153*3; 150*3; 0;  0; 0; 261;  131*3; 135*3; 0;  0; 0; 516;
   149*3; 147*3; 0;  172*3; 173*3; 0;  162*3; 158*3; 0;  170*3; 161*3; 0;  168*3; 166*3; 0;
   157*3; 179*3; 0;  169*3; 167*3; 0;  174*3; 171*3; 0;  178*3; 177*3; 0;  156*3; 159*3; 0;
   164*3; 165*3; 0;  183*3; 182*3; 0;  175*3; 176*3; 0;  0; 0; 263;  0; 0; 2562;
   0; 0; 2306;  0; 0; 5633;  0; 0; 5889;  0; 0; 6401;  0; 0; 6145;  0; 0; 1283;  0; 0; 772;
   0; 0; 13;  0; 0; 12;  0; 0; 14;  0; 0; 15;  0; 0; 517;  0; 0; 6657;  0; 0; 262;
   180*3; 181*3; 0;  160*3; 163*3; 0;  196*3; 199*3; 0;  0; 0; 27;  203*3; 185*3; 0;
   202*3; 201*3; 0;  0; 0; 19;  0; 0; 22;  197*3; 207*3; 0;  0; 0; 18;  191*3; 192*3; 0;
   188*3; 190*3; 0;  0; 0; 20;  184*3; 194*3; 0;  0; 0; 21;  186*3; 193*3; 0;  0; 0; 23;
   204*3; 198*3; 0;  0; 0; 25;  0; 0; 24;  200*3; 205*3; 0;  0; 0; 31;  0; 0; 30;  0; 0; 28;
   0; 0; 29;  0; 0; 26;  0; 0; 17;  0; 0; 16;  189*3; 206*3; 0;  187*3; 195*3; 0;
   218*3; 211*3; 0;  0; 0; 37;  215*3; 216*3; 0;  0; 0; 36;  210*3; 212*3; 0;  0; 0; 34;
   213*3; 209*3; 0;  221*3; 222*3; 0;  219*3; 208*3; 0;  217*3; 214*3; 0;  223*3; 220*3; 0;
   0; 0; 35;  0; 0; 267;  0; 0; 40;  0; 0; 268;  0; 0; 266;  0; 0; 32;  0; 0; 264;
   0; 0; 265;  0; 0; 38;  0; 0; 269;  0; 0; 270;  0; 0; 33;  0; 0; 39;  0; 0; 7937;
   0; 0; 6913;  0; 0; 7681;  0; 0; 4098;  0; 0; 7425;  0; 0; 7169;  0; 0; 271;  0; 0; 274;
   0; 0; 273;  0; 0; 272;  0; 0; 1539;  0; 0; 2818;  0; 0; 3586;  0; 0; 3330;  0; 0; 3074;
   0; 0; 3842].

(** The table of the macroblock types of a picture; [null] for the others. *)
Definition MACROBLOCK_TYPE_TABLES (pictureCodingType : Z) : list Z :=
  if pictureCodingType =? 1 then MACROBLOCK_TYPE_I
  else if pictureCodingType =? 2 then MACROBLOCK_TYPE_P
  else if pictureCodingType =? 3 then MACROBLOCK_TYPE_B else [].

(** ** The documented codewords *)

Definition MACROBLOCK_ADDRESS_INCREMENT_codes : list (string * Z) :=
  [("1", 1); ("010", 3); ("011", 2); ("0010", 5); ("0011", 4); ("00010", 7); ("00011", 6);
   ("0000110", 9); ("0000111", 8); ("00000110", 15); ("00000111", 14); ("00001000", 13);
   ("00001001", 12); ("00001010", 11); ("00001011", 10); ("0000010010", 21);
   ("0000010011", 20); ("0000010100", 19); ("0000010101", 18); ("0000010110", 17);
   ("0000010111", 16); ("00000001000", 35); ("00000001111", 34); ("00000011000", 33);
   ("00000011001", 32); ("00000011010", 31); ("00000011011", 30); ("00000011100", 29);
   ("00000011101", 28); ("00000011110", 27); ("00000011111", 26); ("00000100000", 25);
   ("00000100001", 24); ("00000100010", 23); ("00000100011", 22)].

Definition MACROBLOCK_TYPE_I_codes : list (string * Z) :=
  [("1", 1); ("01", 17)].

Definition MACROBLOCK_TYPE_P_codes : list (string * Z) :=
  [("1", 10); ("01", 2); ("001", 8); ("00001", 18); ("00010", 26); ("00011", 1);
   ("000001", 17)].

Definition MACROBLOCK_TYPE_B_codes : list (string * Z) :=
  [("10", 12); ("11", 14); ("010", 4); ("011", 6); ("0010", 8); ("0011", 10);
   ("00011", 1); ("00010", 30); ("000001", 17); ("000010", 22); ("000011", 26)].

Definition CODE_BLOCK_PATTERN_codes : list (string * Z) :=
  [("111", 60); ("1010", 32); ("1101", 4); ("1100", 8); ("1011", 16); ("01110", 44);
   ("01111", 28); ("01101", 52); ("01000", 62); ("01011", 1); ("01010", 61);
   ("01100", 56); ("01001", 2); ("10000", 40); ("10010", 48); ("10001", 20);
   ("10011", 12); ("001100", 63); ("001111", 24); ("001110", 36); ("001101", 3);
   ("0010100", 33); ("0010110", 9); ("0010111", 5); ("0010010", 10); ("0010011", 6);
   ("0010001", 18); ("0010101", 17); ("0010000", 34); ("00011000", 41); ("00010111", 14);
   ("00011001", 21); ("00011110", 11); ("00011101", 19); ("00011111", 7);
   ("00011100", 35); ("00011011", 13); ("00010110", 50); ("00011010", 49);
   ("00000100", 58); ("00001110", 37); ("00001111", 25); ("00001010", 45);
   ("00001000", 57); ("00001101", 26); ("00001011", 29); ("00001100", 38);
   ("00001001", 53); ("00010001", 23); ("00010000", 43); ("00000110", 46);
   ("00010100", 42); ("00010101", 22); ("00000101", 54); ("00010010", 51);
   ("00010011", 15); ("00000111", 30); ("000000010", 39); ("000000110", 47);
   ("000000101", 55); ("000000011", 27); ("000000100", 59); ("000000111", 31)].

Definition MOTION_codes : list (string * Z) :=
  [("1", 0); ("011", (-1)); ("010", 1); ("0010", 2); ("0011", (-2)); ("00010", 3);
   ("00011", (-3)); ("0000111", (-4)); ("0000110", 4); ("00000111", (-7));
   ("00001010", 5); ("00001011", (-5)); ("00000110", 7); ("00001001", (-6));
   ("00001000", 6); ("0000010010", 10); ("0000010100", 9); ("0000010110", 8);
   ("0000010111", (-8)); ("0000010101", (-9)); ("0000010011", (-10)); ("00000100000", 12);
   ("00000011000", 16); ("00000011110", 13); ("00000011100", 14); ("00000100010", 11);
   ("00000011010", 15); ("00000011001", (-16)); ("00000100001", (-12));
   ("00000011101", (-14)); ("00000011011", (-15)); ("00000100011", (-11));
   ("00000011111", (-13))].

Definition DCT_DC_SIZE_LUMINANCE_codes : list (string * Z) :=
  [("00", 1); ("01", 2); ("100", 0); ("110", 4); ("101", 3); ("1110", 5); ("11110", 6);
   ("111110", 7); ("1111110", 8)].

Definition DCT_DC_SIZE_CHROMINANCE_codes : list (string * Z) :=
  [("10", 2); ("01", 1); ("00", 0); ("110", 3); ("1110", 4); ("11110", 5); ("111110", 6);
   ("1111110", 7); ("11111110", 8)].

Definition DCT_COEFF_codes : list (string * Z) :=
  [("1", 1); ("011", 257); ("0101", 513); ("0100", 2); ("00101", 3); ("00110", 1025);
   ("00111", 769); ("000110", 258); ("000100", 1793); ("000001", 65535); ("000101", 1537);
   ("000111", 1281); ("0000111", 2049); ("0000110", 4); ("0000100", 514);
   ("0000101", 2305); ("00100111", 2561); ("00100000", 3329); ("00100001", 6);
   ("00100101", 259); ("00100110", 5); ("00100100", 770); ("00100011", 2817);
   ("00100010", 3073); ("0000001011", 515); ("0000001100", 260); ("0000001010", 7);
   ("0000001111", 1026); ("0000001001", 1282); ("0000001000", 4097); ("0000001101", 3841);
   ("0000001110", 3585); ("000000010001", 2050); ("000000011101", 8);
   ("000000010011", 10); ("000000011000", 9); ("000000010000", 11);
   ("000000010110", 5377); ("000000011110", 1538); ("000000011100", 771);
   ("000000010111", 5121); ("000000010101", 1794); ("000000011111", 4353);
   ("000000011010", 4609); ("000000011001", 4865); ("000000010010", 1027);
   ("000000011011", 261); ("000000010100", 516); ("0000000010101", 263);
   ("0000000010000", 2562); ("0000000010001", 2306); ("0000000011111", 5633);
   ("0000000011110", 5889); ("0000000011100", 6401); ("0000000011101", 6145);
   ("0000000010010", 1283); ("0000000010011", 772); ("0000000011001", 13);
   ("0000000011010", 12); ("0000000011000", 14); ("0000000010111", 15);
   ("0000000010100", 517); ("0000000011011", 6657); ("0000000010110", 262);
   ("00000000010100", 27); ("00000000011100", 19); ("00000000011001", 22);
   ("00000000011101", 18); ("00000000011011", 20); ("00000000011010", 21);
   ("00000000011000", 23); ("00000000010110", 25); ("00000000010111", 24);
   ("00000000010000", 31); ("00000000010001", 30); ("00000000010011", 28);
   ("00000000010010", 29); ("00000000010101", 26); ("00000000011110", 17);
   ("00000000011111", 16); ("000000000010011", 37); ("000000000010100", 36);
   ("000000000010110", 34); ("000000000010101", 35); ("000000000011100", 267);
   ("000000000010000", 40); ("000000000011011", 268); ("000000000011101", 266);
   ("000000000011000", 32); ("000000000011111", 264); ("000000000011110", 265);
   ("000000000010010", 38); ("000000000011010", 269); ("000000000011001", 270);
   ("000000000010111", 33); ("000000000010001", 39); ("0000000000011011", 7937);
   ("0000000000011111", 6913); ("0000000000011100", 7681); ("0000000000010101", 4098);
   ("0000000000011101", 7425); ("0000000000011110", 7169); ("0000000000010011", 271);
   ("0000000000010000", 274); ("0000000000010001", 273); ("0000000000010010", 272);
   ("0000000000010100", 1539); ("0000000000011010", 2818); ("0000000000010111", 3586);
   ("0000000000011000", 3330); ("0000000000011001", 3074); ("0000000000010110", 3842)].

Definition bits_of (w : string) : list bool :=
  (fun c => bool_decide (c = "1"%char)) <$> String.list_ascii_of_string w.

Definition tables : list (list Z * list (string * Z)) :=
  [(MACROBLOCK_ADDRESS_INCREMENT, MACROBLOCK_ADDRESS_INCREMENT_codes);
   (MACROBLOCK_TYPE_I, MACROBLOCK_TYPE_I_codes);
   (MACROBLOCK_TYPE_P, MACROBLOCK_TYPE_P_codes);
   (MACROBLOCK_TYPE_B, MACROBLOCK_TYPE_B_codes);
   (CODE_BLOCK_PATTERN, CODE_BLOCK_PATTERN_codes);
   (MOTION, MOTION_codes);
   (DCT_DC_SIZE_LUMINANCE, DCT_DC_SIZE_LUMINANCE_codes);
   (DCT_DC_SIZE_CHROMINANCE, DCT_DC_SIZE_CHROMINANCE_codes);
   (DCT_COEFF, DCT_COEFF_codes)].
