(* ===== verification/BitReader.v ===== *)
(** * The bit reader and the variable-length codes (public/lib/jsmpg.js)

    [BitReader], the search for start codes and [readCode].  The reader is
    specified by the sequence of bits of the buffer, most significant first,
    where a bit past the end of the buffer reads as 0; the codes by the list of
    codewords the tables document. *)

From coqutil Require Import Datatypes.RecordSettersUsingExistingGetters.
From S2P Require Import Prelude JsArray MpegTables.

(** ** The reader *)

Record reader := Reader { store : list Z; writePos : Z; index : Z }.

(** [new BitReader(buffer)]. *)
Definition new_reader (buf : list Z) : reader := Reader buf (Z.of_nat (length buf)) 0.

Definition byte_at (r : reader) (i : Z) : num := tget (store r) i.

Definition NOT_FOUND : Z := -1.

Definition prefix_at (r : reader) (i : Z) : bool :=
  bool_decide (byte_at r i = Some 0) && bool_decide (byte_at r (i + 1) = Some 0) &&
  bool_decide (byte_at r (i + 2) = Some 1).

Fixpoint scan (n : nat) (r : reader) (i : Z) : option Z :=
  match n with
  | O => None
  | S n' => if prefix_at r i then Some i else scan n' r (i + 1)
  end.

(** The code is [undefined] when it lies past the end of the buffer. *)
Definition findNextMPEGStartCode (r : reader) : num * reader :=
  let i := shr (index r + 7) 3 in
  match scan (Z.to_nat (writePos r - i)) r i with
  | Some i => (byte_at r (i + 3), r <| index := shl (i + 4) 3 |>)
  | None => (Some NOT_FOUND, r <| index := shl (writePos r) 3 |>)
  end.

Definition nextBytesAreStartCode (r : reader) : bool :=
  let i := shr (index r + 7) 3 in
  (writePos r <=? i) || prefix_at r i.

(** The whole bytes in the middle of a field. *)
Fixpoint middle (n : nat) (r : reader) (byteOffset value : Z) : Z :=
  match n with
  | O => value
  | S n' => middle n' r (byteOffset + 1) (Z.lor (shl value 8) (int (byte_at r byteOffset)))
  end.

Definition nextBits (r : reader) (count : Z) : Z :=
  let byteOffset := shr (index r) 3 in
  let room := 8 - Z.rem (index r) 8 in
  if count <=? room then
    Z.land (shr (int (byte_at r byteOffset)) (room - count)) (shr 255 (8 - count))
  else
    let leftover := Z.rem (index r + count) 8 in
    let last := shr (index r + count - 1) 3 in
    let value := Z.land (int (byte_at r byteOffset)) (shr 255 (8 - room)) in
    let value := middle (Z.to_nat (last - (byteOffset + 1))) r (byteOffset + 1) value in
    let byteOffset := Z.max (byteOffset + 1) last in
    if 0 <? leftover then
      Z.lor (shl value leftover) (shr (int (byte_at r byteOffset)) (8 - leftover))
    else Z.lor (shl value 8) (int (byte_at r byteOffset)).

Definition advance (r : reader) (count : Z) : reader := r <| index := index r + count |>.
Definition rewind (r : reader) (count : Z) : reader := r <| index := index r - count |>.

Definition getBits (r : reader) (count : Z) : Z * reader := (nextBits r count, advance r count).

(** ** Codes

    The [do ... while] of [readCode]; [None] when it is still running after
    [fuel] bits, an [undefined] state or value is [None] inside. *)
Fixpoint follow (fuel : nat) (codeTable : list Z) (state : Z) (r : reader) : option (num * reader) :=
  match fuel with
  | O => None
  | S fuel' =>
      let '(b, r) := getBits r 1 in
      match tget codeTable (state + b) with
      | None => Some (None, r)
      | Some state =>
          if (0 <=? state) && negb (bool_decide (tget codeTable state = Some 0))
          then follow fuel' codeTable state r
          else Some (tget codeTable (state + 2), r)
      end
  end.

Definition readCode (codeTable : list Z) (r : reader) : option (num * reader) :=
  follow (length codeTable) codeTable 0 r.

(** [findStartCode(code)]: each turn moves on, so the bytes left bound them. *)
Fixpoint findStartCode_loop (fuel : nat) (code : Z) (r : reader) : option (num * reader) :=
  match fuel with
  | O => None
  | S fuel' =>
      let '(current, r) := findNextMPEGStartCode r in
      if bool_decide (current = Some code) || bool_decide (current = Some NOT_FOUND)
      then Some (current, r)
      else findStartCode_loop fuel' code r
  end.
Definition findStartCode (code : Z) (r : reader) : option (num * reader) :=
  findStartCode_loop (S (length (store r))) code r.

(** ** The bits of a buffer *)

Definition bit (buf : list Z) (k : Z) : bool :=
  Z.testbit (default 0 (tget buf (k / 8))) (7 - k mod 8).

(** The number written by the [n] bits from bit [i] on. *)
Fixpoint value (buf : list Z) (i : Z) (n : nat) : Z :=
  match n with
  | O => 0
  | S n' => 2 * value buf i n' + b2z (bit buf (i + Z.of_nat n'))
  end.

Lemma b2z_range b : 0 <= b2z b <= 1.
Proof. destruct b; cbn; lia. Qed.

Lemma value_range buf i n : 0 <= value buf i n < 2 ^ Z.of_nat n.
Proof.
  induction n as [|n IH]; [cbn; lia|]. rewrite Nat2Z.inj_succ, Z.pow_succ_r by lia.
  cbn [value]. pose proof (b2z_range (bit buf (i + Z.of_nat n))). lia.
Qed.

Lemma value_app buf i n m :
  value buf i (n + m) = value buf i n * 2 ^ Z.of_nat m + value buf (i + Z.of_nat n) m.
Proof.
  induction m as [|m IH]; [rewrite Nat.add_0_r; cbn; lia|].
  rewrite Nat.add_succ_r, Nat2Z.inj_succ, Z.pow_succ_r by lia. cbn [value].
  rewrite IH, Nat2Z.inj_add, Z.add_assoc. lia.
Qed.

(** A field inside one byte. *)
Definition field (x s : Z) (n : nat) : Z :=
  Z.land (shr x (8 - s - Z.of_nat n)) (shr 255 (8 - Z.of_nat n)).

Fixpoint byte_value (x s : Z) (n : nat) : Z :=
  match n with
  | O => 0
  | S n' => 2 * byte_value x s n' + b2z (Z.testbit x (7 - (s + Z.of_nat n')))
  end.

Lemma byte_value_field x s n :
  byte x -> 0 <= s -> s + Z.of_nat n <= 8 -> byte_value x s n = field x s n.
Proof.
  intros Hx Hs Hn.
  assert (all_below 9 (fun s => all_below 9 (fun n =>
    all_below 256 (fun x => (8 <? s + n) || (byte_value x s (Z.to_nat n) =? field x s (Z.to_nat n)))))
    = true) as Hall by (vm_compute; reflexivity).
  apply (all_below_spec _ _ s) in Hall; [|lia].
  apply (all_below_spec _ _ (Z.of_nat n)) in Hall; [|lia].
  apply (all_below_spec _ _ x) in Hall; [|unfold byte in *; lia].
  rewrite Nat2Z.id in Hall. destruct (Z.ltb_spec 8 (s + Z.of_nat n)); [lia|].
  by apply Z.eqb_eq.
Qed.

Lemma value_in_byte buf q s n :
  0 <= s -> s + Z.of_nat n <= 8 ->
  value buf (8 * q + s) n = byte_value (default 0 (tget buf q)) s n.
Proof.
  intros Hs. induction n as [|n IH]; intros Hn; [done|]. cbn [value byte_value].
  rewrite IH by lia. unfold bit.
  replace ((8 * q + s + Z.of_nat n) / 8) with q
    by (apply Z.div_unique with (r := s + Z.of_nat n); lia).
  replace ((8 * q + s + Z.of_nat n) mod 8) with (s + Z.of_nat n)
    by (apply Z.mod_unique with (q := q); lia).
  done.
Qed.

Definition wf_reader (r : reader) : Prop :=
  Forall byte (store r) /\ 0 <= index r < 2147483000.

Lemma int_byte r i :
  Forall byte (store r) -> int (byte_at r i) = default 0 (tget (store r) i) /\
  byte (default 0 (tget (store r) i)).
Proof.
  intros Hr. unfold int, byte_at. destruct (tget (store r) i) as [x|] eqn:E; cbn.
  - apply tget_byte in E; [|done]. split; [|done]. unfold byte in E. apply s32_small. lia.
  - done.
Qed.

Lemma byte_field r q s n :
  Forall byte (store r) -> 0 <= s -> s + Z.of_nat n <= 8 ->
  field (int (byte_at r q)) s n = value (store r) (8 * q + s) n.
Proof.
  intros Hr Hs Hn. destruct (int_byte r q Hr) as [-> Hb].
  by rewrite value_in_byte, byte_value_field.
Qed.

Lemma field_whole x : byte x -> field x 0 8 = x.
Proof. apply (byte_ind (fun x => field x 0 8 = x)). vm_compute. reflexivity. Qed.

Lemma field_top x n :
  byte x -> (n <= 8)%nat -> field x 0 n = shr x (8 - Z.of_nat n).
Proof.
  intros Hx Hn.
  assert (all_below 9 (fun n => all_below 256 (fun x =>
    field x 0 (Z.to_nat n) =? shr x (8 - n))) = true) as Hall by (vm_compute; reflexivity).
  apply (all_below_spec _ _ (Z.of_nat n)) in Hall; [|lia].
  apply (all_below_spec _ _ x) in Hall; [|done]. rewrite Nat2Z.id in Hall. by apply Z.eqb_eq.
Qed.

(** Reading on into the first [m] bits of byte [q]. *)
Lemma append_field r i k q m :
  Forall byte (store r) -> i + Z.of_nat k = 8 * q -> (m <= 8)%nat -> (k + m <= 31)%nat ->
  Z.lor (shl (value (store r) i k) (Z.of_nat m)) (field (int (byte_at r q)) 0 m) =
  value (store r) i (k + m).
Proof.
  intros Hr Hi Hm Hkm. rewrite value_app, Hi. replace (8 * q) with (8 * q + 0) by lia.
  rewrite <- (byte_field r q 0 m) by (done || lia).
  pose proof (value_range (store r) i k) as Hv. set (v := value (store r) i k) in *.
  assert (2 ^ Z.of_nat k * 2 ^ Z.of_nat m <= 2147483648) as Hpow.
  { rewrite <- Z.pow_add_r by lia. change 2147483648 with (2 ^ 31).
    apply Z.pow_le_mono_r; lia. }
  assert (0 < 2 ^ Z.of_nat m) by (apply Z.pow_pos_nonneg; lia).
  assert (v * 2 ^ Z.of_nat m < 2 ^ Z.of_nat k * 2 ^ Z.of_nat m)
    by (apply Z.mul_lt_mono_pos_r; lia).
  assert (v * 1 <= v * 2 ^ Z.of_nat m) by (apply Z.mul_le_mono_nonneg_l; lia).
  rewrite shl_small by lia. apply lor_shift_add; [lia|].
  rewrite byte_field by (done || lia). apply value_range.
Qed.

Lemma middle_value r n q k i :
  Forall byte (store r) -> i + Z.of_nat k = 8 * q -> (k + 8 * n <= 31)%nat ->
  middle n r q (value (store r) i k) = value (store r) i (k + 8 * n).
Proof.
  intros Hr. revert q k. induction n as [|n IH]; intros q k Hi Hk; cbn [middle].
  { by rewrite Nat.mul_0_r, Nat.add_0_r. }
  replace (k + 8 * S n)%nat with ((k + 8) + 8 * n)%nat by lia.
  rewrite <- (IH (q + 1)), <- (append_field r i k q 8) by (done || lia).
  destruct (int_byte r q Hr) as [-> Hb]. by rewrite field_whole.
Qed.

Lemma head_field r q s :
  Forall byte (store r) -> 0 <= s < 8 ->
  Z.land (int (byte_at r q)) (shr 255 (8 - (8 - s))) =
  value (store r) (8 * q + s) (Z.to_nat (8 - s)).
Proof.
  intros Hr Hs. rewrite <- byte_field by (done || lia). unfold field. rewrite Z2Nat.id by lia.
  replace (8 - s - (8 - s)) with 0 by lia. unfold shr at 2.
  rewrite Z.shiftr_0_r. unfold int. by rewrite (s32_small (s32 _)) by apply s32_range.
Qed.

(** The last bits of a field. *)
Lemma last_field r i k q leftover count :
  Forall byte (store r) -> i + Z.of_nat k = 8 * q -> Z.of_nat k < count <= 31 ->
  count - Z.of_nat k <= 8 -> leftover = (i + count) mod 8 ->
  (if 0 <? leftover then
     Z.lor (shl (value (store r) i k) leftover) (shr (int (byte_at r q)) (8 - leftover))
   else Z.lor (shl (value (store r) i k) 8) (int (byte_at r q))) =
  value (store r) i (Z.to_nat count).
Proof.
  intros Hr Hi Hc Hm ->. set (m := Z.to_nat (count - Z.of_nat k)).
  replace (Z.to_nat count) with (k + m)%nat by lia.
  rewrite <- (append_field r i k q m) by (done || lia).
  destruct (int_byte r q Hr) as [-> Hb].
  pose proof (Z.mod_pos_bound (i + count) 8 ltac:(lia)).
  pose proof (Z.div_mod (i + count) 8 ltac:(lia)).
  destruct (Z.ltb_spec 0 ((i + count) mod 8)).
  - replace ((i + count) mod 8) with (Z.of_nat m) by lia. rewrite field_top by (done || lia). done.
  - replace m with 8%nat by lia. by rewrite field_whole.
Qed.

(** A field of up to 31 bits. *)
Lemma nextBits_value r count :
  wf_reader r -> 0 <= count <= 31 ->
  nextBits r count = value (store r) (index r) (Z.to_nat count).
Proof.
  intros [Hr Hi] Hc. unfold nextBits. set (i := index r) in *.
  set (q := i / 8). set (s := i mod 8).
  assert (i = 8 * q + s) as Hqs by (apply Z.div_mod; lia).
  assert (0 <= s < 8) as Hs by (apply Z.mod_pos_bound; lia).
  rewrite (shr_div i 3), (Z.rem_mod_nonneg i) by lia.
  change (i / 2 ^ 3) with q. change (i mod 8) with s.
  destruct (Z.leb_spec count (8 - s)) as [Hle|Hgt].
  { rewrite Hqs, <- byte_field by (done || lia). unfold field. by rewrite Z2Nat.id by lia. }
  rewrite (shr_div (i + count - 1) 3) by lia. change (2 ^ 3) with 8.
  set (last := (i + count - 1) / 8).
  assert (i + count - 1 = 8 * last + (i + count - 1) mod 8) by (apply Z.div_mod; lia).
  pose proof (Z.mod_pos_bound (i + count - 1) 8 ltac:(lia)).
  rewrite head_field, <- Hqs, middle_value, Z.max_r by (done || lia).
  apply last_field; try done; try lia. rewrite Z.rem_mod_nonneg; lia.
Qed.

(** ** Single bits *)

Lemma getBits_one r :
  wf_reader r -> getBits r 1 = (b2z (bit (store r) (index r)), advance r 1).
Proof.
  intros Hr. unfold getBits. rewrite nextBits_value by (done || lia).
  change (Z.to_nat 1) with 1%nat. cbn [value]. f_equal. rewrite Z.add_0_r. lia.
Qed.

Lemma index_advance r n : index (advance r n) = index r + n.
Proof. done. Qed.
Lemma store_advance r n : store (advance r n) = store r.
Proof. done. Qed.

Lemma advance_advance r a b : advance (advance r a) b = advance r (a + b).
Proof. unfold advance. destruct r; cbn. by rewrite Z.add_assoc. Qed.

Lemma advance_0 r : advance r 0 = r.
Proof. unfold advance. destruct r; cbn. by rewrite Z.add_0_r. Qed.

(** ** Codewords *)

Definition is_end (t : list Z) (state : Z) : bool :=
  negb ((0 <=? state) && negb (bool_decide (tget t state = Some 0))).

(** The value the table gives to the codeword [w]. *)
Fixpoint walk (t : list Z) (state : Z) (w : list bool) : option Z :=
  match w with
  | [] => None
  | b :: w' =>
      match tget t (state + b2z b) with
      | None => None
      | Some state =>
          if is_end t state then
            match w' with [] => tget t (state + 2) | _ => None end
          else walk t state w'
      end
  end.

(** The bits [w] come next. *)
Definition starts (r : reader) (w : list bool) : Prop :=
  forall k b, w !! k = Some b -> bit (store r) (index r + Z.of_nat k) = b.

Lemma starts_cons r b w :
  starts r (b :: w) -> bit (store r) (index r) = b /\ starts (advance r 1) w.
Proof.
  intros Hs. split.
  - rewrite <- (Hs 0%nat b) by done. f_equal. lia.
  - intros k c Hk. rewrite <- (Hs (S k) c) by done. rewrite store_advance, index_advance. f_equal. lia.
Qed.

Lemma starts_app r w1 w2 :
  starts r (w1 ++ w2) <-> starts r w1 /\ starts (advance r (Z.of_nat (length w1))) w2.
Proof.
  revert r. induction w1 as [|b w1 IH]; intros r.
  - cbn [app length]. rewrite advance_0. split; [|by intros [_ ?]].
    intros Hs. split; [|done]. intros k c. by rewrite lookup_nil.
  - cbn [app length]. rewrite Nat2Z.inj_succ. split.
    + intros [Hb [H1 H2]%IH]%starts_cons. rewrite advance_advance in H2.
      replace (1 + Z.of_nat (length w1)) with (Z.succ (Z.of_nat (length w1))) in H2 by lia.
      split; [|done]. intros [|k] c Hk; cbn in Hk.
      { simplify_eq. by rewrite Z.add_0_r. }
      rewrite <- (H1 k c) by done. rewrite store_advance, index_advance. f_equal. lia.
    + intros [H1 H2]. intros [|k] c Hk; [by apply H1|]. cbn in Hk.
      apply lookup_app_Some in Hk as [Hk|[Hle Hk]]; [by apply H1|].
      rewrite <- (H2 (k - length w1)%nat c) by done. rewrite store_advance, index_advance. f_equal. lia.
Qed.

Definition room (r : reader) (n : Z) : Prop :=
  Forall byte (store r) /\ 0 <= index r /\ index r + n < 2147483000.

Lemma room_wf r n : 0 <= n -> room r n -> wf_reader r.
Proof. intros ? (? & ? & ?). split; [done|lia]. Qed.

Lemma room_advance r n m : 0 <= n -> room r (n + m) -> room (advance r n) m.
Proof. intros ? (? & ? & ?). split; [done|]. rewrite index_advance. lia. Qed.

Lemma follow_walk t fuel state w v r :
  walk t state w = Some v -> starts r w -> (length w <= fuel)%nat ->
  room r (Z.of_nat (length w)) ->
  follow fuel t state r = Some (Some v, advance r (Z.of_nat (length w))).
Proof.
  revert fuel state r. induction w as [|b w IH]; intros fuel state r Hw Hs Hf Hr; [done|].
  destruct fuel as [|fuel]; [cbn in Hf; lia|]. cbn [walk] in Hw.
  apply starts_cons in Hs as [Hb Hs]. cbn [follow length] in *.
  rewrite getBits_one, Hb by (apply (room_wf _ _) in Hr; [done|lia]).
  destruct (tget t (state + b2z b)) as [st|]; [|done]. unfold is_end in Hw.
  destruct ((0 <=? st) && negb (bool_decide (tget t st = Some 0))); cbn [negb] in Hw.
  - rewrite (IH fuel st (advance r 1)); [|done|done|lia|].
    + rewrite advance_advance. by replace (1 + Z.of_nat (length w)) with (Z.of_nat (S (length w))) by lia.
    + apply room_advance; [lia|]. by replace (1 + Z.of_nat (length w)) with (Z.of_nat (S (length w))) by lia.
  - destruct w; [|done]. by rewrite Hw.
Qed.

(** Whatever bits come, the code ends after at most [d] of them, with a value
    that satisfies [p]. *)
Fixpoint ends_within (d : nat) (t : list Z) (p : Z -> bool) (state : Z) : bool :=
  match d with
  | O => false
  | S d' =>
      forallb (fun b =>
        match tget t (state + b2z b) with
        | None => false
        | Some state =>
            if is_end t state then
              match tget t (state + 2) with Some v => p v | None => false end
            else ends_within d' t p state
        end) [false; true]
  end.

(** No upper bound on the index is needed for the values to be bits. *)
Definition readable (r : reader) : Prop := Forall byte (store r) /\ 0 <= index r.

Lemma readable_advance r n : readable r -> 0 <= n -> readable (advance r n).
Proof. intros [? ?] ?. split; [done|]. rewrite index_advance. lia. Qed.

(** [r'] is [r] some bits further on. *)
Definition moved (r r' : reader) : Prop := exists n, 0 <= n /\ r' = advance r n.

Lemma moved_advance r n : 0 <= n -> moved r (advance r n).
Proof. intros. by exists n. Qed.

#[export] Instance moved_preorder : PreOrder moved.
Proof.
  split.
  - intros r. exists 0. by rewrite advance_0.
  - intros r1 r2 r3 (n & Hn & ->) (m & Hm & ->). exists (n + m).
    rewrite advance_advance. split; [lia|done].
Qed.

Lemma readable_moved r r' : readable r -> moved r r' -> readable r'.
Proof. intros Hr (n & Hn & ->). by apply readable_advance. Qed.

Lemma follow_moved fuel t state r v r' : follow fuel t state r = Some (v, r') -> moved r r'.
Proof.
  revert state r. induction fuel as [|fuel IH]; intros state r He; [done|].
  cbn [follow getBits] in He. assert (moved r (advance r 1)) by (by apply moved_advance).
  unfold getBits in He. repeat case_match; simplify_eq; try done.
  apply IH in He. by transitivity (advance r 1).
Qed.

Lemma room_readable r n : room r n -> readable r.
Proof. by intros (? & ? & ?). Qed.

Lemma land_mask_range x n :
  0 <= n <= 8 -> 0 <= Z.land x (shr 255 (8 - n)) < 2 ^ n.
Proof.
  intros Hn. apply land_range_r; [lia|]. rewrite shr_div by lia.
  split; [apply Z.div_pos; lia|].
  apply Z.div_lt_upper_bound; [lia|]. rewrite <- Z.pow_add_r by lia.
  replace (8 - n + n) with 8 by lia. lia.
Qed.

Lemma getBits_bit r : readable r -> exists b, getBits r 1 = (b2z b, advance r 1).
Proof.
  intros [Hr Hi]. unfold getBits, nextBits.
  pose proof (Z.rem_bound_pos (index r) 8 Hi ltac:(lia)).
  destruct (Z.leb_spec 1 (8 - Z.rem (index r) 8)); [|lia].
  pose proof (land_mask_range (shr (int (byte_at r (shr (index r) 3))) (8 - Z.rem (index r) 8 - 1)) 1 ltac:(lia)) as Hv.
  set (v := Z.land _ _) in *. exists (v =? 1). f_equal. destruct (Z.eqb_spec v 1); cbn; lia.
Qed.

Lemma nextBits_nonneg r n : readable r -> 0 <= n <= 8 -> 0 <= nextBits r n.
Proof.
  intros [Hr Hi] Hn. unfold nextBits.
  pose proof (Z.rem_bound_pos (index r) 8 Hi ltac:(lia)) as Hrem.
  destruct (Z.leb_spec n (8 - Z.rem (index r) 8)).
  { apply land_mask_range. lia. }
  set (q := shr (index r) 3). set (last := shr (index r + n - 1) 3).
  assert (Z.to_nat (last - (q + 1)) = 0%nat) as ->.
  { subst q last. unfold shr. rewrite !Z.shiftr_div_pow2 by lia. change (2 ^ 3) with 8.
    assert (s32 (index r + n - 1) <= s32 (index r) + (n - 1)).
    { unfold s32. pose proof (Z.mod_le (index r + 2147483648) 4294967296).
      replace (index r + n - 1 + 2147483648) with ((index r + 2147483648) + (n - 1)) by lia.
      rewrite <- Z.add_mod_idemp_l by lia.
      pose proof (Z.mod_le ((index r + 2147483648) mod 4294967296 + (n - 1)) 4294967296
        ltac:(pose proof (Z.mod_pos_bound (index r + 2147483648) 4294967296); lia) ltac:(lia)).
      lia. }
    assert (s32 (index r + n - 1) / 8 <= (s32 (index r) + 1 * 8) / 8) as Hle
      by (apply Z.div_le_mono; lia).
    rewrite Z.div_add in Hle by lia. lia. }
  cbn [middle].
  destruct (int_byte r q Hr) as [-> Hq]. destruct (int_byte r (Z.max (q + 1) last) Hr) as [-> Hl].
  set (x := default 0 (tget (store r) q)) in *. set (z := default 0 (tget (store r) _)) in *.
  pose proof (land_range_u8 x (shr 255 (8 - (8 - Z.rem (index r) 8))) Hq) as Hv.
  set (v := Z.land _ _) in *. unfold byte in *.
  pose proof (Z.rem_bound_pos (index r + n) 8 ltac:(lia) ltac:(lia)).
  assert (forall k, 0 <= k <= 8 -> 0 <= shl v k) as Hshl.
  { intros k Hk. assert (2 ^ k <= 2 ^ 8) by (apply Z.pow_le_mono_r; lia).
    rewrite shl_small by nia. nia. }
  case_match; apply Z.lor_nonneg; (split; [apply Hshl; lia|]); [|lia].
  rewrite shr_div by lia. apply Z.div_pos; lia.
Qed.

Lemma follow_ends t p d fuel state r :
  ends_within d t p state = true -> (d <= fuel)%nat -> readable r ->
  exists v n, follow fuel t state r = Some (Some v, advance r n) /\ 1 <= n <= Z.of_nat d /\
    p v = true.
Proof.
  revert fuel state r. induction d as [|d IH]; intros fuel state r He Hf Hr; [done|].
  destruct fuel as [|fuel]; [lia|]. cbn [follow].
  destruct (getBits_bit r Hr) as [b Hb]. rewrite Hb.
  cbn [ends_within] in He. rewrite forallb_forall in He.
  specialize (He b ltac:(destruct b; cbn; auto)). cbn beta in He.
  destruct (tget t (state + b2z b)) as [st|]; [|done]. unfold is_end in He.
  destruct ((0 <=? st) && negb (bool_decide (tget t st = Some 0))); cbn [negb] in He.
  - destruct (IH fuel st (advance r 1) He) as (v & n & Hv & Hn & Hp);
      [lia|by apply readable_advance|].
    exists v, (1 + n). rewrite Hv, advance_advance. split; [done|]. split; [lia|done].
  - destruct (tget t (st + 2)) as [v|]; [|done]. exists v, 1. split; [done|]. split; [lia|done].
Qed.

(** The tables and their codewords agree. *)
Lemma tables_walk :
  forallb (fun '(t, book) =>
    forallb (fun '(w, v) => bool_decide (walk t 0 (bits_of w) = Some v) &&
                            (length (bits_of w) <=? length t)%nat) book) tables = true.
Proof. vm_compute. reflexivity. Qed.

(** The length of the longest codeword. *)
Definition longest (book : list (String.string * Z)) : nat :=
  foldr Nat.max O ((fun c => String.length (fst c)) <$> book).

Lemma tables_end :
  forallb (fun '(t, book) => ends_within (longest book) t (fun _ => true) 0 &&
    (longest book <=? length t)%nat && (longest book <=? 16)%nat) tables = true.
Proof. vm_compute. reflexivity. Qed.

Lemma length_bits_of w : length (bits_of w) = String.length w.
Proof.
  unfold bits_of. rewrite length_fmap. induction w as [|c w IH]; cbn; [done|by rewrite IH].
Qed.

Lemma words_short :
  forallb (fun '(_, book) => forallb (fun '(w, _) => (String.length w <=? 16)%nat) book) tables
  = true.
Proof. vm_compute. reflexivity. Qed.

Lemma word_short t book w v :
  (t, book) ∈ tables -> (w, v) ∈ book -> (String.length w <= 16)%nat.
Proof.
  intros Ht Hw. apply list_elem_of_In in Ht, Hw.
  pose proof words_short as Hsh. rewrite forallb_forall in Hsh. specialize (Hsh _ Ht).
  cbn beta iota in Hsh. rewrite forallb_forall in Hsh. specialize (Hsh _ Hw).
  by apply Nat.leb_le in Hsh.
Qed.

Lemma readCode_word t book w v r :
  (t, book) ∈ tables -> (w, v) ∈ book -> room r 32 -> starts r (bits_of w) ->
  readCode t r = Some (Some v, advance r (Z.of_nat (String.length w))).
Proof.
  intros Ht Hw Hr Hs. pose proof (word_short t book w v Ht Hw) as Hsh.
  pose proof tables_walk as Hall. rewrite forallb_forall in Hall.
  apply list_elem_of_In in Ht, Hw. specialize (Hall _ Ht). cbn beta iota in Hall.
  rewrite forallb_forall in Hall. specialize (Hall _ Hw). cbn beta iota in Hall.
  apply andb_true_iff in Hall as [Hwalk%bool_decide_eq_true_1 Hlen%Nat.leb_le].
  rewrite <- length_bits_of in *. apply follow_walk; try done.
  destruct Hr as (? & ? & ?). split; [done|lia].
Qed.

(** Whatever comes next, [readCode] returns a number after as many bits as the
    longest codeword at most. *)
Lemma readCode_longest t book r :
  (t, book) ∈ tables -> readable r ->
  exists v n, readCode t r = Some (Some v, advance r n) /\ 1 <= n <= Z.of_nat (longest book) /\
    (longest book <= 16)%nat.
Proof.
  intros Ht Hr. pose proof tables_end as Hall. rewrite forallb_forall in Hall.
  apply list_elem_of_In in Ht. specialize (Hall _ Ht). cbn beta iota in Hall.
  apply andb_true_iff in Hall as [Hall H16%Nat.leb_le]. apply andb_true_iff in Hall as [Hall Hlen%Nat.leb_le].
  destruct (follow_ends t _ _ (length t) 0 r Hall) as (v & n & Hv & Hn & _); [lia|done|].
  exists v, n. split; [done|lia].
Qed.

Lemma readCode_ends t book r :
  (t, book) ∈ tables -> readable r ->
  exists v n, readCode t r = Some (Some v, advance r n) /\ 1 <= n <= 17.
Proof.
  intros Ht Hr. destruct (readCode_longest t book r Ht Hr) as (v & n & E & Hn & Hl).
  exists v, n. split; [done|lia].
Qed.

(** ** Start codes *)

Lemma scan_spec n r i :
  match scan n r i with
  | Some j => i <= j < i + Z.of_nat n /\ prefix_at r j = true /\
              forall k, i <= k < j -> prefix_at r k = false
  | None => forall k, i <= k < i + Z.of_nat n -> prefix_at r k = false
  end.
Proof.
  revert i. induction n as [|n IH]; intros i; cbn [scan]; [lia|].
  destruct (prefix_at r i) eqn:E.
  - split; [lia|]. split; [done|lia].
  - specialize (IH (i + 1)). destruct (scan n r (i + 1)) as [j|].
    + destruct IH as (? & ? & Hk). split; [lia|]. split; [done|].
      intros k Hk'. destruct (Z.eq_dec k i) as [->|]; [done|]. apply Hk. lia.
    + intros k Hk. destruct (Z.eq_dec k i) as [->|]; [done|]. apply IH. lia.
Qed.

(** The first byte a search looks at. *)
Definition from (r : reader) : Z := (index r + 7) / 8.

(** A reader on a buffer of less than 16 megabytes, as many bits as a 32-bit
    index reaches. *)
Definition sized (r : reader) : Prop :=
  Forall byte (store r) /\ 0 <= writePos r <= Z.of_nat (length (store r)) /\
  Z.of_nat (length (store r)) < 16777216 /\ 0 <= index r < 268435456.

Lemma find_spec r :
  sized r ->
  match findNextMPEGStartCode r with
  | (code, r') =>
      (exists i, from r <= i < writePos r /\ prefix_at r i = true /\
         (forall k, from r <= k < i -> prefix_at r k = false) /\
         code = byte_at r (i + 3) /\ r' = r <| index := 8 * (i + 4) |>) \/
      ((forall k, from r <= k < writePos r -> prefix_at r k = false) /\
         code = Some NOT_FOUND /\ r' = r <| index := 8 * writePos r |>)
  end.
Proof.
  intros (Hb & Hw & Hl & Hi). unfold findNextMPEGStartCode.
  rewrite shr_div by lia. change (2 ^ 3) with 8. fold (from r).
  pose proof (scan_spec (Z.to_nat (writePos r - from r)) r (from r)) as Hs.
  assert (0 <= from r) by (apply Z.div_pos; lia).
  destruct (scan _ r (from r)) as [j|].
  - destruct Hs as (Hj & Hp & Hk). left. exists j. rewrite shl_small by lia.
    change (2 ^ 3) with 8. rewrite (Z.mul_comm (j + 4)). split; [lia|]. done.
  - right. rewrite shl_small by lia. change (2 ^ 3) with 8. rewrite (Z.mul_comm (writePos r)).
    split; [|done]. intros k Hk. apply Hs. lia.
Qed.

Lemma sized_index r n : sized r -> 0 <= n < 268435456 -> sized (r <| index := n |>).
Proof. intros (? & ? & ? & ?) ?. done. Qed.

Lemma from_bytes r i : from (r <| index := 8 * i |>) = i.
Proof.
  unfold from. cbn. unfold RecordSettersUsingExistingGetters.const.
  symmetry. apply Z.div_unique with (r := 7); lia.
Qed.

(** [findStartCode] always returns. *)
Lemma findStartCode_ends fuel code r :
  sized r -> writePos r - from r < Z.of_nat fuel -> (0 < fuel)%nat ->
  is_Some (findStartCode_loop fuel code r).
Proof.
  revert r. induction fuel as [|fuel IH]; intros r Hr Hf Hpos; [lia|].
  cbn [findStartCode_loop]. pose proof (find_spec r Hr) as Hs.
  destruct (findNextMPEGStartCode r) as [c r'].
  destruct Hs as [(i & Hi & Hp & _ & -> & ->)|(_ & -> & ->)].
  - case_match; [by eexists|]. destruct Hr as (Hb & Hw & Hl & Hx).
    apply IH; [|rewrite from_bytes; cbn; lia|lia].
    apply sized_index; [done|]. assert (0 <= from r) by (apply Z.div_pos; lia). lia.
  - rewrite (bool_decide_true (Some NOT_FOUND = Some NOT_FOUND)) by done.
    rewrite orb_true_r. by eexists.
Qed.

(** ** Properties *)

(** C19: [getBits] reads the bits of the buffer in order, most significant
    first: for every reader and every width up to 31 bits it returns the number
    those bits write (bits past the end of the buffer being 0) and moves on by
    that many, whichever of the two code paths (inside one byte, across several
    bytes) is taken. *)
Theorem getBits_reads_bits r count :
  wf_reader r -> 0 <= count <= 31 ->
  getBits r count = (value (store r) (index r) (Z.to_nat count), advance r count).
Proof. intros Hr Hc. unfold getBits. by rewrite nextBits_value. Qed.

Definition demo_reader : reader := advance (new_reader [202; 254; 186; 190; 1; 2]) 5.

Lemma getBits_reads_bits_witness :
  getBits demo_reader 22 = (value [202; 254; 186; 190; 1; 2] 5 22, advance demo_reader 22).
Proof.
  apply (getBits_reads_bits demo_reader 22); [|lia].
  split; [decide_bytes|vm_compute; split; [discriminate|reflexivity]].
Defined.

(** C20: in each of the nine tables every documented codeword is decoded: when
    the bits that come next are a codeword of the table, [readCode] returns its
    documented value and consumes exactly that codeword. *)
Theorem codewords_decoded t book w v r :
  (t, book) ∈ tables -> (w, v) ∈ book -> room r 32 -> starts r (bits_of w) ->
  readCode t r = Some (Some v, advance r (Z.of_nat (String.length w))).
Proof. apply readCode_word. Qed.

Definition code_reader : reader := advance (new_reader [1; 93; 255; 255; 255; 255]) 2.

Lemma code_reader_room : room code_reader 32.
Proof.
  split; [decide_bytes|vm_compute; split; [discriminate|reflexivity]].
Qed.

Lemma codewords_decoded_witness :
  readCode DCT_COEFF code_reader = Some (Some 65535, advance code_reader 6).
Proof.
  apply (codewords_decoded DCT_COEFF DCT_COEFF_codes "000001" 65535).
  - by apply list_elem_of_lookup_2 with (i := 8%nat).
  - unfold DCT_COEFF_codes. do 9 right. left.
  - apply code_reader_room.
  - intros k b Hk. do 6 (destruct k as [|k]; [vm_compute in Hk |- *; by simplify_eq|]).
    by vm_compute in Hk.
Defined.

(** C21: whatever the stream contains, a codeword or not, [readCode] returns a
    number on each of the nine tables, after at most as many bits as the longest
    codeword of the table has (and that is 16 bits at most).  The buffer
    holds bytes, and the position is any that is not negative, also behind its
    end. *)
Theorem readCode_terminates t book r :
  (t, book) ∈ tables -> readable r ->
  exists v n, readCode t r = Some (Some v, advance r n) /\ 1 <= n <= Z.of_nat (longest book) /\
    (longest book <= 16)%nat.
Proof. apply readCode_longest. Qed.

Lemma readCode_terminates_witness :
  exists v n, readCode MOTION code_reader = Some (Some v, advance code_reader n) /\ 1 <= n <= 11 /\ (11 <= 16)%nat.
Proof.
  apply (readCode_terminates MOTION MOTION_codes); [by apply list_elem_of_lookup_2 with (i := 5%nat)|].
  apply (room_readable _ 32), code_reader_room.
Defined.
