(* ===== verification/MpegCopy.v ===== *)
(** * Motion compensation (public/lib/jsmpg.js, copyMacroblock)

    The copy of a macroblock from the previous picture, four pixels at a time
    through 32-bit writes, with the four half-pixel interpolations.  It is
    proved to put at each pixel of the block the rounded mean of the one, two
    or four pixels the motion vector points at. *)

From S2P Require Import Prelude JsArray.

(** ** The copy *)

(** [sY[src] + sY[src+width]]. *)
Definition vpair (s : list Z) (width src : Z) : num := nadd (tget s src) (tget s (src + width)).

Definition sum3 (a b : num) (c : Z) : Z := int (nadd (nadd a b) (Some c)).

(** What the loops over a row differ in: the value carried along, how one word
    is put together, and how far the source runs ahead. *)
Record mode := Mode {
  init : Z -> num * Z;
  word : num -> Z -> Z * num * Z;
  ahead : Z }.

Definition top_mask : Z := s32 4278190080.    (* 0xff000000 *)

(** oddH, oddV. *)
Definition mode_hv (s : list Z) (width : Z) : mode :=
  Mode (fun src => (vpair s width src, src + 1))
    (fun y1 src =>
       let y2 := vpair s width src in
       let y := Z.land (shr (sum3 y1 y2 2) 2) 255 in
       let y1 := vpair s width (src + 1) in
       let y := Z.lor y (Z.land (shl (sum3 y1 y2 2) 6) 65280) in
       let y2 := vpair s width (src + 2) in
       let y := Z.lor y (Z.land (shl (sum3 y1 y2 2) 14) 16711680) in
       let y1 := vpair s width (src + 3) in
       let y := Z.lor y (Z.land (shl (sum3 y1 y2 2) 22) top_mask) in
       (y, y1, src + 4)) 1.

(** oddH only. *)
Definition mode_h (s : list Z) : mode :=
  Mode (fun src => (tget s src, src + 1))
    (fun y1 src =>
       let y2 := tget s src in
       let y := Z.land (shr (sum3 y1 y2 1) 1) 255 in
       let y1 := tget s (src + 1) in
       let y := Z.lor y (Z.land (shl (sum3 y1 y2 1) 7) 65280) in
       let y2 := tget s (src + 2) in
       let y := Z.lor y (Z.land (shl (sum3 y1 y2 1) 15) 16711680) in
       let y1 := tget s (src + 3) in
       let y := Z.lor y (Z.land (shl (sum3 y1 y2 1) 23) top_mask) in
       (y, y1, src + 4)) 1.

(** oddV only; nothing is carried along. *)
Definition mode_v (s : list Z) (width : Z) : mode :=
  Mode (fun src => (None, src))
    (fun _ src =>
       let two k := sum3 (tget s (src + k)) (tget s (src + k + width)) 1 in
       let y := Z.land (shr (two 0) 1) 255 in
       let y := Z.lor y (Z.land (shl (two 1) 7) 65280) in
       let y := Z.lor y (Z.land (shl (two 2) 15) 16711680) in
       let y := Z.lor y (Z.land (shl (two 3) 23) top_mask) in
       (y, None, src + 4)) 0.

(** Whole pixels. *)
Definition mode_full (s : list Z) : mode :=
  Mode (fun src => (None, src))
    (fun _ src =>
       let y := int (tget s src) in
       let y := Z.lor y (shl (int (tget s (src + 1))) 8) in
       let y := Z.lor y (shl (int (tget s (src + 2))) 16) in
       let y := Z.lor y (shl (int (tget s (src + 3))) 24) in
       (y, None, src + 4)) 0.

Definition mode_of (oddH oddV : bool) (s : list Z) (width : Z) : mode :=
  if oddH then (if oddV then mode_hv s width else mode_h s)
  else (if oddV then mode_v s width else mode_full s).

Fixpoint copy_words (n : nat) (m : mode) (d : list Z) (dest : Z) (y1 : num) (src : Z)
    : list Z * Z * num * Z :=
  match n with
  | O => (d, dest, y1, src)
  | S n' =>
      let '(y, y1, src) := word m y1 src in
      copy_words n' m (put32 d dest y) (dest + 1) y1 src
  end.

(** [while( dest < last )]; each row moves [dest] on. *)
Fixpoint copy_rows (fuel : nat) (m : mode) (n : nat) (scan dest last src : Z) (d : list Z) : list Z :=
  match fuel with
  | O => d
  | S fuel' =>
      if dest <? last then
        let '(y1, src) := init m src in
        let '(d, dest, y1, src) := copy_words n m d dest y1 src in
        copy_rows fuel' m n scan (dest + shr scan 2) last (src + (scan - ahead m)) d
      else d
  end.

(** One plane: blocks of [2 ^ k] pixels, 16 for the luminance and 8 for the
    chrominance (whose two planes the code copies side by side). *)
Definition copy_plane (k width : Z) (H V : Z) (oddH oddV : bool) (mbRow mbCol : Z)
    (s d : list Z) : list Z :=
  let scan := width - 2 ^ k in
  let src := (shl mbRow k + V) * width + shl mbCol k + H in
  let dest := shl (mbRow * width + mbCol) (k - 2) in
  let last := dest + shl width (k - 2) in
  copy_rows (Z.to_nat (last - dest)) (mode_of oddH oddV s width) (Z.to_nat (2 ^ (k - 2)))
            scan dest last src d.

(** ** The reference *)

Definition mean (l : list num) : Z :=
  match mapM id l with
  | Some l => let n := Z.of_nat (length l) in (foldr Z.add 0 l + n / 2) / n
  | None => 0
  end.

(** The pixel a vector ending at [p] (and half a pixel on) predicts; 0 when it
    uses one outside the picture. *)
Definition predict (oddH oddV : bool) (s : list Z) (width p : Z) : Z :=
  let g i := tget s i in
  match oddH, oddV with
  | true, true => mean [g p; g (p + width); g (p + 1); g (p + 1 + width)]
  | true, false => mean [g p; g (p + 1)]
  | false, true => mean [g p; g (p + width)]
  | false, false => mean [g p]
  end.

(** ** One word *)

Lemma nadd_comm a b : nadd a b = nadd b a.
Proof. destruct a, b; cbn; try done. by rewrite Z.add_comm. Qed.

Lemma sum3_comm a b c : sum3 a b c = sum3 b a c.
Proof. unfold sum3. by rewrite (nadd_comm a b). Qed.

Definition below (n : Z) (a : num) : Prop := match a with Some x => 0 <= x < n | None => True end.

Lemma tget_below s i : Forall byte s -> below 256 (tget s i).
Proof.
  intros Hs. destruct (tget s i) eqn:E; [|done]. by apply tget_byte in E.
Qed.

Lemma vpair_below s w i : Forall byte s -> below 511 (vpair s w i).
Proof.
  intros Hs. unfold vpair.
  pose proof (tget_below s i Hs). pose proof (tget_below s (i + w) Hs).
  destruct (tget s i), (tget s (i + w)); cbn in *; lia || done.
Qed.

Lemma sum3_range a b c n m :
  below n a -> below m b -> 0 <= c -> 0 < n -> 0 < m -> n + m + c <= 1026 ->
  0 <= sum3 a b c <= n + m + c - 2.
Proof.
  unfold sum3, int. destruct a, b; cbn [nadd default from_option below]; intros;
    rewrite s32_small; cbn; lia.
Qed.

Lemma quad_range s w i j :
  Forall byte s -> 0 <= sum3 (vpair s w i) (vpair s w j) 2 < 1024.
Proof.
  intros Hs. pose proof (sum3_range (vpair s w i) (vpair s w j) 2 511 511
    (vpair_below s w i Hs) (vpair_below s w j Hs)). lia.
Qed.

Lemma two_range s i j : Forall byte s -> 0 <= sum3 (tget s i) (tget s j) 1 < 512.
Proof.
  intros Hs. pose proof (sum3_range (tget s i) (tget s j) 1 256 256
    (tget_below s i Hs) (tget_below s j Hs)). lia.
Qed.

(** The shifts and masks that put a rounded mean in its byte. *)
Lemma quarter_bytes x :
  0 <= x < 1024 ->
  Z.land (shr x 2) 255 = x / 4 /\ Z.land (shl x 6) 65280 = x / 4 * 2 ^ 8 /\
  Z.land (shl x 14) 16711680 = x / 4 * 2 ^ 16 /\
  u32 (Z.land (shl x 22) top_mask) = x / 4 * 2 ^ 24.
Proof.
  intros Hx.
  assert (all_below 1024 (fun x => bool_decide (
    Z.land (shr x 2) 255 = x / 4 /\ Z.land (shl x 6) 65280 = x / 4 * 2 ^ 8 /\
    Z.land (shl x 14) 16711680 = x / 4 * 2 ^ 16 /\
    u32 (Z.land (shl x 22) top_mask) = x / 4 * 2 ^ 24)) = true) as Hall
    by (vm_compute; reflexivity).
  apply (all_below_spec _ _ x) in Hall; [|done]. by apply bool_decide_eq_true_1 in Hall.
Qed.

Lemma half_bytes x :
  0 <= x < 512 ->
  Z.land (shr x 1) 255 = x / 2 /\ Z.land (shl x 7) 65280 = x / 2 * 2 ^ 8 /\
  Z.land (shl x 15) 16711680 = x / 2 * 2 ^ 16 /\
  u32 (Z.land (shl x 23) top_mask) = x / 2 * 2 ^ 24.
Proof.
  intros Hx.
  assert (all_below 512 (fun x => bool_decide (
    Z.land (shr x 1) 255 = x / 2 /\ Z.land (shl x 7) 65280 = x / 2 * 2 ^ 8 /\
    Z.land (shl x 15) 16711680 = x / 2 * 2 ^ 16 /\
    u32 (Z.land (shl x 23) top_mask) = x / 2 * 2 ^ 24)) = true) as Hall
    by (vm_compute; reflexivity).
  apply (all_below_spec _ _ x) in Hall; [|done]. by apply bool_decide_eq_true_1 in Hall.
Qed.

Lemma full_bytes x :
  byte x ->
  shl x 8 = x * 2 ^ 8 /\ shl x 16 = x * 2 ^ 16 /\ u32 (shl x 24) = x * 2 ^ 24.
Proof.
  apply (byte_ind (fun x => shl x 8 = x * 2 ^ 8 /\ shl x 16 = x * 2 ^ 16 /\
                            u32 (shl x 24) = x * 2 ^ 24)).
  vm_compute. reflexivity.
Qed.

Lemma u32_lor a b : u32 (Z.lor a b) = Z.lor (u32 a) (u32 b).
Proof.
  unfold u32. change 4294967296 with (2 ^ 32). rewrite <- !Z.land_ones by lia.
  apply Z.land_lor_distr_l.
Qed.

(** Four bytes put together with [|]. *)
Lemma lor_word b0 b1 b2 b3 top :
  byte b0 -> byte b1 -> byte b2 -> byte b3 -> u32 top = b3 * 2 ^ 24 ->
  u32 (Z.lor (Z.lor (Z.lor b0 (b1 * 2 ^ 8)) (b2 * 2 ^ 16)) top) =
  b0 + 256 * b1 + 65536 * b2 + 16777216 * b3.
Proof.
  unfold byte. intros H0 H1 H2 H3 Ht.
  rewrite (Z.lor_comm b0), lor_shift_add by lia.
  rewrite (Z.lor_comm (b1 * 2 ^ 8 + b0)), lor_shift_add by lia.
  rewrite u32_lor, Ht. rewrite (u32_small (b2 * 2 ^ 16 + _)) by lia.
  rewrite Z.lor_comm, lor_shift_add by lia. lia.
Qed.

(** ** One word of each mode *)

(** Where the source stands before the pixel at [p]. *)
Definition at_pixel (oddH oddV : bool) (s : list Z) (width p : Z) : num * Z :=
  if oddH then (if oddV then vpair s width p else tget s p, p + 1) else (None, p).

Lemma mean4 s w p :
  Forall byte s ->
  mean [tget s p; tget s (p + w); tget s (p + 1); tget s (p + 1 + w)] =
  sum3 (vpair s w p) (vpair s w (p + 1)) 2 / 4.
Proof.
  intros Hs. unfold sum3, vpair, mean, int.
  pose proof (tget_below s p Hs). pose proof (tget_below s (p + w) Hs).
  pose proof (tget_below s (p + 1) Hs). pose proof (tget_below s (p + 1 + w) Hs).
  destruct (tget s p), (tget s (p + w)), (tget s (p + 1)), (tget s (p + 1 + w)); try done.
  cbn in *. rewrite s32_small by lia. change (Z.of_nat 4 / 2) with 2.
  apply (f_equal (fun x => x / 4)). lia.
Qed.

Lemma mean2 a b : below 256 a -> below 256 b -> mean [a; b] = sum3 a b 1 / 2.
Proof.
  intros. unfold sum3, mean, int. destruct a, b; try done. cbn in *.
  rewrite s32_small by lia. change (Z.of_nat 2 / 2) with 1.
  apply (f_equal (fun x => x / 2)). lia.
Qed.

Lemma mean1 a : below 256 a -> mean [a] = int a.
Proof.
  intros. unfold mean, int. destruct a; try done. cbn in *. rewrite s32_small by lia.
  change (Z.of_nat 1 / 2) with 0. change (Z.of_nat 1) with 1. rewrite Z.div_1_r. lia.
Qed.

Lemma predict_byte oddH oddV s w p : Forall byte s -> byte (predict oddH oddV s w p).
Proof.
  intros Hs. pose proof (fun i => tget_below s i Hs). unfold predict, byte.
  destruct oddH, oddV.
  - rewrite mean4 by done. pose proof (quad_range s w p (p + 1) Hs).
    split; [apply Z.div_pos; lia|apply Z.div_lt_upper_bound; lia].
  - rewrite mean2 by done. pose proof (two_range s p (p + 1) Hs).
    split; [apply Z.div_pos; lia|apply Z.div_lt_upper_bound; lia].
  - rewrite mean2 by done. pose proof (two_range s p (p + w) Hs).
    split; [apply Z.div_pos; lia|apply Z.div_lt_upper_bound; lia].
  - rewrite mean1 by done. unfold int. specialize (H p).
    destruct (tget s p); cbn in *; [|done]. rewrite s32_small; lia.
Qed.

Definition packed (y : Z) (f : Z -> Z) (p : Z) : Prop :=
  u32 y = f p + 256 * f (p + 1) + 65536 * f (p + 2) + 16777216 * f (p + 3).

Definition word_ok (oddH oddV : bool) (s : list Z) (w p : Z) : Prop :=
  let '(y1, src) := at_pixel oddH oddV s w p in
  let '(y, y1, src) := word (mode_of oddH oddV s w) y1 src in
  (y1, src) = at_pixel oddH oddV s w (p + 4) /\ packed y (predict oddH oddV s w) p.

Lemma word_hv s w p : Forall byte s -> word_ok true true s w p.
Proof.
  intros Hs. unfold word_ok. cbn [at_pixel word mode_of mode_hv].
  replace (p + 1 + 1) with (p + 2) by lia. replace (p + 1 + 2) with (p + 3) by lia.
  replace (p + 1 + 3) with (p + 4) by lia. split; [f_equal; lia|].
  unfold packed. pose proof (fun i => predict_byte true true s w i Hs) as Hp.
  cbn [predict] in *.
  rewrite (mean4 s w p), (mean4 s w (p + 1)), (mean4 s w (p + 2)), (mean4 s w (p + 3)) in *
    by done.
  pose proof (Hp p) as B0. pose proof (Hp (p + 1)) as B1. pose proof (Hp (p + 2)) as B2.
  pose proof (Hp (p + 3)) as B3. rewrite mean4 in B0, B1, B2, B3 by done.
  replace (p + 1 + 1) with (p + 2) in * by lia. replace (p + 2 + 1) with (p + 3) in * by lia.
  replace (p + 3 + 1) with (p + 4) in * by lia.
  rewrite (sum3_comm (vpair s w (p + 2)) (vpair s w (p + 1))).
  rewrite (sum3_comm (vpair s w (p + 4)) (vpair s w (p + 3))).
  destruct (quarter_bytes _ (quad_range s w p (p + 1) Hs)) as (-> & _).
  destruct (quarter_bytes _ (quad_range s w (p + 1) (p + 2) Hs)) as (_ & -> & _).
  destruct (quarter_bytes _ (quad_range s w (p + 2) (p + 3) Hs)) as (_ & _ & -> & _).
  destruct (quarter_bytes _ (quad_range s w (p + 3) (p + 4) Hs)) as (_ & _ & _ & E3).
  by apply lor_word.
Qed.

Lemma word_h s w p : Forall byte s -> word_ok true false s w p.
Proof.
  intros Hs. unfold word_ok. cbn [at_pixel word mode_of mode_h].
  replace (p + 1 + 1) with (p + 2) by lia. replace (p + 1 + 2) with (p + 3) by lia.
  replace (p + 1 + 3) with (p + 4) by lia. split; [f_equal; lia|].
  unfold packed. pose proof (fun i => predict_byte true false s w i Hs) as Hp.
  pose proof (fun i => tget_below s i Hs) as Hb. cbn [predict] in *.
  pose proof (Hp p) as B0. pose proof (Hp (p + 1)) as B1. pose proof (Hp (p + 2)) as B2.
  pose proof (Hp (p + 3)) as B3. rewrite !mean2 in * by done.
  replace (p + 1 + 1) with (p + 2) in * by lia. replace (p + 2 + 1) with (p + 3) in * by lia.
  replace (p + 3 + 1) with (p + 4) in * by lia.
  rewrite (sum3_comm (tget s (p + 2)) (tget s (p + 1))).
  rewrite (sum3_comm (tget s (p + 4)) (tget s (p + 3))).
  destruct (half_bytes _ (two_range s p (p + 1) Hs)) as (-> & _).
  destruct (half_bytes _ (two_range s (p + 1) (p + 2) Hs)) as (_ & -> & _).
  destruct (half_bytes _ (two_range s (p + 2) (p + 3) Hs)) as (_ & _ & -> & _).
  destruct (half_bytes _ (two_range s (p + 3) (p + 4) Hs)) as (_ & _ & _ & E3).
  by apply lor_word.
Qed.

Lemma word_v s w p : Forall byte s -> word_ok false true s w p.
Proof.
  intros Hs. unfold word_ok. cbn [at_pixel word mode_of mode_v]. rewrite (Z.add_0_r p).
  split; [done|].
  unfold packed. pose proof (fun i => predict_byte false true s w i Hs) as Hp.
  pose proof (fun i => tget_below s i Hs) as Hb. cbn [predict] in *.
  pose proof (Hp p) as B0. pose proof (Hp (p + 1)) as B1. pose proof (Hp (p + 2)) as B2.
  pose proof (Hp (p + 3)) as B3. rewrite !mean2 in * by done.
  destruct (half_bytes _ (two_range s p (p + w) Hs)) as (-> & _).
  destruct (half_bytes _ (two_range s (p + 1) (p + 1 + w) Hs)) as (_ & -> & _).
  destruct (half_bytes _ (two_range s (p + 2) (p + 2 + w) Hs)) as (_ & _ & -> & _).
  destruct (half_bytes _ (two_range s (p + 3) (p + 3 + w) Hs)) as (_ & _ & _ & E3).
  by apply lor_word.
Qed.

Lemma word_full s w p : Forall byte s -> word_ok false false s w p.
Proof.
  intros Hs. unfold word_ok. cbn [at_pixel word mode_of mode_full]. split; [done|].
  unfold packed. pose proof (fun i => predict_byte false false s w i Hs) as Hp.
  pose proof (fun i => tget_below s i Hs) as Hb. cbn [predict] in *.
  pose proof (Hp p) as B0. pose proof (Hp (p + 1)) as B1. pose proof (Hp (p + 2)) as B2.
  pose proof (Hp (p + 3)) as B3. rewrite !mean1 in * by done.
  destruct (full_bytes _ B1) as (-> & _). destruct (full_bytes _ B2) as (_ & -> & _).
  destruct (full_bytes _ B3) as (_ & _ & E3). by apply lor_word.
Qed.

Lemma word_each oddH oddV s w p : Forall byte s -> word_ok oddH oddV s w p.
Proof.
  intros. destruct oddH, oddV; [by apply word_hv|by apply word_h|by apply word_v|by apply word_full].
Qed.

(** ** A row, a block *)

Section Copy.
Context (oddH oddV : bool) (s : list Z) (w : Z) (Hs : Forall byte s).

Lemma words_spec n d dest p :
  0 <= dest -> 4 * (dest + Z.of_nat n) <= Z.of_nat (length d) ->
  let '(y1, src) := at_pixel oddH oddV s w p in
  let '(d', dest', y1, src) := copy_words n (mode_of oddH oddV s w) d dest y1 src in
  (y1, src) = at_pixel oddH oddV s w (p + 4 * Z.of_nat n) /\ dest' = dest + Z.of_nat n /\
  length d' = length d /\
  forall j, 0 <= j -> aget d' j =
    if (4 * dest <=? j) && (j <? 4 * (dest + Z.of_nat n))
    then predict oddH oddV s w (p + (j - 4 * dest)) else aget d j.
Proof.
  revert d dest p. induction n as [|n IH]; intros d dest p Hd Hl; cbn [copy_words].
  { rewrite Z.mul_0_r, !Z.add_0_r. destruct (at_pixel oddH oddV s w p). split; [done|].
    split; [done|]. split; [done|]. intros j Hj. zdecide; try done; lia. }
  pose proof (word_each oddH oddV s w p Hs) as Hw. unfold word_ok in Hw.
  destruct (at_pixel oddH oddV s w p) as [y1 src].
  destruct (word (mode_of oddH oddV s w) y1 src) as [[y y1'] src']. destruct Hw as [Hst Hy].
  specialize (IH (put32 d dest y) (dest + 1) (p + 4)). rewrite <- Hst in IH.
  destruct (copy_words n (mode_of oddH oddV s w) (put32 d dest y) (dest + 1) y1' src')
    as [[[d' dest'] y1''] src''].
  rewrite length_put32 in IH. destruct IH as (H1 & H2 & H3 & H4); [lia|lia|].
  split; [rewrite H1; f_equal; lia|]. split; [lia|]. split; [done|].
  intros j Hj. rewrite H4 by done.
  assert (forall i, byte (predict oddH oddV s w i)) as Hp by (intros; by apply predict_byte).
  rewrite (put32_get d dest y _ _ _ _ j Hd ltac:(lia) (Hp p) (Hp (p + 1)) (Hp (p + 2)) (Hp (p + 3)) Hy Hj).
  zdecide; subst; cbn [andb]; try lia; try done; f_equal; lia.
Qed.

Lemma init_at p : init (mode_of oddH oddV s w) p = at_pixel oddH oddV s w p.
Proof. by destruct oddH, oddV. Qed.

Lemma src_at p : (at_pixel oddH oddV s w p).2 = p + ahead (mode_of oddH oddV s w).
Proof. destruct oddH, oddV; cbn; lia. Qed.

(** [h] rows of [n] words in a plane [w = 4 * W] pixels wide. *)
Lemma rows_spec h fuel n W scan dest p d :
  w = 4 * W -> scan = w - 4 * Z.of_nat n -> Z.of_nat n <= W < 268435456 -> 0 < W -> 0 <= dest ->
  4 * dest + (Z.of_nat h - 1) * w + 4 * Z.of_nat n <= Z.of_nat (length d) -> (h <= fuel)%nat ->
  let d' := copy_rows fuel (mode_of oddH oddV s w) n scan dest (dest + Z.of_nat h * W) p d in
  length d' = length d /\
  forall j, 0 <= j -> aget d' j =
    if (4 * dest <=? j) && (j <? 4 * dest + Z.of_nat h * w) &&
       ((j - 4 * dest) mod w <? 4 * Z.of_nat n)
    then predict oddH oddV s w (p + (j - 4 * dest)) else aget d j.
Proof.
  intros Hw Hscan Hn HW. revert fuel dest p d.
  induction h as [|h IH]; intros fuel dest p d Hd Hl Hf.
  { cbn zeta. assert (copy_rows fuel (mode_of oddH oddV s w) n scan dest (dest + Z.of_nat 0 * W) p d = d)
      as -> by (destruct fuel; cbn [copy_rows]; [done|]; destruct (Z.ltb_spec dest (dest + Z.of_nat 0 * W)); [lia|done]).
    split; [done|]. intros j Hj. zdecide; try done; lia. }
  destruct fuel as [|fuel]; [lia|]. cbn [copy_rows].
  destruct (Z.ltb_spec dest (dest + Z.of_nat (S h) * W)); [|lia].
  rewrite init_at. pose proof (words_spec n d dest p Hd ltac:(nia)) as Hwords.
  destruct (at_pixel oddH oddV s w p) as [y1 src].
  destruct (copy_words n (mode_of oddH oddV s w) d dest y1 src) as [[[d1 dest1] y2] src1].
  destruct Hwords as (Hst & -> & Hlen & Hget).
  assert (src1 + (scan - ahead (mode_of oddH oddV s w)) = p + w) as ->.
  { pose proof (src_at (p + 4 * Z.of_nat n)) as E. rewrite <- Hst in E. cbn in E. lia. }
  assert (dest + Z.of_nat n + shr scan 2 = dest + W) as ->.
  { rewrite shr_div by lia. change (2 ^ 2) with 4.
    rewrite <- (Z.div_unique scan 4 (W - Z.of_nat n) 0); lia. }
  replace (dest + Z.of_nat (S h) * W) with ((dest + W) + Z.of_nat h * W) by lia.
  destruct (IH fuel (dest + W) (p + w) d1) as [Hlen' Hget']; [lia|nia|lia|].
  split; [congruence|]. intros j Hj. rewrite Hget', Hget by done. clear Hget Hget' IH.
  assert ((j - 4 * (dest + W)) mod w = (j - 4 * dest) mod w) as ->.
  { replace (j - 4 * (dest + W)) with (j - 4 * dest + (-1) * w) by lia.
    apply Z.mod_add. lia. }
  assert (0 <= j - 4 * dest < w -> (j - 4 * dest) mod w = j - 4 * dest) by (intros; by apply Z.mod_small).
  replace (Z.of_nat (S h) * w) with (w + Z.of_nat h * w) by lia.
  assert (0 <= Z.of_nat h * w) by (apply Z.mul_nonneg_nonneg; lia).
  set (hw := Z.of_nat h * w) in *. clearbody hw.
  zdecide; cbn [andb]; try done; try lia; f_equal; lia.
Qed.
End Copy.

(** The block at ([mbRow], [mbCol]) of a plane of [mbW] by [mbH] blocks. *)
Lemma copy_plane_spec k mbW mbH H V oddH oddV mbRow mbCol s d :
  Forall byte s -> k = 3 \/ k = 4 -> 0 <= mbRow < mbH -> 0 <= mbCol < mbW ->
  mbW * mbH < 1048576 -> Z.of_nat (length d) = 2 ^ k * mbW * (2 ^ k * mbH) ->
  let w := 2 ^ k * mbW in
  let d' := copy_plane k w H V oddH oddV mbRow mbCol s d in
  length d' = length d /\
  forall x y, 0 <= x < w -> 0 <= y ->
    aget d' (y * w + x) =
    if (2 ^ k * mbRow <=? y) && (y <? 2 ^ k * mbRow + 2 ^ k) &&
       (2 ^ k * mbCol <=? x) && (x <? 2 ^ k * mbCol + 2 ^ k)
    then predict oddH oddV s w ((y + V) * w + (x + H)) else aget d (y * w + x).
Proof.
  intros Hs Hk Hr Hc HWH Hl w. unfold copy_plane.
  set (B := 2 ^ k) in *. set (n := 2 ^ (k - 2)).
  assert (B = 4 * n /\ (n = 2 \/ n = 4)) as [HB Hn] by (subst B n; destruct Hk as [-> | ->]; cbn; lia).
  assert (mbRow * mbW < 1048576 /\ mbW < 1048576 /\ mbH < 1048576) as (? & ? & ?) by nia.
  assert (w = 4 * (n * mbW)) as Hw by (subst w; rewrite HB; ring).
  assert (Z.of_nat (length d) = w * (4 * n * mbH)) as Hl' by (rewrite Hl, HB, Hw; ring).
  clearbody w. clear Hl.
  assert (w < 16777216 /\ mbRow * w + mbCol < 33554432 /\ 4 * n * (mbCol + 1) <= w) as (? & ? & ?)
    by (destruct Hn as [-> | ->]; nia).
  assert (shl (mbRow * w + mbCol) (k - 2) = (mbRow * w + mbCol) * n) as -> by (apply shl_small; fold n; nia).
  assert (shl w (k - 2) = w * n) as -> by (apply shl_small; fold n; nia).
  assert (shl mbRow k = mbRow * B) as -> by (apply shl_small; fold B; nia).
  assert (shl mbCol k = mbCol * B) as -> by (apply shl_small; fold B; nia).
  replace ((mbRow * w + mbCol) * n + w * n) with ((mbRow * w + mbCol) * n + Z.of_nat (Z.to_nat B) * (n * mbW))
    by (rewrite Z2Nat.id by lia; rewrite HB, Hw; ring).
  clearbody B n.
  destruct (rows_spec oddH oddV s w Hs (Z.to_nat B)
    (Z.to_nat ((mbRow * w + mbCol) * n + Z.of_nat (Z.to_nat B) * (n * mbW) - (mbRow * w + mbCol) * n))
    (Z.to_nat n) (n * mbW) (w - B) ((mbRow * w + mbCol) * n)
    ((mbRow * B + V) * w + mbCol * B + H) d) as [Hlen Hget]; [done|lia|nia|nia|nia| |nia|].
  { rewrite Hl', !Z2Nat.id by lia. rewrite HB.
    assert (w * (4 * n * (mbRow + 1)) <= w * (4 * n * mbH)) by (apply Z.mul_le_mono_nonneg_l; nia).
    lia. }
  split; [done|]. intros x y Hx Hy. rewrite Hget by nia. rewrite !Z2Nat.id by lia.
  replace (4 * ((mbRow * w + mbCol) * n)) with (B * mbRow * w + B * mbCol) by (rewrite HB; ring).
  rewrite <- HB, block_offset by nia.
  repeat (case_match; try done). f_equal. ring.
Qed.

(** ** Shape *)

Lemma copy_words_keeps n m d dest y1 src :
  let d' := (copy_words n m d dest y1 src).1.1.1 in
  length d' = length d /\ (Forall byte d -> Forall byte d').
Proof.
  revert d dest y1 src. induction n as [|n IH]; intros d dest y1 src; cbn zeta; cbn [copy_words]; [done|].
  destruct (word m y1 src) as [[y y1'] src'].
  destruct (IH (put32 d dest y) (dest + 1) y1' src') as [H1 H2].
  rewrite length_put32 in H1. split; [exact H1|]. intros. by apply H2, put32_byte.
Qed.

Lemma copy_rows_keeps fuel m n scan dest last src d :
  let d' := copy_rows fuel m n scan dest last src d in
  length d' = length d /\ (Forall byte d -> Forall byte d').
Proof.
  revert dest src d. induction fuel as [|fuel IH]; intros dest src d; cbn zeta; cbn [copy_rows]; [done|].
  destruct (dest <? last); [|done]. destruct (init m src) as [y1 src1].
  pose proof (copy_words_keeps n m d dest y1 src1) as [H1 H2].
  destruct (copy_words n m d dest y1 src1) as [[[d1 dest1] y2] src2]. cbn in *.
  destruct (IH (dest1 + shr scan 2) (src2 + (scan - ahead m)) d1) as [H3 H4].
  split; [congruence|auto].
Qed.

Lemma length_copy_plane k w H V oddH oddV row col s d :
  length (copy_plane k w H V oddH oddV row col s d) = length d.
Proof. apply copy_rows_keeps. Qed.

Lemma copy_plane_byte k w H V oddH oddV row col s d :
  Forall byte d -> Forall byte (copy_plane k w H V oddH oddV row col s d).
Proof. apply copy_rows_keeps. Qed.
