(* ===== verification/MpegBlock.v ===== *)
(** * Blocks (public/lib/jsmpg.js, block layer)

    The coefficients of an 8 by 8 block, the inverse transform and the four
    ways of putting a block in its plane.  [blockData] is the Int32Array the
    decoder reuses for every block, so it must be all zero between blocks. *)

From S2P Require Import Prelude JsArray MpegTables BitReader.

(** ** The inverse transform *)

(** The transform of eight values [v 0] .. [v 7] that the column loop and the
    row loop share; the results in order. *)
Definition idct8 (v : Z -> Z) : list Z :=
  let b1 := v 4 in
  let b3 := v 2 + v 6 in
  let b4 := v 5 - v 3 in
  let tmp1 := v 1 + v 7 in
  let tmp2 := v 3 + v 5 in
  let b6 := v 1 - v 7 in
  let b7 := tmp1 + tmp2 in
  let m0 := v 0 in
  let x4 := shr (b6 * 473 - b4 * 196 + 128) 8 - b7 in
  let x0 := x4 - shr ((tmp1 - tmp2) * 362 + 128) 8 in
  let x1 := m0 - b1 in
  let x2 := shr ((v 2 - v 6) * 362 + 128) 8 - b3 in
  let x3 := m0 + b1 in
  let y3 := x1 + x2 in
  let y4 := x3 + b3 in
  let y5 := x1 - x2 in
  let y6 := x3 - b3 in
  let y7 := - x0 - shr (b4 * 473 + b6 * 196 + 128) 8 in
  [b7 + y4; x4 + y3; y5 - x0; y6 - y7; y6 + y7; x0 + y5; y3 - x4; y4 - b7].

(** [blockData[pos 0] = r0; ...; blockData[pos 7] = r7] in an Int32Array. *)
Fixpoint store_all (pos : Z -> Z) (k : Z) (rs : list Z) (data : list Z) : list Z :=
  match rs with
  | [] => data
  | r :: rs' => store_all pos (k + 1) rs' (aset data (pos k) (s32 r))
  end.

Definition idct_column (i : Z) (data : list Z) : list Z :=
  store_all (fun k => k * 8 + i) 0 (idct8 (fun k => aget data (k * 8 + i))) data.

Definition idct_row (i : Z) (data : list Z) : list Z :=
  store_all (fun k => k + i) 0
    ((fun x => shr (x + 128) 8) <$> idct8 (fun k => aget data (k + i))) data.

Definition IDCT (data : list Z) : list Z :=
  let data := foldl (fun data i => idct_column i data) data [0; 1; 2; 3; 4; 5; 6; 7] in
  foldl (fun data i => idct_row i data) data [0; 8; 16; 24; 32; 40; 48; 56].

(** ** Placing a block

    One row of eight assignments to a Uint8ClampedArray; [f n old] is the value
    assigned for entry [n] of the block over [old]. *)
Fixpoint put_row (n8 : nat) (f : Z -> Z -> Z) (n destIndex : Z) (dest : list Z) : list Z :=
  match n8 with
  | O => dest
  | S n8' =>
      put_row n8' f (n + 1) (destIndex + 1)
        (tset dest destIndex (clamp8 (f n (aget dest destIndex))))
  end.

Fixpoint put_rows (rows : nat) (f : Z -> Z -> Z) (n destIndex scan : Z) (dest : list Z) : list Z :=
  match rows with
  | O => dest
  | S rows' =>
      put_rows rows' f (n + 8) (destIndex + (scan + 8)) scan (put_row 8 f n destIndex dest)
  end.

Definition copyBlockToDestination (blockData dest : list Z) (destIndex scan : Z) : list Z :=
  put_rows 8 (fun n _ => aget blockData n) 0 destIndex scan dest.
Definition addBlockToDestination (blockData dest : list Z) (destIndex scan : Z) : list Z :=
  put_rows 8 (fun n old => old + aget blockData n) 0 destIndex scan dest.
Definition copyValueToDestination (value : Z) (dest : list Z) (destIndex scan : Z) : list Z :=
  put_rows 8 (fun _ _ => value) 0 destIndex scan dest.
Definition addValueToDestination (value : Z) (dest : list Z) (destIndex scan : Z) : list Z :=
  put_rows 8 (fun _ old => old + value) 0 destIndex scan dest.

(** The same for a browser without clamped arrays: two nested loops over a
    Uint8Array, with the value clamped by hand. *)
Fixpoint clamp_row (j : nat) (f : Z -> Z -> Z) (n destIndex : Z) (dest : list Z) : Z * Z * list Z :=
  match j with
  | O => (n, destIndex, dest)
  | S j' =>
      let p := f n (aget dest destIndex) in
      clamp_row j' f (n + 1) (destIndex + 1)
        (tset dest destIndex (u8 (if 255 <? p then 255 else if p <? 0 then 0 else p)))
  end.

Fixpoint clamp_rows (i : nat) (f : Z -> Z -> Z) (n destIndex scan : Z) (dest : list Z) : list Z :=
  match i with
  | O => dest
  | S i' =>
      let '(n, destIndex, dest) := clamp_row 8 f n destIndex dest in
      clamp_rows i' f n (destIndex + scan) scan dest
  end.

Definition copyBlockToDestinationClamp (blockData dest : list Z) (destIndex scan : Z) : list Z :=
  clamp_rows 8 (fun n _ => aget blockData n) 0 destIndex scan dest.
Definition addBlockToDestinationClamp (blockData dest : list Z) (destIndex scan : Z) : list Z :=
  clamp_rows 8 (fun n old => aget blockData n + old) 0 destIndex scan dest.

(** ** Coefficients *)

(** [readCode] on one of the tables, which never gives [undefined]
    ([readCode_longest]). *)
Definition read (codeTable : list Z) (r : reader) : option (Z * reader) :=
  match readCode codeTable r with
  | Some (Some v, r) => Some (v, r)
  | _ => None
  end.

(** The value [blockData[0]] gets from [predictor] in an intra block. *)
Definition decode_dc (table : list Z) (predictor : Z) (r : reader) : option (Z * reader) :=
  '(dctSize, r) ← read table r;
  if 0 <? dctSize then
    let '(differential, r) := getBits r dctSize in
    if nz (Z.land differential (shl 1 (dctSize - 1)))
    then Some (s32 (predictor + differential), r)
    else Some (s32 (predictor + Z.lor (shl (-1) dctSize) (s32 (differential + 1))), r)
  else Some (s32 predictor, r).

(** The run and level of a coefficient that is not the end of the block. *)
Definition run_level (coeff : Z) (r : reader) : Z * Z * reader :=
  if coeff =? 65535 then
    let '(run, r) := getBits r 6 in
    let '(level, r) := getBits r 8 in
    if level =? 0 then let '(level, r) := getBits r 8 in (run, level, r)
    else if level =? 128 then let '(level, r) := getBits r 8 in (run, level - 256, r)
    else if 128 <? level then (run, level - 256, r)
    else (run, level, r)
  else
    let '(sign, r) := getBits r 1 in
    (shr coeff 8, if nz sign then - Z.land coeff 255 else Z.land coeff 255, r).

(** Dequantize, oddify, clip; [undefined * x >> 4] is 0. *)
Definition dequantize (intra : bool) (quantizerScale : Z) (quant : num) (level : Z) : Z :=
  let level := shl level 1 in
  let level := if intra then level else level + (if level <? 0 then -1 else 1) in
  let level := match quant with Some q => shr (level * quantizerScale * q) 4 | None => 0 end in
  let level := if Z.land level 1 =? 0 then level - (if 0 <? level then 1 else -1) else level in
  if 2047 <? level then 2047 else if level <? -2048 then -2048 else level.

(** The loop over the coefficients; [None] when it still runs after [fuel] of
    them.  An index past the zig-zag table is [undefined] and the assignment to
    [blockData[undefined]] changes no element. *)
Fixpoint coefficients (fuel : nat) (intra : bool) (quantizerScale : Z) (quantMatrix : list Z)
    (n : Z) (data : list Z) (r : reader) : option (Z * list Z * reader) :=
  match fuel with
  | O => None
  | S fuel' =>
      '(coeff, r) ← read DCT_COEFF r;
      let '(ended, r) :=
        if (coeff =? 1) && (0 <? n)
        then let '(b, r) := getBits r 1 in (b =? 0, r) else (false, r) in
      if ended then Some (n, data, r)
      else
        let '(run, level, r) := run_level coeff r in
        let n := n + run in
        let dezigZagged := tget ZIG_ZAG n in
        let level := dequantize intra quantizerScale
                       (dezigZagged ≫= fun z => tget quantMatrix z) level in
        let data := match dezigZagged with
                    | Some z => aset data z (s32 (level * aget PREMULTIPLIER_MATRIX z))
                    | None => data
                    end in
        coefficients fuel' intra quantizerScale quantMatrix (n + 1) data r
  end.

(** ** Where a block goes *)

Lemma length_put_row n8 f n i d : length (put_row n8 f n i d) = length d.
Proof. revert n i d. induction n8 as [|m IH]; intros; cbn [put_row]; [done|]. by rewrite IH, length_tset. Qed.

Lemma length_put_rows h f n i scan d : length (put_rows h f n i scan d) = length d.
Proof.
  revert n i d. induction h as [|m IH]; intros; cbn [put_rows]; [done|].
  by rewrite IH, length_put_row.
Qed.

Lemma put_row_byte n8 f n i d : Forall byte d -> Forall byte (put_row n8 f n i d).
Proof.
  revert n i d. induction n8 as [|m IH]; intros; cbn [put_row]; [done|].
  apply IH, tset_byte; [done|]. apply clamp8_byte.
Qed.

Lemma put_rows_byte h f n i scan d : Forall byte d -> Forall byte (put_rows h f n i scan d).
Proof.
  revert n i d. induction h as [|m IH]; intros; cbn [put_rows]; [done|].
  by apply IH, put_row_byte.
Qed.

Lemma put_row_get n8 f n i d j :
  0 <= i -> i + Z.of_nat n8 <= Z.of_nat (length d) -> 0 <= j ->
  aget (put_row n8 f n i d) j =
    if (i <=? j) && (j <? i + Z.of_nat n8) then clamp8 (f (n + (j - i)) (aget d j)) else aget d j.
Proof.
  revert n i d. induction n8 as [|m IH]; intros n i d Hi Hl Hj; cbn [put_row].
  { zdecide; cbn; done || lia. }
  rewrite IH by (rewrite ?length_tset; lia).
  destruct (Z.eq_dec i j) as [->|Hne].
  - rewrite aget_tset_eq by lia. zdecide; cbn; try lia. do 2 f_equal. lia.
  - rewrite aget_tset_ne by lia. zdecide; cbn; try lia; try done. do 2 f_equal. lia.
Qed.

Lemma put_rows_get h f n i scan d j :
  let w := scan + 8 in
  8 <= w -> 0 <= i -> i + (Z.of_nat h - 1) * w + 8 <= Z.of_nat (length d) -> 0 <= j ->
  aget (put_rows h f n i scan d) j =
    if (i <=? j) && (j <? i + Z.of_nat h * w) && ((j - i) mod w <? 8)
    then clamp8 (f (n + 8 * ((j - i) / w) + (j - i) mod w) (aget d j)) else aget d j.
Proof.
  intros w Hw. revert n i d. induction h as [|h IH]; intros n i d Hi Hl Hj; cbn [put_rows].
  { zdecide; cbn; done || lia. }
  fold w. rewrite IH; [|lia|rewrite length_put_row; lia|done].
  assert (0 <= Z.of_nat h * w) by (apply Z.mul_nonneg_nonneg; lia).
  rewrite put_row_get; [|done|lia|done].
  replace (j - (i + w)) with (j - i + (-1) * w) by lia.
  rewrite Z.mod_add, Z.div_add by lia.
  replace (Z.of_nat (S h) * w) with (w + Z.of_nat h * w) by lia.
  set (hw := Z.of_nat h * w) in *. clearbody hw. clear IH.
  assert (0 <= j - i < w -> (j - i) mod w = j - i) by (intros; by apply Z.mod_small).
  assert (0 <= j - i < w -> (j - i) / w = 0) by (intros; by apply Z.div_small).
  pose proof (Z.mod_pos_bound (j - i) w ltac:(lia)).
  zdecide; cbn [andb]; try done; try lia; do 2 f_equal; lia.
Qed.

(** Clamping by hand does what the clamped array does. *)
Lemma u8_clamp p : u8 (if 255 <? p then 255 else if p <? 0 then 0 else p) = clamp8 p.
Proof. unfold clamp8, u8. zdecide; try done. apply Z.mod_small. lia. Qed.

Lemma clamp_row_put j f n i d :
  clamp_row j f n i d = (n + Z.of_nat j, i + Z.of_nat j, put_row j f n i d).
Proof.
  revert n i d. induction j as [|j IH]; intros; cbn [clamp_row put_row]; [by rewrite !Z.add_0_r|].
  rewrite IH, u8_clamp, Nat2Z.inj_succ. by rewrite <- !Z.add_assoc, !Z.add_1_l.
Qed.

Lemma clamp_rows_put h f n i scan d : clamp_rows h f n i scan d = put_rows h f n i scan d.
Proof.
  revert n i d. induction h as [|h IH]; intros; cbn [clamp_rows put_rows]; [done|].
  rewrite clamp_row_put. change (Z.of_nat 8) with 8. rewrite IH. f_equal. lia.
Qed.

(** The pixels of a plane [w] wide after a block went to ([x0], [y0]). *)
Lemma put_block_get f scan d w x0 y0 x y :
  w = scan + 8 -> 0 <= x0 -> x0 + 8 <= w -> 0 <= y0 -> w * (y0 + 8) <= Z.of_nat (length d) ->
  0 <= x < w -> 0 <= y ->
  aget (put_rows 8 f 0 (y0 * w + x0) scan d) (y * w + x) =
    if (y0 <=? y) && (y <? y0 + 8) && (x0 <=? x) && (x <? x0 + 8)
    then clamp8 (f (8 * (y - y0) + (x - x0)) (aget d (y * w + x))) else aget d (y * w + x).
Proof.
  intros Hw Hx0 Hxw Hy0 Hl Hx Hy.
  rewrite put_rows_get; [|lia|nia|nia|nia]. rewrite <- Hw.
  change (Z.of_nat 8) with 8. rewrite block_offset by lia.
  destruct (Z.leb_spec y0 y), (Z.ltb_spec y (y0 + 8)), (Z.leb_spec x0 x), (Z.ltb_spec x (x0 + 8));
    cbn [andb]; try done. do 2 f_equal.
  replace (y * w + x - (y0 * w + x0)) with ((y - y0) * w + (x - x0)) by ring.
  rewrite (Z.add_comm (_ * w)), Z.mod_add, Z.div_add, Z.mod_small, Z.div_small by lia. lia.
Qed.

(** ** The inverse transform of a constant *)

Definition dc_block (d : Z) : list Z := d :: replicate 63 0.

Lemma idct8_dc v d :
  v 0 = d -> (forall k, 1 <= k <= 7 -> v k = 0) -> idct8 v = replicate 8 d.
Proof.
  intros H0 Hk. unfold idct8. rewrite H0, !Hk by lia.
  change (shr ((0 - 0) * 473 - (0 - 0) * 196 + 128) 8) with 0.
  change (shr ((0 + 0 - (0 + 0)) * 362 + 128) 8) with 0.
  change (shr ((0 - 0) * 362 + 128) 8) with 0.
  change (shr ((0 - 0) * 473 + (0 - 0) * 196 + 128) 8) with 0.
  cbn [replicate]. do 8 (apply f_equal2; [lia|]). reflexivity.
Qed.

(** A block whose rows are [d], 0, ..., 0, of which the first [q] are done. *)
Definition half_done (q : nat) (e d : Z) : list Z :=
  mjoin (replicate q (replicate 8 e)) ++ mjoin (replicate (8 - q) (d :: replicate 7 0)).

Lemma one_to_seven (P : Z -> Prop) :
  P 1 -> P 2 -> P 3 -> P 4 -> P 5 -> P 6 -> P 7 -> forall k, 1 <= k <= 7 -> P k.
Proof.
  intros. assert (k = 1 \/ k = 2 \/ k = 3 \/ k = 4 \/ k = 5 \/ k = 6 \/ k = 7) as Hk by lia.
  by destruct Hk as [->|[->|[->|[->|[->|[->| ->]]]]]].
Qed.

Ltac seven :=
  match goal with |- forall k, 1 <= k <= 7 -> @?P k => apply (one_to_seven P) end; reflexivity.

Lemma column_first d : s32 d = d -> idct_column 0 (dc_block d) = half_done 0 0 d.
Proof.
  intros Hd. unfold idct_column. rewrite (idct8_dc _ d); [|reflexivity|seven].
  cbn [replicate store_all]. rewrite Hd. reflexivity.
Qed.

Lemma column_zero d i : 1 <= i <= 7 -> idct_column i (half_done 0 0 d) = half_done 0 0 d.
Proof.
  revert i. apply one_to_seven; unfold idct_column;
    (rewrite (idct8_dc _ 0); [reflexivity|reflexivity|seven]).
Qed.

Lemma row_done d q :
  (q < 8)%nat ->
  let e := s32 (shr (d + 128) 8) in
  idct_row (8 * Z.of_nat q) (half_done q e d) = half_done (S q) e d.
Proof.
  intros Hq e. do 8 (destruct q as [|q];
    [unfold idct_row; rewrite (idct8_dc _ d); [reflexivity|reflexivity|seven]|]).
  lia.
Qed.

Lemma IDCT_dc d :
  -2147483648 <= d < 2147483520 -> IDCT (dc_block d) = replicate 64 (shr (d + 128) 8).
Proof.
  intros Hd. unfold IDCT. cbn [foldl].
  rewrite column_first by (apply s32_small; lia). rewrite !column_zero by lia.
  set (e := s32 (shr (d + 128) 8)).
  change (half_done 0 0 d) with (half_done 0 e d).
  pose proof (row_done d) as Hrow. cbn zeta in Hrow. fold e in Hrow.
  rewrite (Hrow 0%nat ltac:(lia) : idct_row 0 _ = _),
    (Hrow 1%nat ltac:(lia) : idct_row 8 _ = _),
    (Hrow 2%nat ltac:(lia) : idct_row 16 _ = _),
    (Hrow 3%nat ltac:(lia) : idct_row 24 _ = _),
    (Hrow 4%nat ltac:(lia) : idct_row 32 _ = _),
    (Hrow 5%nat ltac:(lia) : idct_row 40 _ = _),
    (Hrow 6%nat ltac:(lia) : idct_row 48 _ = _),
    (Hrow 7%nat ltac:(lia) : idct_row 56 _ = _).
  assert (e = shr (d + 128) 8) as <-.
  { subst e. rewrite shr_div by lia. change (2 ^ 8) with 256. apply s32_small.
    split; [apply Z.div_le_lower_bound; lia|apply Z.div_lt_upper_bound; lia]. }
  reflexivity.
Qed.

(** ** What the coefficients leave in the block *)

Lemma length_store_all pos k rs data : length (store_all pos k rs data) = length data.
Proof. revert k data. induction rs as [|x rs IH]; intros; cbn [store_all]; [done|]. by rewrite IH, length_aset. Qed.

Lemma coeff_ends : ends_within 17 DCT_COEFF (fun v => (0 <=? v) && (v <? 65536)) 0 = true.
Proof. vm_compute. reflexivity. Qed.

Lemma read_coeff r :
  readable r -> exists v r', read DCT_COEFF r = Some (v, r') /\ moved r r' /\ 0 <= v < 65536.
Proof.
  intros Hr. destruct (follow_ends DCT_COEFF _ 17 (length DCT_COEFF) 0 r coeff_ends)
    as (v & n & Hv & Hn & Hp); [cbn; lia|done|].
  exists v, (advance r n). unfold read, readCode. rewrite Hv. split; [done|].
  split; [apply moved_advance; lia|lia].
Qed.

(** One more field of at most eight bits. *)
Lemma getBits_some r n :
  readable r -> 0 <= n <= 8 -> exists v r', getBits r n = (v, r') /\ moved r r' /\ 0 <= v.
Proof.
  intros Hr Hn. exists (nextBits r n), (advance r n). split; [done|].
  split; [apply moved_advance; lia|by apply nextBits_nonneg].
Qed.

Lemma run_level_spec coeff r :
  readable r -> 0 <= coeff < 65536 ->
  exists run level r', run_level coeff r = (run, level, r') /\ moved r r' /\ 0 <= run.
Proof.
  intros Hr Hc. unfold run_level. destruct (coeff =? 65535).
  - destruct (getBits_some r 6 Hr) as (run & r1 & -> & H1 & Hrun); [lia|].
    pose proof (readable_moved _ _ Hr H1) as Hr1.
    destruct (getBits_some r1 8 Hr1) as (level & r2 & -> & H2 & _); [lia|].
    destruct (getBits_some r2 8 (readable_moved _ _ Hr1 H2)) as (l2 & r3 & E3 & H3 & _); [lia|].
    assert (moved r r2) by (by transitivity r1). assert (moved r r3) by (by transitivity r2).
    repeat case_match; simplify_eq; eauto 10.
  - unfold getBits. eexists _, _, _. split; [done|]. split; [apply moved_advance; lia|].
    rewrite shr_div by lia. apply Z.div_pos; lia.
Qed.

(** Only entries the first [n] coefficients reach are not zero. *)
Definition support (n : Z) (data : list Z) : Prop :=
  length data = 64%nat /\
  forall z, 0 <= z < 64 -> aget data z <> 0 -> exists k, 0 <= k < n /\ tget ZIG_ZAG k = Some z.

Lemma support_mono n m data : support n data -> n <= m -> support m data.
Proof.
  intros [Hl Hs] Hm. split; [done|]. intros z Hz Hne.
  destruct (Hs z Hz Hne) as (k & ? & ?). exists k. split; [lia|done].
Qed.

Lemma support_set n k z v data :
  support n data -> n <= k -> 0 <= k -> tget ZIG_ZAG k = Some z -> support (k + 1) (aset data z v).
Proof.
  intros [Hl Hs] Hk Hk0 Hz. split; [by rewrite length_aset|]. intros z' Hz' Hne.
  destruct (Z.eq_dec z z') as [->|Hzz]; [exists k; split; [lia|done]|].
  assert (0 <= z).
  { assert (Forall byte ZIG_ZAG) as Hb by decide_bytes.
    by apply (tget_byte _ _ _ Hb) in Hz as [? _]. }
  rewrite aget_aset_ne in Hne by lia. destruct (Hs z' Hz' Hne) as (j & ? & ?).
  exists j. split; [lia|done].
Qed.

Lemma coefficients_support fuel intra q qm n data r n' data' r' :
  readable r -> 0 <= n -> support n data ->
  coefficients fuel intra q qm n data r = Some (n', data', r') ->
  support n' data' /\ n <= n' /\ 0 < n' /\ moved r r'.
Proof.
  revert n data r. induction fuel as [|fuel IH]; intros n data r Hr Hn Hs He; [done|].
  cbn [coefficients] in He.
  destruct (read_coeff r Hr) as (v & r1 & E & Hm & Hv). rewrite E in He.
  cbn [mbind option_bind] in He. pose proof (readable_moved _ _ Hr Hm) as Hr1.
  assert (exists ended r2, (if (v =? 1) && (0 <? n)
    then let '(b, r0) := getBits r1 1 in (b =? 0, r0) else (false, r1)) = (ended, r2) /\
    moved r1 r2 /\ (ended = true -> 0 < n)) as (ended & r2 & E2 & Hm2 & Hend).
  { destruct (v =? 1), (Z.ltb_spec 0 n); cbn [andb]; eexists _, _;
      (split; [done|]); (split; [|done]); first [apply moved_advance; lia|reflexivity]. }
  rewrite E2 in He. pose proof (readable_moved _ _ Hr1 Hm2) as Hr2. destruct ended.
  { simplify_eq. split; [done|]. split; [lia|]. split; [by apply Hend|by transitivity r1]. }
  destruct (run_level_spec v r2 Hr2 Hv) as (run & level & r3 & E3 & Hm3 & Hrun).
  rewrite E3 in He. apply IH in He as (H1 & H2 & H3 & H4);
    [|by apply (readable_moved r2)|lia|].
  - split; [done|]. split; [lia|]. split; [done|].
    transitivity r1; [done|]. transitivity r2; [done|]. by transitivity r3.
  - destruct (tget ZIG_ZAG (n + run)) as [z|] eqn:Ez.
    + apply (support_set n); [done|lia|lia|done].
    + apply (support_mono n); [done|lia].
Qed.

(** ** The shortcut for a constant block *)

Lemma put_row_ext n8 f g n i d :
  (forall k old, n <= k < n + Z.of_nat n8 -> f k old = g k old) ->
  put_row n8 f n i d = put_row n8 g n i d.
Proof.
  revert n i d. induction n8 as [|m IH]; intros n i d Hfg; cbn [put_row]; [done|].
  rewrite Hfg by lia. apply IH. intros. apply Hfg. lia.
Qed.

Lemma put_rows_ext h f g n i scan d :
  (forall k old, n <= k < n + 8 * Z.of_nat h -> f k old = g k old) ->
  put_rows h f n i scan d = put_rows h g n i scan d.
Proof.
  revert n i d. induction h as [|m IH]; intros n i d Hfg; cbn [put_rows]; [done|].
  rewrite (put_row_ext 8 f g) by (intros; apply Hfg; lia). apply IH. intros. apply Hfg. lia.
Qed.

Lemma IDCT_dc_get d k :
  -2147483648 <= d < 2147483520 -> 0 <= k < 64 -> aget (IDCT (dc_block d)) k = shr (d + 128) 8.
Proof. intros Hd Hk. rewrite IDCT_dc by done. unfold aget. by rewrite lookup_replicate_2 by lia. Qed.

Lemma clamp_variants blockData dest i scan :
  copyBlockToDestinationClamp blockData dest i scan = copyBlockToDestination blockData dest i scan /\
  addBlockToDestinationClamp blockData dest i scan = addBlockToDestination blockData dest i scan.
Proof.
  unfold copyBlockToDestinationClamp, addBlockToDestinationClamp. rewrite !clamp_rows_put. split; [done|].
  apply put_rows_ext. intros k old Hk. apply Z.add_comm.
Qed.

Lemma copy_shortcut d dest i scan :
  -2147483648 <= d < 2147483520 ->
  copyValueToDestination (shr (d + 128) 8) dest i scan =
  copyBlockToDestination (IDCT (dc_block d)) dest i scan.
Proof. intros Hd. apply put_rows_ext. intros k old Hk. by rewrite IDCT_dc_get. Qed.

Lemma add_shortcut d dest i scan :
  -2147483648 <= d < 2147483520 ->
  addValueToDestination (shr (d + 128) 8) dest i scan =
  addBlockToDestination (IDCT (dc_block d)) dest i scan.
Proof. intros Hd. apply put_rows_ext. intros k old Hk. by rewrite IDCT_dc_get. Qed.

(** C24: the short ways to place a block agree with the long one.  A block of one
    coefficient put or added as a constant gives the plane that the inverse
    transform gives, and the loops that clamp by hand, for browsers without
    clamped arrays, give the plane of the unrolled loops. *)
Theorem block_paths_agree d blockData dest i scan :
  -2147483648 <= d < 2147483520 ->
  copyValueToDestination (shr (d + 128) 8) dest i scan = copyBlockToDestination (IDCT (dc_block d)) dest i scan /\
  addValueToDestination (shr (d + 128) 8) dest i scan = addBlockToDestination (IDCT (dc_block d)) dest i scan /\
  copyBlockToDestinationClamp blockData dest i scan = copyBlockToDestination blockData dest i scan /\
  addBlockToDestinationClamp blockData dest i scan = addBlockToDestination blockData dest i scan.
Proof.
  intros Hd. split; [by apply copy_shortcut|]. split; [by apply add_shortcut|]. apply clamp_variants.
Qed.

Lemma block_paths_agree_witness :
  addValueToDestination (shr (-3000 + 128) 8) (replicate 64 5) 0 0 =
  addBlockToDestination (IDCT (dc_block (-3000))) (replicate 64 5) 0 0.
Proof. apply (block_paths_agree (-3000) [] (replicate 64 5) 0 0). lia. Defined.
