(* ===== verification/MpegDecoder.v ===== *)
(** * The picture decoder (public/lib/jsmpg.js)

    Sequence, picture, slice, macroblock and block layers of the MPEG-1
    decoder that draws the screen of the virtual machine in the browser, and
    the recorder.  The planes are Uint8ClampedArrays.  A loop whose end depends
    on the stream carries fuel; [None] is a decoder that is still running when
    the fuel is used up. *)

From coqutil Require Import Datatypes.RecordSettersUsingExistingGetters.
From S2P Require Import Prelude JsArray MpegTables BitReader MpegCopy MpegBlock.

(** ** State *)

Record frame := Frame { fY : list Z; fCr : list Z; fCb : list Z }.

Record geometry := Geometry {
  width : Z; height : Z;
  mbWidth : Z; mbHeight : Z; mbSize : Z;
  codedWidth : Z; codedHeight : Z; codedSize : Z;
  halfWidth : Z; halfHeight : Z; quarterSize : Z }.

(** The picture header. *)
Record picture := Picture {
  pictureCodingType : Z;
  fullPelForward : Z;
  forwardFCode : Z; forwardRSize : Z; forwardF : Z }.

(** Slice and macroblock. *)
Record macroblock := Macroblock {
  quantizerScale : Z;
  sliceBegin : bool;
  macroblockAddress : Z; mbRow : Z; mbCol : Z;
  macroblockType : Z; macroblockIntra : bool; macroblockMotFw : bool;
  motionFwH : Z; motionFwHPrev : Z; motionFwV : Z; motionFwVPrev : Z;
  dcPredictorY : Z; dcPredictorCr : Z; dcPredictorCb : Z }.

Record recorder := Recorder {
  isRecording : bool;
  recorderWaitForIntraFrame : bool;
  recordedFrames : Z;
  recordedSize : Z;
  recordBuffers : list (list Z) }.

(** What decoding a slice changes. *)
Record dec := Dec {
  rd : reader;
  mb : macroblock;
  cur : frame;          (* currentY, currentCr, currentCb *)
  blockData : list Z }.

Record jsmpeg := Jsmpeg {
  buffer : reader;
  geo : geometry;
  sequenceStarted : bool;
  pictureRate : num;
  intraQuantMatrix : list Z; nonIntraQuantMatrix : list Z;
  customIntraQuantMatrix : list Z; customNonIntraQuantMatrix : list Z;
  current : frame; forward : frame;
  currentRGBA : list Z;
  canvas : list Z;      (* what was last put on the canvas *)
  pic : picture;
  mbs : macroblock;
  block_data : list Z;
  currentFrame : Z;
  recording : recorder }.

(** ** Macroblocks *)

Section Decode.
Context (g : geometry) (p : picture) (intra_m non_intra_m : list Z) (fwd : frame).

(** [motionFwH = motionFwHPrev = 0] and the same for [V]. *)
Definition reset_motion (m : macroblock) : macroblock :=
  m <| motionFwH := 0 |> <| motionFwHPrev := 0 |> <| motionFwV := 0 |> <| motionFwVPrev := 0 |>.

Definition reset_dc (m : macroblock) : macroblock :=
  m <| dcPredictorY := 128 |> <| dcPredictorCr := 128 |> <| dcPredictorCb := 128 |>.

Definition copyMacroblock (m : macroblock) (motionH motionV : Z) (c : frame) : frame :=
  let odd x := Z.land (s32 x) 1 =? 1 in
  let half x := Z.quot x 2 in
  let lum := copy_plane 4 (codedWidth g) (shr motionH 1) (shr motionV 1)
               (odd motionH) (odd motionV) (mbRow m) (mbCol m) in
  let chr := copy_plane 3 (halfWidth g) (shr (half motionH) 1) (shr (half motionV) 1)
               (odd (half motionH)) (odd (half motionV)) (mbRow m) (mbCol m) in
  Frame (lum (fY fwd) (fY c)) (chr (fCr fwd) (fCr c)) (chr (fCb fwd) (fCb c)).

(** One component of the forward vector: the new predictor and the vector. *)
Definition motion_component (prev : Z) (r : reader) : option (Z * Z * reader) :=
  '(code, r) ← read MOTION r;
  let '(d, r) :=
    if nz code && negb (forwardF p =? 1) then
      let '(x, r) := getBits r (forwardRSize p) in
      let d := shl (Z.abs code - 1) (forwardRSize p) + x + 1 in
      (if code <? 0 then - d else d, r)
    else (code, r) in
  let prev := prev + d in
  let prev :=
    if shl (forwardF p) 4 - 1 <? prev then prev - shl (forwardF p) 5
    else if prev <? shl (- forwardF p) 4 then prev + shl (forwardF p) 5
    else prev in
  Some (prev, if nz (fullPelForward p) then shl prev 1 else prev, r).

Definition decodeMotionVectors (m : macroblock) (r : reader) : option (macroblock * reader) :=
  if macroblockMotFw m then
    '(hPrev, h, r) ← motion_component (motionFwHPrev m) r;
    '(vPrev, v, r) ← motion_component (motionFwVPrev m) r;
    Some (m <| motionFwHPrev := hPrev |> <| motionFwH := h |>
            <| motionFwVPrev := vPrev |> <| motionFwV := v |>, r)
  else if pictureCodingType p =? PICTURE_TYPE_P then Some (reset_motion m, r)
  else Some (m, r).

(** ** Blocks *)

Definition predictor_of (m : macroblock) (block : Z) : Z :=
  if block <? 4 then dcPredictorY m
  else if block =? 4 then dcPredictorCr m else dcPredictorCb m.

Definition save_predictor (m : macroblock) (block v : Z) : macroblock :=
  if block <? 4 then m <| dcPredictorY := v |>
  else if block =? 4 then m <| dcPredictorCr := v |> else m <| dcPredictorCb := v |>.

(** [destIndex] and [scan] of a block. *)
Definition destination (m : macroblock) (block : Z) : Z * Z :=
  if block <? 4 then
    (shl (mbRow m * codedWidth g + mbCol m) 4 + (if nz (Z.land block 1) then 8 else 0) +
       (if nz (Z.land block 2) then shl (codedWidth g) 3 else 0),
     codedWidth g - 8)
  else (shl (mbRow m * codedWidth g) 2 + shl (mbCol m) 3, shr (codedWidth g) 1 - 8).

(** [destArray] is [currentY], [currentCb] for block 4 and [currentCr] for 5. *)
Definition on_plane (block : Z) (f : list Z -> list Z) (c : frame) : frame :=
  if block <? 4 then Frame (f (fY c)) (fCr c) (fCb c)
  else if block =? 4 then Frame (fY c) (fCr c) (f (fCb c))
  else Frame (fY c) (f (fCr c)) (fCb c).

(** Put the coefficients in place and clear the block. *)
Definition place_block (m : macroblock) (block n : Z) (data : list Z) (c : frame)
    : frame * list Z :=
  let '(destIndex, scan) := destination m block in
  let intra := macroblockIntra m in
  if n =? 1 then
    let value := shr (aget data 0 + 128) 8 in
    (on_plane block (fun dest =>
       if intra then copyValueToDestination value dest destIndex scan
       else addValueToDestination value dest destIndex scan) c,
     aset data 0 0)
  else
    let out := IDCT data in
    (on_plane block (fun dest =>
       if intra then copyBlockToDestination out dest destIndex scan
       else addBlockToDestination out dest destIndex scan) c,
     replicate 64 0).

Definition decodeBlock (fuel : nat) (block : Z) (d : dec) : option dec :=
  let m := mb d in
  '(m, data, n, r) ←
    (if macroblockIntra m then
       '(v, r) ← decode_dc (if block <? 4 then DCT_DC_SIZE_LUMINANCE else DCT_DC_SIZE_CHROMINANCE)
                           (predictor_of m block) (rd d);
       Some (save_predictor m block v, aset (blockData d) 0 (shl v 8), 1, r)
     else Some (m, blockData d, 0, rd d));
  '(n, data, r) ← coefficients fuel (macroblockIntra m) (quantizerScale m)
                    (if macroblockIntra m then intra_m else non_intra_m) n data r;
  let '(c, data) := place_block m block n data (cur d) in
  Some (Dec r m c data).

(** [for( block = 0, mask = 0x20; block < 6; block++ )]. *)
Fixpoint decode_blocks (fuel : nat) (n : nat) (block mask cbp : Z) (d : dec) : option dec :=
  match n with
  | O => Some d
  | S n' =>
      d ← (if nz (Z.land cbp mask) then decodeBlock fuel block d else Some d);
      decode_blocks fuel n' (block + 1) (shr mask 1) cbp d
  end.

(** [while( t == 34 )], macroblock_stuffing. *)
Fixpoint skip_stuffing (fuel : nat) (t : Z) (r : reader) : option (Z * reader) :=
  if t =? 34 then
    match fuel with
    | O => None
    | S fuel' => '(t, r) ← read MACROBLOCK_ADDRESS_INCREMENT r; skip_stuffing fuel' t r
    end
  else Some (t, r).

(** [while( t == 35 )], macroblock_escape. *)
Fixpoint add_escapes (fuel : nat) (increment t : Z) (r : reader) : option (Z * reader) :=
  if t =? 35 then
    match fuel with
    | O => None
    | S fuel' =>
        '(t, r) ← read MACROBLOCK_ADDRESS_INCREMENT r; add_escapes fuel' (increment + 33) t r
    end
  else Some (increment + t, r).

Definition read_increment (fuel : nat) (r : reader) : option (Z * reader) :=
  '(t, r) ← read MACROBLOCK_ADDRESS_INCREMENT r;
  '(t, r) ← skip_stuffing fuel t r;
  add_escapes fuel 0 t r.

(** [mbRow] and [mbCol] from the address; [mbWidth] is not 0. *)
Definition set_position (m : macroblock) : macroblock :=
  m <| mbRow := s32 (Z.quot (macroblockAddress m) (mbWidth g)) |>
    <| mbCol := Z.rem (macroblockAddress m) (mbWidth g) |>.

(** [while( increment > 1 )]: predict the skipped macroblocks. *)
Fixpoint skip_macroblocks (n : nat) (m : macroblock) (c : frame) : macroblock * frame :=
  match n with
  | O => (m, c)
  | S n' =>
      let m := set_position (m <| macroblockAddress := macroblockAddress m + 1 |>) in
      skip_macroblocks n' m (copyMacroblock m (motionFwH m) (motionFwV m) c)
  end.

(** The part of [decodeMacroblock] after the address is known. *)
Definition decode_content (fuel : nat) (d : dec) : option dec :=
  let m := set_position (mb d) in
  '(type, r) ← read (MACROBLOCK_TYPE_TABLES (pictureCodingType p)) (rd d);
  let m := m <| macroblockType := type |>
             <| macroblockIntra := nz (Z.land type 1) |>
             <| macroblockMotFw := nz (Z.land type 8) |> in
  let '(m, r) :=
    if nz (Z.land type 16) then
      let '(q, r) := getBits r 5 in (m <| quantizerScale := q |>, r)
    else (m, r) in
  '(m, r, c) ←
    (if macroblockIntra m then Some (reset_motion m, r, cur d)
     else
       '(m, r) ← decodeMotionVectors (reset_dc m) r;
       Some (m, r, copyMacroblock m (motionFwH m) (motionFwV m) (cur d)));
  '(cbp, r) ←
    (if nz (Z.land type 2) then read CODE_BLOCK_PATTERN r
     else Some (if macroblockIntra m then 63 else 0, r));
  decode_blocks fuel 6 0 32 cbp (Dec r m c (blockData d)).

Definition decodeMacroblock (fuel : nat) (d : dec) : option dec :=
  '(increment, r) ← read_increment fuel (rd d);
  let m := mb d in
  if sliceBegin m then
    decode_content fuel
      (Dec r (m <| sliceBegin := false |>
                <| macroblockAddress := macroblockAddress m + increment |>) (cur d) (blockData d))
  else if mbSize g <=? macroblockAddress m + increment then
    Some (Dec r m (cur d) (blockData d))
  else
    let m :=
      if 1 <? increment then
        let m := reset_dc m in
        if pictureCodingType p =? PICTURE_TYPE_P then reset_motion m else m
      else m in
    let '(m, c) := skip_macroblocks (Z.to_nat (increment - 1)) m (cur d) in
    decode_content fuel
      (Dec r (m <| macroblockAddress := macroblockAddress m + 1 |>) c (blockData d)).

(** ** Slices *)

(** [while( getBits(1) ) advance(8)]. *)
Fixpoint skip_extra (fuel : nat) (r : reader) : option reader :=
  match fuel with
  | O => None
  | S fuel' =>
      let '(b, r) := getBits r 1 in
      if nz b then skip_extra fuel' (advance r 8) else Some r
  end.

Fixpoint decode_macroblocks (fuel n : nat) (d : dec) : option dec :=
  match n with
  | O => None
  | S n' =>
      d ← decodeMacroblock fuel d;
      if nextBytesAreStartCode (rd d) then Some d else decode_macroblocks fuel n' d
  end.

Definition decodeSlice (fuel : nat) (slice : Z) (d : dec) : option dec :=
  let m := reset_dc (reset_motion
    ((mb d) <| sliceBegin := true |>
            <| macroblockAddress := (slice - 1) * mbWidth g - 1 |>)) in
  let '(q, r) := getBits (rd d) 5 in
  r ← skip_extra fuel r;
  decode_macroblocks fuel fuel (Dec r (m <| quantizerScale := q |>) (cur d) (blockData d)).

Definition is_slice (code : num) : bool :=
  match code with
  | Some c => (START_SLICE_FIRST <=? c) && (c <=? START_SLICE_LAST)
  | None => false
  end.

(** [while( code >= START_SLICE_FIRST && code <= START_SLICE_LAST )]. *)
Fixpoint decode_slices (fuel n : nat) (code : num) (d : dec) : option dec :=
  if is_slice code then
    match n with
    | O => None
    | S n' =>
        d ← decodeSlice fuel (Z.land (default 0 code) 255) d;
        let '(code, r) := findNextMPEGStartCode (rd d) in
        decode_slices fuel n' code (Dec r (mb d) (cur d) (blockData d))
    end
  else Some d.
End Decode.

(** [do ... while( code == START_EXTENSION || code == START_USER_DATA )]. *)
Fixpoint skip_headers (fuel : nat) (r : reader) : option (num * reader) :=
  match fuel with
  | O => None
  | S fuel' =>
      let '(code, r) := findNextMPEGStartCode r in
      if bool_decide (code = Some START_EXTENSION) || bool_decide (code = Some START_USER_DATA)
      then skip_headers fuel' r else Some (code, r)
  end.

(** ** Output *)

(** One pair of pixels of a line: six of the eight bytes. *)
Definition put_pair (y1 y2 r gr b : num) (i : Z) (rgba : list Z) : list Z :=
  let put k v rgba := tset rgba (i + k) (clamp8 (default 0 v)) in
  let neg a := Z.opp <$> a in
  put 6 (nadd y2 b) (put 5 (nadd y2 (neg gr)) (put 4 (nadd y2 r)
    (put 2 (nadd y1 b) (put 1 (nadd y1 (neg gr)) (put 0 (nadd y1 r) rgba))))).

(** One chrominance sample and the four pixels it covers. *)
Definition put_quad (f : frame) (cIndex yIndex1 yIndex2 rgbaIndex1 rgbaIndex2 : Z)
    (rgba : list Z) : list Z :=
  let cb := tget (fCb f) cIndex in
  let cr := tget (fCr f) cIndex in
  let mul a k := shr (default 0 a * k) 8 in
  let r := nadd (nadd cr (Some (mul cr 103))) (Some (-179)) in
  let gr := Some (mul cb 88 - 44 + mul cr 183 - 91) in
  let b := nadd (nadd cb (Some (mul cb 198))) (Some (-227)) in
  put_pair (tget (fY f) yIndex2) (tget (fY f) (yIndex2 + 1)) r gr b rgbaIndex2
    (put_pair (tget (fY f) yIndex1) (tget (fY f) (yIndex1 + 1)) r gr b rgbaIndex1 rgba).

Fixpoint rgba_cols (cols : nat) (f : frame) (cIndex yIndex1 yIndex2 rgbaIndex1 rgbaIndex2 : Z)
    (rgba : list Z) : list Z :=
  match cols with
  | O => rgba
  | S cols' =>
      rgba_cols cols' f (cIndex + 1) (yIndex1 + 2) (yIndex2 + 2) (rgbaIndex1 + 8) (rgbaIndex2 + 8)
        (put_quad f cIndex yIndex1 yIndex2 rgbaIndex1 rgbaIndex2 rgba)
  end.

(** The indices at the end of a row are those at its start plus the columns. *)
Fixpoint rgba_rows (rows : nat) (g : geometry) (f : frame)
    (cIndex yIndex1 yIndex2 rgbaIndex1 rgbaIndex2 : Z) (rgba : list Z) : list Z :=
  match rows with
  | O => rgba
  | S rows' =>
      let cols := shr (width g) 1 in
      let yNext2Lines := codedWidth g + (codedWidth g - width g) in
      let cNextLine := halfWidth g - shr (width g) 1 in
      let rgbaNext2Lines := width g * 4 in
      rgba_rows rows' g f (cIndex + cols + cNextLine)
        (yIndex1 + 2 * cols + yNext2Lines) (yIndex2 + 2 * cols + yNext2Lines)
        (rgbaIndex1 + 8 * cols + rgbaNext2Lines) (rgbaIndex2 + 8 * cols + rgbaNext2Lines)
        (rgba_cols (Z.to_nat cols) f cIndex yIndex1 yIndex2 rgbaIndex1 rgbaIndex2 rgba)
  end.

Definition YCbCrToRGBA (g : geometry) (f : frame) (rgba : list Z) : list Z :=
  rgba_rows (Z.to_nat (shr (height g) 1)) g f 0 0 (codedWidth g) 0 (width g * 4) rgba.

(** [renderFrame2D]. *)
Definition renderFrame2D (j : jsmpeg) : jsmpeg :=
  let rgba := YCbCrToRGBA (geo j) (current j) (currentRGBA j) in
  j <| currentRGBA := rgba |> <| canvas := rgba |>.

(** ** The recorder *)

Definition recordFrameFromCurrentBuffer (j : jsmpeg) : jsmpeg :=
  let rec := recording j in
  if negb (isRecording rec) then j
  else if recorderWaitForIntraFrame rec && negb (pictureCodingType (pic j) =? PICTURE_TYPE_I)
  then j
  else
    j <| recording :=
      Recorder true false (recordedFrames rec + 1)
        (recordedSize rec + writePos (buffer j))
        (recordBuffers rec ++ [subarray (store (buffer j)) 0 (writePos (buffer j))]) |>.

(** The sequence header, group and first picture start code of a recording. *)
Definition recording_header (w h : Z) : list Z :=
  u8 <$> [0; 0; 1; 179; shr w 4; Z.lor (shl (Z.land w 15) 4) (shr h 8); Z.land h 255;
          19; 255; 255; 225; 88; 0; 0; 1; 184; 0; 8; 0; 0; 0; 0; 1; 0].

(** [startRecording]; [canRecord] tells whether the client is connected. *)
Definition startRecording (canRecord : bool) (j : jsmpeg) : jsmpeg :=
  if negb canRecord then j
  else j <| recording := Recorder true true 0 0 [recording_header (width (geo j)) (height (geo j))] |>.

(** [stopRecording]: the parts of the file. *)
Definition stopRecording (j : jsmpeg) : list (list Z) * jsmpeg :=
  (recordBuffers (recording j),
   j <| recording := (recording j) <| recordBuffers := [] |> <| recordedFrames := 0 |>
                                   <| isRecording := false |> |>).

(** ** Pictures *)

(** [decodePicture(skipOutput)]. *)
Definition decodePicture (fuel : nat) (skipOutput : bool) (j : jsmpeg) : option jsmpeg :=
  let j := j <| currentFrame := currentFrame j + 1 |> in
  let r := advance (buffer j) 10 in
  let '(type, r) := getBits r 3 in
  let r := advance r 16 in
  let pc := (pic j) <| pictureCodingType := type |> in
  if (type <=? 0) || (PICTURE_TYPE_B <=? type) then
    Some (j <| buffer := r |> <| pic := pc |>)
  else
    let '(pc, r) :=
      if type =? PICTURE_TYPE_P then
        let '(full, r) := getBits r 1 in
        let '(fcode, r) := getBits r 3 in
        (pc <| fullPelForward := full |> <| forwardFCode := fcode |>, r)
      else (pc, r) in
    if (type =? PICTURE_TYPE_P) && (forwardFCode pc =? 0) then
      Some (j <| buffer := r |> <| pic := pc |>)
    else
      let pc :=
        if type =? PICTURE_TYPE_P then
          pc <| forwardRSize := forwardFCode pc - 1 |> <| forwardF := shl 1 (forwardFCode pc - 1) |>
        else pc in
      '(code, r) ← skip_headers fuel r;
      d ← decode_slices (geo j) pc (intraQuantMatrix j) (nonIntraQuantMatrix j) (forward j)
            fuel fuel code (Dec r (mbs j) (current j) (block_data j));
      let j := j <| buffer := rewind (rd d) 32 |> <| pic := pc |> <| mbs := mb d |>
                 <| current := cur d |> <| block_data := blockData d |> in
      let j := recordFrameFromCurrentBuffer j in
      let j := if skipOutput then j else renderFrame2D j in
      Some (j <| current := forward j |> <| forward := current j |>).

(** ** Sequences *)

Definition new_geometry (w h : Z) : geometry :=
  let mbW := shr (w + 15) 4 in
  let mbH := shr (h + 15) 4 in
  let codedW := shl mbW 4 in
  let codedH := shl mbH 4 in
  Geometry w h mbW mbH (mbW * mbH) codedW codedH (codedW * codedH)
    (shl mbW 3) (shl mbH 3) (shr (codedW * codedH) 2).

Definition zeros (n : Z) : list Z := replicate (Z.to_nat n) 0.

Definition new_frame (g : geometry) : frame :=
  Frame (zeros (codedSize g)) (zeros (shr (codedSize g) 2)) (zeros (shr (codedSize g) 2)).

Definition initBuffers (w h : Z) (j : jsmpeg) : jsmpeg :=
  let g := new_geometry w h in
  let j := j <| geo := g |> <| intraQuantMatrix := DEFAULT_INTRA_QUANT_MATRIX |>
             <| nonIntraQuantMatrix := DEFAULT_NON_INTRA_QUANT_MATRIX |> in
  if sequenceStarted j then j
  else
    j <| sequenceStarted := true |> <| current := new_frame g |> <| forward := new_frame g |>
      <| canvas := zeros (4 * w * h) |>
      <| currentRGBA := replicate (Z.to_nat (4 * w * h)) 255 |>.

(** [customIntraQuantMatrix[ZIG_ZAG[i]] = getBits(8)] for the 64 entries. *)
Fixpoint load_matrix (zz : list Z) (m : list Z) (r : reader) : list Z * reader :=
  match zz with
  | [] => (m, r)
  | z :: zz' => let '(v, r) := getBits r 8 in load_matrix zz' (aset m z (u8 v)) r
  end.

Definition decodeSequenceHeader (j : jsmpeg) : jsmpeg :=
  let '(w, r) := getBits (buffer j) 12 in
  let '(h, r) := getBits r 12 in
  let r := advance r 4 in
  let '(rate, r) := getBits r 4 in
  let r := advance r (18 + 1 + 10 + 1) in
  let j := initBuffers w h (j <| pictureRate := tget PICTURE_RATE rate |>) in
  let '(load, r) := getBits r 1 in
  let '(j, r) :=
    if nz load then
      let '(m, r) := load_matrix ZIG_ZAG (customIntraQuantMatrix j) r in
      (j <| customIntraQuantMatrix := m |> <| intraQuantMatrix := m |>, r)
    else (j, r) in
  let '(load, r) := getBits r 1 in
  let '(j, r) :=
    if nz load then
      let '(m, r) := load_matrix ZIG_ZAG (customNonIntraQuantMatrix j) r in
      (j <| customNonIntraQuantMatrix := m |> <| nonIntraQuantMatrix := m |>, r)
    else (j, r) in
  j <| buffer := r |>.

(** [new jsmpeg(client, opts)] before the first header: the fields of the
    prototype, and the two buffers of the constructor.  The geometry is not
    used before [initBuffers]. *)
Definition new_jsmpeg : jsmpeg :=
  Jsmpeg (Reader [] 0 0) (Geometry 0 0 0 0 0 0 0 0 0 0 0) false (Some 30000) [] []
    (zeros 64) (zeros 64) (Frame [] [] []) (Frame [] [] []) [] [] (Picture 0 0 0 0 0)
    (Macroblock 0 false 0 0 0 0 false false 0 0 0 0 0 0 0) (zeros 64) (-1)
    (Recorder false false 0 0 []).

(** ** The types of the decoder are kept *)

Definition bytes_frame (f : frame) : Prop :=
  Forall byte (fY f) /\ Forall byte (fCr f) /\ Forall byte (fCb f).

Definition shape (f : frame) : nat * nat * nat := (length (fY f), length (fCr f), length (fCb f)).

(** [f'] is [f] with other pixels. *)
Definition redrawn (f f' : frame) : Prop :=
  shape f' = shape f /\ (bytes_frame f -> bytes_frame f').

#[export] Instance redrawn_preorder : PreOrder redrawn.
Proof.
  split; [done|]. intros f1 f2 f3 [H1 H2] [H3 H4]. split; [congruence|auto].
Qed.

Lemma copyMacroblock_redrawn g fwd m h v c : redrawn c (copyMacroblock g fwd m h v c).
Proof.
  unfold copyMacroblock. split.
  - unfold shape. cbn. by rewrite !length_copy_plane.
  - intros (H1 & H2 & H3). repeat split; by apply copy_plane_byte.
Qed.

Lemma on_plane_redrawn block f c :
  (forall d, length (f d) = length d) -> (forall d, Forall byte d -> Forall byte (f d)) ->
  redrawn c (on_plane block f c).
Proof.
  intros Hl Hb. unfold on_plane. split.
  - repeat case_match; unfold shape; cbn; by rewrite Hl.
  - intros (H1 & H2 & H3). repeat case_match; unfold bytes_frame; cbn; auto.
Qed.

Lemma place_block_redrawn g m block n data c :
  redrawn c (place_block g m block n data c).1.
Proof.
  unfold place_block. destruct (destination g m block) as [i scan].
  case_match; apply on_plane_redrawn; intros d *;
    destruct (macroblockIntra m); solve [apply length_put_rows | apply put_rows_byte].
Qed.

(** A block with no coefficient left over. *)
Lemma place_block_cleared g m block n data c :
  support n data -> 0 < n -> (place_block g m block n data c).2 = replicate 64 0.
Proof.
  intros [Hl Hs] Hn. unfold place_block. destruct (destination g m block) as [i scan].
  destruct (Z.eqb_spec n 1) as [->|]; [|done]. cbn [snd].
  apply aget_ext; rewrite length_aset, Hl; [done|]. intros z Hz.
  assert (aget (replicate 64 0) z = 0) as ->.
  { unfold aget. by rewrite lookup_replicate_2 by lia. }
  destruct (Z.eq_dec z 0) as [->|Hz0]; [rewrite aget_aset_eq by lia; done|].
  rewrite aget_aset_ne by lia. destruct (Z.eq_dec (aget data z) 0) as [|Hne]; [done|].
  destruct (Hs z ltac:(lia) Hne) as (k & Hk & Hzz). assert (k = 0) as -> by lia.
  by vm_compute in Hzz; simplify_eq.
Qed.

Definition dec_ok (d : dec) : Prop := readable (rd d) /\ blockData d = replicate 64 0.

(** [d'] is a state decoding can reach from [d]. *)
Definition decoded (d d' : dec) : Prop :=
  moved (rd d) (rd d') /\ redrawn (cur d) (cur d') /\ blockData d' = replicate 64 0.

Lemma decoded_ok d d' : dec_ok d -> decoded d d' -> dec_ok d'.
Proof. intros [Hr _] (Hm & _ & Hb). split; [by apply (readable_moved (rd d))|done]. Qed.

Lemma decoded_trans d1 d2 d3 : decoded d1 d2 -> decoded d2 d3 -> decoded d1 d3.
Proof.
  intros (M1 & R1 & _) (M2 & R2 & B2).
  split; [by transitivity (rd d2)|]. split; [by transitivity (cur d2)|done].
Qed.

Lemma read_moved t r v r' : read t r = Some (v, r') -> moved r r'.
Proof.
  unfold read. destruct (readCode t r) as [[[w|] r1]|] eqn:E; intros; simplify_eq.
  by apply follow_moved in E.
Qed.

Lemma getBits_moved r n v r' : 0 <= n -> getBits r n = (v, r') -> moved r r'.
Proof. unfold getBits. intros Hn ?. simplify_eq. by apply moved_advance. Qed.

Lemma decode_dc_moved t pr r v r' : decode_dc t pr r = Some (v, r') -> moved r r'.
Proof.
  unfold decode_dc. destruct (read t r) as [[size r1]|] eqn:E; cbn [mbind option_bind]; [|done].
  apply read_moved in E. destruct (Z.ltb_spec 0 size); [|intros; by simplify_eq].
  unfold getBits. intros Hv.
  assert (r' = advance r1 size) as -> by (case_match; by simplify_eq).
  transitivity r1; [done|]. apply moved_advance. lia.
Qed.

Section Kept.
Context (g : geometry) (p : picture) (im nm : list Z) (fwd : frame) (Hp : 0 <= forwardRSize p).

Lemma motion_moved prev r a b r' : motion_component p prev r = Some (a, b, r') -> moved r r'.
Proof.
  unfold motion_component. destruct (read MOTION r) as [[code r1]|] eqn:E;
    cbn [mbind option_bind]; [|done].
  apply read_moved in E. unfold getBits. intros He.
  assert (r' = r1 \/ r' = advance r1 (forwardRSize p)) as Hr'.
  { destruct (nz code && negb (forwardF p =? 1)); simplify_eq; auto. }
  transitivity r1; [done|]. destruct Hr' as [-> | ->]; [done|by apply moved_advance].
Qed.

Lemma vectors_moved m r m' r' : decodeMotionVectors p m r = Some (m', r') -> moved r r'.
Proof.
  unfold decodeMotionVectors. destruct (macroblockMotFw m).
  - destruct (motion_component p (motionFwHPrev m) r) as [[[hp h] r1]|] eqn:E1;
      cbn [mbind option_bind]; [|done].
    destruct (motion_component p (motionFwVPrev m) r1) as [[[vp v] r2]|] eqn:E2;
      cbn [mbind option_bind]; [|done].
    intros. simplify_eq. apply motion_moved in E1, E2. by transitivity r1.
  - case_match; intros; by simplify_eq.
Qed.

Lemma support_zero : support 0 (replicate 64 0).
Proof.
  split; [done|]. intros z Hz Hne. destruct Hne. unfold aget.
  by rewrite lookup_replicate_2 by lia.
Qed.

Lemma decodeBlock_ok fuel block d d' :
  dec_ok d -> decodeBlock g im nm fuel block d = Some d' -> decoded d d'.
Proof.
  intros [Hr Hz] He. unfold decodeBlock in He.
  assert (exists m data n r, (if macroblockIntra (mb d) then
       '(v, r) ← decode_dc (if block <? 4 then DCT_DC_SIZE_LUMINANCE else DCT_DC_SIZE_CHROMINANCE)
                           (predictor_of (mb d) block) (rd d);
       Some (save_predictor (mb d) block v, aset (blockData d) 0 (shl v 8), 1, r)
     else Some (mb d, blockData d, 0, rd d)) = Some (m, data, n, r) /\
     moved (rd d) r /\ support n data /\ 0 <= n) as (m & data & n & r & E & Hm & Hs & Hn).
  { destruct (macroblockIntra (mb d)).
    - destruct (decode_dc _ _ (rd d)) as [[v r]|] eqn:E; cbn [mbind option_bind] in *; [|done].
      apply decode_dc_moved in E. eexists _, _, _, _. split; [done|]. split; [done|].
      split; [|lia]. rewrite Hz. change 1 with (0 + 1).
      apply (support_set 0); [apply support_zero|lia|lia|reflexivity].
    - eexists _, _, _, _. split; [done|]. rewrite Hz. split; [done|].
      split; [apply support_zero|lia]. }
  rewrite E in He. cbn [mbind option_bind] in He.
  pose proof (readable_moved _ _ Hr Hm) as Hr'.
  destruct (coefficients fuel _ _ _ n data r) as [[[n' data'] r']|] eqn:Ec;
    cbn [mbind option_bind] in He; [|done].
  apply coefficients_support in Ec as (Hs' & _ & Hn' & Hm'); [|done..].
  pose proof (place_block_redrawn g m block n' data' (cur d)) as Hre.
  pose proof (place_block_cleared g m block n' data' (cur d) Hs' Hn') as Hcl.
  destruct (place_block g m block n' data' (cur d)) as [c data'']. simplify_eq.
  split; [by transitivity r|]. done.
Qed.

Lemma decode_blocks_ok fuel n block mask cbp d d' :
  dec_ok d -> decode_blocks g im nm fuel n block mask cbp d = Some d' -> decoded d d'.
Proof.
  revert block mask d. induction n as [|n IH]; intros block mask d Hd He; cbn [decode_blocks] in He.
  { simplify_eq. destruct Hd as [? Hz]. done. }
  destruct (nz (Z.land cbp mask)); [|by apply IH in He].
  destruct (decodeBlock g im nm fuel block d) as [d1|] eqn:E; cbn [mbind option_bind] in He; [|done].
  apply decodeBlock_ok in E; [|done]. apply (decoded_trans _ d1); [done|].
  eapply IH; [|done]. by apply (decoded_ok d).
Qed.

Lemma stuffing_moved fuel t r t' r' : skip_stuffing fuel t r = Some (t', r') -> moved r r'.
Proof.
  revert t r. induction fuel as [|fuel IH]; intros t r He; cbn [skip_stuffing] in He;
    (destruct (t =? 34); [|by simplify_eq]); [done|].
  destruct (read MACROBLOCK_ADDRESS_INCREMENT r) as [[t1 r1]|] eqn:E;
    cbn [mbind option_bind] in He; [|done].
  apply read_moved in E. apply IH in He. by transitivity r1.
Qed.

Lemma escapes_moved fuel inc t r t' r' : add_escapes fuel inc t r = Some (t', r') -> moved r r'.
Proof.
  revert inc t r. induction fuel as [|fuel IH]; intros inc t r He; cbn [add_escapes] in He;
    (destruct (t =? 35); [|by simplify_eq]); [done|].
  destruct (read MACROBLOCK_ADDRESS_INCREMENT r) as [[t1 r1]|] eqn:E;
    cbn [mbind option_bind] in He; [|done].
  apply read_moved in E. apply IH in He. by transitivity r1.
Qed.

Lemma increment_moved fuel r v r' : read_increment fuel r = Some (v, r') -> moved r r'.
Proof.
  unfold read_increment.
  destruct (read MACROBLOCK_ADDRESS_INCREMENT r) as [[t1 r1]|] eqn:E1; cbn [mbind option_bind]; [|done].
  destruct (skip_stuffing fuel t1 r1) as [[t2 r2]|] eqn:E2; cbn [mbind option_bind]; [|done].
  intros E3. apply read_moved in E1. apply stuffing_moved in E2. apply escapes_moved in E3.
  transitivity r1; [done|]. by transitivity r2.
Qed.

Lemma skip_redrawn n m c : redrawn c (skip_macroblocks g fwd n m c).2.
Proof.
  revert m c. induction n as [|n IH]; intros m c; cbn [skip_macroblocks]; [done|].
  etransitivity; [|apply IH]. apply copyMacroblock_redrawn.
Qed.

Lemma content_ok fuel d d' :
  dec_ok d -> decode_content g p im nm fwd fuel d = Some d' -> decoded d d'.
Proof.
  intros Hd He. unfold decode_content in He.
  destruct (read (MACROBLOCK_TYPE_TABLES (pictureCodingType p)) (rd d)) as [[type r1]|] eqn:E1;
    cbn [mbind option_bind] in He; [|done].
  apply read_moved in E1. set (m1 := _ <| macroblockMotFw := _ |>) in He. clearbody m1.
  destruct (if nz (Z.land type 16) then _ else _) as [m2 r2] eqn:E2.
  assert (moved r1 r2) as H2 by (unfold getBits in E2;
    destruct (nz (Z.land type 16)); simplify_eq; [by apply moved_advance|done]).
  destruct (if macroblockIntra m2 then _ else _) as [[[m3 r3] c]|] eqn:E3; cbn [mbind option_bind] in He; [|done].
  assert (moved r2 r3 /\ redrawn (cur d) c) as [H3 Hc].
  { destruct (macroblockIntra m2); [by simplify_eq|].
    destruct (decodeMotionVectors p (reset_dc m2) r2) as [[m4 r4]|] eqn:E4;
      cbn [mbind option_bind] in E3; [|done]. simplify_eq. apply vectors_moved in E4.
    split; [done|apply copyMacroblock_redrawn]. }
  destruct (if nz (Z.land type 2) then _ else _) as [[cbp r5]|] eqn:E5; cbn [mbind option_bind] in He; [|done].
  assert (moved r3 r5) as H5 by (destruct (nz (Z.land type 2)); [by apply read_moved in E5|by simplify_eq]).
  assert (moved (rd d) r5) as Hm by (transitivity r1; [done|]; transitivity r2; [done|]; by transitivity r3).
  apply decode_blocks_ok in He as (M & R & B).
  - cbn in M, R. split; [by transitivity r5|]. split; [by transitivity c|done].
  - destruct Hd as [Hr Hz]. split; [by apply (readable_moved (rd d))|done].
Qed.

Lemma decodeMacroblock_ok fuel d d' :
  dec_ok d -> decodeMacroblock g p im nm fwd fuel d = Some d' -> decoded d d'.
Proof.
  intros [Hr Hz] He. unfold decodeMacroblock in He.
  destruct (read_increment fuel (rd d)) as [[inc r]|] eqn:E; cbn [mbind option_bind] in He; [|done].
  apply increment_moved in E. pose proof (readable_moved _ _ Hr E) as Hr'.
  assert (forall m c, redrawn (cur d) c ->
    decode_content g p im nm fwd fuel (Dec r m c (blockData d)) = Some d' -> decoded d d') as Hgo.
  { intros m c Hc He'. apply content_ok in He' as (M & R & B); [|done]. cbn in M, R.
    split; [by transitivity r|]. split; [by transitivity c|done]. }
  destruct (sliceBegin (mb d)); [by eapply Hgo|].
  destruct (mbSize g <=? macroblockAddress (mb d) + inc); [by simplify_eq|].
  set (m1 := if 1 <? inc then _ else _) in He. clearbody m1.
  pose proof (skip_redrawn (Z.to_nat (inc - 1)) m1 (cur d)) as Hc.
  destruct (skip_macroblocks g fwd (Z.to_nat (inc - 1)) m1 (cur d)) as [m2 c]. by eapply Hgo.
Qed.

Lemma macroblocks_ok fuel n d d' :
  dec_ok d -> decode_macroblocks g p im nm fwd fuel n d = Some d' -> decoded d d'.
Proof.
  revert d. induction n as [|n IH]; intros d Hd He; cbn [decode_macroblocks] in He; [done|].
  destruct (decodeMacroblock g p im nm fwd fuel d) as [d1|] eqn:E; cbn [mbind option_bind] in He; [|done].
  apply decodeMacroblock_ok in E; [|done]. destruct (nextBytesAreStartCode (rd d1)); [by simplify_eq|].
  apply (decoded_trans _ d1); [done|]. eapply IH; [|done]. by apply (decoded_ok d).
Qed.

Lemma extra_moved fuel r r' : skip_extra fuel r = Some r' -> moved r r'.
Proof.
  revert r. induction fuel as [|fuel IH]; intros r He; [done|].
  cbn [skip_extra] in He. unfold getBits in He. destruct (nz _); [|simplify_eq; by apply moved_advance].
  apply IH in He. transitivity (advance r 1); [by apply moved_advance|].
  transitivity (advance (advance r 1) 8); [by apply moved_advance|done].
Qed.

Lemma decodeSlice_ok fuel slice d d' :
  dec_ok d -> decodeSlice g p im nm fwd fuel slice d = Some d' -> decoded d d'.
Proof.
  intros [Hr Hz] He. unfold decodeSlice, getBits in He.
  destruct (skip_extra fuel (advance (rd d) 5)) as [r|] eqn:E; cbn [mbind option_bind] in He; [|done].
  apply extra_moved in E.
  assert (moved (rd d) r) as Hm by (transitivity (advance (rd d) 5); [by apply moved_advance|done]).
  apply macroblocks_ok in He as (M & R & B).
  - cbn in M, R. split; [by transitivity r|done].
  - split; [by apply (readable_moved (rd d))|done].
Qed.
End Kept.

(** ** Start codes keep the reader usable *)

Definition ready (r : reader) : Prop :=
  readable r /\ 4 <= writePos r <= Z.of_nat (length (store r)) /\
  Z.of_nat (length (store r)) < 16777216.

Lemma ready_moved r r' : ready r -> moved r r' -> ready r'.
Proof. intros (Hr & Hw & Hl) Hm. split; [by apply (readable_moved r)|]. by destruct Hm as (n & _ & ->). Qed.

(** After a search the index is past four bytes of the buffer. *)
Lemma find_ready r code r' :
  ready r -> findNextMPEGStartCode r = (code, r') ->
  ready r' /\ 32 <= index r' /\ store r' = store r /\ writePos r' = writePos r.
Proof.
  intros ((Hb & Hi) & Hw & Hl) He. unfold findNextMPEGStartCode in He.
  pose proof (scan_spec (Z.to_nat (writePos r - shr (index r + 7) 3)) r (shr (index r + 7) 3)) as Hs.
  destruct (scan _ r _) as [j|]; simplify_eq.
  - destruct Hs as (Hj & Hp & _).
    assert (0 <= j).
    { destruct (Z.lt_ge_cases j 0); [|done]. unfold prefix_at, byte_at in Hp.
      rewrite tget_out in Hp by lia. by rewrite bool_decide_eq_false_2 in Hp. }
    assert (32 <= shl (j + 4) 3) as H32 by (rewrite shl_small by lia; lia).
    split; [|done]. split; [split; [done|by apply (Z.le_trans _ 32)]|done].
  - assert (32 <= shl (writePos r) 3) as H32 by (rewrite shl_small by lia; lia).
    split; [|done]. split; [split; [done|by apply (Z.le_trans _ 32)]|done].
Qed.

Lemma skip_headers_ready fuel r code r' :
  ready r -> skip_headers fuel r = Some (code, r') ->
  ready r' /\ 32 <= index r' /\ store r' = store r /\ writePos r' = writePos r.
Proof.
  revert r. induction fuel as [|fuel IH]; intros r Hr He; cbn [skip_headers] in He; [done|].
  destruct (findNextMPEGStartCode r) as [c r1] eqn:E.
  apply find_ready in E as (Hr1 & Hi & Hs & Hw); [|done].
  destruct (bool_decide _ || bool_decide _); [|by simplify_eq].
  apply IH in He as (? & ? & ? & ?); [|done]. split; [done|]. split; [done|]. split; congruence.
Qed.

(** What [decode_slices] leaves. *)
Definition slices_post (d d' : dec) : Prop :=
  ready (rd d') /\ 32 <= index (rd d') /\ store (rd d') = store (rd d) /\
  writePos (rd d') = writePos (rd d) /\ redrawn (cur d) (cur d') /\ blockData d' = replicate 64 0.

Lemma decode_slices_ok g p im nm fwd fuel n code d d' :
  0 <= forwardRSize p -> ready (rd d) -> 32 <= index (rd d) -> blockData d = replicate 64 0 ->
  decode_slices g p im nm fwd fuel n code d = Some d' -> slices_post d d'.
Proof.
  intros Hp. revert code d. induction n as [|n IH]; intros code d Hr Hi Hz He;
    cbn [decode_slices] in He; (destruct (is_slice code); [|by simplify_eq]); [done|].
  destruct (decodeSlice g p im nm fwd fuel (Z.land (default 0 code) 255) d) as [d1|] eqn:E;
    cbn [mbind option_bind] in He; [|done].
  destruct (findNextMPEGStartCode (rd d1)) as [c1 r1] eqn:Ef.
  apply decodeSlice_ok in E as (M & R & B); [|done|by split; [apply Hr|]].
  destruct M as (k & Hk & Hrd).
  assert (ready (rd d1)) as Hr1 by (apply (ready_moved (rd d)); [done|by exists k]).
  apply find_ready in Ef as (Hr2 & Hi2 & Hs2 & Hw2); [|done].
  apply IH in He as (H1 & H2 & H3 & H4 & H5 & H6); [|done..]. cbn in H3, H4, H5.
  split; [done|]. split; [done|]. rewrite H3, H4, Hs2, Hw2, Hrd.
  split; [done|]. split; [done|]. split; [by transitivity (cur d1)|done].
Qed.

(** ** The decoder as a whole *)

(** The types of the decoder: byte-valued planes of the allocated sizes, byte
    values on the canvas, a cleared block, a usable reader. *)
Record wf (j : jsmpeg) : Prop := {
  wf_ready : ready (buffer j);
  wf_current : bytes_frame (current j);
  wf_forward : bytes_frame (forward j);
  wf_shapes : shape (current j) = shape (forward j);
  wf_rgba : Forall byte (currentRGBA j) /\ Forall byte (canvas j);
  wf_block : block_data j = replicate 64 0;
  wf_rsize : 0 <= forwardRSize (pic j) }.

Lemma put_pair_keeps y1 y2 r gr b i rgba :
  length (put_pair y1 y2 r gr b i rgba) = length rgba /\
  (Forall byte rgba -> Forall byte (put_pair y1 y2 r gr b i rgba)).
Proof.
  unfold put_pair. split; [by rewrite !length_tset|].
  intros. repeat (apply tset_byte; [|apply clamp8_byte]). done.
Qed.

Lemma rgba_cols_keeps cols f c y1 y2 i1 i2 rgba :
  let rgba' := rgba_cols cols f c y1 y2 i1 i2 rgba in
  length rgba' = length rgba /\ (Forall byte rgba -> Forall byte rgba').
Proof.
  revert c y1 y2 i1 i2 rgba. induction cols as [|cols IH]; intros; [done|].
  subst rgba'. cbn [rgba_cols].
  match goal with |- context [put_quad ?f ?a ?b ?c ?d ?e ?x] => set (q := put_quad f a b c d e x) end.
  assert (length q = length rgba /\ (Forall byte rgba -> Forall byte q)) as [Hl Hb].
  { subst q. unfold put_quad. split; [by rewrite !(proj1 (put_pair_keeps _ _ _ _ _ _ _))|].
    intros. by do 2 apply put_pair_keeps. }
  destruct (IH (c + 1) (y1 + 2) (y2 + 2) (i1 + 8) (i2 + 8) q) as [Hl' Hb'].
  split; [congruence|auto].
Qed.

Lemma rgba_rows_keeps rows g f c y1 y2 i1 i2 rgba :
  let rgba' := rgba_rows rows g f c y1 y2 i1 i2 rgba in
  length rgba' = length rgba /\ (Forall byte rgba -> Forall byte rgba').
Proof.
  revert c y1 y2 i1 i2 rgba. induction rows as [|rows IH]; intros; [done|].
  subst rgba'. cbn [rgba_rows].
  pose proof (rgba_cols_keeps (Z.to_nat (shr (width g) 1)) f c y1 y2 i1 i2 rgba) as [Hl Hb].
  edestruct IH as [Hl' Hb']. split; [by rewrite Hl'|eauto].
Qed.

(** What decoding does not change: the contents of the buffer, the geometry and
    the sizes of the planes and of the image data. *)
Definition outline (j : jsmpeg) :=
  (store (buffer j), writePos (buffer j), geo j, sequenceStarted j, shape (current j),
   length (currentRGBA j)).

Definition kept (j0 j : jsmpeg) : Prop := wf j /\ outline j = outline j0.

Lemma render_kept j0 j : kept j0 j -> kept j0 (renderFrame2D j).
Proof.
  intros [[H1 H2 H3 H4 [H5 H5'] H6 H7] Ho]. unfold renderFrame2D.
  destruct (rgba_rows_keeps (Z.to_nat (shr (height (geo j)) 1)) (geo j) (current j) 0 0 (codedWidth (geo j)) 0
    (width (geo j) * 4) (currentRGBA j)) as [Hl Hb].
  specialize (Hb H5). split; [by split|]. rewrite <- Ho. exact (f_equal (pair _) Hl).
Qed.

Lemma record_kept j0 j : kept j0 j -> kept j0 (recordFrameFromCurrentBuffer j).
Proof.
  intros [[H1 H2 H3 H4 H5 H6 H7] Ho]. unfold recordFrameFromCurrentBuffer.
  repeat case_match; (split; [by split|done]).
Qed.

Lemma rotate_kept j0 j : kept j0 j -> kept j0 (j <| current := forward j |> <| forward := current j |>).
Proof.
  intros [[H1 H2 H3 H4 H5 H6 H7] Ho]. split; [by split|]. rewrite <- Ho. unfold outline.
  by rewrite H4.
Qed.

(** Decoding the slices of a picture. *)
Lemma slices_kept j0 j r pc d :
  kept j0 j -> slices_post (Dec r (mbs j) (current j) (block_data j)) d -> 0 <= forwardRSize pc ->
  store r = store (buffer j) -> writePos r = writePos (buffer j) ->
  kept j0 (j <| buffer := rewind (rd d) 32 |> <| pic := pc |> <| mbs := mb d |>
             <| current := cur d |> <| block_data := blockData d |>).
Proof.
  intros [[H1 H2 H3 H4 H5 H6 H7] Ho] (((Hb & _) & Hw & Hl) & P2 & P3 & P4 & [P5 P5'] & P6) Hp Hs Hwp.
  split; [split; try done|].
  - split; [split; [done|]|done]. change (0 <= index (rd d) - 32). lia.
  - by apply P5'.
  - change (shape (cur d) = shape (forward j)). rewrite P5. done.
  - rewrite <- Ho. unfold outline.
    change (store (rewind (rd d) 32)) with (store (rd d)). cbn in P3, P4. cbn.
    unfold RecordSettersUsingExistingGetters.const. by rewrite P3, P4, P5, Hs, Hwp.
Qed.

Lemma header_kept j0 j r pc :
  kept j0 j -> moved (buffer j) r -> 0 <= forwardRSize pc ->
  kept j0 (j <| buffer := r |> <| pic := pc |>).
Proof.
  intros [[H1 H2 H3 H4 H5 H6 H7] Ho] Hm Hp. split; [split; try done; by apply (ready_moved (buffer j))|].
  rewrite <- Ho. by destruct Hm as (n & _ & ->).
Qed.

Lemma moved_then r n r' : moved (advance r n) r' -> 0 <= n -> moved r r'.
Proof. intros H Hn. transitivity (advance r n); [by apply moved_advance|done]. Qed.

Lemma decodePicture_kept fuel skip j j' :
  wf j -> decodePicture fuel skip j = Some j' -> kept j j'.
Proof.
  intros Hj. assert (kept j (j <| currentFrame := currentFrame j + 1 |>)) as Hk1.
  { destruct Hj as [H1 H2 H3 H4 H5 H6 H7]. split; [by split|done]. }
  unfold decodePicture. set (j1 := j <| currentFrame := _ |>) in *. pose proof (proj1 Hk1) as Hj1. clearbody j1. clear Hj.
  unfold getBits.
  set (type := nextBits (advance (buffer j1) 10) 3). clearbody type.
  set (r1 := advance (advance (advance (buffer j1) 10) 3) 16).
  assert (moved (buffer j1) r1) as Hr1.
  { subst r1. rewrite !advance_advance. apply moved_advance. lia. }
  clearbody r1. pose proof (wf_rsize _ Hj1) as Hrs.
  set (pc1 := (pic j1) <| pictureCodingType := type |>).
  assert (0 <= forwardRSize pc1) as Hpc1 by done. clearbody pc1.
  destruct ((type <=? 0) || (PICTURE_TYPE_B <=? type)).
  { intros. simplify_eq. by apply header_kept. }
  destruct (if type =? PICTURE_TYPE_P then _ else _) as [pc2 r2] eqn:E.
  assert (moved (buffer j1) r2 /\ 0 <= forwardRSize pc2 /\
    (type = PICTURE_TYPE_P -> 0 <= forwardFCode pc2)) as (Hr2 & Hpc2 & Hf).
  { destruct (Z.eqb_spec type PICTURE_TYPE_P) as [Ht|Ht]; simplify_eq; [|done].
    assert (readable r1) as Hrd
      by (apply (readable_moved (buffer j1)); [apply Hj1|done]).
    split; [|split; [done|]].
    - transitivity r1; [done|]. rewrite advance_advance. apply moved_advance. lia.
    - intros _. apply nextBits_nonneg; [by apply readable_advance|lia]. }
  clear E. destruct ((type =? PICTURE_TYPE_P) && (forwardFCode pc2 =? 0)) eqn:Ez.
  { intros. simplify_eq. by apply header_kept. }
  set (pc3 := if type =? PICTURE_TYPE_P then _ else pc2).
  assert (0 <= forwardRSize pc3) as Hpc3.
  { subst pc3. destruct (Z.eqb_spec type PICTURE_TYPE_P) as [Ht|]; [|done].
    specialize (Hf Ht). change (0 <= forwardFCode pc2 - 1).
    destruct (Z.eqb_spec (forwardFCode pc2) 0); [done|lia]. }
  clearbody pc3. destruct (skip_headers fuel r2) as [[code r3]|] eqn:Eh; cbn [mbind option_bind]; [|done].
  assert (ready r2) as Hrd2 by (apply (ready_moved (buffer j1)); [apply Hj1|done]).
  apply skip_headers_ready in Eh as (Hrd3 & Hi3 & Hs3 & Hw3); [|done].
  destruct (decode_slices _ _ _ _ _ _ _ _ _) as [d|] eqn:Es; cbn [mbind option_bind]; [|done].
  intros He. apply decode_slices_ok in Es; [|done|done|done|apply Hj1].
  destruct Hr2 as (m & _ & ->).
  pose proof (slices_kept j j1 r3 pc3 d Hk1 Es Hpc3 Hs3 Hw3) as Hw.
  assert (forall a b : jsmpeg, kept j a -> Some (a <| current := forward a |> <| forward := current a |>) = Some b ->
    kept j b) as Hrot by (intros a b Ha Hb; simplify_eq; by apply rotate_kept).
  eapply Hrot, He. destruct skip; [by apply record_kept|by apply render_kept, record_kept].
Qed.

(** ** Geometry *)

(** Pictures of up to 4096 by 4096 pixels. *)
Definition sized_picture (w h : Z) : Prop := 0 < w <= 4096 /\ 0 < h <= 4096.

Lemma geometry_spec w h :
  sized_picture w h ->
  let g := new_geometry w h in
  0 < mbWidth g <= 256 /\ 0 < mbHeight g <= 256 /\
  mbSize g = mbWidth g * mbHeight g /\ codedWidth g = 16 * mbWidth g /\ codedHeight g = 16 * mbHeight g /\
  halfWidth g = 8 * mbWidth g /\ codedSize g = 16 * mbWidth g * (16 * mbHeight g) /\
  shr (codedSize g) 2 = 8 * mbWidth g * (8 * mbHeight g) /\
  w <= codedWidth g < w + 16 /\ h <= codedHeight g < h + 16.
Proof.
  intros [Hw Hh]. cbn -[shr shl Z.mul Z.add].
  assert (forall x, 0 < x <= 4096 -> exists q, shr (x + 15) 4 = q /\ 0 < q <= 256 /\ x <= 16 * q < x + 16) as Hq.
  { intros x Hx. exists ((x + 15) / 16). rewrite shr_div by lia. change (2 ^ 4) with 16.
    pose proof (Z.div_mod (x + 15) 16 ltac:(lia)). pose proof (Z.mod_pos_bound (x + 15) 16 ltac:(lia)). lia. }
  destruct (Hq w Hw) as (a & -> & Ha & Haw). destruct (Hq h Hh) as (b & -> & Hb & Hbh).
  rewrite !shl_small by lia. change (2 ^ 4) with 16. change (2 ^ 3) with 8.
  assert (a * b <= 65536) by nia.
  rewrite shr_div by nia. change (2 ^ 2) with 4.
  assert (a * 16 * (b * 16) / 4 = 8 * a * (8 * b)) as ->.
  { symmetry. apply Z.div_unique with (r := 0); lia. }
  repeat split; lia.
Qed.

(** The planes of a picture of this geometry. *)
Definition fits (g : geometry) (f : frame) : Prop :=
  Z.of_nat (length (fY f)) = 16 * mbWidth g * (16 * mbHeight g) /\
  Z.of_nat (length (fCr f)) = 8 * mbWidth g * (8 * mbHeight g) /\
  Z.of_nat (length (fCb f)) = 8 * mbWidth g * (8 * mbHeight g).

Lemma zeros_byte n : Forall byte (zeros n).
Proof. apply Forall_replicate. unfold byte. lia. Qed.

Lemma length_zeros n : 0 <= n -> Z.of_nat (length (zeros n)) = n.
Proof. intros. unfold zeros. rewrite length_replicate. lia. Qed.

Lemma new_frame_bytes g : bytes_frame (new_frame g).
Proof. repeat split; apply zeros_byte. Qed.

Lemma new_frame_fits w h :
  sized_picture w h -> fits (new_geometry w h) (new_frame (new_geometry w h)).
Proof.
  intros Hs. destruct (geometry_spec w h Hs) as (? & ? & _ & _ & _ & _ & H1 & H2 & _).
  unfold fits, new_frame, zeros. cbn [fY fCr fCb]. rewrite !length_replicate, H2, H1.
  rewrite !Z2Nat.id by nia. done.
Qed.

(** ** Motion compensation of a macroblock *)

(** Pixel ([x], [y]) of a plane in blocks of [B] pixels after the block at
    ([row], [col]) was predicted from [s] with the half-pixel vector [(mh, mv)]. *)
Definition predicted (B w row col mh mv : Z) (s before : list Z) (x y : Z) : Z :=
  if (B * row <=? y) && (y <? B * row + B) && (B * col <=? x) && (x <? B * col + B)
  then predict (Z.odd mh) (Z.odd mv) s w ((y + mv / 2) * w + (x + mh / 2))
  else aget before (y * w + x).

Lemma odd_land x : -2147483648 <= x < 2147483648 -> (Z.land (s32 x) 1 =? 1) = Z.odd x.
Proof.
  intros Hx. rewrite s32_small by done. change 1 with (Z.ones 1).
  rewrite Z.land_ones by lia. change (2 ^ 1) with 2. rewrite Zmod_odd. by destruct (Z.odd x).
Qed.

(** The copied macroblock is the reference picture shifted by the vector, with
    half-pixel interpolation by the rounded mean of two or four neighbours; the
    chrominance uses half the vector, rounded towards zero.  Nothing outside the
    macroblock changes. *)
Lemma copyMacroblock_planes w h m mh mv fwd c :
  let g := new_geometry w h in
  sized_picture w h -> fits g c -> bytes_frame fwd ->
  0 <= mbRow m < mbHeight g -> 0 <= mbCol m < mbWidth g ->
  -32768 <= mh < 32768 -> -32768 <= mv < 32768 ->
  let c' := copyMacroblock g fwd m mh mv c in
  (forall x y, 0 <= x < 16 * mbWidth g -> 0 <= y ->
     aget (fY c') (y * (16 * mbWidth g) + x) =
     predicted 16 (16 * mbWidth g) (mbRow m) (mbCol m) mh mv (fY fwd) (fY c) x y) /\
  (forall x y, 0 <= x < 8 * mbWidth g -> 0 <= y ->
     aget (fCr c') (y * (8 * mbWidth g) + x) =
     predicted 8 (8 * mbWidth g) (mbRow m) (mbCol m) (Z.quot mh 2) (Z.quot mv 2) (fCr fwd) (fCr c) x y /\
     aget (fCb c') (y * (8 * mbWidth g) + x) =
     predicted 8 (8 * mbWidth g) (mbRow m) (mbCol m) (Z.quot mh 2) (Z.quot mv 2) (fCb fwd) (fCb c) x y).
Proof.
  intros g Hs (L1 & L2 & L3) (B1 & B2 & B3) Hr Hc Hh Hv.
  destruct (geometry_spec w h Hs) as (Hw & Hht & _ & Hcw & _ & Hhw & _).
  fold g in Hw, Hht, Hcw, Hhw.
  unfold copyMacroblock. cbn [fY fCr fCb]. rewrite Hcw, Hhw.
  assert (forall x, -32768 <= x < 32768 -> -32768 <= Z.quot x 2 < 32768) as Hq.
  { intros x Hx. pose proof (Z.quot_rem x 2 ltac:(lia)). pose proof (Z.rem_bound_abs x 2). lia. }
  pose proof (Hq mh Hh). pose proof (Hq mv Hv).
  rewrite !odd_land, !shr_div by lia. change (2 ^ 1) with 2.
  assert (mbWidth g * mbHeight g < 1048576) by nia.
  split; [|intros x y Hx Hy; split]; try intros x y Hx Hy; unfold predicted.
  - by apply (copy_plane_spec 4 (mbWidth g) (mbHeight g)); auto.
  - by apply (copy_plane_spec 3 (mbWidth g) (mbHeight g)); auto.
  - by apply (copy_plane_spec 3 (mbWidth g) (mbHeight g)); auto.
Qed.

(** One macroblock of 16 by 16 pixels, encoded. *)
Definition demo_picture : list Z :=
  [0; 15; 255; 248; 0; 0; 1; 1; 67; 248; 77; 170; 213; 106; 191; 49; 191; 59; 128; 0; 0; 1; 0].
