(* ===== verification/Canvas.v ===== *)
(** * From the planes to the canvas (public/lib/jsmpg.js, YCbCrToRGBA)

    The colour conversion walks two lines at a time with five running indices;
    it is proved to give every pixel of the canvas the colour of its luminance
    sample and of the chrominance sample of its 2 by 2 square. *)

From S2P Require Import Prelude JsArray MpegTables BitReader MpegCopy MpegBlock MpegDecoder.

(** ** One pair of pixels *)

(** Byte [k] (0 red, 1 green, 2 blue) of a pixel. *)
Definition chan (k : Z) (y r gr b : num) : Z :=
  clamp8 (default 0 (nadd y (if k =? 0 then r else if k =? 1 then Z.opp <$> gr else b))).

Lemma put_pair_get y1 y2 r gr b i rgba j :
  0 <= i -> i + 8 <= Z.of_nat (length rgba) -> 0 <= j ->
  aget (put_pair y1 y2 r gr b i rgba) j =
    if (i <=? j) && (j <? i + 8) && negb ((j - i) mod 4 =? 3)
    then chan ((j - i) mod 4) (if j - i <? 4 then y1 else y2) r gr b else aget rgba j.
Proof.
  intros Hi Hl Hj. unfold put_pair.
  destruct (Z.leb_spec i j), (Z.ltb_spec j (i + 8)); cbn [andb].
  2-4: rewrite !aget_tset_ne by lia; done.
  assert (exists k, j = i + k /\ 0 <= k < 8) as (k & -> & Hk) by (exists (j - i); lia).
  replace (i + k - i) with k by lia.
  assert (k = 0 \/ k = 1 \/ k = 2 \/ k = 3 \/ k = 4 \/ k = 5 \/ k = 6 \/ k = 7) as Hc by lia.
  destruct Hc as [->|[->|[->|[->|[->|[->|[->| ->]]]]]]];
    repeat first [ rewrite aget_tset_eq by (rewrite ?length_tset; lia) | rewrite aget_tset_ne by lia ];
    reflexivity.
Qed.

(** ** A row of squares *)

(** The colour terms of a chrominance sample. *)
Definition red (f : frame) (c : Z) : num :=
  let cr := tget (fCr f) c in nadd (nadd cr (Some (shr (default 0 cr * 103) 8))) (Some (-179)).
Definition green (f : frame) (c : Z) : num :=
  Some (shr (default 0 (tget (fCb f) c) * 88) 8 - 44 + shr (default 0 (tget (fCr f) c) * 183) 8 - 91).
Definition blue (f : frame) (c : Z) : num :=
  let cb := tget (fCb f) c in nadd (nadd cb (Some (shr (default 0 cb * 198) 8))) (Some (-227)).

(** Byte [k] of the pixel with these samples. *)
Definition pixel (f : frame) (k y c : Z) : Z := chan k (tget (fY f) y) (red f c) (green f c) (blue f c).

Lemma put_quad_eq f c y1 y2 i1 i2 rgba :
  put_quad f c y1 y2 i1 i2 rgba =
  put_pair (tget (fY f) y2) (tget (fY f) (y2 + 1)) (red f c) (green f c) (blue f c) i2
    (put_pair (tget (fY f) y1) (tget (fY f) (y1 + 1)) (red f c) (green f c) (blue f c) i1 rgba).
Proof. done. Qed.

Lemma pair_pixel f c y o :
  0 <= o < 8 ->
  chan (o mod 4) (if o <? 4 then tget (fY f) y else tget (fY f) (y + 1)) (red f c) (green f c) (blue f c) =
  pixel f (o mod 4) (y + o / 4) (c + o / 8).
Proof.
  intros Ho. unfold pixel. rewrite (Z.div_small o 8), Z.add_0_r by lia.
  destruct (Z.ltb_spec o 4).
  - by rewrite (Z.div_small o 4), Z.add_0_r by lia.
  - by replace (o / 4) with 1 by (apply Z.div_unique with (r := o - 4); lia).
Qed.

Lemma cols_get n f c y1 y2 i1 i2 rgba j :
  0 <= i1 -> i1 + 8 * Z.of_nat n <= i2 -> i2 + 8 * Z.of_nat n <= Z.of_nat (length rgba) -> 0 <= j ->
  aget (rgba_cols n f c y1 y2 i1 i2 rgba) j =
    if (i1 <=? j) && (j <? i1 + 8 * Z.of_nat n) && negb ((j - i1) mod 4 =? 3)
    then pixel f ((j - i1) mod 4) (y1 + (j - i1) / 4) (c + (j - i1) / 8)
    else if (i2 <=? j) && (j <? i2 + 8 * Z.of_nat n) && negb ((j - i2) mod 4 =? 3)
    then pixel f ((j - i2) mod 4) (y2 + (j - i2) / 4) (c + (j - i2) / 8)
    else aget rgba j.
Proof.
  revert c y1 y2 i1 i2 rgba.
  induction n as [|n IH]; intros c y1 y2 i1 i2 rgba Hi Hii Hl Hj; cbn [rgba_cols].
  { destruct (Z.leb_spec i1 j), (Z.ltb_spec j (i1 + 8 * Z.of_nat 0)), (Z.leb_spec i2 j),
      (Z.ltb_spec j (i2 + 8 * Z.of_nat 0)); try lia; done. }
  rewrite put_quad_eq. set (p1 := put_pair _ _ _ _ _ i1 rgba).
  assert (length p1 = length rgba) as L1 by apply put_pair_keeps.
  assert (forall a b c d e, length (put_pair a b c d e i2 p1) = length rgba) as L2
    by (intros; by rewrite (proj1 (put_pair_keeps _ _ _ _ _ _ _))).
  rewrite IH by (rewrite ?L2; lia).
  rewrite put_pair_get by (rewrite ?L1; lia). subst p1. rewrite put_pair_get by lia.
  replace (j - (i1 + 8)) with (j - i1 + (-1) * 8) by lia. replace (j - (i2 + 8)) with (j - i2 + (-1) * 8) by lia.
  rewrite !Z.div_add by lia.
  replace (j - i1 + (-1) * 8) with (j - i1 + (-2) * 4) by lia.
  replace (j - i2 + (-1) * 8) with (j - i2 + (-2) * 4) by lia.
  rewrite !Z.mod_add, !Z.div_add by lia.
  replace (y1 + 2 + ((j - i1) / 4 + -2)) with (y1 + (j - i1) / 4) by lia.
  replace (y2 + 2 + ((j - i2) / 4 + -2)) with (y2 + (j - i2) / 4) by lia.
  replace (c + 1 + ((j - i1) / 8 + -1)) with (c + (j - i1) / 8) by lia.
  replace (c + 1 + ((j - i2) / 8 + -1)) with (c + (j - i2) / 8) by lia.
  replace (i1 + 8 + 8 * Z.of_nat n) with (i1 + 8 * Z.of_nat (S n)) by lia.
  replace (i2 + 8 + 8 * Z.of_nat n) with (i2 + 8 * Z.of_nat (S n)) by lia.
  pose proof (pair_pixel f c y1 (j - i1)) as P1. pose proof (pair_pixel f c y2 (j - i2)) as P2.
  assert (j < i1 \/ i1 <= j < i1 + 8 \/ i1 + 8 <= j < i1 + 8 * Z.of_nat (S n) \/
    i1 + 8 * Z.of_nat (S n) <= j < i2 \/ i2 <= j < i2 + 8 \/ i2 + 8 <= j < i2 + 8 * Z.of_nat (S n) \/
    i2 + 8 * Z.of_nat (S n) <= j) as [H|[H|[H|[H|[H|[H|H]]]]]] by lia;
    zknown; try done;
    [destruct (negb ((j - i1) mod 4 =? 3)) | destruct (negb ((j - i2) mod 4 =? 3))]; try done;
    [apply P1; lia|apply P2; lia].
Qed.

(** ** The canvas *)

(** The byte at offset [o] of the canvas, in a picture [w] wide whose planes
    are [cw] and [hw] wide. *)
Definition canvas_byte (f : frame) (w cw hw o : Z) : Z :=
  let p := o / 4 in
  pixel f (o mod 4) (p / w * cw + p mod w) (p / w / 2 * hw + p mod w / 2).

(** Moving the planes by one row of squares moves the canvas by two lines. *)
Definition moved_pixel (f : frame) (w cw hw y c o : Z) : Z :=
  let p := o / 4 in
  pixel f (o mod 4) (y + (p / w * cw + p mod w)) (c + (p / w / 2 * hw + p mod w / 2)).

Lemma moved_pixel_down f w cw hw y c o :
  0 < w -> moved_pixel f w cw hw (y + 2 * cw) (c + hw) (o - 8 * w) = moved_pixel f w cw hw y c o.
Proof.
  intros Hw. unfold moved_pixel. replace (o - 8 * w) with (o + (- 2 * w) * 4) by lia.
  rewrite Z.mod_add, Z.div_add by lia. rewrite (Z.div_add _ (-2)), (Z.mod_add _ (-2)) by lia.
  replace (o / 4 / w + -2) with (o / 4 / w + (-1) * 2) by lia. rewrite (Z.div_add _ (-1)) by lia.
  f_equal; ring.
Qed.

Lemma line1_pixel f w cw hw y c o :
  0 < w -> 0 <= o < 4 * w -> pixel f (o mod 4) (y + o / 4) (c + o / 8) = moved_pixel f w cw hw y c o.
Proof.
  intros Hw Ho. unfold moved_pixel.
  assert (0 <= o / 4 < w) by (split; [apply Z.div_pos; lia|apply Z.div_lt_upper_bound; lia]).
  rewrite (Z.div_small (o / 4) w), (Z.mod_small (o / 4) w), Z.div_div by lia.
  change (0 / 2) with 0. change (4 * 2) with 8. by rewrite !Z.mul_0_l, !Z.add_0_l.
Qed.

Lemma line2_pixel f w cw hw y c o :
  0 < w -> 0 <= o < 4 * w ->
  pixel f (o mod 4) (y + cw + o / 4) (c + o / 8) = moved_pixel f w cw hw y c (o + 4 * w).
Proof.
  intros Hw Ho. unfold moved_pixel.
  assert (0 <= o / 4 < w) by (split; [apply Z.div_pos; lia|apply Z.div_lt_upper_bound; lia]).
  replace (o + 4 * w) with (o + w * 4) by lia. rewrite Z.mod_add, Z.div_add by lia.
  replace (o / 4 + w) with (o / 4 + 1 * w) by lia.
  rewrite Z.mod_add, (Z.div_add (o / 4) 1 w), (Z.div_small (o / 4) w), (Z.mod_small (o / 4) w), Z.div_div by lia.
  change ((0 + 1) / 2) with 0. change (4 * 2) with 8. f_equal; lia.
Qed.

Lemma rows_get n g f c y1 i1 rgba j :
  0 < width g < 65536 -> Z.even (width g) = true -> 0 <= i1 ->
  i1 + 8 * width g * Z.of_nat n <= Z.of_nat (length rgba) -> 0 <= j ->
  aget (rgba_rows n g f c y1 (y1 + codedWidth g) i1 (i1 + width g * 4) rgba) j =
    if (i1 <=? j) && (j <? i1 + 8 * width g * Z.of_nat n) && negb ((j - i1) mod 4 =? 3)
    then moved_pixel f (width g) (codedWidth g) (halfWidth g) y1 c (j - i1)
    else aget rgba j.
Proof.
  intros Hw Hev. set (w := width g) in *. set (cw := codedWidth g). set (hw := halfWidth g).
  assert (exists v, w = 2 * v) as [v Hv] by (apply Z.even_spec in Hev as [v Hv]; exists v; lia).
  assert (shr w 1 = v) as Hshr.
  { rewrite shr_div by lia. change (2 ^ 1) with 2. rewrite Hv, Z.mul_comm. apply Z.div_mul. lia. }
  revert c y1 i1 rgba. induction n as [|n IH]; intros c y1 i1 rgba Hi Hl Hj; cbn [rgba_rows].
  { rewrite Z.mul_0_r, Z.add_0_r. destruct (Z.leb_spec i1 j), (Z.ltb_spec j i1); try lia; done. }
  fold w cw hw. rewrite Hshr.
  replace (c + v + (hw - v)) with (c + hw) by lia.
  replace (y1 + 2 * v + (cw + (cw - w))) with (y1 + 2 * cw) by lia.
  replace (y1 + cw + 2 * v + (cw + (cw - w))) with (y1 + 2 * cw + cw) by lia.
  replace (i1 + 8 * v + w * 4) with (i1 + 8 * w) by lia.
  replace (i1 + w * 4 + 8 * v + w * 4) with (i1 + 8 * w + w * 4) by lia.
  rewrite IH; [|lia| |done].
  2:{ rewrite (proj1 (rgba_cols_keeps _ _ _ _ _ _ _ _)). lia. }
  assert (0 <= 8 * w * Z.of_nat n) by (apply Z.mul_nonneg_nonneg; lia).
  rewrite cols_get by lia. rewrite Z2Nat.id by lia.
  replace (i1 + 8 * w + 8 * w * Z.of_nat n) with (i1 + 8 * w * Z.of_nat (S n)) by lia.
  replace (j - (i1 + 8 * w)) with (j - i1 - 8 * w) by lia. rewrite moved_pixel_down by lia.
  replace ((j - i1 - 8 * w) mod 4) with ((j - i1) mod 4)
    by (replace (j - i1 - 8 * w) with (j - i1 + (-2 * w) * 4) by lia; by rewrite Z.mod_add by lia).
  replace ((j - (i1 + w * 4)) mod 4) with ((j - i1) mod 4)
    by (replace (j - (i1 + w * 4)) with (j - i1 + (- w) * 4) by lia; by rewrite Z.mod_add by lia).
  set (e := i1 + 8 * w * Z.of_nat (S n)) in *. assert (i1 + 8 * w <= e) by lia. clearbody e.
  assert (j < i1 \/ i1 <= j < i1 + 4 * w \/ i1 + 4 * w <= j < i1 + 8 * w \/ i1 + 8 * w <= j < e \/ e <= j)
    as [H1|[H1|[H1|[H1|H1]]]] by lia; zknown; try done;
    destruct (negb ((j - i1) mod 4 =? 3)); try done.
  - apply line1_pixel; lia.
  - pose proof (line2_pixel f w cw hw y1 c (j - (i1 + w * 4)) ltac:(lia) ltac:(lia)) as E.
    replace (j - (i1 + w * 4) + 4 * w) with (j - i1) in E by lia. rewrite <- E.
    replace ((j - (i1 + w * 4)) mod 4) with ((j - i1) mod 4)
      by (replace (j - (i1 + w * 4)) with (j - i1 + (- w) * 4) by lia; by rewrite Z.mod_add by lia).
    done.
Qed.

(** Byte [k] of a pixel with luminance [y] and chrominance [cb], [cr]. *)
Definition rgb (k y cb cr : Z) : Z :=
  clamp8 (if k =? 0 then y + (cr + cr * 103 / 256 - 179)
          else if k =? 1 then y - (cb * 88 / 256 - 44 + cr * 183 / 256 - 91)
          else y + (cb + cb * 198 / 256 - 227)).

Lemma pixel_rgb f k y c :
  bytes_frame f -> 0 <= y < Z.of_nat (length (fY f)) -> 0 <= c < Z.of_nat (length (fCr f)) ->
  0 <= c < Z.of_nat (length (fCb f)) -> 0 <= k < 3 ->
  pixel f k y c = rgb k (aget (fY f) y) (aget (fCb f) c) (aget (fCr f) c).
Proof.
  intros (B1 & B2 & B3) Hy Hr Hb Hk. unfold pixel, chan, red, green, blue, rgb.
  rewrite !tget_in by lia. cbn [default from_option nadd fmap option_map option_fmap id].
  pose proof (aget_byte _ c B2). pose proof (aget_byte _ c B3). unfold byte in *.
  rewrite !shr_div by lia. change (2 ^ 8) with 256. f_equal.
  destruct (Z.eqb_spec k 0); [|destruct (Z.eqb_spec k 1)]; cbn [default from_option id]; lia.
Qed.

Lemma square_index w h x y :
  sized_picture w h -> Z.even w = true -> Z.even h = true -> 0 <= x < w -> 0 <= y < h ->
  let g := new_geometry w h in
  0 <= y * codedWidth g + x < 16 * mbWidth g * (16 * mbHeight g) /\
  0 <= y / 2 * halfWidth g + x / 2 < 8 * mbWidth g * (8 * mbHeight g).
Proof.
  intros Hs Ew Eh Hx Hy g. destruct (geometry_spec w h Hs) as (HW & HH & _ & Hcw & Hch & Hhw & _ & _ & Hw1 & Hh1).
  fold g in HW, HH, Hcw, Hch, Hhw, Hw1, Hh1. rewrite Hcw, Hhw in *.
  pose proof (Z.div_mod y 2 ltac:(lia)). pose proof (Z.mod_pos_bound y 2 ltac:(lia)).
  pose proof (Z.div_mod x 2 ltac:(lia)). pose proof (Z.mod_pos_bound x 2 ltac:(lia)).
  assert (forall P Q a b, 0 <= a < Q -> 0 <= b < P -> 0 <= a * P + b < P * Q) as Hin by (intros; nia).
  split; apply Hin; lia.
Qed.

Lemma canvas_spec w h f rgba x y k :
  sized_picture w h -> Z.even w = true -> Z.even h = true ->
  fits (new_geometry w h) f -> bytes_frame f -> Z.of_nat (length rgba) = 4 * w * h ->
  0 <= x < w -> 0 <= y < h -> 0 <= k < 4 ->
  let g := new_geometry w h in
  aget (YCbCrToRGBA g f rgba) (4 * (y * w + x) + k) =
    if k =? 3 then aget rgba (4 * (y * w + x) + k)
    else rgb k (aget (fY f) (y * codedWidth g + x))
           (aget (fCb f) (y / 2 * halfWidth g + x / 2)) (aget (fCr f) (y / 2 * halfWidth g + x / 2)).
Proof.
  intros Hs Ew Eh (F1 & F2 & F3) HB Hl Hx Hy Hk g.
  destruct (square_index w h x y Hs Ew Eh Hx Hy) as [HY HC]. fold g in HY, HC, F1, F2, F3.
  destruct Hs as [Hw Hh]. unfold YCbCrToRGBA. change (height g) with h.
  assert (exists v, h = 2 * v) as [v Hv] by (apply Z.even_spec in Eh as [v Hv]; exists v; lia).
  assert (shr h 1 = v) as ->.
  { rewrite shr_div by lia. change (2 ^ 1) with 2. rewrite Hv, Z.mul_comm. apply Z.div_mul. lia. }
  set (o := 4 * (y * w + x) + k).
  assert (0 <= o < 4 * w * h) as Ho by (subst o; nia).
  pose proof (rows_get (Z.to_nat v) g f 0 0 0 rgba o) as Hg.
  change (0 + codedWidth g) with (codedWidth g) in Hg. change (0 + width g * 4) with (width g * 4) in Hg.
  change (width g) with w in *. rewrite Hg by (done || lia || rewrite Z2Nat.id; lia). clear Hg.
  rewrite Z2Nat.id, Z.sub_0_r by lia. replace (0 + 8 * w * v) with (4 * w * h) by lia.
  assert (o mod 4 = k) as Hm by (symmetry; apply Z.mod_unique with (q := y * w + x); lia).
  assert (o / 4 = y * w + x) as Hd by (symmetry; apply Z.div_unique with (r := k); lia).
  zknown. rewrite Hm. destruct (Z.eqb_spec k 3) as [->|Hk3]; [done|]. cbn [negb].
  unfold moved_pixel. rewrite Hm, Hd, !Z.add_0_l.
  rewrite (Z.add_comm (y * w)), Z.div_add, Z.mod_add, Z.div_small, Z.mod_small, Z.add_0_l by lia.
  apply pixel_rgb; [done|lia|lia|lia|lia].
Qed.

(** C18: what the browser shows is the decoded picture: after the colour
    conversion of a picture of even size, byte [k] of the canvas pixel ([x],
    [y]) is the red, green or blue of the luminance sample at ([x], [y]) and of
    the chrominance samples of its 2 by 2 square, clamped to a byte, whatever
    was on the canvas before; the alpha byte is not touched. *)
Theorem canvas_shows_planes w h f rgba x y k :
  sized_picture w h -> Z.even w = true -> Z.even h = true ->
  fits (new_geometry w h) f -> bytes_frame f -> Z.of_nat (length rgba) = 4 * w * h ->
  0 <= x < w -> 0 <= y < h -> 0 <= k < 4 ->
  let g := new_geometry w h in
  aget (YCbCrToRGBA g f rgba) (4 * (y * w + x) + k) =
    if k =? 3 then aget rgba (4 * (y * w + x) + k)
    else rgb k (aget (fY f) (y * codedWidth g + x))
           (aget (fCb f) (y / 2 * halfWidth g + x / 2)) (aget (fCr f) (y / 2 * halfWidth g + x / 2)).
Proof. apply canvas_spec. Qed.

Definition demo_frame : frame :=
  Frame (Z.of_nat <$> seq 0 256) (replicate 64 200) (replicate 64 90).

Lemma canvas_shows_planes_witness :
  aget (YCbCrToRGBA (new_geometry 6 4) demo_frame (replicate 96 255)) (4 * (3 * 6 + 5) + 0) =
  rgb 0 (aget (fY demo_frame) 53) 90 200.
Proof.
  apply (canvas_shows_planes 6 4 demo_frame (replicate 96 255) 5 3 0);
    [split; lia|reflexivity|reflexivity|split; [reflexivity|split; reflexivity]
    |split; [decide_bytes|split; decide_bytes]|reflexivity|lia|lia|lia].
Defined.
