(* ===== verification/MpegStream.v ===== *)
(** * Encoded pictures

    A reference encoder for the parts of MPEG-1 the round-trip theorems use:
    fields, codewords, DC coefficients, motion vectors, and pictures made of
    8 by 8 blocks of one colour.  Decoding what it writes gives back what was
    encoded. *)

From coqutil Require Import Datatypes.RecordSettersUsingExistingGetters.
From S2P Require Import Prelude JsArray MpegTables BitReader MpegCopy MpegBlock MpegDecoder.

(** ** Fields *)

(** The [n] low bits of [v], most significant first. *)
Fixpoint write (n : nat) (v : Z) : list bool :=
  match n with
  | O => []
  | S n' => Z.testbit v (Z.of_nat n') :: write n' v
  end.

Lemma length_write n v : length (write n v) = n.
Proof. induction n as [|n IH]; cbn; [done|by rewrite IH]. Qed.

Lemma write_value r n v :
  starts r (write n v) -> value (store r) (index r) n = v mod 2 ^ Z.of_nat n.
Proof.
  revert r. induction n as [|n IH]; intros r Hs; [by rewrite Z.mod_1_r|].
  cbn [write] in Hs. apply starts_cons in Hs as [Hb Hs]. apply IH in Hs.
  change (S n) with (1 + n)%nat. rewrite value_app. cbn [value].
  change (Z.of_nat 0) with 0. rewrite Z.add_0_r, Hb.
  rewrite store_advance, index_advance in Hs. change (Z.of_nat 1) with 1. rewrite Hs.
  rewrite Nat2Z.inj_add, (Z.add_comm (Z.of_nat 1)), Z.pow_add_r by lia.
  change (2 ^ Z.of_nat 1) with 2. rewrite Z.rem_mul_r by lia.
  rewrite <- Z.testbit_spec' by lia. change (Z.b2z (Z.testbit v (Z.of_nat n))) with
    (b2z (Z.testbit v (Z.of_nat n))). lia.
Qed.

Lemma getBits_write r n v m :
  starts r (write n v) -> 0 <= v < 2 ^ Z.of_nat n -> (n <= 31)%nat -> room r m -> 0 <= m ->
  getBits r (Z.of_nat n) = (v, advance r (Z.of_nat n)).
Proof.
  intros Hs Hv Hn Hr Hm. unfold getBits. rewrite nextBits_value by (lia || by apply (room_wf r m)).
  rewrite Nat2Z.id, (write_value r n v Hs). by rewrite Z.mod_small.
Qed.

(** ** Codewords *)

Definition code_of (book : list (string * Z)) (v : Z) : list bool :=
  match list_find (fun e => e.2 = v) book with
  | Some (_, (w, _)) => bits_of w
  | None => []
  end.

Lemma code_of_spec book v :
  v ∈ book.*2 -> exists w, (w, v) ∈ book /\ code_of book v = bits_of w.
Proof.
  intros Hv. unfold code_of. destruct (list_find (fun e => e.2 = v) book) as [[i [w x]]|] eqn:E.
  - apply list_find_Some in E as (Hi & Hx & _). cbn in Hx. subst x. exists w.
    split; [by apply list_elem_of_lookup_2 in Hi|done].
  - apply list_find_None in E. apply list_elem_of_fmap in Hv as (e & -> & He).
    rewrite Forall_forall in E. by destruct (E e He).
Qed.

Lemma read_code t book v r :
  (t, book) ∈ tables -> v ∈ book.*2 -> room r 32 -> starts r (code_of book v) ->
  read t r = Some (v, advance r (Z.of_nat (length (code_of book v)))).
Proof.
  intros Ht Hv Hr Hs. destruct (code_of_spec book v Hv) as (w & Hw & E). rewrite E in *.
  unfold read. rewrite (readCode_word t book w v r) by done. by rewrite length_bits_of.
Qed.

(** ** DC coefficients *)

Definition dc_size (d : Z) : Z := if d =? 0 then 0 else Z.log2 (Z.abs d) + 1.

(** The bits that follow the size. *)
Definition dc_field (d : Z) : Z := if d <? 0 then d + 2 ^ dc_size d - 1 else d.

Definition enc_dc (book : list (string * Z)) (d : Z) : list bool :=
  code_of book (dc_size d) ++ write (Z.to_nat (dc_size d)) (dc_field d).

(** The difference [decode_dc] computes from a field. *)
Definition dc_value (size v : Z) : Z :=
  if nz (Z.land v (shl 1 (size - 1))) then v else Z.lor (shl (-1) size) (s32 (v + 1)).

Definition dc_ok (d : Z) : bool :=
  (0 <=? dc_size d) && (dc_size d <=? 8) && (0 <=? dc_field d) && (dc_field d <? 2 ^ dc_size d) &&
  (if dc_size d =? 0 then d =? 0 else dc_value (dc_size d) (dc_field d) =? d).

Lemma dc_all d : -255 <= d <= 255 -> dc_ok d = true.
Proof.
  intros Hd. assert (all_below 511 (fun x => dc_ok (x - 255)) = true) as Hall
    by (vm_compute; reflexivity).
  apply (all_below_spec _ _ (d + 255)) in Hall; [|lia].
  cbn beta in Hall. by replace (d + 255 - 255) with d in Hall by lia.
Qed.

Definition dc_tables : list (list Z * list (string * Z)) :=
  [(DCT_DC_SIZE_LUMINANCE, DCT_DC_SIZE_LUMINANCE_codes);
   (DCT_DC_SIZE_CHROMINANCE, DCT_DC_SIZE_CHROMINANCE_codes)].

Lemma dc_sizes t book d :
  (t, book) ∈ dc_tables -> 0 <= d <= 8 -> (t, book) ∈ tables /\ d ∈ book.*2.
Proof.
  intros Ht Hd. unfold dc_tables in Ht.
  assert (forall b : list Z, forallb (fun d => bool_decide (d ∈ b)) [0; 1; 2; 3; 4; 5; 6; 7; 8] = true -> d ∈ b) as Hin.
  { intros b Hb. rewrite forallb_forall in Hb. eapply bool_decide_eq_true_1, Hb.
    assert (d = 0 \/ d = 1 \/ d = 2 \/ d = 3 \/ d = 4 \/ d = 5 \/ d = 6 \/ d = 7 \/ d = 8) as Hcases by lia.
    cbn. intuition. }
  rewrite elem_of_cons, list_elem_of_singleton in Ht.
  destruct Ht as [Ht|Ht]; injection Ht as -> ->.
  - split; [by apply list_elem_of_lookup_2 with (i := 6%nat)|]. apply Hin. vm_compute. reflexivity.
  - split; [by apply list_elem_of_lookup_2 with (i := 7%nat)|]. apply Hin. vm_compute. reflexivity.
Qed.

Lemma room_after r n m : room r n -> 0 <= m <= n -> room (advance r m) (n - m).
Proof. intros (? & ? & ?) ?. split; [done|]. rewrite index_advance. lia. Qed.

Lemma room_less r n m : room r n -> m <= n -> room r m.
Proof. intros (? & ? & ?) ?. split; [done|]. lia. Qed.

Lemma decode_enc_dc t book pr d r :
  (t, book) ∈ dc_tables -> -255 <= d <= 255 -> room r 64 -> starts r (enc_dc book d) ->
  decode_dc t pr r = Some (s32 (pr + d), advance r (Z.of_nat (length (enc_dc book d)))).
Proof.
  intros Ht Hd Hr Hs. pose proof (dc_all d Hd) as Hok. unfold dc_ok in Hok.
  repeat (apply andb_true_iff in Hok as [Hok ?]).
  destruct (dc_sizes t book (dc_size d) Ht) as [Ht' Hin]; [lia|].
  apply starts_app in Hs as [Hs1 Hs2]. unfold decode_dc.
  rewrite (read_code t book (dc_size d) r) by (done || by apply (room_less r 64)).
  cbn [mbind option_bind]. unfold enc_dc. rewrite length_app, length_write.
  destruct (Z.ltb_spec 0 (dc_size d)).
  - assert (room (advance r (Z.of_nat (length (code_of book (dc_size d))))) 16) as Hr'.
    { assert (length (code_of book (dc_size d)) <= 16)%nat.
      { destruct (code_of_spec book _ Hin) as (w & Hw & ->). rewrite length_bits_of.
        by eapply word_short. }
      eapply room_less; [apply room_after; [done|lia]|lia]. }
    pose proof (getBits_write _ _ (dc_field d) 16 Hs2) as Hg.
    rewrite Z2Nat.id in Hg by lia. rewrite Hg by (done || lia).
    rewrite advance_advance, Nat2Z.inj_add.
    destruct (Z.eqb_spec (dc_size d) 0); [lia|].
    unfold dc_value in *. rewrite Z2Nat.id by lia.
    destruct (nz (Z.land (dc_field d) (shl 1 (dc_size d - 1)))); do 3 f_equal; lia.
  - destruct (Z.eqb_spec (dc_size d) 0); [|lia].
    replace (dc_size d) with 0 by lia. cbn [Z.to_nat]. rewrite Nat.add_0_r. do 3 f_equal. lia.
Qed.

(** ** Motion vectors *)

(** Vectors live in a window of [32 * f] half pixels. *)
Definition wrap_vector (f x : Z) : Z := (x + 16 * f) mod (32 * f) - 16 * f.

Definition motion_code (f delta : Z) : Z :=
  if delta =? 0 then 0 else Z.sgn delta * ((Z.abs delta - 1) / f + 1).

Definition enc_motion (f : Z) (rsize : nat) (delta : Z) : list bool :=
  code_of MOTION_codes (motion_code f delta) ++
  if nz (motion_code f delta) && negb (f =? 1) then write rsize ((Z.abs delta - 1) mod f) else [].

Lemma wrap_vector_step f x :
  0 < f -> -32 * f <= x < 32 * f ->
  (if 16 * f - 1 <? x then x - 32 * f else if x <? - (16 * f) then x + 32 * f else x) = wrap_vector f x.
Proof.
  intros Hf Hx. unfold wrap_vector.
  destruct (Z.ltb_spec (16 * f - 1) x); [|destruct (Z.ltb_spec x (- (16 * f)))].
  - enough ((x + 16 * f) mod (32 * f) = x - 16 * f) by lia.
    symmetry. apply Z.mod_unique with (q := 1); lia.
  - enough ((x + 16 * f) mod (32 * f) = x + 48 * f) by lia.
    symmetry. apply Z.mod_unique with (q := -1); lia.
  - rewrite Z.mod_small by lia. lia.
Qed.

Lemma wrap_vector_back f prev v :
  0 < f -> -16 * f <= v < 16 * f -> wrap_vector f (prev + wrap_vector f (v - prev)) = v.
Proof.
  intros Hf Hv. unfold wrap_vector.
  replace (prev + ((v - prev + 16 * f) mod (32 * f) - 16 * f) + 16 * f)
    with ((v - prev + 16 * f) mod (32 * f) + prev) by lia.
  rewrite Z.add_mod_idemp_l by lia. replace (v - prev + 16 * f + prev) with (v + 16 * f) by lia.
  rewrite Z.mod_small by lia. lia.
Qed.

Lemma wrap_vector_range f x : 0 < f -> -16 * f <= wrap_vector f x < 16 * f.
Proof. intros Hf. unfold wrap_vector. pose proof (Z.mod_pos_bound (x + 16 * f) (32 * f)). lia. Qed.

Lemma motion_code_in f delta :
  0 < f -> -16 * f <= delta <= 16 * f -> motion_code f delta ∈ MOTION_codes.*2.
Proof.
  intros Hf Hd. assert (-16 <= motion_code f delta <= 16) as Hc.
  { unfold motion_code. destruct (Z.eqb_spec delta 0); [lia|].
    assert (0 <= (Z.abs delta - 1) / f <= 15).
    { split; [apply Z.div_pos; lia|]. apply Z.lt_succ_r, Z.div_lt_upper_bound; lia. }
    destruct (Z.sgn_spec delta) as [[? ->]|[[? ->]|[? ->]]]; lia. }
  assert (all_below 33 (fun x => bool_decide (x - 16 ∈ MOTION_codes.*2)) = true) as Hall
    by (vm_compute; reflexivity).
  apply (all_below_spec _ _ (motion_code f delta + 16)) in Hall; [|lia].
  apply bool_decide_eq_true_1 in Hall. by replace (motion_code f delta + 16 - 16) with (motion_code f delta) in Hall by lia.
Qed.

(** The displacement read back. *)
Lemma motion_delta f rsize delta :
  f = 2 ^ Z.of_nat rsize -> (rsize <= 6)%nat -> delta <> 0 -> -16 * f <= delta <= 16 * f ->
  let d := shl (Z.abs (motion_code f delta) - 1) (Z.of_nat rsize) + (Z.abs delta - 1) mod f + 1 in
  (if motion_code f delta <? 0 then - d else d) = delta /\ (f = 1 -> motion_code f delta = delta) /\
  nz (motion_code f delta) = true.
Proof.
  intros Hf Hr Hd Hb. assert (0 < f) by (subst f; apply Z.pow_pos_nonneg; lia).
  assert (f <= 64) by (subst f; change 64 with (2 ^ 6); apply Z.pow_le_mono_r; lia).
  unfold motion_code. destruct (Z.eqb_spec delta 0); [done|].
  set (q := (Z.abs delta - 1) / f).
  assert (0 <= q <= 15) as Hq.
  { split; [apply Z.div_pos; lia|]. apply Z.lt_succ_r, Z.div_lt_upper_bound; lia. }
  pose proof (Z.div_mod (Z.abs delta - 1) f ltac:(lia)) as Hdm. fold q in Hdm.
  pose proof (Z.mod_pos_bound (Z.abs delta - 1) f ltac:(lia)) as Hm.
  set (m := (Z.abs delta - 1) mod f) in *. clearbody q m.
  assert (Z.abs (Z.sgn delta * (q + 1)) - 1 = q) as ->.
  { destruct (Z.sgn_spec delta) as [[? ->]|[[? ->]|[? ->]]]; lia. }
  rewrite shl_small by (try rewrite <- Hf; nia). rewrite <- Hf.
  destruct (Z.sgn_spec delta) as [[? ->]|[[? ->]|[? ->]]]; [|lia|].
  - destruct (Z.ltb_spec (1 * (q + 1)) 0); [lia|].
    split; [lia|]. split; [intros Hf1; rewrite Hf1 in Hdm, Hm; lia|]. unfold nz. destruct (Z.eqb_spec (1 * (q + 1)) 0); [lia|done].
  - change (- (1)) with (-1). destruct (Z.ltb_spec (-1 * (q + 1)) 0); [|lia].
    split; [lia|]. split; [intros Hf1; rewrite Hf1 in Hdm, Hm; lia|]. unfold nz. destruct (Z.eqb_spec (-1 * (q + 1)) 0); [lia|done].
Qed.

Lemma motion_code_read f delta r :
  0 < f <= 64 -> -16 * f <= delta < 16 * f -> room r 64 -> starts r (code_of MOTION_codes (motion_code f delta)) ->
  read MOTION r = Some (motion_code f delta, advance r (Z.of_nat (length (code_of MOTION_codes (motion_code f delta))))) /\
  (length (code_of MOTION_codes (motion_code f delta)) <= 16)%nat.
Proof.
  intros Hf Hd Hr Hs. assert (motion_code f delta ∈ MOTION_codes.*2) as Hin by (apply motion_code_in; lia).
  split.
  - apply read_code; [by apply list_elem_of_lookup_2 with (i := 5%nat)|done|by apply (room_less r 64)|done].
  - destruct (code_of_spec _ _ Hin) as (w & Hw & ->). rewrite length_bits_of.
    eapply word_short; [|done]. by apply list_elem_of_lookup_2 with (i := 5%nat).
Qed.

(** The difference is read back from its code and the bits behind it. *)
Lemma delta_read f rsize delta r n :
  f = 2 ^ Z.of_nat rsize -> (rsize <= 6)%nat -> -16 * f <= delta < 16 * f ->
  n = length (code_of MOTION_codes (motion_code f delta)) -> room (advance r (Z.of_nat n)) 16 ->
  starts (advance r (Z.of_nat n))
    (if nz (motion_code f delta) && negb (f =? 1) then write rsize ((Z.abs delta - 1) mod f) else []) ->
  (if nz (motion_code f delta) && negb (f =? 1) then
      let '(x, r) := getBits (advance r (Z.of_nat n)) (Z.of_nat rsize) in
      (if motion_code f delta <? 0 then - (shl (Z.abs (motion_code f delta) - 1) (Z.of_nat rsize) + x + 1)
       else shl (Z.abs (motion_code f delta) - 1) (Z.of_nat rsize) + x + 1, r)
    else (motion_code f delta, advance r (Z.of_nat n))) =
  (delta, advance r (Z.of_nat (length (enc_motion f rsize delta)))).
Proof.
  intros Hf Hr6 Hd Hn Hr Hs. unfold enc_motion. rewrite length_app, <- Hn.
  assert (0 < f) as Hf0 by (rewrite Hf; apply Z.pow_pos_nonneg; lia).
  destruct (Z.eq_dec delta 0) as [->|Hne].
  { change (motion_code f 0) with 0 in *. cbn. by rewrite Nat.add_0_r. }
  destruct (motion_delta f rsize delta Hf Hr6 Hne ltac:(lia)) as (Hdelta & Hone & Hnz).
  rewrite Hnz in *. cbn [andb] in *. destruct (Z.eqb_spec f 1) as [H1|H1]; cbn [negb] in *.
  { cbn. rewrite Nat.add_0_r. f_equal. auto. }
  pose proof (Z.mod_pos_bound (Z.abs delta - 1) f ltac:(lia)).
  rewrite (getBits_write _ rsize ((Z.abs delta - 1) mod f) 16 Hs) by (done || lia || (rewrite <- Hf; lia)).
  f_equal; [done|]. by rewrite length_write, advance_advance, Nat2Z.inj_add.
Qed.

Lemma motion_decoded p prev v rsize r :
  forwardRSize p = Z.of_nat rsize -> forwardF p = 2 ^ Z.of_nat rsize -> (rsize <= 6)%nat ->
  -16 * forwardF p <= prev < 16 * forwardF p -> -16 * forwardF p <= v < 16 * forwardF p ->
  room r 64 -> starts r (enc_motion (forwardF p) rsize (wrap_vector (forwardF p) (v - prev))) ->
  motion_component p prev r =
  Some (v, if nz (fullPelForward p) then shl v 1 else v,
        advance r (Z.of_nat (length (enc_motion (forwardF p) rsize (wrap_vector (forwardF p) (v - prev)))))).
Proof.
  intros Hrs Hf Hr6 Hp Hv Hr Hs. set (f := forwardF p) in *.
  assert (0 < f) as Hf0 by (rewrite Hf; apply Z.pow_pos_nonneg; lia).
  assert (f <= 64) by (rewrite Hf; change 64 with (2 ^ 6); apply Z.pow_le_mono_r; lia).
  pose proof (wrap_vector_range f (v - prev) Hf0) as Hd.
  pose proof (wrap_vector_back f prev v Hf0 Hv) as Hback.
  set (delta := wrap_vector f (v - prev)) in *. clearbody delta.
  apply starts_app in Hs as [Hs1 Hs2]. unfold motion_component. fold f.
  destruct (motion_code_read f delta r) as [-> Hn]; [lia|lia|done|done|]. cbn [mbind option_bind].
  rewrite Hrs, (delta_read f rsize) by (done || lia || (eapply room_less; [apply room_after; [done|lia]|lia])).
  rewrite !shl_small by lia. change (2 ^ 4) with 16. change (2 ^ 5) with 32.
  rewrite <- wrap_vector_step in Hback by lia.
  replace (f * 16) with (16 * f) by lia. replace (f * 32) with (32 * f) by lia.
  replace (- f * 16) with (- (16 * f)) by lia. by rewrite Hback.
Qed.

Lemma length_enc_motion f rsize delta :
  f = 2 ^ Z.of_nat rsize -> (rsize <= 6)%nat -> -16 * f <= delta < 16 * f ->
  (length (enc_motion f rsize delta) <= 22)%nat.
Proof.
  intros Hf Hr Hd. assert (0 < f) by (rewrite Hf; apply Z.pow_pos_nonneg; lia).
  assert (f <= 64) by (rewrite Hf; change 64 with (2 ^ 6); apply Z.pow_le_mono_r; lia).
  assert (motion_code f delta ∈ MOTION_codes.*2) as Hin by (apply motion_code_in; lia).
  unfold enc_motion. rewrite length_app.
  assert (length (code_of MOTION_codes (motion_code f delta)) <= 16)%nat.
  { destruct (code_of_spec _ _ Hin) as (w & Hw & ->). rewrite length_bits_of.
    eapply word_short; [|done]. by apply list_elem_of_lookup_2 with (i := 5%nat). }
  case_match; [rewrite length_write|cbn]; lia.
Qed.

(** Both components of the forward vector, written as the wrapped difference from
    the last vector with the codes and the extra bits of the picture's f_code, are
    read back; for full-pel pictures the vector is doubled. *)
Lemma vectors_decoded p m r rsize h v :
  let f := forwardF p in
  let enc prev x := enc_motion f rsize (wrap_vector f (x - prev)) in
  let scale x := if nz (fullPelForward p) then shl x 1 else x in
  let bits := enc (motionFwHPrev m) h ++ enc (motionFwVPrev m) v in
  macroblockMotFw m = true -> forwardRSize p = Z.of_nat rsize -> f = 2 ^ Z.of_nat rsize -> (rsize <= 6)%nat ->
  -16 * f <= motionFwHPrev m < 16 * f -> -16 * f <= motionFwVPrev m < 16 * f ->
  -16 * f <= h < 16 * f -> -16 * f <= v < 16 * f -> room r 128 -> starts r bits ->
  decodeMotionVectors p m r =
  Some (m <| motionFwHPrev := h |> <| motionFwH := scale h |>
          <| motionFwVPrev := v |> <| motionFwV := scale v |>, advance r (Z.of_nat (length bits))).
Proof.
  intros f enc scale bits Hm Hrs Hf Hr6 Hph Hpv Hh Hv Hr Hs. apply starts_app in Hs as [Hs1 Hs2].
  assert (0 < f) as Hf0 by (rewrite Hf; apply Z.pow_pos_nonneg; lia).
  pose proof (length_enc_motion f rsize _ Hf Hr6 (wrap_vector_range f (h - motionFwHPrev m) Hf0)) as Hl.
  unfold decodeMotionVectors. rewrite Hm.
  rewrite (motion_decoded p _ h rsize) by (done || by apply (room_less r 128)). cbn [mbind option_bind].
  rewrite (motion_decoded p _ v rsize); try done.
  - cbn [mbind option_bind]. subst bits. by rewrite length_app, Nat2Z.inj_add, advance_advance.
  - eapply room_less; [apply room_after; [done|]|]; fold f; lia.
Qed.
