(* ===== verification/MpegPicture.v ===== *)
(** * The layers of a picture

    What the proofs about encoded pictures share: bits packed into bytes and read
    back, the header of an intra picture, and slices.  Whatever is encoded in a row
    of macroblocks, when the decoder draws each row as it should, it draws the
    picture, and stands at the next start code.  The last section says which
    pixels of the planes the blocks of a macroblock are. *)

From coqutil Require Import Datatypes.RecordSettersUsingExistingGetters.
From S2P Require Import Prelude JsArray MpegTables BitReader MpegCopy MpegBlock MpegDecoder Canvas MpegStream.

(** ** The encoder *)

(** The predictors of the luminance, of block 4 and of block 5. *)
Definition preds : Type := Z * Z * Z.

Definition pred (pr : preds) (block : Z) : Z :=
  if block <? 4 then pr.1.1 else if block =? 4 then pr.1.2 else pr.2.
Definition set_pred (pr : preds) (block v : Z) : preds :=
  if block <? 4 then (v, pr.1.2, pr.2) else if block =? 4 then (pr.1.1, v, pr.2) else (pr.1.1, pr.1.2, v).

Definition dc_book (block : Z) : list (string * Z) :=
  if block <? 4 then DCT_DC_SIZE_LUMINANCE_codes else DCT_DC_SIZE_CHROMINANCE_codes.

Definition preds_start : preds := (128, 128, 128).

(** Bits to bytes, the last one filled with zeros. *)
Definition byte_of (w : list bool) : Z :=
  let b k := b2z (default false (w !! k)) in
  128 * b 0%nat + 64 * b 1%nat + 32 * b 2%nat + 16 * b 3%nat + 8 * b 4%nat + 4 * b 5%nat +
  2 * b 6%nat + b 7%nat.

Fixpoint pack_n (n : nat) (w : list bool) : list Z :=
  match n with
  | O => []
  | S n' => byte_of (take 8 w) :: pack_n n' (drop 8 w)
  end.

Definition pack (w : list bool) : list Z := pack_n ((length w + 7) / 8) w.

(** ** The picture that should appear *)

(** A macroblock at this place. *)
Definition spot (row col : Z) : macroblock := Macroblock 0 false 0 row col 0 false false 0 0 0 0 0 0 0.

(** What becomes of entry [n] of a block over the value [old]. *)
Definition painter : Type := Z -> Z -> Z.

(** A block of 8 by 8, or none. *)
Definition draw_block (g : geometry) (row col block : Z) (o : option painter) (c : frame) : frame :=
  match o with
  | Some f => let '(i, scan) := destination g (spot row col) block in
              on_plane block (fun dest => put_rows 8 f 0 i scan dest) c
  | None => c
  end.

Fixpoint draw_blocks (g : geometry) (row col block : Z) (fs : list (option painter)) (c : frame) : frame :=
  match fs with
  | [] => c
  | f :: fs' => draw_blocks g row col (block + 1) fs' (draw_block g row col block f c)
  end.

(** ** Bytes in the buffer *)

Definition holds (r : reader) (p : Z) (l : list Z) : Prop :=
  forall k x, l !! k = Some x -> tget (store r) (p + Z.of_nat k) = Some x.

Lemma holds_app r p l1 l2 :
  holds r p (l1 ++ l2) <-> holds r p l1 /\ holds r (p + Z.of_nat (length l1)) l2.
Proof.
  split.
  - intros H. split; intros k x Hk.
    + apply H. by apply lookup_app_l_Some.
    + rewrite <- (H (length l1 + k)%nat x); [f_equal; lia|].
      rewrite lookup_app_r by lia. by replace (length l1 + k - length l1)%nat with k by lia.
  - intros [H1 H2] k x Hk. apply lookup_app_Some in Hk as [Hk|[Hle Hk]]; [by apply H1|].
    rewrite <- (H2 _ x Hk). f_equal. lia.
Qed.

Lemma holds_in r p l : holds r p l -> 0 <= p -> l <> [] -> p + Z.of_nat (length l) <= Z.of_nat (length (store r)).
Proof.
  intros H Hp Hl. destruct (lookup_lt_is_Some_2 l (length l - 1)) as [x Hx].
  { destruct l; [done|]. cbn. lia. }
  apply H in Hx. unfold tget in Hx. destruct (Z.leb_spec 0 (p + Z.of_nat (length l - 1))); [|lia].
  apply lookup_lt_Some in Hx. assert (length l <> 0%nat) by (by destruct l). lia.
Qed.

Definition byte8 (b0 b1 b2 b3 b4 b5 b6 b7 : bool) : Z :=
  128 * b2z b0 + 64 * b2z b1 + 32 * b2z b2 + 16 * b2z b3 + 8 * b2z b4 + 4 * b2z b5 +
  2 * b2z b6 + b2z b7.

Lemma byte8_bits b0 b1 b2 b3 b4 b5 b6 b7 :
  let x := byte8 b0 b1 b2 b3 b4 b5 b6 b7 in
  Z.testbit x 7 = b0 /\ Z.testbit x 6 = b1 /\ Z.testbit x 5 = b2 /\ Z.testbit x 4 = b3 /\
  Z.testbit x 3 = b4 /\ Z.testbit x 2 = b5 /\ Z.testbit x 1 = b6 /\ Z.testbit x 0 = b7.
Proof. destruct b0, b1, b2, b3, b4, b5, b6, b7; vm_compute; repeat split. Qed.

Lemma byte_of_bit w k :
  (k < 8)%nat -> Z.testbit (byte_of w) (7 - Z.of_nat k) = default false (w !! k).
Proof.
  intros Hk. change (byte_of w) with (byte8 (default false (w !! 0%nat)) (default false (w !! 1%nat))
    (default false (w !! 2%nat)) (default false (w !! 3%nat)) (default false (w !! 4%nat))
    (default false (w !! 5%nat)) (default false (w !! 6%nat)) (default false (w !! 7%nat))).
  pose proof (byte8_bits (default false (w !! 0%nat)) (default false (w !! 1%nat))
    (default false (w !! 2%nat)) (default false (w !! 3%nat)) (default false (w !! 4%nat))
    (default false (w !! 5%nat)) (default false (w !! 6%nat)) (default false (w !! 7%nat)))
    as (H0 & H1 & H2 & H3 & H4 & H5 & H6 & H7).
  do 8 (destruct k as [|k]; [done|]). lia.
Qed.

Lemma pack_n_bit n w k b :
  w !! k = Some b -> (k < 8 * n)%nat ->
  exists x, pack_n n w !! (k / 8)%nat = Some x /\ Z.testbit x (7 - Z.of_nat (k mod 8)) = b.
Proof.
  revert w k. induction n as [|n IH]; intros w k Hk Hn; [lia|]. cbn [pack_n].
  destruct (Nat.lt_ge_cases k 8) as [Hk8|Hk8].
  - rewrite Nat.div_small, Nat.mod_small by done. exists (byte_of (take 8 w)). split; [done|].
    rewrite byte_of_bit by done. by rewrite lookup_take_lt, Hk by done.
  - destruct (IH (drop 8 w) (k - 8)%nat) as (x & Hx & Hb);
      [rewrite lookup_drop; by replace (8 + (k - 8))%nat with k by lia|lia|].
    exists x. replace k with ((k - 8) + 1 * 8)%nat at 1 2 by lia.
    rewrite Nat.div_add, Nat.Div0.mod_add by lia. rewrite Nat.add_1_r. done.
Qed.

Lemma length_pack_n n w : length (pack_n n w) = n.
Proof. revert w. induction n as [|n IH]; intros w; cbn; [done|by rewrite IH]. Qed.

Lemma length_pack w : length (pack w) = ((length w + 7) / 8)%nat.
Proof. apply length_pack_n. Qed.

(** Packed bits are read back. *)
Lemma holds_starts r p w :
  holds r p (pack w) -> index r = 8 * p -> 0 <= p -> starts r w.
Proof.
  intros H Hi Hp k b Hk. unfold pack in H.
  assert (k < length w)%nat by (by eapply lookup_lt_Some).
  destruct (pack_n_bit ((length w + 7) / 8) w k b Hk) as (x & Hx & Hb).
  { pose proof (Nat.div_mod_eq (length w + 7) 8). pose proof (Nat.mod_upper_bound (length w + 7) 8). lia. }
  unfold bit. rewrite Hi.
  assert ((8 * p + Z.of_nat k) / 8 = p + Z.of_nat (k / 8)) as ->.
  { rewrite Nat2Z.inj_div. rewrite Z.add_comm, Z.mul_comm, Z.div_add by lia. lia. }
  assert ((8 * p + Z.of_nat k) mod 8 = Z.of_nat (k mod 8)) as ->.
  { rewrite Nat2Z.inj_mod. rewrite Z.add_comm, Z.mul_comm, Z.mod_add by lia. done. }
  by rewrite (H _ x Hx).
Qed.

(** ** Blocks *)

Lemma end_of_block fuel intra q qm n data r :
  0 < n -> room r 32 -> starts r [true; false] ->
  coefficients (S fuel) intra q qm n data r = Some (n, data, advance r 2).
Proof.
  intros Hn Hr Hs. cbn [coefficients].
  change [true; false] with (code_of DCT_COEFF_codes 1 ++ [false]) in Hs.
  apply starts_app in Hs as [Hs1 Hs2].
  rewrite (read_code DCT_COEFF DCT_COEFF_codes 1 r);
    [|by apply list_elem_of_lookup_2 with (i := 8%nat)|by apply list_elem_of_lookup_2 with (i := 0%nat)|done|done].
  cbn [mbind option_bind]. change (Z.of_nat (length (code_of DCT_COEFF_codes 1))) with 1 in *.
  change (1 =? 1) with true. destruct (Z.ltb_spec 0 n); [|lia]. cbn [andb].
  apply starts_cons in Hs2 as [Hb _].
  rewrite getBits_one, Hb by (apply (room_wf _ 31); [lia|by apply (room_after r 32 1); [|lia]]).
  by rewrite advance_advance.
Qed.

Lemma length_enc_dc book d : -255 <= d <= 255 ->
  book = DCT_DC_SIZE_LUMINANCE_codes \/ book = DCT_DC_SIZE_CHROMINANCE_codes ->
  (length (enc_dc book d) <= 16)%nat.
Proof.
  intros Hd Hb.
  assert (all_below 511 (fun x => (length (enc_dc DCT_DC_SIZE_LUMINANCE_codes (x - 255)) <=? 16)%nat &&
    (length (enc_dc DCT_DC_SIZE_CHROMINANCE_codes (x - 255)) <=? 16)%nat) = true) as Hall
    by (vm_compute; reflexivity).
  apply (all_below_spec _ _ (d + 255)) in Hall; [|lia]. cbn beta in Hall.
  replace (d + 255 - 255) with d in Hall by lia. apply andb_true_iff in Hall as [H1 H2].
  destruct Hb as [-> | ->]; by apply Nat.leb_le.
Qed.

Definition preds_of (m : macroblock) : preds := (dcPredictorY m, dcPredictorCr m, dcPredictorCb m).

Definition byte_preds (pr : preds) : Prop := byte pr.1.1 /\ byte pr.1.2 /\ byte pr.2.

Lemma byte_pred pr block : byte_preds pr -> byte (pred pr block).
Proof. intros (? & ? & ?). unfold pred. by repeat case_match. Qed.

Lemma byte_set_pred pr block v : byte_preds pr -> byte v -> byte_preds (set_pred pr block v).
Proof. intros (? & ? & ?) ?. unfold set_pred. by repeat case_match. Qed.

Lemma preds_save m block v : preds_of (save_predictor m block v) = set_pred (preds_of m) block v.
Proof. unfold save_predictor, set_pred, preds_of. by repeat case_match. Qed.

(** The fields of a macroblock that its blocks do not change. *)
Definition same_place (m m' : macroblock) : Prop :=
  mbRow m' = mbRow m /\ mbCol m' = mbCol m /\ macroblockIntra m' = macroblockIntra m /\
  macroblockAddress m' = macroblockAddress m /\ sliceBegin m' = sliceBegin m /\
  motionFwHPrev m' = motionFwHPrev m /\ motionFwVPrev m' = motionFwVPrev m /\
  quantizerScale m' = quantizerScale m.

Lemma same_save m block v : same_place m (save_predictor m block v).
Proof. unfold save_predictor. by repeat case_match. Qed.

(** ** Slices *)

Lemma same_place_trans m1 m2 m3 : same_place m1 m2 -> same_place m2 m3 -> same_place m1 m3.
Proof. unfold same_place. intuition congruence. Qed.

Lemma find_here r :
  sized r -> from r < writePos r -> prefix_at r (from r) = true ->
  findNextMPEGStartCode r = (byte_at r (from r + 3), r <| index := 8 * (from r + 4) |>).
Proof.
  intros Hr Hw Hp. pose proof (find_spec r Hr) as Hs.
  destruct (findNextMPEGStartCode r) as [c r'].
  destruct Hs as [(i & Hi & Hpi & Hmin & -> & ->)|(Hno & _)].
  - destruct (Z.eq_dec i (from r)) as [->|]; [done|]. by rewrite Hmin in Hp by lia.
  - by rewrite Hno in Hp by lia.
Qed.

Lemma holds_prefix r p k l : holds r p ([0; 0; 1; k] ++ l) -> prefix_at r p = true /\ byte_at r (p + 3) = Some k.
Proof.
  intros H. unfold prefix_at, byte_at.
  pose proof (H 0%nat 0 eq_refl) as E0. pose proof (H 1%nat 0 eq_refl) as E1.
  pose proof (H 2%nat 1 eq_refl) as E2. pose proof (H 3%nat k eq_refl) as E3.
  change (Z.of_nat 0) with 0 in E0. change (Z.of_nat 1) with 1 in E1.
  change (Z.of_nat 2) with 2 in E2. change (Z.of_nat 3) with 3 in E3.
  rewrite Z.add_0_r in E0. rewrite E0, E1, E2, E3.
  by rewrite !bool_decide_eq_true_2.
Qed.

(** What [decodeSlice] leaves to the first macroblock of a slice. *)
Record slice_start (q : Z) (m : macroblock) : Prop := {
  ss_scale : quantizerScale m = q;
  ss_begin : sliceBegin m = true;
  ss_preds : preds_of m = preds_start;
  ss_motion : motionFwHPrev m = 0 /\ motionFwVPrev m = 0 }.

Lemma from_after r w p :
  index r = 8 * p -> from (advance r (Z.of_nat (length w))) = p + Z.of_nat (length (pack w)).
Proof.
  intros Hi. unfold from. rewrite index_advance, Hi, length_pack, Nat2Z.inj_div, Nat2Z.inj_add.
  replace (8 * p + Z.of_nat (length w) + 7) with (Z.of_nat (length w) + 7 + p * 8) by lia.
  rewrite Z.div_add by lia. change (Z.of_nat 7) with 7. change (Z.of_nat 8) with 8. lia.
Qed.

(** Slices whose macroblocks are encoded by [encr] and drawn by [drawr]. *)
Section Slices.
Context {R : Type} (encr : R -> list bool) (drawr : Z -> R -> frame -> frame) (okr : R -> Prop).
Context (g : geometry) (pc : picture) (im nm : list Z) (fwd : frame) (fuel : nat) (q ending : Z).

Definition slice_bits (row : R) : list bool := write 5 q ++ [false] ++ encr row.

Fixpoint slice_bytes (k : Z) (rows : list R) : list Z :=
  match rows with
  | [] => []
  | row :: rows' => [0; 0; 1; k] ++ pack (slice_bits row) ++ slice_bytes (k + 1) rows'
  end.

Fixpoint draw_slices (a : Z) (rows : list R) (c : frame) : frame :=
  match rows with
  | [] => c
  | row :: rows' => draw_slices (a + mbWidth g) rows' (drawr a row c)
  end.

Definition first_code (k : Z) (rows : list R) : Z := match rows with [] => ending | _ => k end.

Context (Hq : 0 <= q < 32) (Hmb : 0 < mbWidth g <= 256 /\ mbSize g < 65536).
Context (Hending : is_slice (Some ending) = false).
Context (Hlen : forall row, okr row -> Z.of_nat (length (encr row)) <= 4000000).
Context (Hrow : forall row d a,
  okr row -> slice_start q (mb d) -> macroblockAddress (mb d) = a - 1 -> 0 <= a -> a + mbWidth g <= mbSize g ->
  blockData d = replicate 64 0 -> room (rd d) 4001000 -> starts (rd d) (encr row) ->
  let r' := advance (rd d) (Z.of_nat (length (encr row))) in
  from r' < writePos r' -> prefix_at r' (from r') = true ->
  exists m', decode_macroblocks g pc im nm fwd (S fuel) (S fuel) d =
    Some (Dec r' m' (drawr a row (cur d)) (replicate 64 0))).

Lemma slice_decoded k row d :
  okr row -> 1 <= k -> k * mbWidth g <= mbSize g -> blockData d = replicate 64 0 -> room (rd d) 4001500 ->
  let r' := advance (rd d) (Z.of_nat (length (slice_bits row))) in
  starts (rd d) (slice_bits row) -> from r' < writePos r' -> prefix_at r' (from r') = true ->
  exists m', decodeSlice g pc im nm fwd (S fuel) k d =
    Some (Dec r' m' (drawr ((k - 1) * mbWidth g) row (cur d)) (replicate 64 0)).
Proof.
  intros Hok Hk Has Hz Hr r' Hs Hend Hpre. subst r'.
  unfold slice_bits in *. apply starts_app in Hs as [Hs1 Hs2]. apply starts_app in Hs2 as [Hs2 Hs3].
  rewrite length_write in *. unfold decodeSlice.
  assert (room (rd d) 5) as Hr0 by (apply (room_less _ _ _ Hr); lia).
  pose proof (getBits_write (rd d) 5 q 5 Hs1 ltac:(cbn; lia) ltac:(lia) Hr0 ltac:(lia)) as Hg.
  change (Z.of_nat 5) with 5 in *. rewrite Hg. cbn [skip_extra].
  assert (room (advance (rd d) 5) 4001495) as Hr5.
  { eapply room_less; [apply room_after; [exact Hr|lia]|lia]. }
  rewrite getBits_one by (eapply room_wf; [|exact Hr5]; lia).
  apply starts_cons in Hs2 as [-> _]. cbn [nz b2z Z.eqb negb mbind option_bind].
  change (Z.of_nat (length [false])) with 1 in Hs3. rewrite !advance_advance in *.
  change (5 + 1) with 6 in *.
  rewrite !length_app, length_write, !Nat2Z.inj_add in *.
  change (Z.of_nat 5 + (Z.of_nat (length [false]) + ?x)) with (5 + (1 + x)) in *.
  rewrite !Z.add_assoc in *. change (5 + 1) with 6 in *.
  rewrite <- advance_advance in *.
  set (m := _ <| quantizerScale := q |>).
  destruct (Hrow row (Dec (advance (rd d) 6) m (cur d) (blockData d)) ((k - 1) * mbWidth g)) as (m' & E);
    cbn [mb rd cur blockData]; try done; [nia|lia| |].
  { eapply room_less; [apply room_after; [exact Hr|lia]|lia]. }
  exists m'. exact E.
Qed.

Lemma slices_decoded n rows k p d :
  Forall okr rows -> (length rows <= n)%nat ->
  1 <= k -> k + Z.of_nat (length rows) <= 176 -> (k - 1 + Z.of_nat (length rows)) * mbWidth g <= mbSize g ->
  blockData d = replicate 64 0 -> ready (rd d) -> index (rd d) = 8 * (p + 4) -> 0 <= p ->
  holds (rd d) p (slice_bytes k rows ++ [0; 0; 1; ending]) ->
  p + Z.of_nat (length (slice_bytes k rows ++ [0; 0; 1; ending])) <= writePos (rd d) ->
  exists m' i, decode_slices g pc im nm fwd (S fuel) n (Some (first_code k rows)) d =
    Some (Dec ((rd d) <| index := i |>) m' (draw_slices ((k - 1) * mbWidth g) rows (cur d)) (replicate 64 0)) /\
    i = 8 * (p + Z.of_nat (length (slice_bytes k rows)) + 4).
Proof.
  revert n k p d. induction rows as [|row rows IH]; intros n k p d Hrows Hn Hk Hks Hsz Hz Hrd Hi Hp0 Hh Hw.
  { exists (mb d), (index (rd d)). cbn [first_code draw_slices].
    split; [|cbn; lia]. destruct n; cbn [decode_slices]; rewrite Hending, <- Hz; by destruct d as [[] ? ? ?]. }
  apply Forall_cons in Hrows as [Hok Hrows]. destruct n as [|n]; [cbn in Hn; lia|].
  cbn [first_code decode_slices slice_bytes draw_slices length] in *.
  assert (is_slice (Some k) = true) as ->.
  { unfold is_slice, START_SLICE_FIRST, START_SLICE_LAST. lia. }
  assert (Z.land (default 0 (Some k)) 255 = k) as ->.
  { cbn [default from_option]. change 255 with (Z.ones 8). rewrite Z.land_ones by lia. apply Z.mod_small. lia. }
  rewrite <- !app_assoc in *. apply holds_app in Hh as [Hh0 Hh]. apply holds_app in Hh as [Hhs Hh].
  change (Z.of_nat (length [0; 0; 1; k])) with 4 in *.
  set (w := slice_bits row) in *. set (p' := p + 4 + Z.of_nat (length (pack w))) in *.
  destruct Hrd as ((Hb & Hi0) & [Hw4 HwL] & HL).
  assert (Z.of_nat (length w) <= 4000006) as Hlw.
  { subst w. unfold slice_bits. rewrite !length_app, length_write. cbn [length]. specialize (Hlen row Hok). lia. }
  rewrite !length_app in Hw. cbn [length] in Hw.
  assert (from (advance (rd d) (Z.of_nat (length w))) = p') as Hfrom by (by apply from_after).
  assert (exists c l, slice_bytes (k + 1) rows ++ [0; 0; 1; ending] = [0; 0; 1; c] ++ l /\
    c = first_code (k + 1) rows) as (c & l & El & Hc).
  { destruct rows; cbn [slice_bytes first_code]; eexists _, _; [|rewrite <- !app_assoc]; done. }
  pose proof Hh as Hh'. rewrite El in Hh'. apply holds_prefix in Hh' as [Hpre Hcode].
  assert (k * mbWidth g <= mbSize g) as Hfit.
  { assert (0 <= Z.of_nat (length rows) * mbWidth g) by (apply Z.mul_nonneg_nonneg; lia). lia. }
  assert (room (rd d) 4001500) as Hroom by (split; [done|]; rewrite Hi; lia).
  assert (p' < writePos (rd d)) as Hp' by lia.
  destruct (slice_decoded k row d) as (m1 & ->); [done|done|done|done|done| | | |].
  { by apply (holds_starts _ (p + 4)); [|done|lia]. }
  { fold w. by rewrite Hfrom. }
  { fold w. by rewrite Hfrom. }
  cbn [mbind option_bind rd mb cur blockData]. fold w.
  set (r1 := advance (rd d) (Z.of_nat (length w))) in *.
  rewrite find_here.
  2:{ split; [done|]. split; [|split; [done|]]; [change (0 <= writePos (rd d) <= Z.of_nat (length (store (rd d)))); lia|].
      change (0 <= index (rd d) + Z.of_nat (length w) < 268435456). rewrite Hi. lia. }
  2:{ by rewrite Hfrom. }
  2:{ by rewrite Hfrom. }
  rewrite Hfrom. change (byte_at r1 (p' + 3)) with (byte_at (rd d) (p' + 3)). rewrite Hcode, Hc.
  destruct (IH n (k + 1) p' (Dec (r1 <| index := 8 * (p' + 4) |>) m1
    (drawr ((k - 1) * mbWidth g) row (cur d)) (replicate 64 0))) as (m' & i & E & ->);
    cbn [mb rd cur blockData]; [done|lia|lia|lia|lia|done| |done|lia|done| |].
  { split; [split; [done|]|done]. change (0 <= 8 * (p' + 4)). lia. }
  { rewrite length_app. cbn [length]. change (p' + Z.of_nat (length (slice_bytes (k + 1) rows) + 4) <= writePos (rd d)). lia. }
  exists m', (8 * (p' + Z.of_nat (length (slice_bytes (k + 1) rows)) + 4)). split.
  - rewrite E. cbn [mb rd cur]. by replace ((k + 1 - 1) * mbWidth g) with ((k - 1) * mbWidth g + mbWidth g) by lia.
  - rewrite !length_app. cbn [length]. lia.
Qed.
End Slices.

(** ** Pictures *)

Lemma record_keeps j :
  let j' := recordFrameFromCurrentBuffer j in
  current j' = current j /\ forward j' = forward j /\ geo j' = geo j /\ currentRGBA j' = currentRGBA j /\
  canvas j' = canvas j /\ buffer j' = buffer j.
Proof. unfold recordFrameFromCurrentBuffer. by repeat case_match. Qed.

Definition header_bits (temporal vbv : Z) : list bool :=
  write 10 temporal ++ write 3 PICTURE_TYPE_I ++ write 16 vbv ++ [false; false; false].

(** The header of the picture: the reader is left four bytes on, at the first
    start code. *)
Lemma header_read r p temporal vbv :
  index r = 8 * p -> 0 <= p -> room r 64 -> holds r p (pack (header_bits temporal vbv)) ->
  getBits (advance r 10) 3 = (PICTURE_TYPE_I, advance r 13) /\
  from (advance (advance r 13) 16) = p + 4.
Proof.
  intros Hi Hp Hr Hh. assert (starts r (header_bits temporal vbv)) as Hs by (by apply (holds_starts r p)).
  unfold header_bits in Hs. apply starts_app in Hs as [_ Hs]. apply starts_app in Hs as [Hs _].
  rewrite length_write in Hs. change (Z.of_nat 10) with 10 in Hs. split.
  - assert (room (advance r 10) 5) as Hr'.
    { eapply room_less; [apply room_after; [exact Hr|lia]|lia]. }
    pose proof (getBits_write (advance r 10) 3 PICTURE_TYPE_I 5 Hs ltac:(unfold PICTURE_TYPE_I; cbn; lia) ltac:(lia) Hr' ltac:(lia)) as Hg.
    change (Z.of_nat 3) with 3 in Hg. rewrite Hg, advance_advance. done.
  - unfold from. rewrite !index_advance, Hi. replace (8 * p + 13 + 16 + 7) with (4 + (p + 4) * 8) by lia.
    rewrite Z.div_add by lia. change (4 / 8) with 0. lia.
Qed.

(** [decodePicture] after the header of the picture. *)
Definition finish_picture (fuel : nat) (skipOutput : bool) (j : jsmpeg) (pc : picture) (r : reader) : option jsmpeg :=
  '(code, r) ← skip_headers fuel r;
  d ← decode_slices (geo j) pc (intraQuantMatrix j) (nonIntraQuantMatrix j) (forward j)
        fuel fuel code (Dec r (mbs j) (current j) (block_data j));
  let j := j <| buffer := rewind (rd d) 32 |> <| pic := pc |> <| mbs := mb d |>
             <| current := cur d |> <| block_data := blockData d |> in
  let j := recordFrameFromCurrentBuffer j in
  let j := if skipOutput then j else renderFrame2D j in
  Some (j <| current := forward j |> <| forward := current j |>).

Section Finish.
Context {R : Type} (encr : R -> list bool) (drawr : Z -> R -> frame -> frame) (okr : R -> Prop).
Context (j : jsmpeg) (pc : picture) (fuel : nat) (p q ending : Z) (rows : list R).
Let g := geo j.
Context (Hq : 0 <= q < 32) (Hending : is_slice (Some ending) = false).
Context (Hmb : 0 < mbWidth g <= 256 /\ 0 < mbHeight g <= 175 /\ mbSize g = mbWidth g * mbHeight g).
Context (Hrows : Forall okr rows) (Hheight : Z.of_nat (length rows) = mbHeight g).
Context (Hfuel : mbHeight g <= Z.of_nat (S fuel)).
Context (Hlen : forall row, okr row -> Z.of_nat (length (encr row)) <= 4000000).
Context (Hrow : forall row d a,
  okr row -> slice_start q (mb d) -> macroblockAddress (mb d) = a - 1 -> 0 <= a -> a + mbWidth g <= mbSize g ->
  blockData d = replicate 64 0 -> room (rd d) 4001000 -> starts (rd d) (encr row) ->
  let r' := advance (rd d) (Z.of_nat (length (encr row))) in
  from r' < writePos r' -> prefix_at r' (from r') = true ->
  exists m', decode_macroblocks g pc (intraQuantMatrix j) (nonIntraQuantMatrix j) (forward j) (S fuel) (S fuel) d =
    Some (Dec r' m' (drawr a row (cur d)) (replicate 64 0))).

Lemma finish_drawn skip r :
  block_data j = replicate 64 0 -> ready r -> from r = p -> 0 <= p -> index r < 134217728 ->
  let l := slice_bytes encr q 1 rows ++ [0; 0; 1; ending] in
  holds r p l -> p + Z.of_nat (length l) <= writePos r ->
  exists j', finish_picture (S fuel) skip j pc r = Some j' /\
    forward j' = draw_slices drawr g 0 rows (current j) /\
    buffer j' = r <| index := 8 * (p + Z.of_nat (length l) - 4) |> /\
    canvas j' = (if skip then canvas j else YCbCrToRGBA g (draw_slices drawr g 0 rows (current j)) (currentRGBA j)).
Proof.
  intros Hz ((Hb & Hi0) & Hw4 & HL) Hf Hp Hix l Hh Hw. subst l.
  assert (exists l, slice_bytes encr q 1 rows ++ [0; 0; 1; ending] = [0; 0; 1; 1] ++ l) as [l El].
  { destruct rows; [cbn in Hheight; lia|]. cbn [slice_bytes]. rewrite <- !app_assoc. by eexists. }
  pose proof Hh as Hh'. rewrite El in Hh'. apply holds_prefix in Hh' as [Hpre Hcode].
  pose proof Hw as Hw'. rewrite length_app in Hw'. cbn [length] in Hw'.
  unfold finish_picture. cbn [skip_headers]. rewrite find_here.
  2:{ split; [done|]. split; [lia|]. split; [done|]. lia. }
  2:{ rewrite Hf. lia. }
  2:{ by rewrite Hf. }
  rewrite Hf, Hcode. rewrite !bool_decide_eq_false_2 by done. cbn [orb mbind option_bind].
  destruct (slices_decoded encr drawr okr g pc (intraQuantMatrix j) (nonIntraQuantMatrix j) (forward j) fuel q ending
    Hq ltac:(nia) Hending Hlen Hrow (S fuel) rows 1 p (Dec (r <| index := 8 * (p + 4) |>) (mbs j) (current j) (block_data j)))
    as (m' & i & E & Hi32); cbn [mb rd cur blockData];
    [done|lia|lia|lia|nia|done|split; [split; [done|change (0 <= 8 * (p + 4)); lia]|done]|done|lia|done|done|].
  replace (first_code ending 1 rows) with 1 in E by (destruct rows; [cbn in Hheight; lia|done]).
  cbn [mb rd cur blockData] in E. fold g. rewrite E. cbn [mbind option_bind rd mb cur blockData].
  eexists. split; [done|].
  set (jd := _ <| block_data := replicate 64 0 |>).
  set (after := r <| index := _ |>). assert (buffer jd = after) as Hb'.
  { subst after. rewrite !length_app. cbn [length].
    change (r <| index := i - 32 |> = r <| index := 8 * (p + Z.of_nat (length (slice_bytes encr q 1 rows) + 4) - 4) |>).
    apply (f_equal (fun x => r <| index := x |>)). rewrite Hi32. lia. }
  clearbody after. destruct (record_keeps jd) as (K1 & K2 & K3 & K4 & K5 & K6).
  set (jr := recordFrameFromCurrentBuffer jd) in *. destruct skip.
  - change (current jr = draw_slices drawr g 0 rows (current j) /\ buffer jr = after /\ canvas jr = canvas j).
    by rewrite K1, K5, K6.
  - change (current jr = draw_slices drawr g 0 rows (current j) /\ buffer jr = after /\
      YCbCrToRGBA (geo jr) (current jr) (currentRGBA jr) =
      YCbCrToRGBA g (draw_slices drawr g 0 rows (current j)) (currentRGBA j)).
    by rewrite K1, K3, K4, K6.
Qed.
End Finish.

(** ** Which colour a pixel gets *)

Section Pixels.
Context (g : geometry) (W H : Z).
Context (HgW : mbWidth g = W) (Hcw : codedWidth g = 16 * W).
Context (HW : 0 < W <= 256) (HH : 0 < H <= 256).

Lemma destination_Y row col block :
  0 <= row < H -> 0 <= col < W -> 0 <= block < 4 ->
  destination g (spot row col) block =
  ((16 * row + 8 * (block / 2)) * (16 * W) + (16 * col + 8 * (block mod 2)), 16 * W - 8).
Proof.
  intros Hr Hc Hb. unfold destination. cbn [spot mbRow mbCol]. rewrite Hcw.
  destruct (Z.ltb_spec block 4); [|lia].
  assert (row * W <= 65536) by nia. rewrite !shl_small by nia. change (2 ^ 4) with 16. change (2 ^ 3) with 8.
  f_equal. assert (block = 0 \/ block = 1 \/ block = 2 \/ block = 3) as Hk by lia.
  destruct Hk as [->|[->|[->| ->]]];
    [change (0 / 2) with 0; change (0 mod 2) with 0|change (1 / 2) with 0; change (1 mod 2) with 1
    |change (2 / 2) with 1; change (2 mod 2) with 0|change (3 / 2) with 1; change (3 mod 2) with 1];
    unfold nz; repeat match goal with |- context [Z.land ?a ?b =? 0] =>
      let v := eval vm_compute in (Z.land a b =? 0) in change (Z.land a b =? 0) with v end;
    cbn [negb]; lia.
Qed.

Lemma destination_C row col block :
  0 <= row < H -> 0 <= col < W -> 4 <= block ->
  destination g (spot row col) block = (8 * row * (8 * W) + 8 * col, 8 * W - 8).
Proof.
  intros Hr Hc Hb. unfold destination. cbn [spot mbRow mbCol]. rewrite Hcw.
  destruct (Z.ltb_spec block 4); [lia|].
  assert (row * W <= 65536) by nia. rewrite !shl_small, shr_div by nia.
  change (2 ^ 3) with 8. change (2 ^ 2) with 4. change (2 ^ 1) with 2.
  rewrite <- (Z.div_unique (16 * W) 2 (8 * W) 0) by lia. f_equal; lia.
Qed.

(** A block, or none, at ([x], [y]) of a plane [w] wide. *)
Definition put (o : option painter) (x y w : Z) (d : list Z) : list Z :=
  match o with Some f => put_rows 8 f 0 (y * w + x) (w - 8) d | None => d end.

Definition painted (o : option painter) (n old : Z) : Z :=
  match o with Some f => clamp8 (f n old) | None => old end.

Lemma length_put o x y w d : length (put o x y w d) = length d.
Proof. destruct o; [apply length_put_rows|done]. Qed.

Lemma put_get o w x0 y0 d x y :
  0 <= x0 -> x0 + 8 <= w -> 0 <= y0 -> w * (y0 + 8) <= Z.of_nat (length d) -> 0 <= x < w -> 0 <= y ->
  aget (put o x0 y0 w d) (y * w + x) =
    if (y0 <=? y) && (y <? y0 + 8) && (x0 <=? x) && (x <? x0 + 8)
    then painted o (8 * (y - y0) + (x - x0)) (aget d (y * w + x)) else aget d (y * w + x).
Proof.
  intros. destruct o as [f|]; cbn [put painted]; [|by repeat case_match].
  by rewrite (put_block_get _ (w - 8) d w x0 y0) by (done || lia).
Qed.

Lemma draw_block_Y row col block o c :
  0 <= row < H -> 0 <= col < W -> 0 <= block < 4 ->
  draw_block g row col block o c =
  Frame (put o (16 * col + 8 * (block mod 2)) (16 * row + 8 * (block / 2)) (16 * W) (fY c)) (fCr c) (fCb c).
Proof.
  intros Hr Hc Hb. destruct o as [f|]; cbn [draw_block put]; [|by destruct c].
  rewrite destination_Y by done. unfold on_plane. by destruct (Z.ltb_spec block 4); [|lia].
Qed.

Lemma draw_block_C row col o c :
  0 <= row < H -> 0 <= col < W ->
  draw_block g row col 4 o c = Frame (fY c) (fCr c) (put o (8 * col) (8 * row) (8 * W) (fCb c)) /\
  draw_block g row col 5 o c = Frame (fY c) (put o (8 * col) (8 * row) (8 * W) (fCr c)) (fCb c).
Proof.
  intros Hr Hc. destruct o as [f|]; cbn [draw_block put]; [|by destruct c].
  by rewrite !destination_C by done.
Qed.

(** One macroblock of six blocks. *)
Lemma draw_macroblock row col o0 o1 o2 o3 o4 o5 c :
  0 <= row < H -> 0 <= col < W ->
  draw_blocks g row col 0 [o0; o1; o2; o3; o4; o5] c =
  Frame (put o3 (16 * col + 8) (16 * row + 8) (16 * W)
          (put o2 (16 * col) (16 * row + 8) (16 * W)
            (put o1 (16 * col + 8) (16 * row) (16 * W)
              (put o0 (16 * col) (16 * row) (16 * W) (fY c)))))
        (put o5 (8 * col) (8 * row) (8 * W) (fCr c))
        (put o4 (8 * col) (8 * row) (8 * W) (fCb c)).
Proof.
  intros Hr Hc. cbn [draw_blocks].
  change (0 + 1) with 1. change (1 + 1) with 2. change (2 + 1) with 3. change (3 + 1) with 4. change (4 + 1) with 5.
  rewrite (draw_block_Y row col 0), (draw_block_Y row col 1), (draw_block_Y row col 2), (draw_block_Y row col 3) by lia.
  rewrite (proj1 (draw_block_C row col o4 _ Hr Hc)), (proj2 (draw_block_C row col o5 _ Hr Hc)). cbn [fY fCr fCb].
  change (0 / 2) with 0. change (0 mod 2) with 0. change (1 / 2) with 0. change (1 mod 2) with 1.
  change (2 / 2) with 1. change (2 mod 2) with 0. change (3 / 2) with 1. change (3 mod 2) with 1.
  by rewrite !Z.mul_0_r, !Z.add_0_r, !Z.mul_1_r.
Qed.

(** The address of the macroblock of a pixel, in a plane with blocks of [B]. *)
Definition address (B x y : Z) : Z := y / B * W + x / B.

Lemma address_split B x y a :
  0 < B -> 0 <= x < B * W -> 0 <= y ->
  (a =? address B x y) = (a / W =? y / B) && (a mod W =? x / B).
Proof.
  intros HB Hx Hy. unfold address.
  assert (0 <= x / B < W) as Hxb.
  { split; [apply Z.div_pos; lia|apply Z.div_lt_upper_bound; lia]. }
  pose proof (Z.div_mod a W ltac:(lia)) as Ha. pose proof (Z.mod_pos_bound a W ltac:(lia)).
  destruct (Z.eqb_spec a (y / B * W + x / B)) as [E|E].
  - assert (a / W = y / B) as -> by (symmetry; apply Z.div_unique with (r := x / B); lia).
    assert (a mod W = x / B) as -> by (symmetry; apply Z.mod_unique with (q := y / B); lia).
    by rewrite !Z.eqb_refl.
  - destruct (Z.eqb_spec (a / W) (y / B)), (Z.eqb_spec (a mod W) (x / B)); try done. nia.
Qed.

Lemma address_range a : 0 <= a < W * H -> 0 <= a / W < H /\ 0 <= a mod W < W.
Proof.
  intros Ha. split; [|apply Z.mod_pos_bound; lia].
  split; [apply Z.div_pos; lia|apply Z.div_lt_upper_bound; lia].
Qed.

(** The block of a macroblock that covers a pixel of the luminance. *)
Definition lum_block (x y : Z) : Z := 2 * (y mod 16 / 8) + x mod 16 / 8.

Definition block_at {A} (fs : list (option A)) (block : Z) : option A := default None (fs !! Z.to_nat block).

Lemma halves m : 0 <= m < 16 -> m / 8 = if m <? 8 then 0 else 1.
Proof.
  intros Hm. destruct (Z.ltb_spec m 8); [apply Z.div_small; lia|].
  symmetry. apply Z.div_unique with (r := m - 8); lia.
Qed.

Lemma six {A} (fs : list A) : length fs = 6%nat -> exists f0 f1 f2 f3 f4 f5, fs = [f0; f1; f2; f3; f4; f5].
Proof.
  intros Hl. destruct fs as [|f0 [|f1 [|f2 [|f3 [|f4 [|f5 [|]]]]]]]; try done. by exists f0, f1, f2, f3, f4, f5.
Qed.

Lemma draw_lum a fs c x y :
  0 <= a < W * H -> length fs = 6%nat -> Z.of_nat (length (fY c)) = 16 * W * (16 * H) ->
  0 <= x < 16 * W -> 0 <= y ->
  let old := aget (fY c) (y * (16 * W) + x) in
  aget (fY (draw_blocks g (a / W) (a mod W) 0 fs c)) (y * (16 * W) + x) =
    if a =? address 16 x y then painted (block_at fs (lum_block x y)) (8 * (y mod 8) + x mod 8) old else old.
Proof.
  intros Ha Hfs Hl Hx Hy. destruct (address_range a Ha) as [Hr Hc].
  rewrite address_split by lia. destruct (six fs Hfs) as (f0 & f1 & f2 & f3 & f4 & f5 & ->). cbn zeta.
  rewrite draw_macroblock by done. cbn [fY].
  set (row := a / W) in *. set (col := a mod W) in *. clearbody row col.
  assert (16 * W * (16 * row + 16) <= 16 * W * (16 * H)) by (apply Z.mul_le_mono_nonneg_l; lia).
  rewrite !put_get by (rewrite ?length_put; done || lia).
  pose proof (Z.div_mod y 16 ltac:(lia)). pose proof (Z.mod_pos_bound y 16 ltac:(lia)).
  pose proof (Z.div_mod x 16 ltac:(lia)). pose proof (Z.mod_pos_bound x 16 ltac:(lia)).
  pose proof (Z.div_mod y 8 ltac:(lia)). pose proof (Z.mod_pos_bound y 8 ltac:(lia)).
  pose proof (Z.div_mod x 8 ltac:(lia)). pose proof (Z.mod_pos_bound x 8 ltac:(lia)).
  destruct (Z.eqb_spec row (y / 16)), (Z.eqb_spec col (x / 16)); cbn [andb].
  2: assert (x < 16 * col \/ 16 * col + 16 <= x) as [|] by lia; zknown; done.
  2-3: assert (y < 16 * row \/ 16 * row + 16 <= y) as [|] by lia; zknown; done.
  unfold lum_block. rewrite !halves by lia.
  destruct (Z.ltb_spec (y mod 16) 8), (Z.ltb_spec (x mod 16) 8); zknown; cbn [andb];
    unfold block_at; cbn; f_equal; lia.
Qed.

Lemma draw_chr a fs c x y :
  0 <= a < W * H -> length fs = 6%nat ->
  Z.of_nat (length (fCr c)) = 8 * W * (8 * H) -> Z.of_nat (length (fCb c)) = 8 * W * (8 * H) ->
  0 <= x < 8 * W -> 0 <= y ->
  let c' := draw_blocks g (a / W) (a mod W) 0 fs c in
  let n := 8 * (y mod 8) + x mod 8 in
  let i := y * (8 * W) + x in
  aget (fCb c') i = (if a =? address 8 x y then painted (block_at fs 4) n (aget (fCb c) i) else aget (fCb c) i) /\
  aget (fCr c') i = (if a =? address 8 x y then painted (block_at fs 5) n (aget (fCr c) i) else aget (fCr c) i).
Proof.
  intros Ha Hfs Hl1 Hl2 Hx Hy. destruct (address_range a Ha) as [Hr Hc].
  rewrite address_split by lia. destruct (six fs Hfs) as (f0 & f1 & f2 & f3 & f4 & f5 & ->).
  cbn zeta. rewrite draw_macroblock by done. cbn [fCr fCb].
  set (row := a / W) in *. set (col := a mod W) in *. clearbody row col.
  assert (8 * W * (8 * row + 8) <= 8 * W * (8 * H)) by (apply Z.mul_le_mono_nonneg_l; lia).
  rewrite !put_get by (rewrite ?length_put; done || lia).
  pose proof (Z.div_mod y 8 ltac:(lia)). pose proof (Z.mod_pos_bound y 8 ltac:(lia)).
  pose proof (Z.div_mod x 8 ltac:(lia)). pose proof (Z.mod_pos_bound x 8 ltac:(lia)).
  destruct (Z.eqb_spec row (y / 8)) as [Ey|], (Z.eqb_spec col (x / 8)) as [Ex|]; cbn [andb].
  - zknown. cbn [andb]. unfold block_at. cbn. split; f_equal; lia.
  - assert (x < 8 * col \/ 8 * col + 8 <= x) as [|] by lia; zknown; done.
  - assert (y < 8 * row \/ 8 * row + 8 <= y) as [|] by lia; zknown; done.
  - assert (y < 8 * row \/ 8 * row + 8 <= y) as [|] by lia; zknown; done.
Qed.

End Pixels.

(** ** The picture as a whole *)

Lemma draw_blocks_redrawn g row col block fs c : redrawn c (draw_blocks g row col block fs c).
Proof.
  revert block c. induction fs as [|[f|] fs IH]; intros block c; cbn [draw_blocks draw_block]; [done| |apply IH].
  etransitivity; [|apply IH]. destruct (destination g (spot row col) block) as [i scan].
  apply on_plane_redrawn; intros d *; [apply length_put_rows|apply put_rows_byte].
Qed.

Lemma redrawn_lengths f f' :
  redrawn f f' -> length (fY f') = length (fY f) /\ length (fCr f') = length (fCr f) /\
  length (fCb f') = length (fCb f).
Proof. intros [Hs _]. unfold shape in Hs. by injection Hs. Qed.

(** The macroblock with address [k]. *)
Definition nth_mb {A} (l : list A) (k : Z) : option A :=
  if 0 <=? k then l !! Z.to_nat k else None.

Lemma nth_mb_cons {A} (vs : A) l k : nth_mb (vs :: l) k = if k =? 0 then Some vs else nth_mb l (k - 1).
Proof.
  unfold nth_mb. destruct (Z.eqb_spec k 0) as [->|]; [done|].
  destruct (Z.leb_spec 0 k), (Z.leb_spec 0 (k - 1)); try lia; [|done].
  by replace (Z.to_nat k) with (S (Z.to_nat (k - 1))) by lia.
Qed.

Lemma concat_lookup {A} n (rows : list (list A)) r c vs :
  Forall (fun row => Z.of_nat (length row) = n) rows -> 0 <= r -> 0 <= c < n ->
  rows !! Z.to_nat r ≫= (fun row => row !! Z.to_nat c) = Some vs ->
  nth_mb (concat rows) (r * n + c) = Some vs.
Proof.
  intros Hrows. revert r. induction Hrows as [|row rows Hl Hrows IH]; intros r Hr Hc He; [done|].
  unfold nth_mb. destruct (Z.leb_spec 0 (r * n + c)); [|nia]. cbn [concat].
  destruct (Z.eq_dec r 0) as [->|Hr0].
  - cbn in He. rewrite lookup_app_l by lia. by replace (Z.to_nat (0 * n + c)) with (Z.to_nat c) by lia.
  - replace (Z.to_nat r) with (S (Z.to_nat (r - 1))) in He by lia. cbn in He.
    apply IH in He; [|lia|done]. unfold nth_mb in He. destruct (Z.leb_spec 0 ((r - 1) * n + c)); [|nia].
    rewrite lookup_app_r by nia.
    by replace (Z.to_nat (r * n + c) - length row)%nat with (Z.to_nat ((r - 1) * n + c)) by nia.
Qed.

(** A decoder with a picture of this size, ready to decode what its buffer holds. *)
Record showing (w h : Z) (j : jsmpeg) : Prop := {
  sh_size : sized_picture w h /\ h <= 2800 /\ Z.even w = true /\ Z.even h = true;
  sh_geo : geo j = new_geometry w h;
  sh_wf : wf j;
  sh_fits : fits (geo j) (current j);
  sh_rgba : Z.of_nat (length (currentRGBA j)) = 4 * w * h }.

Lemma fits_shape g f f' : shape f = shape f' -> fits g f' -> fits g f.
Proof. unfold shape, fits. intros [= -> -> ->]. done. Qed.

Lemma showing_outline w h j j' : showing w h j -> wf j' -> outline j' = outline j -> showing w h j'.
Proof.
  intros [H1 H2 _ H3 H4] Hwf Ho. unfold outline in Ho.
  apply pair_equal_spec in Ho as [Ho Hl]. apply pair_equal_spec in Ho as [Ho Hsh].
  apply pair_equal_spec in Ho as [Ho _]. apply pair_equal_spec in Ho as [_ Hg].
  split; try done; [by rewrite Hg| |by rewrite Hl]. rewrite Hg. by eapply fits_shape, H3.
Qed.

Lemma showing_reader w h j r : showing w h j -> ready r -> showing w h (j <| buffer := r |>).
Proof.
  intros [H1 H2 [W1 W2 W3 W4 W5 W6 W7] H3 H4] Hr. by split.
Qed.

(** A decoder that has just got its size. *)
Lemma init_showing w h j r :
  sized_picture w h /\ h <= 2800 /\ Z.even w = true /\ Z.even h = true -> ready r ->
  sequenceStarted j = false -> block_data j = replicate 64 0 -> 0 <= forwardRSize (pic j) ->
  showing w h ((initBuffers w h j) <| buffer := r |>).
Proof.
  intros Hs Hr Hseq Hz Hf. unfold initBuffers. cbn zeta.
  change (sequenceStarted (j <| geo := _ |> <| intraQuantMatrix := _ |> <| nonIntraQuantMatrix := _ |>)) with (sequenceStarted j).
  rewrite Hseq. split; try done.
  - split; try done; try apply new_frame_bytes.
    split; [apply Forall_replicate; unfold byte; lia|apply zeros_byte].
  - apply new_frame_fits. apply Hs.
  - change (Z.of_nat (length (replicate (Z.to_nat (4 * w * h)) 255)) = 4 * w * h).
    rewrite length_replicate. destruct Hs as ([? ?] & _). lia.
Qed.
