(* ===== verification/MpegCoefficients.v ===== *)
(** * The coefficients of a block survive encoding and decoding

    A block as an encoder writes it: the DC difference of an intra block, a code
    for each run of zeros and the level behind it, an escape for the pairs that
    have no code, and the end of the block; and the theorem that [decodeBlock]
    reads the block to its last bit and puts the inverse transform of exactly
    these coefficients into the picture. *)

From S2P Require Import Prelude JsArray MpegTables BitReader MpegBlock MpegDecoder MpegStream MpegPicture.

(** ** The encoder *)

(** A run of zeros and the level behind it. *)
Definition pair_ok (c : Z * Z) : Prop := 0 <= c.1 < 64 /\ c.2 <> 0 /\ -255 <= c.2 <= 255.

Definition pair_value (c : Z * Z) : Z := c.1 * 256 + Z.abs c.2.

(** The level of an escape: one byte, or two outside of -127 .. 127. *)
Definition enc_level (level : Z) : list bool :=
  if level <=? -128 then write 8 128 ++ write 8 (level + 256)
  else if level <? 0 then write 8 (level + 256)
  else if level <? 128 then write 8 level
  else write 8 0 ++ write 8 level.

(** In front of the first coefficient there is no end of block, so that [1]
    alone stands for a level of one there, and [11] everywhere else. *)
Definition enc_pair (n : Z) (c : Z * Z) : list bool :=
  if bool_decide (pair_value c ∈ DCT_COEFF_codes.*2) then
    code_of DCT_COEFF_codes (pair_value c) ++
    (if (pair_value c =? 1) && (0 <? n) then [true] else []) ++ [c.2 <? 0]
  else code_of DCT_COEFF_codes 65535 ++ write 6 c.1 ++ enc_level c.2.

Fixpoint enc_pairs (n : Z) (l : list (Z * Z)) : list bool :=
  match l with
  | [] => [true; false]
  | c :: l' => enc_pair n c ++ enc_pairs (n + c.1 + 1) l'
  end.

(** The position behind the last coefficient. *)
Fixpoint span (n : Z) (l : list (Z * Z)) : Z :=
  match l with
  | [] => n
  | c :: l' => span (n + c.1 + 1) l'
  end.

(** The level at position [i] of the zig-zag scan. *)
Fixpoint level_at (n : Z) (l : list (Z * Z)) (i : Z) : option Z :=
  match l with
  | [] => None
  | c :: l' => if i =? n + c.1 then Some c.2 else level_at (n + c.1 + 1) l' i
  end.

(** ** What a level stands for *)

Definition toward_odd (x : Z) : Z := if Z.even x then (if 0 <? x then x - 1 else x + 1) else x.

Definition reconstruct (intra : bool) (q m level : Z) : Z :=
  Z.max (-2048) (Z.min 2047
    (toward_odd ((2 * level + (if intra then 0 else Z.sgn level)) * q * m / 16))).

Lemma dequantize_reconstruct intra q m level :
  0 <= q <= 31 -> 0 <= m <= 255 -> level <> 0 -> -255 <= level <= 255 ->
  dequantize intra q (Some m) level = reconstruct intra q m level.
Proof.
  intros Hq Hm Hl Hr. unfold dequantize, reconstruct. rewrite shl_small by lia.
  change (2 ^ 1) with 2.
  set (a := if intra then level * 2 else level * 2 + (if level * 2 <? 0 then -1 else 1)).
  assert (2 * level + (if intra then 0 else Z.sgn level) = a) as ->.
  { unfold a. destruct intra; [lia|]. destruct (Z.ltb_spec (level * 2) 0); lia. }
  assert (-511 <= a <= 511) as Ha by (unfold a; destruct intra; zdecide; lia). clearbody a.
  assert (-15841 <= a * q <= 15841) as Haq by nia.
  assert (-2147483648 <= a * q * m < 2147483648) by nia.
  rewrite shr_div by lia. change (2 ^ 4) with 16. set (x := a * q * m / 16). clearbody x.
  rewrite (Z.land_ones x 1 ltac:(lia) : Z.land x 1 = _). change (2 ^ 1) with 2.
  unfold toward_odd. rewrite (Zeven_mod x). zdecide; lia.
Qed.

(** A level is the negation of the opposite one in the standard, which divides
    the magnitude; the shift to the right rounds away from zero below it. *)
Lemma negative_levels_round_away :
  reconstruct true 1 17 1 = 1 /\ reconstruct true 1 17 (-1) = -3 /\
  Z.quot (2 * -1 * 1 * 17) 16 = -2.
Proof. vm_compute. done. Qed.

(** ** Reading a pair *)

Lemma coeff_table : (DCT_COEFF, DCT_COEFF_codes) ∈ tables.
Proof. by apply list_elem_of_lookup_2 with (i := 8%nat). Qed.

Lemma escape_code : 65535 ∈ DCT_COEFF_codes.*2.
Proof. by apply list_elem_of_lookup_2 with (i := 9%nat). Qed.

Lemma length_code v : v ∈ DCT_COEFF_codes.*2 -> (length (code_of DCT_COEFF_codes v) <= 16)%nat.
Proof.
  intros Hv. destruct (code_of_spec _ _ Hv) as (w & Hw & ->). rewrite length_bits_of.
  by eapply word_short, Hw; apply coeff_table.
Qed.

Lemma read_byte r v :
  starts r (write 8 v) -> 0 <= v < 256 -> room r 8 -> getBits r 8 = (v, advance r 8).
Proof. intros Hs Hv Hr. apply (getBits_write r 8 v 8 Hs); [exact Hv|lia|exact Hr|lia]. Qed.

Lemma escape_level r run level :
  0 <= run < 64 -> level <> 0 -> -255 <= level <= 255 -> room r 32 ->
  starts r (write 6 run ++ enc_level level) ->
  run_level 65535 r =
    (run, level, advance r (Z.of_nat (length (write 6 run ++ enc_level level)))).
Proof.
  intros Hrun Hl0 Hl Hr Hs. apply starts_app in Hs as [Hs1 Hs2].
  rewrite length_app, length_write, Nat2Z.inj_add, <- advance_advance.
  rewrite length_write in Hs2. change (Z.of_nat 6) with 6 in *.
  unfold run_level. change (65535 =? 65535) with true. cbn iota.
  rewrite (getBits_write r 6 run 32 Hs1 Hrun ltac:(lia) Hr ltac:(lia) : getBits r 6 = _).
  change (Z.of_nat 6) with 6. pose proof (room_after _ _ 6 Hr ltac:(lia)) as Hr1.
  set (r1 := advance r 6) in *. clearbody r1. clear Hs1 Hr r.
  assert (forall a b, starts r1 (write 8 a ++ write 8 b) ->
    starts r1 (write 8 a) /\ starts (advance r1 8) (write 8 b)) as Htwo by (intros a b; apply starts_app).
  pose proof (room_less _ _ 8 Hr1 ltac:(lia)) as Hr8.
  pose proof (room_less _ _ 8 (room_after _ _ 8 Hr1 ltac:(lia)) ltac:(lia)) as Hr16.
  unfold enc_level in *.
  destruct (Z.leb_spec level (-128)); [|destruct (Z.ltb_spec level 0);
    [|destruct (Z.ltb_spec level 128)]].
  - apply Htwo in Hs2 as [Ha Hb]. rewrite (read_byte r1 128) by (done || lia).
    change (128 =? 0) with false. change (128 =? 128) with true. cbn beta iota zeta.
    rewrite (read_byte _ (level + 256)) by (done || lia).
    rewrite advance_advance. by replace (level + 256 - 256) with level by lia.
  - rewrite (read_byte r1 (level + 256)) by (done || lia).
    zdecide; try lia. by replace (level + 256 - 256) with level by lia.
  - rewrite (read_byte r1 level) by (done || lia). zdecide; try lia. done.
  - apply Htwo in Hs2 as [Ha Hb]. rewrite (read_byte r1 0) by (done || lia).
    change (0 =? 0) with true. cbn beta iota zeta.
    rewrite (read_byte _ level) by (done || lia). by rewrite advance_advance.
Qed.

Lemma short_level r c :
  pair_ok c -> room r 1 -> starts r [c.2 <? 0] ->
  run_level (pair_value c) r = (c.1, c.2, advance r 1).
Proof.
  destruct c as [run level]. unfold pair_ok, pair_value. cbn [fst snd].
  intros (Hrun & Hl0 & Hl) Hr [Hb _]%starts_cons. unfold run_level.
  destruct (Z.eqb_spec (run * 256 + Z.abs level) 65535); [lia|].
  rewrite getBits_one, Hb by (by apply (room_wf _ 1)).
  rewrite shr_div by lia. change (2 ^ 8) with 256.
  rewrite (Z.land_ones _ 8 ltac:(lia) : Z.land _ 255 = _). change (2 ^ 8) with 256.
  rewrite Z.add_comm, Z.div_add, Z.mod_add, Z.div_small, Z.mod_small by lia.
  destruct (Z.ltb_spec level 0); cbn; repeat f_equal; lia.
Qed.

Lemma length_enc_pair n c : (length (enc_pair n c) <= 32)%nat.
Proof.
  unfold enc_pair. case_bool_decide as Hv.
  - apply length_code in Hv. rewrite !length_app. cbn [length].
    destruct ((pair_value c =? 1) && (0 <? n)); cbn [length]; lia.
  - rewrite !length_app, length_write. change (length (code_of DCT_COEFF_codes 65535)) with 6%nat.
    assert (length (enc_level c.2) <= 16)%nat; [|lia].
    unfold enc_level. repeat case_match; rewrite ?length_app, !length_write; lia.
Qed.

(** Where a coefficient at position [i] of the scan goes. *)
Definition put_level (intra : bool) (q : Z) (qm : list Z) (i level : Z) (data : list Z) : list Z :=
  let z := aget ZIG_ZAG i in
  aset data z (reconstruct intra q (aget qm z) level * aget PREMULTIPLIER_MATRIX z).

Lemma zig_zag_in i : 0 <= i < 64 -> tget ZIG_ZAG i = Some (aget ZIG_ZAG i) /\ 0 <= aget ZIG_ZAG i < 64.
Proof.
  intros Hi. split; [by apply tget_in|].
  assert (all_below 64 (fun i => (0 <=? aget ZIG_ZAG i) && (aget ZIG_ZAG i <? 64)) = true) as Hall
    by (vm_compute; reflexivity).
  apply (all_below_spec _ _ i) in Hall; [|lia]. cbn beta in Hall. lia.
Qed.

Lemma zig_zag_inj i j : 0 <= i < 64 -> 0 <= j < 64 -> aget ZIG_ZAG i = aget ZIG_ZAG j -> i = j.
Proof.
  intros Hi Hj E. assert (all_below 64 (fun i => all_below 64 (fun j =>
    implb (aget ZIG_ZAG i =? aget ZIG_ZAG j) (i =? j))) = true) as Hall by (vm_compute; reflexivity).
  apply (all_below_spec _ _ i) in Hall; [|lia]. apply (all_below_spec _ _ j) in Hall; [|lia].
  cbn beta in Hall. rewrite E, Z.eqb_refl in Hall. by apply Z.eqb_eq in Hall.
Qed.

Lemma reconstruct_range intra q m level : -2048 <= reconstruct intra q m level <= 2047.
Proof. unfold reconstruct. lia. Qed.

Lemma premultiplied_range intra q m level z :
  -126976 <= reconstruct intra q m level * aget PREMULTIPLIER_MATRIX z <= 126914.
Proof.
  pose proof (reconstruct_range intra q m level).
  enough (0 <= aget PREMULTIPLIER_MATRIX z <= 62) by nia. unfold aget.
  destruct (PREMULTIPLIER_MATRIX !! Z.to_nat z) as [x|] eqn:E; cbn; [|lia].
  assert (Forall (fun x => 0 <= x <= 62) PREMULTIPLIER_MATRIX) as Hall
    by (repeat (apply Forall_cons; split; [lia|]); apply Forall_nil; done).
  exact (Forall_lookup_1 _ _ _ _ Hall E).
Qed.

(** ** Reading all of them *)

Definition matrix_ok (qm : list Z) : Prop := length qm = 64%nat /\ Forall byte qm.

(** One turn of the loop, behind the code that was read. *)
Lemma pair_put intra q qm n c data :
  0 <= q <= 31 -> matrix_ok qm -> 0 <= n -> pair_ok c -> n + c.1 < 64 ->
  match tget ZIG_ZAG (n + c.1) with
  | Some z => aset data z (s32 (dequantize intra q (tget ZIG_ZAG (n + c.1) ≫= fun z => tget qm z) c.2 *
                                aget PREMULTIPLIER_MATRIX z))
  | None => data
  end = put_level intra q qm (n + c.1) c.2 data.
Proof.
  intros Hq [Hlen Hqm] Hn (Hrun & Hl0 & Hl) Hlt.
  destruct (zig_zag_in (n + c.1) ltac:(lia)) as [-> Hz]. cbn [mbind option_bind].
  assert (tget qm (aget ZIG_ZAG (n + c.1)) = Some (aget qm (aget ZIG_ZAG (n + c.1)))) as E
    by (apply tget_in; lia).
  pose proof (tget_byte _ _ _ Hqm E) as Hb. unfold byte in Hb. rewrite E.
  rewrite dequantize_reconstruct by lia. unfold put_level.
  pose proof (premultiplied_range intra q (aget qm (aget ZIG_ZAG (n + c.1))) c.2 (aget ZIG_ZAG (n + c.1))).
  by rewrite s32_small by lia.
Qed.

Lemma pair_read n c r :
  pair_ok c -> room r 64 -> starts r (enc_pair n c) ->
  exists coeff r1 r2, read DCT_COEFF r = Some (coeff, r1) /\
    (if (coeff =? 1) && (0 <? n)
     then let '(b, r0) := getBits r1 1 in (b =? 0, r0) else (false, r1)) = (false, r2) /\
    run_level coeff r2 = (c.1, c.2, advance r (Z.of_nat (length (enc_pair n c)))).
Proof.
  intros Hc Hr Hs. pose proof (room_less _ _ 32 Hr ltac:(lia)) as Hr32.
  unfold enc_pair in *. case_bool_decide as Hv.
  - pose proof (length_code _ Hv) as Hlen. apply starts_app in Hs as [Hs1 Hs2].
    pose proof (read_code _ _ _ _ coeff_table Hv Hr32 Hs1) as E.
    pose proof (room_after _ _ (Z.of_nat (length (code_of DCT_COEFF_codes (pair_value c)))) Hr ltac:(lia)) as Hr1.
    rewrite length_app, Nat2Z.inj_add, <- advance_advance.
    set (r1 := advance r _) in *. clearbody r1. apply (room_less _ _ 32) in Hr1; [|lia].
    exists (pair_value c), r1. destruct ((pair_value c =? 1) && (0 <? n)); (eexists; split; [exact E|]).
    + apply starts_cons in Hs2 as [Hb Hs2]. rewrite getBits_one, Hb by (by apply (room_wf _ 32)).
      split; [reflexivity|]. rewrite short_level; [by rewrite advance_advance|done| |done].
      apply (room_less _ 31); [by apply (room_after _ 32); [|lia]|lia].
    + split; [reflexivity|]. apply short_level; [done|by apply (room_less _ 32)|done].
  - apply starts_app in Hs as [Hs1 Hs2]. exists 65535. eexists _, _.
    split; [by apply (read_code _ _ _ _ coeff_table escape_code)|]. split; [reflexivity|].
    rewrite length_app, Nat2Z.inj_add, <- advance_advance.
    destruct Hc as (? & ? & ?). apply escape_level; [done|done|done| |done].
    change (length (code_of DCT_COEFF_codes 65535)) with 6%nat.
    apply (room_less _ 58); [by apply (room_after _ 64); [|lia]|lia].
Qed.

Lemma pair_step fuel intra q qm n c data r :
  0 <= q <= 31 -> matrix_ok qm -> 0 <= n -> pair_ok c -> n + c.1 < 64 ->
  room r 64 -> starts r (enc_pair n c) ->
  coefficients (S fuel) intra q qm n data r =
  coefficients fuel intra q qm (n + c.1 + 1) (put_level intra q qm (n + c.1) c.2 data)
    (advance r (Z.of_nat (length (enc_pair n c)))).
Proof.
  intros Hq Hqm Hn Hc Hlt Hr Hs.
  destruct (pair_read n c r) as (coeff & r1 & r2 & E1 & E2 & E3); [done|done|done|].
  cbn [coefficients]. rewrite E1. cbn [mbind option_bind]. rewrite E2, E3.
  f_equal. by apply pair_put.
Qed.

Fixpoint put_levels (intra : bool) (q : Z) (qm : list Z) (n : Z) (l : list (Z * Z)) (data : list Z) : list Z :=
  match l with
  | [] => data
  | c :: l' => put_levels intra q qm (n + c.1 + 1) l' (put_level intra q qm (n + c.1) c.2 data)
  end.

Lemma length_enc_pairs n l : (length (enc_pairs n l) <= 32 * length l + 2)%nat.
Proof.
  revert n. induction l as [|c l IH]; intros n; cbn [enc_pairs length]; [lia|].
  rewrite length_app. pose proof (length_enc_pair n c). pose proof (IH (n + c.1 + 1)). lia.
Qed.

Lemma span_le n l : Forall pair_ok l -> n <= span n l.
Proof.
  intros Hl. revert n. induction Hl as [|c l (? & ? & ?) Hl IH]; intros n; cbn [span]; [lia|].
  pose proof (IH (n + c.1 + 1)). lia.
Qed.

Lemma pairs_decoded fuel intra q qm n l data r :
  0 <= q <= 31 -> matrix_ok qm -> 0 <= n -> Forall pair_ok l -> 0 < span n l <= 64 ->
  (length l < fuel)%nat -> room r (32 * Z.of_nat (length l) + 64) -> starts r (enc_pairs n l) ->
  coefficients fuel intra q qm n data r =
    Some (span n l, put_levels intra q qm n l data, advance r (Z.of_nat (length (enc_pairs n l)))).
Proof.
  intros Hq Hqm Hn Hl. revert fuel n data r Hn.
  induction Hl as [|c l Hc Hl IH]; intros fuel n data r Hn Hspan Hfuel Hr Hs;
    (destruct fuel as [|fuel]; [cbn in Hfuel; lia|]).
  - cbn [enc_pairs span put_levels length] in *.
    apply end_of_block; [lia|by apply (room_less _ _ 32) in Hr; [|lia]|done].
  - cbn [enc_pairs span put_levels] in *. cbn [length] in Hfuel, Hr. apply starts_app in Hs as [Hs1 Hs2].
    pose proof (span_le (n + c.1 + 1) l Hl). pose proof (length_enc_pair n c).
    assert (0 <= c.1) by (destruct Hc as (? & ? & ?); lia).
    rewrite (pair_step fuel intra q qm n c); [|done|done|done|done|lia|by apply (room_less _ _ 64) in Hr; [|lia]|done].
    rewrite IH; [|lia|done|lia| |done].
    + by rewrite advance_advance, length_app, Nat2Z.inj_add.
    + eapply room_less; [apply room_after; [exact Hr|lia]|lia].
Qed.

Lemma level_below n l i : Forall pair_ok l -> i < n -> level_at n l i = None.
Proof.
  intros Hl. revert n. induction Hl as [|c l (? & ? & ?) Hl IH]; intros n Hi; cbn [level_at]; [done|].
  destruct (Z.eqb_spec i (n + c.1)); [lia|]. apply IH. lia.
Qed.

Lemma length_put_levels intra q qm n l data : length (put_levels intra q qm n l data) = length data.
Proof.
  revert n data. induction l as [|c l IH]; intros; cbn [put_levels]; [done|].
  rewrite IH. apply length_aset.
Qed.

Lemma put_levels_get intra q qm n l data i :
  0 <= n -> Forall pair_ok l -> span n l <= 64 -> length data = 64%nat -> 0 <= i < 64 ->
  let z := aget ZIG_ZAG i in
  aget (put_levels intra q qm n l data) z =
    match level_at n l i with
    | Some level => reconstruct intra q (aget qm z) level * aget PREMULTIPLIER_MATRIX z
    | None => aget data z
    end.
Proof.
  intros Hn Hl. revert n data Hn. induction Hl as [|c l Hc Hl IH]; intros n data Hn Hspan Hlen Hi;
    cbn [put_levels level_at span] in *; [done|].
  assert (0 <= c.1) by (destruct Hc as (? & ? & ?); lia).
  pose proof (span_le (n + c.1 + 1) l Hl). destruct (zig_zag_in i Hi) as [_ Hz].
  destruct (zig_zag_in (n + c.1) ltac:(lia)) as [_ Hz'].
  rewrite IH by (lia || done || (unfold put_level; by rewrite length_aset)).
  destruct (Z.eqb_spec i (n + c.1)) as [->|Hne].
  - rewrite level_below by (done || lia). unfold put_level. rewrite aget_aset_eq by lia. done.
  - unfold put_level. rewrite aget_aset_ne; [done|lia|lia|].
    intros E. apply Hne. symmetry. apply zig_zag_inj; [lia|lia|exact E].
Qed.

(** ** The whole block *)

(** The position of the first pair: behind the DC coefficient of an intra block. *)
Definition first_pair (intra : bool) : Z := if intra then 1 else 0.

Definition enc_coded (intra : bool) (block d : Z) (l : list (Z * Z)) : list bool :=
  (if intra then enc_dc (dc_book block) d else []) ++ enc_pairs (first_pair intra) l.

(** [data] holds the block of the DC value [v] and the pairs [l]: at each position
    of the scan the level there, reconstructed and premultiplied, or zero. *)
Definition block_of (intra : bool) (q : Z) (qm : list Z) (v : Z) (l : list (Z * Z)) (data : list Z) : Prop :=
  length data = 64%nat /\
  forall i, 0 <= i < 64 ->
    let z := aget ZIG_ZAG i in
    aget data z =
      if intra && (i =? 0) then v * 256
      else match level_at (first_pair intra) l i with
           | Some level => reconstruct intra q (aget qm z) level * aget PREMULTIPLIER_MATRIX z
           | None => 0
           end.

(** The block before the pairs. *)
Definition dc_start (intra : bool) (v : Z) : list Z :=
  if intra then dc_block (v * 256) else replicate 64 0.

(** The coefficients, as [decodeBlock] collects them. *)
Definition coeff_block (intra : bool) (q : Z) (qm : list Z) (v : Z) (l : list (Z * Z)) : list Z :=
  put_levels intra q qm (first_pair intra) l (dc_start intra v).

Lemma block_of_levels intra q qm v l :
  Forall pair_ok l -> span (first_pair intra) l <= 64 ->
  block_of intra q qm v l (coeff_block intra q qm v l).
Proof.
  intros Hl Hspan. unfold coeff_block. assert (length (dc_start intra v) = 64%nat) as Hlen by (by destruct intra).
  split; [by rewrite length_put_levels|]. intros i Hi z.
  pose proof (put_levels_get intra q qm (first_pair intra) l (dc_start intra v) i
    ltac:(by destruct intra) Hl Hspan Hlen Hi) as E. fold z in E. cbn zeta in E. rewrite E.
  destruct intra; cbn [andb first_pair dc_start].
  - destruct (Z.eqb_spec i 0) as [->|Hne].
    + rewrite level_below by (done || lia). done.
    + destruct (level_at 1 l i); [done|].
      assert (0 < z) as Hz.
      { destruct (zig_zag_in i Hi) as [_ Hz]. fold z in Hz.
        destruct (Z.eq_dec z 0) as [E0|]; [|lia].
        destruct Hne. apply zig_zag_inj; [lia|lia|exact E0]. }
      destruct (zig_zag_in i Hi) as [_ Hz']. fold z in Hz'. unfold aget, dc_block.
      by rewrite lookup_cons_ne_0, lookup_replicate_2 by lia.
  - destruct (level_at 0 l i); [done|]. unfold aget.
    destruct (zig_zag_in i Hi) as [_ Hz]. fold z in Hz. by rewrite lookup_replicate_2 by lia.
Qed.

Lemma span_single n l : Forall pair_ok l -> span n l = n -> l = [].
Proof.
  intros [|c l' (? & ? & ?) Hl]; [done|]. cbn [span].
  pose proof (span_le (n + c.1 + 1) l' Hl). lia.
Qed.

(** A block that ends behind its first position is constant. *)
Lemma single_levels intra q qm v l :
  Forall pair_ok l -> byte v -> span (first_pair intra) l = 1 ->
  exists x, coeff_block intra q qm v l = dc_block x /\
    -2147483648 <= x < 2147483520.
Proof.
  intros Hl Hv Hspan. unfold byte in Hv. unfold coeff_block. destruct intra; cbn [first_pair dc_start] in *.
  - apply span_single in Hspan as ->; [|done]. exists (v * 256). split; [done|lia].
  - destruct Hl as [|c l (? & ? & ?) Hl]; [done|]. cbn [span put_levels] in *.
    pose proof (span_le (0 + c.1 + 1) l Hl). replace (0 + c.1) with 0 in * by lia.
    apply span_single in Hspan as ->; [|done]. eexists. split; [reflexivity|].
    pose proof (premultiplied_range false q (aget qm (aget ZIG_ZAG 0)) c.2 (aget ZIG_ZAG 0)). lia.
Qed.

Lemma on_plane_ext block f g c : (forall dest, f dest = g dest) -> on_plane block f c = on_plane block g c.
Proof. intros E. unfold on_plane. by rewrite !E. Qed.

(** The block goes to its place the same way, constant or not. *)
Lemma place_levels g m block n data c :
  (n = 1 -> exists x, data = dc_block x /\ -2147483648 <= x < 2147483520) ->
  place_block g m block n data c =
    (on_plane block (fun dest =>
       (if macroblockIntra m then copyBlockToDestination else addBlockToDestination)
         (IDCT data) dest (destination g m block).1 (destination g m block).2) c,
     replicate 64 0).
Proof.
  intros Hone. unfold place_block. destruct (destination g m block) as [i scan]. cbn [fst snd].
  destruct (Z.eqb_spec n 1) as [Hn|]; [|by destruct (macroblockIntra m)].
  destruct (Hone Hn) as (x & -> & Hx).
  apply (f_equal2 pair); [|reflexivity]. apply on_plane_ext. intros dest.
  change (aget (dc_block x) 0) with x.
  destruct (macroblockIntra m); [by apply copy_shortcut|by apply add_shortcut].
Qed.

(** What comes before the coefficients. *)
Lemma dc_decoded block v m r :
  byte_preds (preds_of m) -> byte v -> room r 64 ->
  starts r (enc_dc (dc_book block) (v - predictor_of m block)) ->
  decode_dc (if block <? 4 then DCT_DC_SIZE_LUMINANCE else DCT_DC_SIZE_CHROMINANCE)
    (predictor_of m block) r =
    Some (v, advance r (Z.of_nat (length (enc_dc (dc_book block) (v - predictor_of m block))))).
Proof.
  intros Hp Hv Hr Hs. pose proof (byte_pred _ block Hp : byte (predictor_of m block)) as Hb.
  unfold byte in *. rewrite (decode_enc_dc _ (dc_book block) _ (v - predictor_of m block));
    [|unfold dc_book, dc_tables; case_match; [left|right; left]|lia|done|done].
  by replace (s32 (predictor_of m block + (v - predictor_of m block))) with v
    by (rewrite s32_small; lia).
Qed.

Lemma block_head block v l d :
  let m := mb d in
  let intra := macroblockIntra m in
  let w := enc_coded intra block (v - predictor_of m block) l in
  byte_preds (preds_of m) -> byte v -> blockData d = replicate 64 0 ->
  room (rd d) (32 * Z.of_nat (length l) + 96) -> starts (rd d) w ->
  exists r1, advance r1 (Z.of_nat (length (enc_pairs (first_pair intra) l))) =
      advance (rd d) (Z.of_nat (length w)) /\
    room r1 (32 * Z.of_nat (length l) + 64) /\ starts r1 (enc_pairs (first_pair intra) l) /\
    (if intra then
       '(v, r) ← decode_dc (if block <? 4 then DCT_DC_SIZE_LUMINANCE else DCT_DC_SIZE_CHROMINANCE)
                           (predictor_of m block) (rd d);
       Some (save_predictor m block v, aset (blockData d) 0 (shl v 8), 1, r)
     else Some (m, blockData d, 0, rd d)) =
    Some (if intra then save_predictor m block v else m, dc_start intra v, first_pair intra, r1).
Proof.
  intros m intra w Hp Hv Hz Hr Hs. unfold w, enc_coded in *. rewrite Hz. clear Hz.
  destruct intra; cbn [first_pair dc_start].
  - apply starts_app in Hs as [Hs1 Hs2].
    assert (length (enc_dc (dc_book block) (v - predictor_of m block)) <= 16)%nat as Hlen.
    { pose proof (byte_pred _ block Hp : byte (predictor_of m block)). unfold byte in *.
      apply length_enc_dc; [lia|]. unfold dc_book. case_match; auto. }
    eexists. rewrite length_app, Nat2Z.inj_add, <- advance_advance. split; [reflexivity|].
    split; [eapply room_less; [apply room_after; [exact Hr|lia]|lia]|]. split; [done|].
    rewrite (dc_decoded block v) by (done || by apply (room_less _ _ 64) in Hr; [|lia]).
    cbn [mbind option_bind]. unfold byte in Hv. rewrite shl_small by lia. done.
  - exists (rd d). split; [done|]. split; [by apply (room_less _ _ _ Hr); lia|]. done.
Qed.

(** The whole of [decodeBlock]. *)
Lemma block_decoded g im nm fuel block v l d :
  let m := mb d in
  let intra := macroblockIntra m in
  let w := enc_coded intra block (v - predictor_of m block) l in
  0 <= quantizerScale m <= 31 -> matrix_ok im -> matrix_ok nm ->
  byte_preds (preds_of m) -> byte v ->
  Forall pair_ok l -> 0 < span (first_pair intra) l <= 64 -> (length l < fuel)%nat ->
  blockData d = replicate 64 0 ->
  room (rd d) (32 * Z.of_nat (length l) + 96) -> starts (rd d) w ->
  decodeBlock g im nm fuel block d =
    Some (Dec (advance (rd d) (Z.of_nat (length w)))
              (if intra then save_predictor m block v else m)
              (on_plane block (fun dest =>
                 (if intra then copyBlockToDestination else addBlockToDestination)
                   (IDCT (coeff_block intra (quantizerScale m) (if intra then im else nm) v l))
                   dest (destination g m block).1 (destination g m block).2) (cur d))
              (replicate 64 0)).
Proof.
  intros m intra w Hq Him Hnm Hp Hv Hl Hspan Hfuel Hz Hr Hs.
  set (qm := if intra then im else nm).
  assert (matrix_ok qm) as Hqm by (unfold qm; by destruct intra).
  destruct (block_head block v l d Hp Hv Hz Hr Hs) as (r1 & Hr1 & Hroom & Hs1 & E).
  fold m intra in Hr1, Hs1, E.
  unfold decodeBlock. fold m. fold intra. rewrite E. cbn [mbind option_bind].
  set (m' := if intra then save_predictor m block v else m).
  assert (macroblockIntra m' = intra /\ quantizerScale m' = quantizerScale m /\
    destination g m' block = destination g m block) as (Ei & Eq & Ed).
  { unfold m'. destruct intra eqn:Ei; [|done]. unfold save_predictor, destination. by repeat case_match. }
  rewrite Ei, Eq.
  fold qm. rewrite (pairs_decoded fuel intra _ qm _ l) by (done || by destruct intra). cbn [mbind option_bind].
  rewrite place_levels by (intros; by apply single_levels). fold m'. rewrite Ei, Ed, Hr1. done.
Qed.

(** C6: the coefficients of a block survive encoding and decoding.  Take a block of
    an intra or a predicted macroblock, any list of runs and levels that fits into
    the 64 positions (a predicted block has at least one), and the bits an encoder
    writes for it: the difference to the DC predictor for an intra block, the code
    or the escape of each pair, the end of the block.  [decodeBlock] reads the block
    to its last bit, keeps the new predictor, leaves [blockData] cleared, and copies
    to (or adds to) its place in the picture the inverse transform of the block that
    holds every level at its position of the zig-zag scan, dequantized, made odd,
    clipped and premultiplied, and zero everywhere else. *)
Theorem block_round_trip g im nm fuel block v l d :
  let m := mb d in
  let intra := macroblockIntra m in
  let w := enc_coded intra block (v - predictor_of m block) l in
  0 <= quantizerScale m <= 31 -> matrix_ok im -> matrix_ok nm ->
  byte_preds (preds_of m) -> byte v ->
  Forall pair_ok l -> 0 < span (first_pair intra) l <= 64 -> (length l < fuel)%nat ->
  blockData d = replicate 64 0 ->
  room (rd d) (32 * Z.of_nat (length l) + 96) -> starts (rd d) w ->
  exists data,
    block_of intra (quantizerScale m) (if intra then im else nm) v l data /\
    decodeBlock g im nm fuel block d =
      Some (Dec (advance (rd d) (Z.of_nat (length w)))
                (if intra then save_predictor m block v else m)
                (on_plane block (fun dest =>
                   (if intra then copyBlockToDestination else addBlockToDestination)
                     (IDCT data) dest (destination g m block).1 (destination g m block).2) (cur d))
                (replicate 64 0)).
Proof.
  intros m intra w Hq Him Hnm Hp Hv Hl Hspan Hfuel Hz Hr Hs.
  exists (coeff_block intra (quantizerScale m) (if intra then im else nm) v l).
  split; [apply block_of_levels; [done|lia]|by apply block_decoded].
Qed.

(** An intra block with a short code, a level of one behind the start, and escapes of
    one and of two bytes on both sides. *)
Definition some_pairs : list (Z * Z) := [(0, 5); (0, 1); (2, -1); (3, 100); (7, -60); (0, 200); (1, -128)].

Definition some_block : dec :=
  Dec (new_reader (pack (enc_coded true 0 (100 - 128) some_pairs)))
      (Macroblock 8 false 0 0 0 1 true false 0 0 0 0 128 128 128)
      (Frame (replicate 256 0) (replicate 64 0) (replicate 64 0)) (replicate 64 0).

Lemma some_block_starts : starts (rd some_block) (enc_coded true 0 (100 - 128) some_pairs).
Proof.
  apply (holds_starts _ 0); [|reflexivity|lia]. intros k x Hk. unfold tget. zknown.
  rewrite Z.add_0_l, Nat2Z.id. exact Hk.
Qed.

Lemma some_block_room : room (rd some_block) 320.
Proof.
  split; [apply (bool_decide_eq_true_1 _); vm_compute; reflexivity|].
  split; [reflexivity|]. vm_compute. reflexivity.
Qed.

Lemma block_round_trip_witness :
  exists data d', aget data 2 = reconstruct true 8 19 (-1) * 42 /\
    decodeBlock (new_geometry 16 16) DEFAULT_INTRA_QUANT_MATRIX DEFAULT_NON_INTRA_QUANT_MATRIX 8 0 some_block = Some d' /\
    dcPredictorY (mb d') = 100.
Proof.
  destruct (block_round_trip (new_geometry 16 16) DEFAULT_INTRA_QUANT_MATRIX DEFAULT_NON_INTRA_QUANT_MATRIX
    8 0 100 some_pairs some_block) as (data & [_ Hd] & E).
  - cbn. lia.
  - split; [reflexivity|decide_bytes].
  - split; [reflexivity|decide_bytes].
  - repeat split; cbn; lia.
  - split; lia.
  - repeat (apply Forall_cons; split; [unfold pair_ok; cbn; lia|]). apply Forall_nil. done.
  - split; reflexivity || discriminate.
  - cbn. lia.
  - reflexivity.
  - exact some_block_room.
  - exact some_block_starts.
  - exists data. eexists. split; [exact (Hd 5 ltac:(lia))|]. split; [exact E|reflexivity].
Defined.
