(* ===== verification/MpegCells.v ===== *)
(** * Macroblocks

    The macroblocks of intra and predicted pictures, encoded the way an MPEG-1
    encoder writes them: address increments with escapes for runs of skipped
    macroblocks, the type, a new quantizer scale where it changes, differences of
    motion vectors, the pattern of the coded blocks, and the blocks with all
    their coefficients.  The decoder reads a row of them to its end and draws
    each. *)

From coqutil Require Import Datatypes.RecordSettersUsingExistingGetters.
From S2P Require Import Prelude JsArray MpegTables BitReader MpegCopy MpegBlock MpegDecoder Canvas MpegStream.
From S2P Require Import MpegPicture MpegCoefficients.

(** ** The encoder *)

Definition pairs : Type := list (Z * Z).

(** A macroblock: like the last picture; moved by half pixels; moved or not, and
    corrected by the coefficients of six blocks, of which some may have none; or
    without the last picture, six blocks with a DC value each.  [q] is the
    quantizer scale. *)
Inductive cell :=
| Skip
| Move (h v : Z)
| Coded (q : Z) (mv : option (Z * Z)) (rs : list pairs)
| Intra (q : Z) (bs : list (Z * pairs)).

#[export] Instance cell_eq_dec : EqDecision cell.
Proof. solve_decision. Defined.

Definition is_intra (c : cell) : bool := match c with Intra _ _ => true | _ => false end.

Definition vector_of (c : cell) : option (Z * Z) :=
  match c with Move h v => Some (h, v) | Coded _ mv _ => mv | _ => None end.

(** The coded blocks. *)
Definition items (c : cell) : list (option (Z * pairs)) :=
  match c with
  | Skip | Move _ _ => replicate 6 None
  | Coded _ _ rs => (fun l => match l with [] => None | _ => Some (0, l) end) <$> rs
  | Intra _ bs => Some <$> bs
  end.

(** The predictors of the DC values and of the vector, and the scale. *)
Record context := Ctx { c_preds : preds; c_h : Z; c_v : Z; c_q : Z }.

Definition ctx_start (q : Z) : context := Ctx preds_start 0 0 q.

Definition scale_of (x : context) (c : cell) : Z :=
  match c with Coded q _ _ | Intra q _ => q | _ => c_q x end.

Definition type_of (x : context) (c : cell) : Z :=
  (if scale_of x c =? c_q x then 0 else 16) +
  (match vector_of c with Some _ => 8 | None => 0 end) +
  match c with Coded _ _ _ => 2 | Intra _ _ => 1 | _ => 0 end.

Definition enc_increment (n : Z) : list bool :=
  concat (replicate (Z.to_nat ((n - 1) / 33)) (code_of MACROBLOCK_ADDRESS_INCREMENT_codes 35)) ++
  code_of MACROBLOCK_ADDRESS_INCREMENT_codes ((n - 1) mod 33 + 1).

(** The pattern of the coded blocks, from [block] on. *)
Fixpoint pattern {A} (block : Z) (l : list (option A)) : Z :=
  match l with
  | [] => 0
  | o :: l' => (match o with Some _ => 2 ^ (5 - block) | None => 0 end) + pattern (block + 1) l'
  end.

Fixpoint enc_items (intra : bool) (pr : preds) (block : Z) (l : list (option (Z * pairs))) : list bool :=
  match l with
  | [] => []
  | None :: l' => enc_items intra pr (block + 1) l'
  | Some (v, ps) :: l' =>
      enc_coded intra block (v - pred pr block) ps ++
      enc_items intra (if intra then set_pred pr block v else pr) (block + 1) l'
  end.

Fixpoint preds_after (pr : preds) (block : Z) (l : list (option (Z * pairs))) : preds :=
  match l with
  | [] => pr
  | None :: l' => preds_after pr (block + 1) l'
  | Some (v, _) :: l' => preds_after (set_pred pr block v) (block + 1) l'
  end.

Definition type_book (ty : Z) : list (string * Z) :=
  if ty =? PICTURE_TYPE_I then MACROBLOCK_TYPE_I_codes else MACROBLOCK_TYPE_P_codes.

Section Encoder.
Context (ty f : Z) (rsize : nat).

Definition enc_vector (prev v : Z) : list bool := enc_motion f rsize (wrap_vector f (v - prev)).

Definition enc_scale (x : context) (c : cell) : list bool :=
  if scale_of x c =? c_q x then [] else write 5 (scale_of x c).

Definition enc_vectors (x : context) (c : cell) : list bool :=
  match vector_of c with Some (h, v) => enc_vector (c_h x) h ++ enc_vector (c_v x) v | None => [] end.

Definition enc_pattern (c : cell) : list bool :=
  match c with Coded _ _ _ => code_of CODE_BLOCK_PATTERN_codes (pattern 0 (items c)) | _ => [] end.

(** A macroblock behind its address. *)
Definition enc_content (x : context) (c : cell) : list bool :=
  code_of (type_book ty) (type_of x c) ++ enc_scale x c ++ enc_vectors x c ++ enc_pattern c ++
  enc_items (is_intra c) (c_preds x) 0 (items c).

(** A macroblock behind [n] skipped ones. *)
Definition enc_cell (x : context) (n : Z) (c : cell) : list bool :=
  match c with Skip => [] | _ => enc_increment (n + 1) ++ enc_content x c end.

Definition ctx_after (x : context) (c : cell) : context :=
  Ctx (if is_intra c then preds_after (c_preds x) 0 (items c) else preds_start)
      (default (0, 0) (vector_of c)).1 (default (0, 0) (vector_of c)).2 (scale_of x c).

Fixpoint enc_cells (x : context) (n : Z) (cs : list cell) : list bool :=
  match cs with
  | [] => []
  | Skip :: cs' => enc_cells (ctx_after x Skip) (n + 1) cs'
  | c :: cs' => enc_cell x n c ++ enc_cells (ctx_after x c) 0 cs'
  end.

(** The bits of the last macroblock; none when it is skipped. *)
Fixpoint last_bits (x : context) (n : Z) (cs : list cell) : list bool :=
  match cs with
  | [] => []
  | Skip :: cs' => last_bits (ctx_after x Skip) (n + 1) cs'
  | [c] => enc_cell x n c
  | c :: cs' => last_bits (ctx_after x c) 0 cs'
  end.

(** The pairs of a block fit into it. *)
Definition item_ok (intra : bool) (o : option (Z * pairs)) : Prop :=
  match o with
  | Some (v, ps) => byte v /\ Forall pair_ok ps /\ 0 < span (first_pair intra) ps <= 64
  | None => True
  end.

(** Vectors are in the window of the picture's f_code; a macroblock that is not
    moved has a coded block; intra pictures have only intra macroblocks. *)
Record cell_ok (c : cell) : Prop := {
  ck_kind : ty = PICTURE_TYPE_I -> is_intra c = true;
  ck_scale : match c with Coded q _ _ | Intra q _ => 0 < q < 32 | _ => True end;
  ck_vector : match vector_of c with Some (h, v) => -16 * f <= h < 16 * f /\ -16 * f <= v < 16 * f | None => True end;
  ck_six : length (items c) = 6%nat;
  ck_items : Forall (item_ok (is_intra c)) (items c);
  ck_coded : match c with Coded _ _ _ => pattern 0 (items c) <> 0 | _ => True end }.
End Encoder.

(** ** No start codes inside a slice *)

(** The zeros at the end after [z] zeros and [w]; [None] when 23 come together. *)
Fixpoint zeros_run (z : nat) (w : list bool) : option nat :=
  match w with
  | [] => Some z
  | true :: w' => zeros_run 0 w'
  | false :: w' => if (22 <=? z)%nat then None else zeros_run (S z) w'
  end.

Lemma zeros_run_app z w1 w2 : zeros_run z (w1 ++ w2) = zeros_run z w1 ≫= fun z => zeros_run z w2.
Proof.
  revert z. induction w1 as [|[] w1 IH]; intros z; cbn [zeros_run app]; [done|apply IH|].
  destruct (22 <=? z)%nat; [done|apply IH].
Qed.

Lemma zeros_run_mono y z z' w :
  (y <= z)%nat -> zeros_run z w = Some z' -> exists y', zeros_run y w = Some y' /\ (y' <= z')%nat.
Proof.
  revert y z. induction w as [|[] w IH]; intros y z Hyz Hz; cbn [zeros_run] in *; [simplify_eq; eauto|eauto|].
  destruct (Nat.leb_spec 22 z); [done|]. destruct (Nat.leb_spec 22 y); [lia|]. eapply IH; [|done]. lia.
Qed.

(** At most [b] zeros at the end when there are at most [a] before. *)
Definition calm_to (a b : nat) (w : list bool) : bool :=
  match zeros_run a w with Some z => (z <=? b)%nat | None => false end.

(** Words that can follow each other without making 23 zeros. *)
Definition calm : list bool -> bool := calm_to 12 12.

Lemma calm_to_app a b c w1 w2 : calm_to a b w1 = true -> calm_to b c w2 = true -> calm_to a c (w1 ++ w2) = true.
Proof.
  unfold calm_to. rewrite zeros_run_app. intros H1 H2.
  destruct (zeros_run a w1) as [z1|]; [|done]. cbn. apply Nat.leb_le in H1.
  destruct (zeros_run b w2) as [z2|] eqn:E2; [|done]. apply Nat.leb_le in H2.
  destruct (zeros_run_mono z1 b z2 w2 H1 E2) as (y & -> & ?). apply Nat.leb_le. lia.
Qed.

Lemma calm_to_mono a b a' b' w : (a' <= a)%nat -> (b <= b')%nat -> calm_to a b w = true -> calm_to a' b' w = true.
Proof.
  unfold calm_to. intros Ha Hb H. destruct (zeros_run a w) as [z|] eqn:E; [|done]. apply Nat.leb_le in H.
  destruct (zeros_run_mono a' a z w Ha E) as (y & -> & ?). apply Nat.leb_le. lia.
Qed.

Lemma calm_app w1 w2 : calm w1 = true -> calm w2 = true -> calm (w1 ++ w2) = true.
Proof. apply calm_to_app. Qed.

Lemma calm_concat ws : Forall (fun w => calm w = true) ws -> calm (concat ws) = true.
Proof. induction 1; cbn [concat]; [done|by apply calm_app]. Qed.

Lemma zeros_run_zeros z n z' :
  zeros_run z (replicate n false) = Some z' -> (n = 0 \/ z + n <= 22)%nat /\ z' = (z + n)%nat.
Proof.
  revert z. induction n as [|n IH]; intros z; cbn [replicate zeros_run].
  - intros [= <-]. split; [by left|lia].
  - destruct (Nat.leb_spec 22 z); [done|]. intros [? ->]%IH. lia.
Qed.

(** Zeros in a calm word: less than 23, and less than 13 at its end. *)
Lemma calm_zeros w a n :
  calm_to 0 12 w = true -> (forall k, (a <= k < a + n)%nat -> w !! k = Some false) ->
  (n < 23)%nat /\ (length w <= a + n -> n <= 12)%nat.
Proof.
  intros Hc Hz. destruct (decide (n = 0)%nat) as [->|Hn]; [lia|].
  assert (a + n <= length w)%nat as Hl.
  { specialize (Hz (a + n - 1)%nat ltac:(lia)). apply lookup_lt_Some in Hz. lia. }
  assert (take n (drop a w) = replicate n false) as Ed.
  { apply list_eq_same_length with (n := n); [by rewrite length_replicate|rewrite length_take, length_drop; lia|].
    intros k x y Hk Hx Hy. rewrite lookup_take_lt, lookup_drop, Hz in Hx by lia.
    apply lookup_replicate in Hy as [-> _]. congruence. }
  unfold calm_to in Hc. rewrite <- (take_drop a w), <- (take_drop n (drop a w)), Ed, zeros_run_app in Hc.
  destruct (zeros_run 0 (take a w)) as [z1|]; cbn [mbind option_bind] in Hc; [|done].
  rewrite zeros_run_app in Hc. destruct (zeros_run z1 (replicate n false)) as [z2|] eqn:E; cbn [mbind option_bind] in Hc; [|done]. apply zeros_run_zeros in E as [E ->].
  split; [lia|]. intros Hend.
  rewrite (drop_ge (drop a w)) in Hc by (rewrite length_drop; lia). cbn in Hc. apply Nat.leb_le in Hc. lia.
Qed.

(** Before the last macroblock of a slice there is no start code, provided that
    the macroblock does not end in the byte under way. *)
Lemma calm_not_start r w :
  room r 64 -> calm w = true -> (8 <= length w)%nat -> starts r w ->
  let r' := advance r (Z.of_nat (length w)) in
  from r' < writePos r' -> prefix_at r' (from r') = true -> nextBytesAreStartCode r = false.
Proof.
  intros (Hb & Hi & Hr) Hc Hl Hs r' Hw Hp. unfold nextBytesAreStartCode.
  rewrite shr_div by lia. change (2 ^ 3) with 8. fold (from r).
  pose proof (Z.div_mod (index r + 7) 8 ltac:(lia)) as Hdm. fold (from r) in Hdm.
  pose proof (Z.mod_pos_bound (index r + 7) 8 ltac:(lia)).
  pose proof (Z.div_mod (index r' + 7) 8 ltac:(lia)) as Hdm'. fold (from r') in Hdm'.
  pose proof (Z.mod_pos_bound (index r' + 7) 8 ltac:(lia)).
  change (index r') with (index r + Z.of_nat (length w)) in *. change (writePos r') with (writePos r) in Hw.
  destruct (Z.leb_spec (writePos r) (from r)); [lia|]. cbn [orb].
  destruct (prefix_at r (from r)) eqn:Hpre; [exfalso|done].
  unfold prefix_at in Hp, Hpre. change (byte_at r') with (byte_at r) in Hp.
  rewrite !andb_true_iff, !bool_decide_eq_true in Hp, Hpre. destruct Hp as [[P0 P1] P2], Hpre as [[Q0 Q1] Q2].
  assert (from r + 3 <= from r') as Hfar.
  { assert (from r' <> from r + 1) by (intros E; rewrite E, <- Z.add_assoc in P1; change (1 + 1) with 2 in P1; congruence).
    assert (from r' <> from r + 2) by (intros E; rewrite E in P0; congruence). lia. }
  set (a := Z.to_nat (8 * from r - index r)). set (n := Nat.min 23 (length w - a)).
  destruct (calm_zeros w a n (calm_to_mono 12 12 0 12 w ltac:(lia) ltac:(lia) Hc)) as [Hn1 Hn2]; [|lia].
  intros k Hk. destruct (lookup_lt_is_Some_2 w k) as [b Eb]; [lia|]. rewrite Eb. f_equal.
  rewrite <- (Hs k b Eb). unfold bit. set (i := index r + Z.of_nat k).
  assert (8 * from r <= i < 8 * from r + 23) as Hik by lia. clearbody i.
  pose proof (Z.div_mod i 8 ltac:(lia)). pose proof (Z.mod_pos_bound i 8 ltac:(lia)).
  assert (i / 8 = from r \/ i / 8 = from r + 1 \/ (i / 8 = from r + 2 /\ 0 < 7 - i mod 8)) as [E|[E|[E Hm]]] by lia;
    rewrite E; unfold byte_at in *.
  - rewrite Q0. apply Z.testbit_0_l.
  - rewrite Q1. apply Z.testbit_0_l.
  - rewrite Q2. cbn [default from_option]. apply Z.bits_above_log2; cbn; lia.
Qed.

(** ** Every word of the encoder is calm *)

Lemma increment_codes n : 1 <= n <= 35 -> n ∈ MACROBLOCK_ADDRESS_INCREMENT_codes.*2 /\
  calm (code_of MACROBLOCK_ADDRESS_INCREMENT_codes n) = true /\
  (1 <= length (code_of MACROBLOCK_ADDRESS_INCREMENT_codes n) <= 11)%nat.
Proof.
  intros Hn. assert (all_below 35 (fun x => bool_decide (x + 1 ∈ MACROBLOCK_ADDRESS_INCREMENT_codes.*2) &&
    calm (code_of MACROBLOCK_ADDRESS_INCREMENT_codes (x + 1)) &&
    (1 <=? length (code_of MACROBLOCK_ADDRESS_INCREMENT_codes (x + 1)))%nat &&
    (length (code_of MACROBLOCK_ADDRESS_INCREMENT_codes (x + 1)) <=? 11)%nat) = true) as Hall
    by (vm_compute; reflexivity).
  apply (all_below_spec _ _ (n - 1)) in Hall; [|lia]. cbn beta in Hall.
  replace (n - 1 + 1) with n in Hall by lia. rewrite !andb_true_iff, !Nat.leb_le, bool_decide_eq_true in Hall.
  intuition.
Qed.

Lemma increment_calm n : 1 <= n -> calm (enc_increment n) = true.
Proof.
  intros Hn. unfold enc_increment. pose proof (Z.mod_pos_bound (n - 1) 33 ltac:(lia)).
  apply calm_app; [apply calm_concat, Forall_replicate|]; apply increment_codes; lia.
Qed.

Lemma length_increment n : 1 <= n -> Z.of_nat (length (enc_increment n)) <= 11 * ((n - 1) / 33) + 11.
Proof.
  intros Hn. unfold enc_increment. pose proof (Z.mod_pos_bound (n - 1) 33 ltac:(lia)).
  assert (0 <= (n - 1) / 33) by (apply Z.div_pos; lia).
  destruct (increment_codes ((n - 1) mod 33 + 1)) as (_ & _ & Hl); [lia|].
  rewrite length_app, length_concat, fmap_replicate.
  change (length (code_of MACROBLOCK_ADDRESS_INCREMENT_codes 35)) with 11%nat.
  rewrite sum_list_replicate. lia.
Qed.

Lemma motion_calm f rsize delta :
  f = 2 ^ Z.of_nat rsize -> (rsize <= 6)%nat -> -16 * f <= delta < 16 * f -> calm (enc_motion f rsize delta) = true.
Proof.
  intros Hf Hr Hd.
  assert (forallb (fun rs => let f := 2 ^ Z.of_nat rs in
    all_below (Z.to_nat (32 * f)) (fun x => calm (enc_motion f rs (x - 16 * f)))) (seq 0 7) = true) as Hall by (vm_compute; reflexivity).
  rewrite forallb_forall in Hall. specialize (Hall rsize ltac:(apply in_seq; lia)). cbn zeta beta in Hall.
  rewrite <- Hf in Hall. apply (all_below_spec _ _ (delta + 16 * f)) in Hall; [|lia].
  cbn beta in Hall. by replace (delta + 16 * f - 16 * f) with delta in Hall by lia.
Qed.

(** The first pair of a block may follow eleven zeros, as the end of one may. *)
Lemma pair_calm n c : pair_ok c -> calm_to 11 7 (enc_pair n c) = true.
Proof.
  intros ([Hr1 Hr2] & Hl0 & Hl1 & Hl2). unfold enc_pair. case_bool_decide as Hv.
  - assert (forallb (fun v => forallb (fun o => forallb (fun s =>
      calm_to 11 7 (code_of DCT_COEFF_codes v ++ (if (v =? 1) && o then [true] else []) ++ [s])) [true; false])
      [true; false]) (DCT_COEFF_codes.*2) = true) as Hall by (vm_compute; reflexivity).
    rewrite forallb_forall in Hall. specialize (Hall _ (proj1 (list_elem_of_In _ _) Hv)).
    rewrite forallb_forall in Hall. specialize (Hall (0 <? n) ltac:(destruct (0 <? n); cbn; auto)).
    rewrite forallb_forall in Hall. exact (Hall (c.2 <? 0) ltac:(destruct (c.2 <? 0); cbn; auto)).
  - assert (all_below 64 (fun run => all_below 511 (fun l => (l =? 255) ||
      calm_to 11 7 (code_of DCT_COEFF_codes 65535 ++ write 6 run ++ enc_level (l - 255)))) = true) as Hall
      by (vm_compute; reflexivity).
    apply (all_below_spec _ _ c.1) in Hall; [|lia]. apply (all_below_spec _ _ (c.2 + 255)) in Hall; [|lia].
    cbn beta in Hall. replace (c.2 + 255 - 255) with c.2 in Hall by lia.
    by destruct (Z.eqb_spec (c.2 + 255) 255); [lia|].
Qed.

Lemma pairs_calm n l : Forall pair_ok l -> calm_to 11 1 (enc_pairs n l) = true.
Proof.
  intros Hl. revert n. induction Hl as [|c l Hc Hl IH]; intros n; cbn [enc_pairs]; [done|].
  apply calm_to_app with (b := 7%nat); [by apply pair_calm|].
  apply (calm_to_mono 11 1); [lia|lia|apply IH].
Qed.

Lemma dc_calm block d : -255 <= d <= 255 -> calm_to 5 9 (enc_dc (dc_book block) d) = true.
Proof.
  intros Hd. assert (all_below 511 (fun x => calm_to 5 9 (enc_dc (dc_book 0) (x - 255)) &&
    calm_to 5 9 (enc_dc (dc_book 4) (x - 255))) = true) as Hall by (vm_compute; reflexivity).
  apply (all_below_spec _ _ (d + 255)) in Hall; [|lia]. cbn beta in Hall.
  replace (d + 255 - 255) with d in Hall by lia. apply andb_true_iff in Hall as [H0 H4].
  unfold dc_book in *. by destruct (block <? 4).
Qed.

Lemma coded_calm intra block d l :
  -255 <= d <= 255 -> Forall pair_ok l -> calm_to 5 1 (enc_coded intra block d l) = true.
Proof.
  intros Hd Hl. unfold enc_coded. destruct intra.
  - apply calm_to_app with (b := 9%nat); [by apply dc_calm|].
    apply (calm_to_mono 11 1); [lia|lia|by apply pairs_calm].
  - apply (calm_to_mono 11 1); [lia|lia|by apply pairs_calm].
Qed.

Lemma items_calm intra pr block l :
  byte_preds pr -> Forall (item_ok intra) l -> calm_to 5 5 (enc_items intra pr block l) = true.
Proof.
  intros Hp Hl. revert pr block Hp. induction Hl as [|[[v ps]|] l Ho Hl IH]; intros pr block Hp; cbn [enc_items]; [done| |by apply IH].
  destruct Ho as (Hv & Hps & _). pose proof (byte_pred pr block Hp). unfold byte in *.
  apply calm_to_app with (b := 1%nat); [apply coded_calm; [lia|done]|].
  apply (calm_to_mono 5 5); [lia|lia|]. apply IH. destruct intra; [by apply byte_set_pred|done].
Qed.

Lemma byte_preds_after pr block l intra :
  byte_preds pr -> Forall (item_ok intra) l -> byte_preds (preds_after pr block l).
Proof.
  intros Hp Hl. revert pr block Hp. induction Hl as [|[[v ps]|] l Ho Hl IH]; intros pr block Hp; cbn [preds_after]; [done| |by apply IH].
  apply IH, byte_set_pred; [done|apply Ho].
Qed.

(** A block has at most 64 pairs. *)
Lemma span_length n l : Forall pair_ok l -> n + Z.of_nat (length l) <= span n l.
Proof.
  intros Hl. revert n. induction Hl as [|c l (? & ? & ?) Hl IH]; intros n; cbn [span length]; [lia|].
  specialize (IH (n + c.1 + 1)). lia.
Qed.

Lemma item_short intra v ps : item_ok intra (Some (v, ps)) -> (length ps <= 64)%nat.
Proof.
  intros (_ & Hps & Hs). pose proof (span_length (first_pair intra) ps Hps).
  assert (0 <= first_pair intra) by (by destruct intra). lia.
Qed.

Lemma length_coded intra block d l :
  -255 <= d <= 255 -> (length (enc_coded intra block d l) <= 18 + 32 * length l)%nat.
Proof.
  intros Hd. unfold enc_coded. rewrite length_app. pose proof (length_enc_pairs (first_pair intra) l).
  assert (length (enc_dc (dc_book block) d) <= 16)%nat.
  { apply length_enc_dc; [done|]. unfold dc_book. case_match; auto. }
  destruct intra; cbn [length]; lia.
Qed.

Lemma length_items intra pr block l :
  byte_preds pr -> Forall (item_ok intra) l -> (length (enc_items intra pr block l) <= 2066 * length l)%nat.
Proof.
  intros Hp Hl. revert pr block Hp. induction Hl as [|[[v ps]|] l Ho Hl IH]; intros pr block Hp; cbn [enc_items length]; [lia| |].
  - pose proof (item_short _ _ _ Ho). destruct Ho as (Hv & Hps & _). pose proof (byte_pred pr block Hp). unfold byte in *.
    rewrite length_app. pose proof (length_coded intra block (v - pred pr block) ps ltac:(lia)).
    pose proof (IH (if intra then set_pred pr block v else pr) (block + 1) ltac:(destruct intra; [by apply byte_set_pred|done])). lia.
  - pose proof (IH pr (block + 1) Hp). lia.
Qed.

Lemma pattern_range {A} (l : list (option A)) : length l = 6%nat -> 0 <= pattern 0 l < 64.
Proof.
  intros Hl. destruct (six l Hl) as (o0 & o1 & o2 & o3 & o4 & o5 & ->).
  destruct o0, o1, o2, o3, o4, o5; by vm_compute.
Qed.

Lemma pattern_code n : 0 < n < 64 ->
  n ∈ CODE_BLOCK_PATTERN_codes.*2 /\ calm_to 12 5 (code_of CODE_BLOCK_PATTERN_codes n) = true /\
  (length (code_of CODE_BLOCK_PATTERN_codes n) <= 16)%nat.
Proof.
  intros Hn. assert (all_below 63 (fun n => bool_decide (n + 1 ∈ CODE_BLOCK_PATTERN_codes.*2) &&
    calm_to 12 5 (code_of CODE_BLOCK_PATTERN_codes (n + 1)) &&
    (length (code_of CODE_BLOCK_PATTERN_codes (n + 1)) <=? 16)%nat) = true) as Hall by (vm_compute; reflexivity).
  apply (all_below_spec _ _ (n - 1)) in Hall; [|lia]. cbn beta in Hall. replace (n - 1 + 1) with n in Hall by lia.
  rewrite !andb_true_iff, bool_decide_eq_true, Nat.leb_le in Hall. tauto.
Qed.

(** ** Rows of macroblocks *)

Section Rows.
Context (ty f : Z) (rsize : nat) (Hty : ty = PICTURE_TYPE_I \/ ty = PICTURE_TYPE_P).
Context (Hf : f = 2 ^ Z.of_nat rsize) (Hr6 : (rsize <= 6)%nat).

(** Predictors the decoder can hold. *)
Record ctx_ok (x : context) : Prop := {
  xk_preds : byte_preds (c_preds x);
  xk_vector : -16 * f <= c_h x < 16 * f /\ -16 * f <= c_v x < 16 * f;
  xk_scale : 0 <= c_q x < 32 }.

Lemma f_range : 0 < f <= 64.
Proof.
  rewrite Hf. split; [apply Z.pow_pos_nonneg; lia|].
  change 64 with (2 ^ 6). apply Z.pow_le_mono_r; lia.
Qed.

Lemma ctx_start_ok q : 0 <= q < 32 -> ctx_ok (ctx_start q).
Proof. pose proof f_range. intros Hq. split; [done|cbn; lia|done]. Qed.

Lemma scale_range x c : ctx_ok x -> cell_ok ty f c -> 0 <= scale_of x c < 32.
Proof using Type. clear - x c. intros [_ _ Hx] [_ Hq _ _ _ _]. destruct c; cbn in *; lia. Qed.

Lemma ctx_after_ok x c : ctx_ok x -> cell_ok ty f c -> ctx_ok (ctx_after x c).
Proof.
  pose proof f_range. intros Hx Hc. pose proof (scale_range x c Hx Hc) as Hq.
  destruct Hc as [_ _ Hv _ Hi _]. split; cbn [ctx_after c_preds c_h c_v c_q]; [| |done].
  - destruct (is_intra c); [|done]. eapply byte_preds_after; [apply Hx|done].
  - destruct (vector_of c) as [[h v]|]; cbn; lia.
Qed.

Lemma vector_calm prev v : calm (enc_vector f rsize prev v) = true.
Proof. apply motion_calm; [done|done|]. apply wrap_vector_range. pose proof f_range. lia. Qed.

Lemma length_vector prev v : (length (enc_vector f rsize prev v) <= 22)%nat.
Proof. apply length_enc_motion; [done|done|]. apply wrap_vector_range. pose proof f_range. lia. Qed.

(** The types an encoder writes. *)
Definition types : list Z := if ty =? PICTURE_TYPE_I then [1; 17] else [8; 2; 18; 10; 26; 1; 17].

Lemma types_code t : t ∈ types ->
  t ∈ (type_book ty).*2 /\ calm_to 12 5 (code_of (type_book ty) t) = true /\ (length (code_of (type_book ty) t) <= 6)%nat.
Proof using Hty.
  intros Ht. assert (forallb (fun t => bool_decide (t ∈ (type_book ty).*2) && calm_to 12 5 (code_of (type_book ty) t) &&
    (length (code_of (type_book ty) t) <=? 6)%nat) types = true) as Hall by (unfold types; destruct Hty as [-> | ->]; vm_compute; reflexivity).
  rewrite forallb_forall in Hall. specialize (Hall t (proj1 (list_elem_of_In _ _) Ht)).
  rewrite !andb_true_iff, bool_decide_eq_true, Nat.leb_le in Hall. tauto.
Qed.

Lemma type_in x c : c <> Skip -> cell_ok ty f c -> type_of x c ∈ types.
Proof using Hty.
  intros Hc [Hk _ _ _ _ _]. unfold types. destruct (Z.eqb_spec ty PICTURE_TYPE_I) as [Ht|Ht].
  - specialize (Hk Ht). destruct c as [| | |q bs]; try done. unfold type_of, scale_of. cbn [vector_of].
    destruct (q =? c_q x); apply (bool_decide_eq_true_1 _); vm_compute; reflexivity.
  - destruct c as [|h v|q mv rs|q bs]; [done|..]; unfold type_of, scale_of; cbn [vector_of].
    + rewrite Z.eqb_refl. apply (bool_decide_eq_true_1 _); vm_compute; reflexivity.
    + destruct (q =? c_q x), mv; apply (bool_decide_eq_true_1 _); vm_compute; reflexivity.
    + destruct (q =? c_q x); apply (bool_decide_eq_true_1 _); vm_compute; reflexivity.
Qed.

Lemma scale_calm x c : cell_ok ty f c -> calm_to 5 5 (enc_scale x c) = true.
Proof using Type.
  clear - x c. intros [_ Hq _ _ _ _]. unfold enc_scale. destruct (Z.eqb_spec (scale_of x c) (c_q x)); [done|].
  assert (all_below 31 (fun q => calm_to 5 5 (write 5 (q + 1))) = true) as Hall by (vm_compute; reflexivity).
  assert (0 < scale_of x c < 32) as Hs by (destruct c; done).
  apply (all_below_spec _ _ (scale_of x c - 1)) in Hall; [|lia]. cbn beta in Hall.
  by replace (scale_of x c - 1 + 1) with (scale_of x c) in Hall by lia.
Qed.

Lemma length_scale x c : (length (enc_scale x c) <= 5)%nat.
Proof using Type. unfold enc_scale. case_match; [apply Nat.le_0_l|by rewrite length_write]. Qed.

Lemma vectors_calm x c : calm_to 5 12 (enc_vectors f rsize x c) = true.
Proof.
  unfold enc_vectors. destruct (vector_of c) as [[h v]|]; [|done].
  apply calm_to_app with (b := 12%nat); [|apply vector_calm].
  apply (calm_to_mono 12 12); [lia|lia|apply vector_calm].
Qed.

Lemma content_calm x c : c <> Skip -> ctx_ok x -> cell_ok ty f c -> calm (enc_content ty f rsize x c) = true.
Proof.
  intros Hne Hx Hc. pose proof (type_in x c Hne Hc) as Ht. apply types_code in Ht as (_ & Ht & _).
  pose proof (scale_calm x c Hc) as Hs. pose proof (vectors_calm x c) as Hv.
  destruct Hc as [_ _ _ H6 Hi Hpat]. pose proof (items_calm _ (c_preds x) 0 _ (xk_preds _ Hx) Hi) as Hit.
  unfold enc_content. apply calm_to_app with (b := 5%nat); [exact Ht|].
  apply calm_to_app with (b := 5%nat); [exact Hs|].
  destruct c as [|h v|q mv rs|q bs]; [done| | |].
  - apply calm_to_app with (b := 12%nat); [exact Hv|done].
  - apply calm_to_app with (b := 12%nat); [exact Hv|]. cbn [enc_pattern]. pose proof (pattern_range _ H6) as Hr.
    apply calm_to_app with (b := 5%nat); [apply pattern_code; lia|]. apply (calm_to_mono 5 5); [lia|lia|exact Hit].
  - cbn [enc_vectors vector_of enc_pattern app]. apply (calm_to_mono 5 5); [lia|lia|exact Hit].
Qed.

Lemma cell_calm x n c : ctx_ok x -> 0 <= n -> cell_ok ty f c -> calm (enc_cell ty f rsize x n c) = true.
Proof.
  intros Hx Hn Hc. destruct (decide (c = Skip)) as [->|Hne]; [done|].
  replace (enc_cell ty f rsize x n c) with (enc_increment (n + 1) ++ enc_content ty f rsize x c) by (by destruct c).
  apply calm_app; [apply increment_calm; lia|by apply content_calm].
Qed.

Lemma length_vectors x c : (length (enc_vectors f rsize x c) <= 44)%nat.
Proof.
  unfold enc_vectors. destruct (vector_of c) as [[h v]|]; [|cbn; lia]. rewrite length_app.
  pose proof (length_vector (c_h x) h). pose proof (length_vector (c_v x) v). lia.
Qed.

Lemma length_pattern c : cell_ok ty f c -> (length (enc_pattern c) <= 16)%nat.
Proof using Type.
  clear - c. intros [_ _ _ H6 _ Hpat]. destruct c as [| |q mv rs|]; cbn [enc_pattern]; try apply Nat.le_0_l.
  pose proof (pattern_range _ H6). apply pattern_code. lia.
Qed.

Lemma length_content x c :
  c <> Skip -> ctx_ok x -> cell_ok ty f c -> Z.of_nat (length (enc_content ty f rsize x c)) <= 12470.
Proof.
  intros Hne Hx Hc. pose proof (type_in x c Hne Hc) as Ht. apply types_code in Ht as (_ & _ & Ht).
  pose proof (length_scale x c) as Hs. pose proof (length_vectors x c) as Hv. pose proof (length_pattern c Hc) as Hp.
  destruct Hc as [_ _ _ H6 Hi _]. pose proof (length_items _ (c_preds x) 0 _ (xk_preds _ Hx) Hi) as Hit. rewrite H6 in Hit.
  unfold enc_content. rewrite !length_app. lia.
Qed.

Lemma cells_calm x n cs :
  ctx_ok x -> 0 <= n -> Forall (cell_ok ty f) cs -> calm (enc_cells ty f rsize x n cs) = true.
Proof.
  intros Hx Hn Hcs. revert x n Hx Hn. induction Hcs as [|c cs Hc Hcs IH]; intros x n Hx Hn; [done|].
  pose proof (ctx_after_ok x c Hx Hc). destruct c; cbn [enc_cells].
  - apply IH; [done|lia].
  - apply calm_app; [by apply cell_calm|by apply IH].
  - apply calm_app; [by apply cell_calm|by apply IH].
  - apply calm_app; [by apply cell_calm|by apply IH].
Qed.

Lemma length_cell x n c :
  ctx_ok x -> 0 <= n -> cell_ok ty f c -> Z.of_nat (length (enc_cell ty f rsize x n c)) <= 12481 + 11 * (n / 33).
Proof.
  intros Hx Hn Hc. assert (0 <= n / 33) by (apply Z.div_pos; lia).
  destruct (decide (c = Skip)) as [->|Hne]; [cbn; lia|].
  pose proof (length_increment (n + 1) ltac:(lia)) as Hl. replace (n + 1 - 1) with n in Hl by lia.
  pose proof (length_content x c Hne Hx Hc).
  replace (enc_cell ty f rsize x n c) with (enc_increment (n + 1) ++ enc_content ty f rsize x c) by (by destruct c).
  rewrite length_app. lia.
Qed.

Lemma length_cells x n cs :
  ctx_ok x -> 0 <= n -> Forall (cell_ok ty f) cs ->
  Z.of_nat (length (enc_cells ty f rsize x n cs)) <= 12492 * Z.of_nat (length cs) + n.
Proof.
  intros Hx Hn Hcs. revert x n Hx Hn. induction Hcs as [|c cs Hc Hcs IH]; intros x n Hx Hn; [cbn; lia|].
  pose proof (ctx_after_ok x c Hx Hc) as Hx'. pose proof (length_cell x n c Hx Hn Hc) as Hl.
  assert (33 * (n / 33) <= n) by (apply Z.mul_div_le; lia). assert (0 <= n / 33) by (apply Z.div_pos; lia).
  destruct c; cbn [enc_cells length]; rewrite ?length_app.
  - pose proof (IH _ (n + 1) Hx' ltac:(lia)). lia.
  - pose proof (IH _ 0 Hx' ltac:(lia)). lia.
  - pose proof (IH _ 0 Hx' ltac:(lia)). lia.
  - pose proof (IH _ 0 Hx' ltac:(lia)). lia.
Qed.

Lemma enc_cells_coded x n c cs :
  c <> Skip -> enc_cells ty f rsize x n (c :: cs) = enc_cell ty f rsize x n c ++ enc_cells ty f rsize (ctx_after x c) 0 cs.
Proof. by destruct c. Qed.

Lemma last_bits_coded x n c c' cs :
  c <> Skip -> last_bits ty f rsize x n (c :: c' :: cs) = last_bits ty f rsize (ctx_after x c) 0 (c' :: cs).
Proof. by destruct c. Qed.

Lemma last_bits_length x n cs : (length (last_bits ty f rsize x n cs) <= length (enc_cells ty f rsize x n cs))%nat.
Proof.
  revert x n. induction cs as [|c cs IH]; intros x n; [done|].
  destruct (decide (c = Skip)) as [->|Hc]; [apply IH|].
  rewrite enc_cells_coded, length_app by done. destruct cs as [|c' cs]; [destruct c; cbn [last_bits]; done || lia|].
  rewrite last_bits_coded by done. specialize (IH (ctx_after x c) 0). lia.
Qed.
End Rows.

(** ** Reading a macroblock *)

Lemma increment_read v r :
  1 <= v <= 35 -> room r 32 -> starts r (code_of MACROBLOCK_ADDRESS_INCREMENT_codes v) ->
  read MACROBLOCK_ADDRESS_INCREMENT r =
  Some (v, advance r (Z.of_nat (length (code_of MACROBLOCK_ADDRESS_INCREMENT_codes v)))).
Proof.
  intros Hv Hr Hs. apply read_code; [by apply list_elem_of_lookup_2 with (i := 0%nat)|by apply increment_codes|done|done].
Qed.

Lemma escapes_read e fuel inc u r :
  let w := concat (replicate e (code_of MACROBLOCK_ADDRESS_INCREMENT_codes 35)) ++
           code_of MACROBLOCK_ADDRESS_INCREMENT_codes u in
  1 <= u <= 33 -> (e <= fuel)%nat -> room r (11 * Z.of_nat e + 32) -> starts r w ->
  exists t r1, read MACROBLOCK_ADDRESS_INCREMENT r = Some (t, r1) /\ t <> 34 /\
    add_escapes fuel inc t r1 = Some (inc + 33 * Z.of_nat e + u, advance r (Z.of_nat (length w))).
Proof.
  cbn zeta. intros Hu. revert fuel inc r. induction e as [|e IH]; intros fuel inc r Hf Hr Hs; cbn [replicate concat app] in *.
  - eexists u, _. split; [apply increment_read; [lia|done|done]|]. split; [lia|].
    destruct fuel; cbn [add_escapes]; destruct (Z.eqb_spec u 35); try lia; do 2 f_equal; lia.
  - rewrite <- app_assoc in *. apply starts_app in Hs as [Hs1 Hs2].
    set (esc := code_of MACROBLOCK_ADDRESS_INCREMENT_codes 35) in *.
    exists 35, (advance r 11). split; [apply (increment_read 35); [lia|apply (room_less _ _ _ Hr); lia|done]|]. split; [done|].
    destruct fuel as [|fuel]; [lia|]. cbn [add_escapes]. change (35 =? 35) with true. cbn iota.
    change (Z.of_nat (length esc)) with 11 in *.
    destruct (IH fuel (inc + 33) (advance r 11)) as (t & r1 & -> & _ & E); [lia| |done|].
    { eapply room_less; [apply room_after; [exact Hr|lia]|lia]. }
    cbn [mbind option_bind]. rewrite E, advance_advance, (length_app esc), Nat2Z.inj_add.
    change (Z.of_nat (length esc)) with 11. f_equal. f_equal. lia.
Qed.

Lemma increment_decoded fuel n r :
  1 <= n -> (n - 1) / 33 <= Z.of_nat fuel -> room r (n + 32) -> starts r (enc_increment n) ->
  read_increment fuel r = Some (n, advance r (Z.of_nat (length (enc_increment n)))).
Proof.
  intros Hn Hf Hr Hs. pose proof (Z.mod_pos_bound (n - 1) 33 ltac:(lia)).
  pose proof (Z.div_mod (n - 1) 33 ltac:(lia)). assert (0 <= (n - 1) / 33) by (apply Z.div_pos; lia).
  destruct (escapes_read (Z.to_nat ((n - 1) / 33)) fuel 0 ((n - 1) mod 33 + 1) r) as (t & r1 & E & Ht & Ea);
    [lia|lia|apply (room_less _ _ _ Hr); lia|done|].
  unfold read_increment. rewrite E. cbn [mbind option_bind].
  assert (skip_stuffing fuel t r1 = Some (t, r1)) as ->.
  { destruct fuel; cbn [skip_stuffing]; by destruct (Z.eqb_spec t 34). }
  cbn [mbind option_bind]. rewrite Ea. unfold enc_increment. do 2 f_equal. lia.
Qed.

(** The predictors of the decoder. *)
Definition in_ctx (x : context) (m : macroblock) : Prop :=
  preds_of m = c_preds x /\ motionFwHPrev m = c_h x /\ motionFwVPrev m = c_v x /\ quantizerScale m = c_q x.

Definition scaled (p : picture) (x : Z) : Z := if nz (fullPelForward p) then shl x 1 else x.

(** What a coded block does to the pixels of its place. *)
Definition painter_of (intra : bool) (q : Z) (qm : list Z) (v : Z) (ps : pairs) : painter :=
  if intra then fun n _ => aget (IDCT (coeff_block intra q qm v ps)) n
  else fun n old => old + aget (IDCT (coeff_block intra q qm v ps)) n.

Definition item_painter (intra : bool) (q : Z) (qm : list Z) (o : option (Z * pairs)) : option painter :=
  match o with Some (v, ps) => Some (painter_of intra q qm v ps) | None => None end.

Fixpoint matches {A} (cbp block : Z) (l : list (option A)) : Prop :=
  match l with
  | [] => True
  | o :: l' => Z.testbit cbp (5 - block) = (match o with Some _ => true | None => false end) /\ matches cbp (block + 1) l'
  end.

Lemma pattern_matches {A} (l : list (option A)) : length l = 6%nat -> matches (pattern 0 l) 0 l.
Proof.
  intros Hl. destruct (six l Hl) as (o0 & o1 & o2 & o3 & o4 & o5 & ->).
  destruct o0, o1, o2, o3, o4, o5; cbn [matches]; repeat split; vm_compute; reflexivity.
Qed.

Lemma next_mask block : 0 <= block < 6 -> shr (2 ^ (5 - block)) 1 = 2 ^ (5 - (block + 1)).
Proof.
  intros Hb. assert (block = 0 \/ block = 1 \/ block = 2 \/ block = 3 \/ block = 4 \/ block = 5) as Hc by lia.
  destruct Hc as [->|[->|[->|[->|[->| ->]]]]]; reflexivity.
Qed.

Section Blocks.
Context (g : geometry) (im nm : list Z) (fuel : nat).
Context (Him : matrix_ok im) (Hnm : matrix_ok nm) (H64 : (64 <= fuel)%nat).

(** One block of a macroblock. *)
Lemma item_decoded block v ps d :
  let m := mb d in
  let intra := macroblockIntra m in
  let w := enc_coded intra block (v - pred (preds_of m) block) ps in
  item_ok intra (Some (v, ps)) -> byte_preds (preds_of m) -> 0 <= quantizerScale m < 32 ->
  blockData d = replicate 64 0 -> room (rd d) 2200 -> starts (rd d) w ->
  decodeBlock g im nm (S fuel) block d =
    Some (Dec (advance (rd d) (Z.of_nat (length w))) (if intra then save_predictor m block v else m)
              (draw_block g (mbRow m) (mbCol m) block
                 (item_painter intra (quantizerScale m) (if intra then im else nm) (Some (v, ps))) (cur d))
              (replicate 64 0)).
Proof.
  intros m intra w Ho Hp Hq Hz Hr Hs. pose proof (item_short _ _ _ Ho) as Hlen. destruct Ho as (Hv & Hps & Hspan).
  rewrite (block_decoded g im nm (S fuel) block v ps d); try done; try lia.
  - cbn [draw_block item_painter]. change (destination g (spot (mbRow m) (mbCol m)) block) with (destination g (mb d) block).
    destruct (destination g (mb d) block) as [i scan]. unfold painter_of. fold m. fold intra. by destruct intra.
  - fold m. lia.
  - apply (room_less _ _ _ Hr). lia.
Qed.

(** The blocks that are left, from [block] on. *)
Lemma items_decoded n block l cbp d :
  let m := mb d in
  let intra := macroblockIntra m in
  let w := enc_items intra (preds_of m) block l in
  length l = n -> 0 <= block -> block + Z.of_nat n = 6 -> matches cbp block l -> Forall (item_ok intra) l ->
  byte_preds (preds_of m) -> 0 <= quantizerScale m < 32 ->
  blockData d = replicate 64 0 -> room (rd d) (2200 + 2066 * Z.of_nat n) -> starts (rd d) w ->
  exists m', decode_blocks g im nm (S fuel) n block (2 ^ (5 - block)) cbp d =
    Some (Dec (advance (rd d) (Z.of_nat (length w))) m'
              (draw_blocks g (mbRow m) (mbCol m) block
                 (item_painter intra (quantizerScale m) (if intra then im else nm) <$> l) (cur d)) (replicate 64 0)) /\
    same_place m m' /\ preds_of m' = if intra then preds_after (preds_of m) block l else preds_of m.
Proof.
  revert block l d. induction n as [|n IH]; intros block l d m intra w Hl H0 Hb Hm Hok Hp Hq Hz Hr Hs.
  { destruct l; [|done]. exists m. subst w. cbn [decode_blocks enc_items length fmap list_fmap draw_blocks preds_after].
    rewrite advance_0, <- Hz. split; [by destruct d|]. split; [done|by destruct intra]. }
  destruct l as [|o l]; [done|]. apply Forall_cons in Hok as [Ho Hok]. destruct Hm as [Hbit Hm].
  cbn [decode_blocks fmap list_fmap draw_blocks]. rewrite nz_land_pow2, Hbit, next_mask by lia.
  injection Hl as Hl. subst w. destruct o as [[v ps]|]; cbn [enc_items preds_after] in *.
  2: { destruct (IH (block + 1) l d) as (m' & E & Hsame & Hpr); try done; try lia.
    - apply (room_less _ _ _ Hr). lia.
    - by exists m'. }
  apply starts_app in Hs as [Hs1 Hs2]. pose proof (byte_pred _ block Hp) as Hbp. pose proof (item_short _ _ _ Ho) as Hshort.
  rewrite (item_decoded block v ps d); [|done..|apply (room_less _ _ _ Hr); lia|done]. fold m intra. cbn [mbind option_bind].
  pose proof (length_coded intra block (v - pred (preds_of m) block) ps) as Hlw.
  set (w1 := enc_coded intra block (v - pred (preds_of m) block) ps) in *.
  set (m1 := if intra then save_predictor m block v else m) in *.
  assert (same_place m m1 /\ preds_of m1 = if intra then set_pred (preds_of m) block v else preds_of m) as [Hs_m1 Hp_m1].
  { subst m1. destruct intra; [split; [apply same_save|apply preds_save]|done]. }
  pose proof Hs_m1 as (E1 & E2 & E3 & _ & _ & _ & _ & E4).
  destruct Ho as (Hv & _ & _). unfold byte in Hv, Hbp.
  pose proof (IH (block + 1) l (Dec (advance (rd d) (Z.of_nat (length w1))) m1
    (draw_block g (mbRow m) (mbCol m) block (item_painter intra (quantizerScale m) (if intra then im else nm) (Some (v, ps))) (cur d))
    (replicate 64 0))) as IH1. cbn zeta in IH1. cbn [mb rd cur blockData] in IH1.
  rewrite E1, E2, E3, E4, Hp_m1 in IH1. change (macroblockIntra m) with intra in IH1.
  destruct IH1 as (m' & E & Hsame & Hpr); try done; try lia.
  - destruct intra; [by apply byte_set_pred|done].
  - eapply room_less; [apply room_after; [exact Hr|lia]|lia].
  - exists m'. split; [etransitivity; [exact E|]; by rewrite advance_advance, length_app, Nat2Z.inj_add|].
    split; [by eapply same_place_trans|]. rewrite Hpr. by destruct intra.
Qed.
End Blocks.

(** ** The content of a macroblock *)

Definition is_some {A} (o : option A) : bool := match o with Some _ => true | None => false end.
Definition is_coded (c : cell) : bool := match c with Coded _ _ _ => true | _ => false end.

Lemma type_flags x c :
  nz (Z.land (type_of x c) 16) = negb (scale_of x c =? c_q x) /\ nz (Z.land (type_of x c) 1) = is_intra c /\
  nz (Z.land (type_of x c) 8) = is_some (vector_of c) /\ nz (Z.land (type_of x c) 2) = is_coded c.
Proof.
  unfold type_of. destruct c as [|h v|q [mv|] rs|q bs]; cbn [vector_of]; destruct (scale_of x _ =? c_q x); done.
Qed.

Section Content.
Context (g : geometry) (p : picture) (fwd : frame) (ty : Z) (rsize : nat).
Let f := 2 ^ Z.of_nat rsize.
Context (Hp : pictureCodingType p = ty) (Hty : ty = PICTURE_TYPE_I \/ ty = PICTURE_TYPE_P) (Hr6 : (rsize <= 6)%nat).
Context (HP : ty = PICTURE_TYPE_P -> forwardRSize p = Z.of_nat rsize /\ forwardF p = f).

Lemma scale_read x c m r :
  ctx_ok f x -> cell_ok ty f c -> quantizerScale m = c_q x -> room r 32 -> starts r (enc_scale x c) ->
  (if nz (Z.land (type_of x c) 16) then let '(q, r) := getBits r 5 in (m <| quantizerScale := q |>, r) else (m, r)) =
  (m <| quantizerScale := scale_of x c |>, advance r (Z.of_nat (length (enc_scale x c)))).
Proof using Hty Hr6.
  intros Hx Hc Hm Hr Hs. destruct (type_flags x c) as (-> & _).
  pose proof (scale_range ty f x c Hx Hc) as Hq. unfold enc_scale in *.
  destruct (Z.eqb_spec (scale_of x c) (c_q x)) as [->|]; cbn [negb].
  - rewrite <- Hm. cbn [length]. rewrite advance_0. by destruct m.
  - rewrite length_write. rewrite (getBits_write r 5 (scale_of x c) 32 Hs Hq ltac:(lia) Hr ltac:(lia) : getBits r 5 = _). done.
Qed.

(** What the motion step leaves. *)
Record after_motion (x : context) (c : cell) (m m' : macroblock) : Prop := {
  am_row : mbRow m' = mbRow m;
  am_col : mbCol m' = mbCol m;
  am_intra : macroblockIntra m' = macroblockIntra m;
  am_address : macroblockAddress m' = macroblockAddress m;
  am_begin : sliceBegin m' = sliceBegin m;
  am_scale : quantizerScale m' = quantizerScale m;
  am_preds : preds_of m' = if is_intra c then preds_of m else preds_start;
  am_prev : motionFwHPrev m' = (default (0, 0) (vector_of c)).1 /\ motionFwVPrev m' = (default (0, 0) (vector_of c)).2 }.

(** The prediction of a macroblock. *)
Definition predict_cell (row col : Z) (c : cell) (fr : frame) : frame :=
  if is_intra c then fr
  else copyMacroblock g fwd (spot row col) (scaled p (default (0, 0) (vector_of c)).1)
         (scaled p (default (0, 0) (vector_of c)).2) fr.

Lemma copy_place m m' h v fr :
  mbRow m = mbRow m' -> mbCol m = mbCol m' -> copyMacroblock g fwd m h v fr = copyMacroblock g fwd m' h v fr.
Proof using Type. intros H1 H2. unfold copyMacroblock. by rewrite H1, H2. Qed.

Lemma motion_read x c m r fr :
  ctx_ok f x -> cell_ok ty f c -> macroblockIntra m = is_intra c -> macroblockMotFw m = is_some (vector_of c) ->
  motionFwHPrev m = c_h x -> motionFwVPrev m = c_v x -> room r 128 -> starts r (enc_vectors f rsize x c) ->
  exists m',
    (if macroblockIntra m then Some (reset_motion m, r, fr)
     else '(m, r) ← decodeMotionVectors p (reset_dc m) r;
          Some (m, r, copyMacroblock g fwd m (motionFwH m) (motionFwV m) fr)) =
    Some (m', advance r (Z.of_nat (length (enc_vectors f rsize x c))), predict_cell (mbRow m) (mbCol m) c fr) /\
    after_motion x c m m'.
Proof using Hty Hr6 HP Hp.
  intros Hx Hc Hi Hmot Hh Hv Hr Hs. rewrite Hi. unfold predict_cell. destruct (is_intra c) eqn:Ei.
  { assert (vector_of c = None) as Ev by (by destruct c). exists (reset_motion m).
    unfold enc_vectors. rewrite Ev. cbn [length]. rewrite advance_0. split; [done|]. split; rewrite ?Ei, ?Ev; done. }
  assert (ty = PICTURE_TYPE_P) as HtyP.
  { destruct Hty as [Ht|Ht]; [|done]. pose proof (ck_kind _ _ _ Hc Ht). congruence. }
  destruct (HP HtyP) as [Hrs Hf]. unfold enc_vectors in *. pose proof (ck_vector _ _ _ Hc) as Hvec.
  destruct (vector_of c) as [[h v]|] eqn:Ev; cbn [default from_option fst snd is_some] in *.
  - destruct Hvec as [Hh' Hv']. destruct (xk_vector _ _ Hx) as [Hxh Hxv]. unfold enc_vector in *. rewrite <- Hf in *. rewrite <- Hh, <- Hv in *.
    pose proof (vectors_decoded p (reset_dc m) r rsize h v Hmot Hrs Hf Hr6 Hxh Hxv Hh' Hv' Hr Hs) as Hdec. cbn zeta in Hdec.
    rewrite Hdec. cbn [mbind option_bind]. eexists. split; [apply (f_equal Some), (f_equal2 pair); [reflexivity|by apply copy_place]|].
    split; rewrite ?Ei, ?Ev; done.
  - unfold decodeMotionVectors. change (macroblockMotFw (reset_dc m)) with (macroblockMotFw m). rewrite Hmot, Hp, HtyP.
    change (PICTURE_TYPE_P =? PICTURE_TYPE_P) with true. cbn iota. cbn [mbind option_bind length]. rewrite advance_0.
    exists (reset_motion (reset_dc m)). split; [|split; rewrite ?Ei, ?Ev; done].
    assert (scaled p 0 = 0) as -> by (unfold scaled; by destruct (nz _)).
    apply (f_equal Some). apply (f_equal2 pair); [done|]. by apply copy_place.
Qed.

Lemma pattern_read x c m r :
  cell_ok ty f c -> macroblockIntra m = is_intra c -> c <> Skip -> room r 32 -> starts r (enc_pattern c) ->
  (if nz (Z.land (type_of x c) 2) then read CODE_BLOCK_PATTERN r
   else Some (if macroblockIntra m then 63 else 0, r)) =
  Some (pattern 0 (items c), advance r (Z.of_nat (length (enc_pattern c)))).
Proof using Type.
  clear - x c m r. intros Hc Hi Hne Hr Hs. destruct (type_flags x c) as (_ & _ & _ & ->). rewrite Hi.
  pose proof (ck_six _ _ _ Hc) as H6.
  destruct c as [|h v|q mv rs|q bs]; [done| | |]; cbn [is_coded is_intra enc_pattern length] in *; rewrite ?advance_0.
  - done.
  - pose proof (pattern_range _ H6). pose proof (ck_coded _ _ _ Hc) as Hn. cbn beta iota in Hn.
    apply read_code; [by apply list_elem_of_lookup_2 with (i := 4%nat)|apply pattern_code; lia|done|done].
  - cbn [items] in H6 |- *. rewrite length_fmap in H6. destruct (six bs H6) as (? & ? & ? & ? & ? & ? & ->). done.
Qed.
End Content.

Definition own_scale (c : cell) : Z := match c with Coded q _ _ | Intra q _ => q | _ => 0 end.

(** What the blocks of a macroblock do to the pixels. *)
Definition painters (im nm : list Z) (c : cell) : list (option painter) :=
  item_painter (is_intra c) (own_scale c) (if is_intra c then im else nm) <$> items c.

Lemma painters_scale im nm x c :
  item_painter (is_intra c) (scale_of x c) (if is_intra c then im else nm) <$> items c = painters im nm c.
Proof. by destruct c. Qed.

Lemma table_of_type p ty :
  pictureCodingType p = ty -> ty = PICTURE_TYPE_I \/ ty = PICTURE_TYPE_P ->
  (MACROBLOCK_TYPE_TABLES (pictureCodingType p), type_book ty) ∈ tables.
Proof.
  intros -> [-> | ->];
    [by apply list_elem_of_lookup_2 with (i := 1%nat)|by apply list_elem_of_lookup_2 with (i := 2%nat)].
Qed.

Lemma enc_items_inter pr pr' block l : enc_items false pr block l = enc_items false pr' block l.
Proof.
  revert pr pr' block. induction l as [|[[v ps]|] l IH]; intros pr pr' block; cbn [enc_items]; [done| |apply IH].
  by rewrite (IH pr pr').
Qed.

Section Decoder.
Context (g : geometry) (p : picture) (im nm : list Z) (fwd : frame) (ty : Z) (rsize : nat) (fuel : nat).
Let f := 2 ^ Z.of_nat rsize.
Context (Hp : pictureCodingType p = ty) (Hty : ty = PICTURE_TYPE_I \/ ty = PICTURE_TYPE_P) (Hr6 : (rsize <= 6)%nat).
Context (HP : ty = PICTURE_TYPE_P -> forwardRSize p = Z.of_nat rsize /\ forwardF p = f).
Context (Him : matrix_ok im) (Hnm : matrix_ok nm) (H64 : (64 <= fuel)%nat).
Context (Hg : 0 < mbWidth g <= 256) (Hsz : mbSize g < 65536) (Hfuel : mbWidth g <= Z.of_nat (S fuel)).

(** What a macroblock does to the picture at address [a]. *)
Definition draw_cell (a : Z) (c : cell) (fr : frame) : frame :=
  let row := a / mbWidth g in
  let col := a mod mbWidth g in
  draw_blocks g row col 0 (painters im nm c) (predict_cell g p fwd row col c fr).

Fixpoint draw_cells (a : Z) (cs : list cell) (fr : frame) : frame :=
  match cs with
  | [] => fr
  | c :: cs' => draw_cells (a + 1) cs' (draw_cell a c fr)
  end.

Lemma positioned m a :
  macroblockAddress m = a -> 0 <= a < mbSize g ->
  mbRow (set_position g m) = a / mbWidth g /\ mbCol (set_position g m) = a mod mbWidth g.
Proof.
  intros Ha Hr. unfold set_position. cbn. unfold RecordSettersUsingExistingGetters.const. rewrite Ha.
  rewrite Z.quot_div_nonneg, Z.rem_mod_nonneg by lia. split; [|done]. apply s32_small.
  assert (a / mbWidth g <= a) by (apply Z.div_le_upper_bound; nia).
  assert (0 <= a / mbWidth g) by (apply Z.div_pos; lia). lia.
Qed.

(** The blocks of a macroblock whose prediction has been copied. *)
Lemma cell_items x c a m r fr zs :
  ctx_ok f x -> cell_ok ty f c -> zs = replicate 64 0 -> room r 14600 ->
  mbRow m = a / mbWidth g -> mbCol m = a mod mbWidth g -> macroblockIntra m = is_intra c -> quantizerScale m = scale_of x c ->
  preds_of m = (if is_intra c then c_preds x else preds_start) ->
  let w := enc_items (is_intra c) (c_preds x) 0 (items c) in
  starts r w ->
  exists m', decode_blocks g im nm (S fuel) 6 0 32 (pattern 0 (items c))
      (Dec r m (predict_cell g p fwd (a / mbWidth g) (a mod mbWidth g) c fr) zs) =
    Some (Dec (advance r (Z.of_nat (length w))) m' (draw_cell a c fr) (replicate 64 0)) /\
    same_place m m' /\ preds_of m' = c_preds (ctx_after x c).
Proof.
  intros Hx Hc Hz Hr Hrow Hcol Hi Hq Hpr w Hs.
  pose proof (items_decoded g im nm fuel Him Hnm H64 6 0 (items c) (pattern 0 (items c))
    (Dec r m (predict_cell g p fwd (a / mbWidth g) (a mod mbWidth g) c fr) zs)) as Hit.
  cbn zeta in Hit. cbn [mb rd cur blockData] in Hit. rewrite Hi, Hq, Hpr, Hrow, Hcol in Hit.
  pose proof (scale_range ty f x c Hx Hc) as Hsc.
  assert (byte_preds (if is_intra c then c_preds x else preds_start)) as Hbp by (destruct (is_intra c); [apply Hx|done]).
  assert (enc_items (is_intra c) (if is_intra c then c_preds x else preds_start) 0 (items c) = w) as Ew.
  { subst w. destruct (is_intra c); [done|]. apply enc_items_inter. }
  rewrite Ew, painters_scale in Hit.
  destruct Hit as (m' & E & Hsame & Hpr'); try done; try lia.
  - by rewrite (ck_six _ _ _ Hc).
  - apply pattern_matches, (ck_six _ _ _ Hc).
  - apply (ck_items _ _ _ Hc).
  - by apply (room_less _ 14600).
  - exists m'. change 32 with (2 ^ (5 - 0)). rewrite E. split; [done|]. split; [done|].
    rewrite Hpr'. cbn [ctx_after c_preds]. by destruct (is_intra c).
Qed.

Lemma room_field r n m k : room r n -> 0 <= m <= 50 -> 50 <= n -> k = n - 100 -> room (advance r m) k.
Proof using Type.
  clear - r n m k. intros Hn Hm Hn50 ->.
  apply (room_less _ (n - m)); [apply room_after; [done|]|]; destruct Hn as (? & ? & ?); lia.
Qed.

(** A coded macroblock after its address is known. *)
Lemma content_cell x c a d :
  c <> Skip -> in_ctx x (mb d) -> ctx_ok f x -> cell_ok ty f c -> blockData d = replicate 64 0 -> room (rd d) 15000 ->
  macroblockAddress (mb d) = a -> 0 <= a < mbSize g ->
  let w := enc_content ty f rsize x c in
  starts (rd d) w ->
  exists m', decode_content g p im nm fwd (S fuel) d =
    Some (Dec (advance (rd d) (Z.of_nat (length w))) m' (draw_cell a c (cur d)) (replicate 64 0)) /\
    macroblockAddress m' = a /\ sliceBegin m' = sliceBegin (mb d) /\ in_ctx (ctx_after x c) m'.
Proof.
  intros Hne (Hx1 & Hx2 & Hx3 & Hx4) Hx Hc Hz Hr Ha Hsa w Hs. destruct (positioned (mb d) a Ha Hsa) as [Hrow Hcol].
  subst w. unfold enc_content in Hs. pose proof (type_in ty f Hty x c Hne Hc) as Ht.
  apply (types_code ty Hty) in Ht as (Hin & _ & Hlt).
  apply starts_app in Hs as [Hs1 Hs]. apply starts_app in Hs as [Hs2 Hs].
  apply starts_app in Hs as [Hs3 Hs]. apply starts_app in Hs as [Hs4 Hs5].
  destruct (type_flags x c) as (_ & F1 & F8 & _).
  unfold decode_content. rewrite (read_code _ (type_book ty) (type_of x c));
    [|by apply table_of_type|done|by apply (room_less _ 15000)|done].
  cbn [mbind option_bind]. rewrite F1, F8.
  set (m1 := (set_position g (mb d)) <| macroblockType := type_of x c |> <| macroblockIntra := is_intra c |>
               <| macroblockMotFw := is_some (vector_of c) |>).
  pose proof (length_scale x c) as Ls. pose proof (length_vectors f rsize eq_refl Hr6 x c) as Lv.
  pose proof (length_pattern ty f c Hc) as Lp.
  set (r1 := advance (rd d) _) in *. set (r2 := advance r1 _) in *. set (r3 := advance r2 _) in *. set (r4 := advance r3 _) in *.
  assert (room r1 14900) as R1 by (apply (room_field _ 15000); [done|lia..]).
  assert (room r2 14800) as R2 by (apply (room_field _ 14900); [done|lia..]).
  assert (room r3 14700) as R3 by (apply (room_field _ 14800); [done|lia..]).
  assert (room r4 14600) as R4 by (apply (room_field _ 14700); [done|lia..]).
  rewrite (scale_read ty rsize Hty Hr6 x c m1 r1) by (done || by apply (room_less _ 14900)). fold r2.
  set (m2 := m1 <| quantizerScale := scale_of x c |>).
  destruct (motion_read g p fwd ty rsize Hp Hty Hr6 HP x c m2 r2 (cur d)) as (m3 & E & [A1 A2 A3 A4 A5 A6 A7 [A8 A9]]);
    [done..|by apply (room_less _ 14800)|done|]. fold f r3 in E. rewrite E. cbn [mbind option_bind]. clear E.
  rewrite (pattern_read ty rsize x c m3 r3); [|done..|by apply (room_less _ 14700)|done]. fold r4. cbn [mbind option_bind].
  change (preds_of m2) with (preds_of (mb d)) in A7. rewrite Hx1 in A7.
  change (mbRow m2) with (mbRow (set_position g (mb d))) in *. change (mbCol m2) with (mbCol (set_position g (mb d))) in *.
  rewrite Hrow, Hcol in *.
  destruct (cell_items x c a m3 r4 (cur d) (blockData d)) as (m' & -> & (B1 & B2 & B3 & B4 & B5 & B6 & B7 & B8) & Hpr); try done.
  exists m'. split; [|split; [by rewrite B4, A4|split; [by rewrite B5, A5|]]].
  - unfold enc_content, r4, r3, r2, r1. rewrite !advance_advance, !length_app, !Nat2Z.inj_add, !Z.add_assoc. done.
  - split; [done|split; [by rewrite B6, A8|split; [by rewrite B7, A9|by rewrite B8, A6]]].
Qed.

(** Skipped macroblocks are copied from the last picture. *)
Lemma draw_skip a fr :
  draw_cell a Skip fr = copyMacroblock g fwd (spot (a / mbWidth g) (a mod mbWidth g)) 0 0 fr.
Proof using Type.
  unfold draw_cell, painters, predict_cell. cbn [items is_intra vector_of replicate fmap list_fmap item_painter draw_blocks draw_block].
  cbn [default from_option fst snd]. assert (scaled p 0 = 0) as -> by (unfold scaled; by destruct (nz _)). done.
Qed.

Lemma skips_drawn n m a fr :
  motionFwH m = 0 -> motionFwV m = 0 -> macroblockAddress m = a - 1 -> 0 <= a -> a + Z.of_nat n <= mbSize g ->
  exists m', skip_macroblocks g fwd n m fr = (m', draw_cells a (replicate n Skip) fr) /\
    macroblockAddress m' = a + Z.of_nat n - 1 /\ sliceBegin m' = sliceBegin m /\ preds_of m' = preds_of m /\
    motionFwHPrev m' = motionFwHPrev m /\ motionFwVPrev m' = motionFwVPrev m /\ quantizerScale m' = quantizerScale m.
Proof.
  revert m a fr. induction n as [|n IH]; intros m a fr H1 H2 Ha H0 Hn; cbn [skip_macroblocks replicate draw_cells].
  { exists m. split; [done|]. split; [lia|done]. }
  set (m1 := m <| macroblockAddress := macroblockAddress m + 1 |>).
  assert (macroblockAddress m1 = a) as Ha1 by (change (macroblockAddress m + 1 = a); lia).
  destruct (positioned m1 a Ha1 ltac:(lia)) as [Hrow Hcol].
  destruct (IH (set_position g m1) (a + 1) (draw_cell a Skip fr)) as (m' & E & E1 & E2 & E3);
    [done|done|change (macroblockAddress m1 = a + 1 - 1); lia|lia|lia|].
  exists m'. split; [|split; [lia|done]]. rewrite <- E. f_equal.
  change (motionFwH (set_position g m1)) with (motionFwH m). change (motionFwV (set_position g m1)) with (motionFwV m).
  rewrite H1, H2, draw_skip. by apply copy_place.
Qed.

Lemma draw_cells_app a l1 l2 fr :
  draw_cells a (l1 ++ l2) fr = draw_cells (a + Z.of_nat (length l1)) l2 (draw_cells a l1 fr).
Proof using Type.
  clear - a l1 l2 fr. revert a fr. induction l1 as [|c l1 IH]; intros a fr; cbn [app draw_cells length].
  - by rewrite Z.add_0_r.
  - rewrite IH. f_equal. lia.
Qed.

(** The state between two macroblocks of a slice, [n] skipped ones to come. *)
Record between (x : context) (n : nat) (a : Z) (d : dec) : Prop := {
  bt_address : macroblockAddress (mb d) = a - 1;
  bt_range : 0 <= a;
  bt_scale : quantizerScale (mb d) = c_q x;
  bt_ctx : if decide (n = 0)%nat then in_ctx x (mb d)
           else x = ctx_start (c_q x) /\ sliceBegin (mb d) = false /\ ty = PICTURE_TYPE_P;
  bt_ok : ctx_ok f x;
  bt_block : blockData d = replicate 64 0 }.

(** A macroblock after the skipped ones in front of it. *)
Lemma cell_content x n c a d r1 m fr :
  ctx_ok f x -> c <> Skip -> cell_ok ty f c -> blockData d = replicate 64 0 -> 0 <= a -> a + Z.of_nat n < mbSize g ->
  let w1 := enc_increment (Z.of_nat n + 1) in
  let w := enc_content ty f rsize x c in
  r1 = advance (rd d) (Z.of_nat (length w1)) -> room r1 15000 -> starts r1 w ->
  macroblockAddress m = a + Z.of_nat n -> sliceBegin m = false -> in_ctx x m -> fr = draw_cells a (replicate n Skip) (cur d) ->
  exists m', let d' := Dec (advance (rd d) (Z.of_nat (length (w1 ++ w)))) m'
                           (draw_cells a (replicate n Skip ++ [c]) (cur d)) (replicate 64 0) in
    decode_content g p im nm fwd (S fuel) (Dec r1 m fr (blockData d)) = Some d' /\
    between (ctx_after x c) 0 (a + Z.of_nat n + 1) d' /\ sliceBegin m' = false.
Proof.
  intros Hok Hc Hcell Hz H0 Hsa w1 w Er1 Hr1 Hs Hm Hb Hxm ->. set (fr := draw_cells a (replicate n Skip) (cur d)).
  destruct (content_cell x c (a + Z.of_nat n) (Dec r1 m fr (blockData d)) Hc Hxm Hok Hcell Hz Hr1 Hm ltac:(lia) Hs)
    as (m' & E & E1 & E2 & E3).
  exists m'. cbn zeta. rewrite E. split; [|split; [|by rewrite E2]].
  - rewrite length_app, Nat2Z.inj_add, <- advance_advance, draw_cells_app, length_replicate, <- Er1. done.
  - split; [cbn [mb]; lia|lia|apply E3|done|by apply (ctx_after_ok ty f rsize)|done].
Qed.

(** A macroblock and the skipped ones in front of it. *)
Lemma cell_decoded x n c a d :
  between x n a d -> c <> Skip -> cell_ok ty f c -> Z.of_nat n < mbWidth g -> a + Z.of_nat n < mbSize g ->
  room (rd d) 16000 -> starts (rd d) (enc_cell ty f rsize x (Z.of_nat n) c) ->
  exists m', let d' := Dec (advance (rd d) (Z.of_nat (length (enc_cell ty f rsize x (Z.of_nat n) c)))) m'
                           (draw_cells a (replicate n Skip ++ [c]) (cur d)) (replicate 64 0) in
    decodeMacroblock g p im nm fwd (S fuel) d = Some d' /\
    between (ctx_after x c) 0 (a + Z.of_nat n + 1) d' /\ sliceBegin m' = false.
Proof.
  intros [Ha H0 Hsc Hx Hok Hz] Hc Hcell Hn Hsa Hr Hs.
  assert (enc_cell ty f rsize x (Z.of_nat n) c = enc_increment (Z.of_nat n + 1) ++ enc_content ty f rsize x c) as Ew by (by destruct c).
  rewrite Ew in Hs |- *. apply starts_app in Hs as [Hs1 Hs2].
  assert (0 <= Z.of_nat n / 33 <= Z.of_nat n) as Hn33.
  { split; [apply Z.div_pos; lia|apply Z.div_le_upper_bound; lia]. }
  pose proof (length_increment (Z.of_nat n + 1) ltac:(lia)) as Hl.
  assert (Z.of_nat n / 33 < 9) by (apply Z.div_lt_upper_bound; lia).
  unfold decodeMacroblock. rewrite (increment_decoded (S fuel) (Z.of_nat n + 1));
    [|lia|replace (Z.of_nat n + 1 - 1) with (Z.of_nat n) by lia; lia|apply (room_less _ _ _ Hr); lia|done].
  replace (Z.of_nat n + 1 - 1) with (Z.of_nat n) in * by lia.
  cbn [mbind option_bind]. set (r1 := advance (rd d) (Z.of_nat (length (enc_increment (Z.of_nat n + 1))))) in *.
  assert (room r1 15000) as Hr1 by (eapply room_less; [apply room_after; [exact Hr|lia]|lia]).
  pose proof (fun m fr => cell_content x n c a d r1 m fr Hok Hc Hcell Hz H0 Hsa eq_refl Hr1 Hs2) as Hgo.
  destruct (sliceBegin (mb d)) eqn:Hsb.
  { destruct (decide (n = 0)%nat) as [->|]; [|by destruct Hx as (_ & ? & _)].
    apply Hgo; [change (macroblockAddress (mb d) + (Z.of_nat 0 + 1) = a + Z.of_nat 0); lia|done|done|done]. }
  destruct (Z.leb_spec (mbSize g) (macroblockAddress (mb d) + (Z.of_nat n + 1))); [lia|].
  replace (Z.to_nat (Z.of_nat n + 1 - 1)) with n by lia.
  destruct (decide (n = 0)%nat) as [->|Hn0].
  { change (1 <? Z.of_nat 0 + 1) with false. cbn [skip_macroblocks]. cbn iota.
    apply Hgo; [change (macroblockAddress (mb d) + 1 = a + Z.of_nat 0); lia|done|done|done]. }
  destruct (Z.ltb_spec 1 (Z.of_nat n + 1)); [|lia]. destruct Hx as (Ex & _ & HtyP).
  assert ((pictureCodingType p =? PICTURE_TYPE_P) = true) as -> by (by rewrite Hp, HtyP). cbn iota.
  destruct (skips_drawn n (reset_motion (reset_dc (mb d))) a (cur d)) as (m1 & E & E1 & E2 & E3 & E4 & E5 & E6);
    [done|done|done|done|lia|]. rewrite E.
  apply Hgo; [change (macroblockAddress m1 + 1 = a + Z.of_nat n); lia|change (sliceBegin m1 = false); by rewrite E2
    |rewrite Ex; split; [by transitivity (preds_of m1)|split; [|split]]|done].
  - change (motionFwHPrev m1 = 0). by rewrite E4.
  - change (motionFwVPrev m1 = 0). by rewrite E5.
  - change (quantizerScale m1 = c_q x). by rewrite E6.
Qed.

Lemma between_skip x n a d :
  between x n a d -> sliceBegin (mb d) = false -> ty = PICTURE_TYPE_P -> between (ctx_after x Skip) (S n) a d.
Proof.
  intros [H1 H2 H3 _ H5 H6] Hb HtyP.
  split; [done|done|done|done|by apply ctx_start_ok with (rsize := rsize); [| |apply H5]|done].
Qed.

Lemma at_start_code r : room r 16 -> prefix_at r (from r) = true -> nextBytesAreStartCode r = true.
Proof using Type.
  clear - r. intros (? & ? & ?) Hpre. unfold nextBytesAreStartCode. rewrite shr_div by lia.
  change (2 ^ 3) with 8. fold (from r). by rewrite Hpre, orb_true_r.
Qed.

Lemma draw_cells_snoc a n c cs fr :
  draw_cells (a + Z.of_nat n + 1) cs (draw_cells a (replicate n Skip ++ [c]) fr) = draw_cells a (replicate n Skip ++ c :: cs) fr.
Proof using Type.
  clear - a. change (c :: cs) with ([c] ++ cs). rewrite (app_assoc (replicate n Skip)).
  rewrite (draw_cells_app a (replicate n Skip ++ [c]) cs), length_app, length_replicate. cbn [length].
  by replace (a + Z.of_nat (n + 1)) with (a + Z.of_nat n + 1) by lia.
Qed.

(** The macroblocks of a row. *)
Lemma cells_decoded cs x n a d N :
  between x n a d -> (sliceBegin (mb d) = true -> head cs <> Some Skip) -> Forall (cell_ok ty f) cs ->
  Z.of_nat n + Z.of_nat (length cs) <= mbWidth g -> a + Z.of_nat n + Z.of_nat (length cs) <= mbSize g ->
  (length cs <= N)%nat -> room (rd d) (16000 + 12492 * Z.of_nat (length cs) + Z.of_nat n) ->
  (8 <= length (last_bits ty f rsize x (Z.of_nat n) cs))%nat -> starts (rd d) (enc_cells ty f rsize x (Z.of_nat n) cs) ->
  let r' := advance (rd d) (Z.of_nat (length (enc_cells ty f rsize x (Z.of_nat n) cs))) in
  from r' < writePos r' -> prefix_at r' (from r') = true ->
  exists m', decode_macroblocks g p im nm fwd (S fuel) N d =
    Some (Dec r' m' (draw_cells a (replicate n Skip ++ cs) (cur d)) (replicate 64 0)).
Proof.
  intros Hbt Hfirst Hcs. revert x n a d N Hbt Hfirst.
  induction Hcs as [|c cs Hc Hcs IH]; intros x n a d N Hbt Hfirst Hw Hsz' HN Hr Hlast Hs r' Hend Hpre.
  { cbn in Hlast. lia. }
  cbn [length] in *. destruct (decide (c = Skip)) as [->|Hne].
  { assert (sliceBegin (mb d) = false) as Hb by (destruct (sliceBegin (mb d)); [by destruct Hfirst|done]).
    assert (ty = PICTURE_TYPE_P) as HtyP.
    { destruct Hty as [Ht|Ht]; [|done]. pose proof (ck_kind _ _ _ Hc Ht). done. }
    subst r'. cbn [enc_cells last_bits] in *.
    replace (Z.of_nat n + 1) with (Z.of_nat (S n)) in * by lia.
    destruct (IH (ctx_after x Skip) (S n) a d N) as (m' & E); try done; try lia.
    - by apply between_skip.
    - by rewrite Hb.
    - apply (room_less _ _ _ Hr). lia.
    - exists m'. rewrite E, (replicate_S_end n Skip), <- app_assoc. done. }
  subst r'. rewrite enc_cells_coded in * by done. apply starts_app in Hs as [Hs1 Hs2].
  destruct N as [|N]; [lia|]. cbn [decode_macroblocks].
  destruct (cell_decoded x n c a d Hbt Hne Hc) as (m1 & E & Hbt1 & Hb1); [lia|lia|apply (room_less _ _ _ Hr); lia|done|].
  rewrite E. cbn [mbind option_bind rd].
  pose proof (length_cell ty f rsize Hty eq_refl Hr6 x (Z.of_nat n) c (bt_ok _ _ _ _ Hbt) ltac:(lia) Hc) as Hlc.
  set (w1 := enc_cell ty f rsize x (Z.of_nat n) c) in *.
  assert (11 * (Z.of_nat n / 33) <= Z.of_nat n) by (pose proof (Z.mul_div_le (Z.of_nat n) 33 ltac:(lia)); lia).
  rewrite length_app, Nat2Z.inj_add, <- advance_advance in *.
  set (r1 := advance (rd d) (Z.of_nat (length w1))) in *. set (d1 := Dec r1 _ _ _) in *.
  assert (room r1 (16000 + 12492 * Z.of_nat (length cs))) as Hr1.
  { eapply room_less; [apply room_after; [exact Hr|lia]|lia]. }
  destruct cs as [|c2 cs].
  { cbn [enc_cells length] in *. rewrite advance_0 in *. exists m1.
    by rewrite at_start_code by (done || (apply (room_less _ _ _ Hr1); lia)). }
  rewrite last_bits_coded in Hlast by done.
  pose proof (last_bits_length ty f rsize Hr6 (ctx_after x c) 0 (c2 :: cs)) as Hll.
  assert (nextBytesAreStartCode r1 = false) as ->.
  { apply (calm_not_start r1 (enc_cells ty f rsize (ctx_after x c) 0 (c2 :: cs))); try done; [apply (room_less _ _ _ Hr1); lia| |lia].
    apply cells_calm; [done|done|done|apply (bt_ok _ _ _ _ Hbt1)|done|done]. }
  destruct (IH (ctx_after x c) 0%nat (a + Z.of_nat n + 1) d1 N Hbt1) as (m' & E'); try done; try lia.
  - intros Ht. change (sliceBegin m1 = true) in Ht. by rewrite Hb1 in Ht.
  - exists m'. rewrite E'. cbn [replicate app]. change (cur d1) with (draw_cells a (replicate n Skip ++ [c]) (cur d)).
    by rewrite draw_cells_snoc.
Qed.
End Decoder.
