(* ===== verification/MpegFilm.v ===== *)
(** * Pictures

    Intra and predicted pictures made of the macroblocks of MpegCells.v, one slice
    per row, and what they should look like: [paint] computes the planes of a
    picture from those of the last one, pixel by pixel.  [decodePicture] is proved
    to give these planes, and a canvas that shows them.  The last section shows
    the case where the decoder takes the end of a slice too early. *)

From coqutil Require Import Datatypes.RecordSettersUsingExistingGetters.
From S2P Require Import Prelude JsArray MpegTables BitReader MpegCopy MpegBlock MpegDecoder Canvas MpegStream.
From S2P Require Import MpegPicture MpegCoefficients MpegCells.

(** ** The encoder *)

(** An intra picture, or a predicted one with the unit of its vectors and their
    range. *)
Inductive kind := Key | Delta (full_pel : Z) (rsize : nat).

Definition type_of_kind (k : kind) : Z := match k with Key => PICTURE_TYPE_I | Delta _ _ => PICTURE_TYPE_P end.
Definition rsize_of (k : kind) : nat := match k with Key => 0%nat | Delta _ rsize => rsize end.
Definition pel_of (k : kind) : Z := match k with Key => 0 | Delta fp _ => fp end.

Record shot := Shot { s_kind : kind; temporal : Z; vbv : Z; quantizer : Z; rows : list (list cell) }.

Definition predicted_header (temporal vbv full_pel f_code : Z) : list bool :=
  write 10 temporal ++ write 3 PICTURE_TYPE_P ++ write 16 vbv ++ write 1 full_pel ++ write 3 f_code ++ replicate 7 false.

Definition picture_header (s : shot) : list bool :=
  match s_kind s with
  | Key => header_bits (temporal s) (vbv s)
  | Delta fp rsize => predicted_header (temporal s) (vbv s) fp (Z.of_nat rsize + 1)
  end.

Definition enc_row (s : shot) : list cell -> list bool :=
  enc_cells (type_of_kind (s_kind s)) (2 ^ Z.of_nat (rsize_of (s_kind s))) (rsize_of (s_kind s)) (ctx_start (quantizer s)) 0.

(** A picture behind its start code. *)
Definition body (s : shot) : list Z :=
  pack (picture_header s) ++ slice_bytes (enc_row s) (quantizer s) 1 (rows s).

(** What the buffer holds for a picture: up to and with the next start code. *)
Definition enc (s : shot) (ending : Z) : list Z := body s ++ [0; 0; 1; ending].

(** A row of [n] macroblocks: the first and the last one are coded, and the last
    one is a byte long at least. *)
Record row_ok (s : shot) (n : Z) (row : list cell) : Prop := {
  ro_length : Z.of_nat (length row) = n;
  ro_cells : Forall (cell_ok (type_of_kind (s_kind s)) (2 ^ Z.of_nat (rsize_of (s_kind s)))) row;
  ro_first : head row <> Some Skip;
  ro_last : (8 <= length (last_bits (type_of_kind (s_kind s)) (2 ^ Z.of_nat (rsize_of (s_kind s)))
                            (rsize_of (s_kind s)) (ctx_start (quantizer s)) 0 row))%nat }.

(** A picture of [w] by [h] pixels. *)
Record of_size (w h : Z) (s : shot) : Prop := {
  os_kind : 0 <= pel_of (s_kind s) < 2 /\ (rsize_of (s_kind s) <= 6)%nat;
  os_scale : 0 <= quantizer s < 32;
  os_rows : Forall (row_ok s (mbWidth (new_geometry w h))) (rows s);
  os_count : Z.of_nat (length (rows s)) = mbHeight (new_geometry w h) }.

(** ** The header *)

Lemma predicted_header_read r p temporal vbv fp fc :
  index r = 8 * p -> 0 <= p -> room r 64 -> 0 <= fp < 2 -> 0 <= fc < 8 ->
  holds r p (pack (predicted_header temporal vbv fp fc)) ->
  getBits (advance r 10) 3 = (PICTURE_TYPE_P, advance r 13) /\
  getBits (advance (advance r 13) 16) 1 = (fp, advance r 30) /\
  getBits (advance r 30) 3 = (fc, advance r 33) /\ from (advance r 33) = p + 5.
Proof.
  intros Hi Hp Hr Hfp Hfc Hh. assert (starts r (predicted_header temporal vbv fp fc)) as Hs by (by apply (holds_starts r p)).
  unfold predicted_header in Hs. apply starts_app in Hs as [_ Hs]. apply starts_app in Hs as [Hs3 Hs].
  apply starts_app in Hs as [_ Hs]. apply starts_app in Hs as [Hs1 Hs]. apply starts_app in Hs as [Hsf _].
  rewrite !length_write, !advance_advance in *.
  change (Z.of_nat 10) with 10 in *. change (Z.of_nat 3) with 3 in *. change (Z.of_nat 16) with 16 in *.
  change (Z.of_nat 1) with 1 in *. change (10 + 3) with 13 in *. change (13 + 16) with 29 in *. change (29 + 1) with 30 in *.
  assert (forall k, 0 <= k <= 40 -> room (advance r k) 16) as Hroom.
  { intros k Hk. eapply room_less; [apply room_after; [exact Hr|lia]|lia]. }
  pose proof (getBits_write _ 3 PICTURE_TYPE_P 16 Hs3 ltac:(done) ltac:(lia) (Hroom 10 ltac:(lia)) ltac:(lia)) as G1.
  pose proof (getBits_write _ 1 fp 16 Hs1 Hfp ltac:(lia) (Hroom 29 ltac:(lia)) ltac:(lia)) as G2.
  pose proof (getBits_write _ 3 fc 16 Hsf Hfc ltac:(lia) (Hroom 30 ltac:(lia)) ltac:(lia)) as G3.
  rewrite !advance_advance in G1, G2, G3. split; [exact G1|]. split; [exact G2|]. split; [exact G3|].
  unfold from. rewrite index_advance, Hi. replace (8 * p + 33 + 7) with ((p + 5) * 8) by lia. by rewrite Z.div_mul by lia.
Qed.

(** The picture layer after the header. *)
Definition predicted_pic (pc : picture) (fp : Z) (rsize : nat) : picture :=
  pc <| pictureCodingType := PICTURE_TYPE_P |> <| fullPelForward := fp |> <| forwardFCode := Z.of_nat rsize + 1 |>
     <| forwardRSize := Z.of_nat rsize |> <| forwardF := 2 ^ Z.of_nat rsize |>.

Lemma predicted_header_decoded fuel skip j p temporal vbv fp rsize :
  index (buffer j) = 8 * p -> 0 <= p -> room (buffer j) 64 -> 0 <= fp < 2 -> (rsize <= 6)%nat ->
  holds (buffer j) p (pack (predicted_header temporal vbv fp (Z.of_nat rsize + 1))) ->
  decodePicture fuel skip j =
  finish_picture fuel skip (j <| currentFrame := currentFrame j + 1 |>) (predicted_pic (pic j) fp rsize)
    (advance (buffer j) 33).
Proof.
  intros Hi Hp Hr Hfp Hr6 Hh.
  destruct (predicted_header_read (buffer j) p temporal vbv fp (Z.of_nat rsize + 1) Hi Hp Hr Hfp ltac:(lia) Hh)
    as (G1 & G2 & G3 & _).
  unfold decodePicture. change (buffer (j <| currentFrame := _ |>)) with (buffer j). rewrite G1.
  change ((PICTURE_TYPE_P <=? 0) || (PICTURE_TYPE_B <=? PICTURE_TYPE_P)) with false.
  change (PICTURE_TYPE_P =? PICTURE_TYPE_P) with true. cbn iota. rewrite G2, G3. cbn [andb].
  set (pc := _ <| forwardFCode := Z.of_nat rsize + 1 |>). change (forwardFCode pc) with (Z.of_nat rsize + 1).
  destruct (Z.eqb_spec (Z.of_nat rsize + 1) 0); [lia|]. replace (Z.of_nat rsize + 1 - 1) with (Z.of_nat rsize) by lia.
  assert (2 ^ Z.of_nat rsize <= 64) by (change 64 with (2 ^ 6); apply Z.pow_le_mono_r; lia).
  assert (0 < 2 ^ Z.of_nat rsize) by (apply Z.pow_pos_nonneg; lia).
  rewrite shl_small, Z.mul_1_l by lia. reflexivity.
Qed.

(** The picture layer of a decoder that has read the header. *)
Definition pic_of (pc : picture) (k : kind) : picture :=
  match k with
  | Key => pc <| pictureCodingType := PICTURE_TYPE_I |>
  | Delta fp rsize => predicted_pic pc fp rsize
  end.

Lemma length_header s : length (pack (picture_header s)) = (match s_kind s with Key => 4 | Delta _ _ => 5 end)%nat.
Proof. unfold picture_header. by destruct (s_kind s). Qed.

Lemma picture_header_decoded w h s fuel skip j p :
  of_size w h s -> index (buffer j) = 8 * p -> 0 <= p -> room (buffer j) 64 ->
  holds (buffer j) p (pack (picture_header s)) ->
  exists n, decodePicture fuel skip j =
    finish_picture fuel skip (j <| currentFrame := currentFrame j + 1 |>) (pic_of (pic j) (s_kind s)) (advance (buffer j) n) /\
    0 <= n <= 40 /\ from (advance (buffer j) n) = p + Z.of_nat (length (pack (picture_header s))).
Proof.
  intros [[Hfp Hr6] _ _ _] Hi Hp Hr Hh. rewrite length_header. unfold picture_header in Hh. destruct (s_kind s) as [|fp rsize].
  - destruct (header_read (buffer j) p (temporal s) (vbv s) Hi Hp Hr Hh) as [Hg Hf].
    exists 29. rewrite advance_advance in Hf. split; [|split; [lia|exact Hf]].
    unfold decodePicture. change (buffer (j <| currentFrame := _ |>)) with (buffer j). rewrite Hg.
    change 29 with (13 + 16). rewrite <- advance_advance. reflexivity.
  - exists 33. split; [by apply (predicted_header_decoded fuel skip j p (temporal s) (vbv s))|]. split; [lia|].
    by apply (predicted_header_read (buffer j) p (temporal s) (vbv s) fp (Z.of_nat rsize + 1)); try done; try lia; cbn in *; lia.
Qed.

(** ** Decoding a picture *)

(** Turns enough for the rows, the macroblocks of a row and the coefficients of a
    block. *)
Definition enough (w h : Z) (fuel : nat) : Prop :=
  mbWidth (new_geometry w h) <= Z.of_nat fuel /\ mbHeight (new_geometry w h) <= Z.of_nat fuel /\ (64 < fuel)%nat.

Definition matrices_ok (j : jsmpeg) : Prop := matrix_ok (intraQuantMatrix j) /\ matrix_ok (nonIntraQuantMatrix j).

Lemma draw_slices_cells g p im nm ref a rows fr :
  Forall (fun row => Z.of_nat (length row) = mbWidth g) rows ->
  draw_slices (draw_cells g p im nm ref) g a rows fr = draw_cells g p im nm ref a (concat rows) fr.
Proof.
  intros Hr. revert a fr. induction Hr as [|row rows Hl Hr IH]; intros a fr; cbn [draw_slices concat]; [done|].
  by rewrite draw_cells_app, Hl, IH.
Qed.

Lemma kind_type k : type_of_kind k = PICTURE_TYPE_I \/ type_of_kind k = PICTURE_TYPE_P.
Proof. destruct k; [by left|by right]. Qed.

Lemma pic_of_type pc k : pictureCodingType (pic_of pc k) = type_of_kind k.
Proof. by destruct k. Qed.

Lemma pic_of_vectors pc k :
  type_of_kind k = PICTURE_TYPE_P ->
  forwardRSize (pic_of pc k) = Z.of_nat (rsize_of k) /\ forwardF (pic_of pc k) = 2 ^ Z.of_nat (rsize_of k) /\
  fullPelForward (pic_of pc k) = pel_of k.
Proof. by destruct k. Qed.

Section Drawn.
Context (w h : Z) (j : jsmpeg) (fuel : nat) (p ending : Z) (s : shot).
Let g := new_geometry w h.
Let ty := type_of_kind (s_kind s).
Let rsize := rsize_of (s_kind s).
Let f := 2 ^ Z.of_nat rsize.
Let pc := pic_of (pic j) (s_kind s).
Context (Hj : showing w h j) (Hm : matrices_ok j) (Hs : of_size w h s) (Hfuel : enough w h (S fuel)).
Context (Hending : is_slice (Some ending) = false) (Hi : index (buffer j) = 8 * p) (Hp : 0 <= p).
Context (Hh : holds (buffer j) p (enc s ending)) (Hw : p + Z.of_nat (length (enc s ending)) <= writePos (buffer j)).

(** A row of macroblocks. *)
Lemma row_drawn row d a :
  row_ok s (mbWidth g) row -> slice_start (quantizer s) (mb d) -> macroblockAddress (mb d) = a - 1 -> 0 <= a ->
  a + mbWidth g <= mbSize g -> blockData d = replicate 64 0 -> room (rd d) 4001000 -> starts (rd d) (enc_row s row) ->
  let r' := advance (rd d) (Z.of_nat (length (enc_row s row))) in
  from r' < writePos r' -> prefix_at r' (from r') = true ->
  exists m', decode_macroblocks g pc (intraQuantMatrix j) (nonIntraQuantMatrix j) (forward j) (S fuel) (S fuel) d =
    Some (Dec r' m' (draw_cells g pc (intraQuantMatrix j) (nonIntraQuantMatrix j) (forward j) a row (cur d)) (replicate 64 0)).
Proof.
  intros [Hl Hc Hhead Hlast] [Hb0 Hb1 Hb2 [Hb3 Hb4]] Ha Ha0 Has Hz Hr Hst r' Hend Hpre.
  destruct Hj as [(Hsz & H28 & _) _ _ _ _]. destruct (geometry_spec w h Hsz) as (HW & HH & Hmbs & _ & Hch & _ & _ & _ & _ & Hh1).
  fold g in HW, HH, Hmbs, Hch, Hh1. destruct Hs as [[_ Hr6] Hq _ _]. destruct Hfuel as (F1 & F2 & F3). fold g in F1, F2.
  apply (cells_decoded g pc (intraQuantMatrix j) (nonIntraQuantMatrix j) (forward j) ty rsize fuel) with (x := ctx_start (quantizer s)) (n := 0%nat).
  - apply pic_of_type.
  - apply kind_type.
  - exact Hr6.
  - intros Ht. destruct (pic_of_vectors (pic j) (s_kind s) Ht) as (? & ? & _). done.
  - apply Hm.
  - apply Hm.
  - lia.
  - lia.
  - nia.
  - lia.
  - split; [exact Ha|exact Ha0|exact Hb0|by split; [|split; [|split]]|by apply ctx_start_ok with (rsize := rsize)|exact Hz].
  - by intros _.
  - exact Hc.
  - lia.
  - lia.
  - lia.
  - apply (room_less _ _ _ Hr). lia.
  - exact Hlast.
  - exact Hst.
  - exact Hend.
  - exact Hpre.
Qed.

Lemma length_row row : row_ok s (mbWidth g) row -> Z.of_nat (length (enc_row s row)) <= 4000000.
Proof.
  intros [Hl Hc _ _]. destruct Hj as [(Hsz & _) _ _ _ _]. destruct (geometry_spec w h Hsz) as (HW & _). fold g in HW.
  destruct Hs as [[_ Hr6] Hq _ _].
  pose proof (length_cells ty f rsize (kind_type _) eq_refl Hr6 (ctx_start (quantizer s)) 0 row
    (ctx_start_ok f rsize eq_refl Hr6 _ Hq) ltac:(lia) Hc) as Hlen.
  change (enc_row s row) with (enc_cells ty f rsize (ctx_start (quantizer s)) 0 row). lia.
Qed.

Lemma shot_drawn skip :
  let fr := draw_cells g pc (intraQuantMatrix j) (nonIntraQuantMatrix j) (forward j) 0 (concat (rows s)) (current j) in
  exists j', decodePicture (S fuel) skip j = Some j' /\ forward j' = fr /\
    buffer j' = (buffer j) <| index := 8 * (p + Z.of_nat (length (enc s ending)) - 4) |> /\
    canvas j' = if skip then canvas j else YCbCrToRGBA g fr (currentRGBA j).
Proof.
  intros fr. pose proof Hj as [(Hsz & H28 & _) Hg Hwf _ _]. pose proof (wf_ready _ Hwf) as ((Hb & _) & Hw4 & HL).
  destruct (geometry_spec w h Hsz) as (HW & HH & Hmbs & _ & Hch & _ & _ & _ & _ & Hh1). fold g in HW, HH, Hmbs, Hch, Hh1.
  pose proof Hs as [Hk Hq Hrows Hcount]. fold g in Hrows, Hcount. destruct Hfuel as (F1 & F2 & F3). fold g in F1, F2.
  pose proof Hh as Hh'. unfold enc, body in Hh'. rewrite <- app_assoc in Hh'. apply holds_app in Hh' as [Hh0 Hhs].
  set (k := Z.of_nat (length (pack (picture_header s)))) in *.
  set (l := slice_bytes (enc_row s) (quantizer s) 1 (rows s) ++ [0; 0; 1; ending]) in *.
  assert (Z.of_nat (length (enc s ending)) = k + Z.of_nat (length l)) as Hlen.
  { unfold enc, body. rewrite <- app_assoc, length_app. fold l. lia. }
  assert (8 <= k + Z.of_nat (length l)) as H8.
  { subst k l. rewrite length_header, length_app. cbn [length]. destruct (s_kind s); lia. }
  assert (room (buffer j) 64) as Hroom by (split; [done|]; rewrite Hi; lia).
  destruct (picture_header_decoded w h s (S fuel) skip j p Hs Hi Hp Hroom Hh0) as (n & -> & Hn & Hfrom). fold k in Hfrom.
  set (j1 := j <| currentFrame := _ |>). fold pc.
  destruct (finish_drawn (enc_row s) (draw_cells g pc (intraQuantMatrix j) (nonIntraQuantMatrix j) (forward j))
    (row_ok s (mbWidth g)) j1 pc fuel (p + k) (quantizer s) ending (rows s)) with (skip := skip) (r := advance (buffer j) n)
    as (j' & E & Ef & Eb & Ec).
  all: assert (geo j1 = g) as Hg1 by exact Hg; rewrite ?Hg1.
  - exact Hq.
  - exact Hending.
  - lia.
  - exact Hrows.
  - exact Hcount.
  - lia.
  - exact length_row.
  - exact row_drawn.
  - apply Hwf.
  - split; [split; [done|change (0 <= index (buffer j) + n); lia]|done].
  - exact Hfrom.
  - lia.
  - change (index (buffer j) + n < 134217728). lia.
  - exact Hhs.
  - change (p + k + Z.of_nat (length l) <= writePos (buffer j)). lia.
  - rewrite Hg1 in Ef, Ec. rewrite draw_slices_cells in Ef, Ec
      by (eapply Forall_impl; [exact Hrows|]; by intros row [? _ _ _]).
    exists j'. split; [exact E|]. split; [exact Ef|]. split; [|exact Ec]. rewrite Eb.
    change ((advance (buffer j) n) <| index := ?x |>) with ((buffer j) <| index := x |>).
    apply (f_equal (fun x => (buffer j) <| index := x |>)). fold l. lia.
Qed.
End Drawn.

(** ** Which value a pixel gets *)

(** The vector of a picture, in half pixels. *)
Definition vector (fp x : Z) : Z := if fp =? 0 then x else 2 * x.

(** A pixel of the reference plane [s], [mh] and [mv] half pixels away. *)
Definition moved_pixel (s : list Z) (w mh mv x y : Z) : Z :=
  predict (Z.odd mh) (Z.odd mv) s w ((y + mv / 2) * w + (x + mh / 2)).

(** A pixel of block [block] of a macroblock: the prediction from the reference
    plane, corrected or replaced by the transformed coefficients. *)
Definition cell_value (im nm : list Z) (c : cell) (block : Z) (plane : list Z) (w mh mv x y : Z) : Z :=
  painted (block_at (painters im nm c) block) (8 * (y mod 8) + x mod 8) (moved_pixel plane w mh mv x y).

Definition cell_Y (im nm : list Z) (fp W : Z) (ref : frame) (c : cell) (x y : Z) : Z :=
  let mv := default (0, 0) (vector_of c) in
  cell_value im nm c (lum_block x y) (fY ref) (16 * W) (vector fp mv.1) (vector fp mv.2) x y.

Definition cell_C (im nm : list Z) (fp W : Z) (plane : list Z) (block : Z) (c : cell) (x y : Z) : Z :=
  let mv := default (0, 0) (vector_of c) in
  cell_value im nm c block plane (8 * W) (Z.quot (vector fp mv.1) 2) (Z.quot (vector fp mv.2) 2) x y.

Lemma in_block B row col x y :
  0 < B -> (B * row <=? y) && (y <? B * row + B) && (B * col <=? x) && (x <? B * col + B) =
           (row =? y / B) && (col =? x / B).
Proof.
  intros HB. pose proof (Z.div_mod y B ltac:(lia)). pose proof (Z.mod_pos_bound y B ltac:(lia)).
  pose proof (Z.div_mod x B ltac:(lia)). pose proof (Z.mod_pos_bound x B ltac:(lia)).
  apply eq_true_iff_eq. rewrite !andb_true_iff, !Z.leb_le, !Z.ltb_lt, !Z.eqb_eq. nia.
Qed.

(** The blocks of an intra macroblock do not depend on what was there. *)
Lemma painted_intra im nm c block n old old' :
  is_intra c = true -> length (items c) = 6%nat -> 0 <= block < 6 ->
  painted (block_at (painters im nm c) block) n old = painted (block_at (painters im nm c) block) n old'.
Proof.
  intros Hi Hl Hb. destruct c as [| | |q bs]; try done. cbn [items] in Hl. rewrite length_fmap in Hl.
  unfold block_at, painters. cbn [items is_intra]. rewrite !list_lookup_fmap.
  destruct (lookup_lt_is_Some_2 bs (Z.to_nat block)) as [[v ps] ->]; [lia|].
  cbn [fmap option_fmap option_map default from_option item_painter painted painter_of id]. reflexivity.
Qed.

Lemma lum_block_range x y : 0 <= lum_block x y < 4.
Proof.
  unfold lum_block. pose proof (Z.mod_pos_bound x 16 ltac:(lia)). pose proof (Z.mod_pos_bound y 16 ltac:(lia)).
  rewrite !halves by lia. zdecide; lia.
Qed.

Section Pixels.
Context (w h fp : Z) (ty : Z) (rsize : nat) (p : picture) (im nm : list Z) (ref : frame).
Let g := new_geometry w h.
Let W := mbWidth g.
Let H := mbHeight g.
Let f := 2 ^ Z.of_nat rsize.
Context (Hs : sized_picture w h) (Hr6 : (rsize <= 6)%nat) (Hfp : 0 <= fp < 2).
Context (Hty : ty = PICTURE_TYPE_I \/ ty = PICTURE_TYPE_P) (Hp : ty = PICTURE_TYPE_P -> fullPelForward p = fp).
Context (Href : bytes_frame ref).

Lemma scaled_vector c :
  is_intra c = false -> cell_ok ty f c ->
  let mv := default (0, 0) (vector_of c) in
  scaled p mv.1 = vector fp mv.1 /\ scaled p mv.2 = vector fp mv.2 /\
  -32768 <= vector fp mv.1 < 32768 /\ -32768 <= vector fp mv.2 < 32768.
Proof.
  intros Hi Hc mv. assert (ty = PICTURE_TYPE_P) as HtyP.
  { destruct Hty as [Ht|Ht]; [|done]. pose proof (ck_kind _ _ _ Hc Ht). congruence. }
  assert (0 < f <= 64) by (unfold f; split; [apply Z.pow_pos_nonneg; lia|change 64 with (2 ^ 6); apply Z.pow_le_mono_r; lia]).
  assert (-16 * f <= mv.1 < 16 * f /\ -16 * f <= mv.2 < 16 * f) as [H1 H2].
  { pose proof (ck_vector _ _ _ Hc) as Hv. subst mv. destruct (vector_of c) as [[a b]|]; cbn; [done|lia]. }
  unfold scaled, vector. rewrite (Hp HtyP). assert (fp = 0 \/ fp = 1) as [-> | ->] by lia; cbn [nz Z.eqb negb]; [lia|].
  rewrite !shl_small by lia. change (2 ^ 1) with 2. lia.
Qed.

Lemma predict_cell_redrawn row col c fr : redrawn fr (predict_cell g p ref row col c fr).
Proof using Type. unfold predict_cell. destruct (is_intra c); [done|apply copyMacroblock_redrawn]. Qed.

Lemma draw_cell_redrawn a c fr : redrawn fr (draw_cell g p im nm ref a c fr).
Proof using Type. unfold draw_cell. etransitivity; [apply predict_cell_redrawn|apply draw_blocks_redrawn]. Qed.

Lemma redrawn_fits fr fr' : redrawn fr fr' -> fits g fr -> fits g fr'.
Proof using Type. intros Hr (F1 & F2 & F3). destruct (redrawn_lengths _ _ Hr) as (L1 & L2 & L3). unfold fits. by rewrite L1, L2, L3. Qed.

(** A copied macroblock, in all planes. *)
Lemma copied a mh mv fr x y :
  0 <= a < W * H -> fits g fr -> -32768 <= mh < 32768 -> -32768 <= mv < 32768 -> 0 <= y ->
  let fr' := copyMacroblock g ref (spot (a / W) (a mod W)) mh mv fr in
  (0 <= x < 16 * W ->
   aget (fY fr') (y * (16 * W) + x) =
   if a =? address W 16 x y then moved_pixel (fY ref) (16 * W) mh mv x y else aget (fY fr) (y * (16 * W) + x)) /\
  (0 <= x < 8 * W ->
   aget (fCr fr') (y * (8 * W) + x) =
   (if a =? address W 8 x y then moved_pixel (fCr ref) (8 * W) (Z.quot mh 2) (Z.quot mv 2) x y
    else aget (fCr fr) (y * (8 * W) + x)) /\
   aget (fCb fr') (y * (8 * W) + x) =
   (if a =? address W 8 x y then moved_pixel (fCb ref) (8 * W) (Z.quot mh 2) (Z.quot mv 2) x y
    else aget (fCb fr) (y * (8 * W) + x))).
Proof.
  intros Ha Hfr Hh Hv Hy. destruct (geometry_spec w h Hs) as (HW & HH & _). fold g W H in HW, HH.
  destruct (address_range W H HW a Ha) as [Hrow Hcol].
  destruct (copyMacroblock_planes w h (spot (a / W) (a mod W)) mh mv ref fr Hs Hfr Href Hrow Hcol Hh Hv) as [HY HC].
  fold g W in HY, HC. cbn zeta. split.
  - intros Hx. rewrite HY by done. unfold predicted. cbn [spot mbRow mbCol]. rewrite in_block, address_split by lia. done.
  - intros Hx. destruct (HC x y Hx Hy) as [-> ->]. unfold predicted. cbn [spot mbRow mbCol].
    rewrite in_block, address_split by lia. done.
Qed.

(** The prediction, in all planes. *)
Lemma predicted_cell a c fr x y :
  0 <= a < W * H -> is_intra c = false -> cell_ok ty f c -> fits g fr -> 0 <= y ->
  let fr' := predict_cell g p ref (a / W) (a mod W) c fr in
  let mv := default (0, 0) (vector_of c) in
  let mh := vector fp mv.1 in
  let mv := vector fp mv.2 in
  (0 <= x < 16 * W ->
   aget (fY fr') (y * (16 * W) + x) =
   if a =? address W 16 x y then moved_pixel (fY ref) (16 * W) mh mv x y else aget (fY fr) (y * (16 * W) + x)) /\
  (0 <= x < 8 * W ->
   aget (fCr fr') (y * (8 * W) + x) =
   (if a =? address W 8 x y then moved_pixel (fCr ref) (8 * W) (Z.quot mh 2) (Z.quot mv 2) x y
    else aget (fCr fr) (y * (8 * W) + x)) /\
   aget (fCb fr') (y * (8 * W) + x) =
   (if a =? address W 8 x y then moved_pixel (fCb ref) (8 * W) (Z.quot mh 2) (Z.quot mv 2) x y
    else aget (fCb fr) (y * (8 * W) + x))).
Proof.
  intros Ha Hi Hc Hfr Hy. destruct (scaled_vector c Hi Hc) as (E1 & E2 & R1 & R2).
  unfold predict_cell. rewrite Hi, E1, E2. by apply copied.
Qed.

(** What one macroblock does to a plane with blocks of [B] pixels. *)
Definition draws (plane : frame -> list Z) (B : Z) (spec : cell -> Z -> Z -> Z) : Prop :=
  forall a c fr x y, 0 <= a < W * H -> cell_ok ty f c -> fits g fr -> 0 <= x < B * W -> 0 <= y ->
    aget (plane (draw_cell g p im nm ref a c fr)) (y * (B * W) + x) =
    if a =? address W B x y then spec c x y else aget (plane fr) (y * (B * W) + x).

Lemma draws_Y : draws fY 16 (cell_Y im nm fp W ref).
Proof.
  intros a c fr x y Ha Hc Hfr Hx Hy. pose proof (geometry_spec w h Hs) as (HW & HH & _ & Hcw & _).
  fold g W H in HW, HH, Hcw. pose proof (ck_six _ _ _ Hc) as H6. unfold draw_cell. fold W.
  pose proof (redrawn_fits _ _ (predict_cell_redrawn (a / W) (a mod W) c fr) Hfr) as (F1 & _).
  rewrite (draw_lum g W H) by (done || by unfold painters; rewrite length_fmap).
  unfold cell_Y, cell_value. destruct (is_intra c) eqn:Hi.
  - destruct (Z.eqb_spec a (address W 16 x y)); [|unfold predict_cell; by rewrite Hi].
    apply painted_intra; [done|done|]. pose proof (lum_block_range x y). lia.
  - destruct (predicted_cell a c fr x y Ha Hi Hc Hfr Hy) as [E _]. cbn zeta in E. rewrite E by done.
    by destruct (a =? address W 16 x y).
Qed.

Lemma draws_C : draws fCb 8 (cell_C im nm fp W (fCb ref) 4) /\ draws fCr 8 (cell_C im nm fp W (fCr ref) 5).
Proof.
  pose proof (geometry_spec w h Hs) as (HW & HH & _ & Hcw & _). fold g W H in HW, HH, Hcw.
  split; intros a c fr x y Ha Hc Hfr Hx Hy; pose proof (ck_six _ _ _ Hc) as H6; unfold draw_cell; fold W;
    pose proof (redrawn_fits _ _ (predict_cell_redrawn (a / W) (a mod W) c fr) Hfr) as (_ & F2 & F3);
    destruct (draw_chr g W H eq_refl Hcw HW HH a (painters im nm c) (predict_cell g p ref (a / W) (a mod W) c fr) x y) as [E4 E5];
    try (done || by unfold painters; rewrite length_fmap); rewrite ?E4, ?E5; unfold cell_C, cell_value;
    (destruct (is_intra c) eqn:Hi;
      [destruct (Z.eqb_spec a (address W 8 x y)); [by apply painted_intra|unfold predict_cell; by rewrite Hi]
      |destruct (predicted_cell a c fr x y Ha Hi Hc Hfr Hy) as [_ E]; cbn zeta in E; destruct (E Hx) as [Er Eb];
       rewrite ?Er, ?Eb; by destruct (a =? address W 8 x y)]).
Qed.

Lemma cells_plane plane B spec cs a fr x y :
  draws plane B spec -> 0 <= a -> a + Z.of_nat (length cs) <= W * H -> Forall (cell_ok ty f) cs -> fits g fr ->
  0 <= x < B * W -> 0 <= y ->
  aget (plane (draw_cells g p im nm ref a cs fr)) (y * (B * W) + x) =
  match nth_mb cs (address W B x y - a) with
  | Some c => spec c x y
  | None => aget (plane fr) (y * (B * W) + x)
  end.
Proof using Type.
  clear - plane. intros Hd Ha Hl Hcs Hfr Hx Hy. revert a fr Ha Hl Hfr.
  induction Hcs as [|c cs Hc Hcs IH]; intros a fr Ha Hl Hfr; cbn [draw_cells length] in *.
  { unfold nth_mb. rewrite lookup_nil. by destruct (0 <=? _). }
  rewrite IH; [|lia|lia|by eapply redrawn_fits, Hfr; apply draw_cell_redrawn].
  rewrite nth_mb_cons, Hd by (done || lia). replace (address W B x y - (a + 1)) with (address W B x y - a - 1) by lia.
  destruct (Z.eqb_spec (address W B x y - a) 0) as [E|E].
  - rewrite E. replace (a =? address W B x y) with true by (symmetry; apply Z.eqb_eq; lia). done.
  - destruct (Z.eqb_spec a (address W B x y)); [lia|]. done.
Qed.
End Pixels.

(** ** The picture as a whole *)

(** A plane of [w] by [h] pixels. *)
Definition tabulate (w h : Z) (f : Z -> Z -> Z) : list Z := (fun i => f (i mod w) (i / w)) <$> seqZ 0 (w * h).

Lemma length_tabulate w h f : 0 <= w * h -> Z.of_nat (length (tabulate w h f)) = w * h.
Proof. intros Hl. unfold tabulate. rewrite length_fmap, length_seqZ. lia. Qed.

Lemma tabulate_get w h f x y :
  0 <= x < w -> 0 <= y < h -> aget (tabulate w h f) (y * w + x) = f x y.
Proof.
  intros Hx Hy. assert (0 <= y * w + x < w * h) as Hi by nia. unfold aget, tabulate. rewrite list_lookup_fmap, lookup_seqZ_lt by lia.
  cbn. rewrite Z.add_0_l, Z2Nat.id by lia. f_equal.
  - rewrite Z.add_comm, Z.mod_add by lia. apply Z.mod_small. lia.
  - rewrite Z.add_comm, Z.div_add by lia. rewrite Z.div_small; lia.
Qed.

Lemma plane_ext w h (l1 l2 : list Z) :
  0 < w -> 0 <= h -> Z.of_nat (length l1) = w * h -> Z.of_nat (length l2) = w * h ->
  (forall x y, 0 <= x < w -> 0 <= y < h -> aget l1 (y * w + x) = aget l2 (y * w + x)) -> l1 = l2.
Proof.
  intros Hw Hh H1 H2 He. apply aget_ext; [lia|]. intros i Hi. rewrite H1 in Hi.
  pose proof (Z.div_mod i w ltac:(lia)). pose proof (Z.mod_pos_bound i w ltac:(lia)).
  replace i with (i / w * w + i mod w) by lia. apply He; [lia|].
  split; [apply Z.div_pos; lia|apply Z.div_lt_upper_bound; lia].
Qed.

Lemma tabulate_ext w h f1 f2 :
  0 < w -> (forall x y, 0 <= x < w -> 0 <= y < h -> f1 x y = f2 x y) -> tabulate w h f1 = tabulate w h f2.
Proof.
  intros Hw He. unfold tabulate. apply list_fmap_ext. intros k i Hi. apply lookup_seqZ in Hi as [-> Hk].
  rewrite Z.add_0_l.
  apply He; [apply Z.mod_pos_bound; lia|]. split; [apply Z.div_pos; lia|apply Z.div_lt_upper_bound; lia].
Qed.

Definition cell_at (rows : list (list cell)) (r c : Z) : cell :=
  default Skip (rows !! Z.to_nat r ≫= fun row => row !! Z.to_nat c).

Lemma cells_exist n rows r c :
  Forall (fun row => Z.of_nat (length row) = n) rows -> 0 <= r < Z.of_nat (length rows) -> 0 <= c < n ->
  nth_mb (concat rows) (r * n + c) = Some (cell_at rows r c).
Proof.
  intros Hrows Hr Hc. destruct (lookup_lt_is_Some_2 rows (Z.to_nat r)) as [row Erow]; [lia|].
  pose proof (Forall_lookup_1 _ _ _ _ Hrows Erow) as Hl. cbn in Hl.
  destruct (lookup_lt_is_Some_2 row (Z.to_nat c)) as [x Ex]; [lia|].
  unfold cell_at. rewrite Erow. cbn. rewrite Ex. cbn.
  apply concat_lookup; [done|lia|done|by rewrite Erow].
Qed.

(** The planes of a picture, after those of [ref]. *)
Definition paint (w h : Z) (im nm : list Z) (ref : frame) (s : shot) : frame :=
  let W := mbWidth (new_geometry w h) in
  let H := mbHeight (new_geometry w h) in
  let fp := pel_of (s_kind s) in
  Frame (tabulate (16 * W) (16 * H) (fun x y => cell_Y im nm fp W ref (cell_at (rows s) (y / 16) (x / 16)) x y))
        (tabulate (8 * W) (8 * H) (fun x y => cell_C im nm fp W (fCr ref) 5 (cell_at (rows s) (y / 8) (x / 8)) x y))
        (tabulate (8 * W) (8 * H) (fun x y => cell_C im nm fp W (fCb ref) 4 (cell_at (rows s) (y / 8) (x / 8)) x y)).

(** A canvas of [w] by [h] pixels shows the planes. *)
Definition on_canvas (w h : Z) (canvas : list Z) (fr : frame) : Prop :=
  let W := mbWidth (new_geometry w h) in
  forall x y k, 0 <= x < w -> 0 <= y < h -> 0 <= k < 3 ->
    aget canvas (4 * (y * w + x) + k) =
    rgb k (aget (fY fr) (y * (16 * W) + x))
          (aget (fCb fr) (y / 2 * (8 * W) + x / 2)) (aget (fCr fr) (y / 2 * (8 * W) + x / 2)).

Lemma rows_fit w h s :
  of_size w h s ->
  Z.of_nat (length (concat (rows s))) = mbWidth (new_geometry w h) * mbHeight (new_geometry w h) /\
  Forall (cell_ok (type_of_kind (s_kind s)) (2 ^ Z.of_nat (rsize_of (s_kind s)))) (concat (rows s)) /\
  Forall (fun row => Z.of_nat (length row) = mbWidth (new_geometry w h)) (rows s).
Proof.
  intros [_ _ Hrows <-]. induction Hrows as [|row rs [Hl Hc _ _] Hr (IH1 & IH2 & IH3)]; cbn [concat length];
    [split; [lia|by split; constructor]|].
  split; [rewrite length_app; lia|]. split; [by apply Forall_app|by constructor].
Qed.

Section Planes.
Context (w h : Z) (s : shot) (p : picture) (im nm : list Z) (ref : frame).
Let g := new_geometry w h.
Context (Hsz : sized_picture w h) (Hs : of_size w h s) (Href : bytes_frame ref).

(** A plane of the new picture. *)
Lemma plane_drawn plane B spec fr x y :
  draws w h (type_of_kind (s_kind s)) (rsize_of (s_kind s)) p im nm ref plane B spec -> 0 < B -> fits g fr ->
  0 <= x < B * mbWidth g -> 0 <= y < B * mbHeight g ->
  aget (plane (draw_cells g p im nm ref 0 (concat (rows s)) fr)) (y * (B * mbWidth g) + x) =
  spec (cell_at (rows s) (y / B) (x / B)) x y.
Proof.
  intros Hd HB Hfit Hx Hy. destruct (rows_fit w h s Hs) as (Hl & Hc & Hlens). fold g in Hl, Hlens.
  rewrite (cells_plane w h (type_of_kind (s_kind s)) (rsize_of (s_kind s)) p im nm ref plane B spec); [|done|lia|fold g; lia|done|done|done|lia].
  rewrite Z.sub_0_r. unfold address. fold g. rewrite (cells_exist (mbWidth g)); [done|done|..].
  - rewrite (os_count _ _ _ Hs). fold g. split; [apply Z.div_pos; lia|apply Z.div_lt_upper_bound; lia].
  - split; [apply Z.div_pos; lia|apply Z.div_lt_upper_bound; lia].
Qed.

Context (Hp : type_of_kind (s_kind s) = PICTURE_TYPE_P -> fullPelForward p = pel_of (s_kind s)).

Lemma drawn_painted fr : fits g fr -> draw_cells g p im nm ref 0 (concat (rows s)) fr = paint w h im nm ref s.
Proof.
  intros Hfit. destruct (geometry_spec w h Hsz) as (HW & HH & _). fold g in HW, HH. pose proof Hs as [[Hfp Hr6] _ _ _].
  assert (fits g (draw_cells g p im nm ref 0 (concat (rows s)) fr)) as (F1 & F2 & F3).
  { generalize 0. clear - Hfit. revert fr Hfit. induction (concat (rows s)) as [|c cs IH]; intros fr Hfit a; cbn [draw_cells]; [done|].
    apply IH. by eapply redrawn_fits, Hfit; apply draw_cell_redrawn. }
  pose proof (draws_Y w h (pel_of (s_kind s)) _ (rsize_of (s_kind s)) p im nm ref Hsz Hr6 Hfp (kind_type _) Hp Href) as DY.
  destruct (draws_C w h (pel_of (s_kind s)) _ (rsize_of (s_kind s)) p im nm ref Hsz Hr6 Hfp (kind_type _) Hp Href) as [DB DR].
  pose proof (fun x y => plane_drawn fY 16 _ fr x y DY ltac:(lia) Hfit) as PY.
  pose proof (fun x y => plane_drawn fCb 8 _ fr x y DB ltac:(lia) Hfit) as PB.
  pose proof (fun x y => plane_drawn fCr 8 _ fr x y DR ltac:(lia) Hfit) as PR.
  set (fr' := draw_cells _ _ _ _ _ _ _ _) in *. clearbody fr'. destruct fr' as [yy cr cb]. cbn [fY fCr fCb] in *. unfold paint. fold g.
  f_equal.
  - apply (plane_ext (16 * mbWidth g) (16 * mbHeight g)); [lia|lia|lia|apply length_tabulate; lia|].
    intros x y Hx Hy. by rewrite PY, tabulate_get.
  - apply (plane_ext (8 * mbWidth g) (8 * mbHeight g)); [lia|lia|lia|apply length_tabulate; lia|].
    intros x y Hx Hy. by rewrite PR, tabulate_get.
  - apply (plane_ext (8 * mbWidth g) (8 * mbHeight g)); [lia|lia|lia|apply length_tabulate; lia|].
    intros x y Hx Hy. by rewrite PB, tabulate_get.
Qed.
End Planes.

(** The matrices belong to the sequence. *)
Definition matrices (j : jsmpeg) : list Z * list Z := (intraQuantMatrix j, nonIntraQuantMatrix j).

Lemma record_matrices j : matrices (recordFrameFromCurrentBuffer j) = matrices j.
Proof. unfold recordFrameFromCurrentBuffer. by repeat case_match. Qed.

Lemma matrices_kept fuel skip j j' : decodePicture fuel skip j = Some j' -> matrices j' = matrices j.
Proof.
  unfold decodePicture. set (j1 := j <| currentFrame := _ |>). intros E.
  destruct (getBits _ 3) as [type r]. case_match; [by simplify_eq|].
  destruct (if type =? PICTURE_TYPE_P then _ else _) as [pc r1]. case_match; [by simplify_eq|].
  destruct (skip_headers _ _) as [[code r2]|]; cbn [mbind option_bind] in E; [|done].
  destruct (decode_slices _ _ _ _ _ _ _ _ _) as [d|]; cbn [mbind option_bind] in E; [|done].
  set (j2 := j1 <| buffer := _ |> <| pic := _ |> <| mbs := _ |> <| current := _ |> <| block_data := _ |>) in E.
  assert (matrices j2 = matrices j) as Hj2 by done. clearbody j2. rewrite <- Hj2, <- (record_matrices j2).
  injection E as <-. by destruct skip.
Qed.

(** Decoding a picture gives its planes, and shows them unless the output is
    skipped. *)
Lemma shot_decoded w h j fuel p ending s skip :
  showing w h j -> matrices_ok j -> of_size w h s -> enough w h fuel -> is_slice (Some ending) = false ->
  index (buffer j) = 8 * p -> 0 <= p -> holds (buffer j) p (enc s ending) ->
  p + Z.of_nat (length (enc s ending)) <= writePos (buffer j) ->
  exists j', decodePicture fuel skip j = Some j' /\ showing w h j' /\
    buffer j' = (buffer j) <| index := 8 * (p + Z.of_nat (length (enc s ending)) - 4) |> /\
    forward j' = paint w h (intraQuantMatrix j) (nonIntraQuantMatrix j) (forward j) s /\
    (skip = false -> on_canvas w h (canvas j') (forward j')).
Proof.
  intros Hj Hm Hs Hfuel He Hi Hp Hh Hw. destruct fuel as [|fuel]; [destruct Hfuel as (_ & _ & ?); lia|].
  destruct (shot_drawn w h j fuel p ending s Hj Hm Hs Hfuel He Hi Hp Hh Hw skip) as (j' & E & Ef & Eb & Ec).
  pose proof Hj as [(Hsz & _ & Ew & Eh) Hg Hwf Hfit Hrgba]. rewrite Hg in Hfit.
  destruct (decodePicture_kept _ _ _ _ Hwf E) as [Hwf' Ho].
  pose proof (showing_outline w h j j' Hj Hwf' Ho) as Hj'. pose proof (sh_fits _ _ _ Hj') as Hfit'.
  rewrite (drawn_painted w h s) in Ef, Ec; [|done|done|apply Hwf|intros Ht; by apply pic_of_vectors|done
    |done|done|apply Hwf|intros Ht; by apply pic_of_vectors|done].
  exists j'. split; [done|]. split; [done|]. split; [done|]. split; [done|]. intros ->. rewrite <- Ef in Ec.
  intros x y k Hx Hy Hk. rewrite Ec. rewrite (sh_geo _ _ _ Hj') in Hfit'.
  pose proof (canvas_spec w h (forward j') (currentRGBA j) x y k Hsz Ew Eh
    (fits_shape _ _ _ (eq_sym (wf_shapes _ Hwf')) Hfit') (wf_forward _ Hwf') Hrgba Hx Hy ltac:(lia)) as Hc.
  cbn zeta in Hc. rewrite Hc. destruct (Z.eqb_spec k 3); [lia|].
  destruct (geometry_spec w h Hsz) as (_ & _ & _ & Hcw & _ & Hhw & _). by rewrite Hcw, Hhw.
Qed.

(** An intra picture does not depend on the last one. *)
Lemma paint_key w h im nm ref ref' s :
  sized_picture w h -> of_size w h s -> s_kind s = Key -> paint w h im nm ref s = paint w h im nm ref' s.
Proof.
  intros Hsz Hs Hk. destruct (geometry_spec w h Hsz) as (HW & HH & _). destruct (rows_fit w h s Hs) as (_ & Hc & Hl).
  set (W := mbWidth (new_geometry w h)) in *. set (H := mbHeight (new_geometry w h)) in *.
  assert (forall B x y, 0 < B -> 0 <= x < B * W -> 0 <= y < B * H ->
    is_intra (cell_at (rows s) (y / B) (x / B)) = true /\ length (items (cell_at (rows s) (y / B) (x / B))) = 6%nat) as Hcell.
  { intros B x y HB Hx Hy. assert (nth_mb (concat (rows s)) (y / B * W + x / B) = Some (cell_at (rows s) (y / B) (x / B))) as Hat.
    { apply cells_exist; [done|rewrite (os_count _ _ _ Hs)|]; (split; [apply Z.div_pos; lia|apply Z.div_lt_upper_bound; lia]). }
    unfold nth_mb in Hat. case_match; [|done]. pose proof (Forall_lookup_1 _ _ _ _ Hc Hat) as Hok.
    split; [apply (ck_kind _ _ _ Hok); by rewrite Hk|apply (ck_six _ _ _ Hok)]. }
  unfold paint. fold W H. f_equal; (apply tabulate_ext; [lia|intros x y Hx Hy]).
  - destruct (Hcell 16 x y) as [Hi H6]; [lia|done|done|]. pose proof (lum_block_range x y). apply painted_intra; [done|done|lia].
  - destruct (Hcell 8 x y) as [Hi H6]; [lia|done|done|]. by apply painted_intra.
  - destruct (Hcell 8 x y) as [Hi H6]; [lia|done|done|]. by apply painted_intra.
Qed.

(** The planes after some pictures. *)
Definition planes_after (w h : Z) (im nm : list Z) (ref : frame) (shots : list shot) : frame :=
  foldl (paint w h im nm) ref shots.

Lemma planes_after_key w h im nm ref ref' s shots :
  sized_picture w h -> of_size w h s -> s_kind s = Key ->
  planes_after w h im nm ref (s :: shots) = planes_after w h im nm ref' (s :: shots).
Proof. intros Hsz Hs Hk. unfold planes_after. cbn [foldl]. by rewrite (paint_key w h im nm ref ref'). Qed.

(** C5: a picture is decoded to what it says.  Take an intra picture or a predicted
    one of any size, with slices made of skipped macroblocks, macroblocks moved by
    half or full pixels, moved or unmoved macroblocks with coded blocks, and intra
    macroblocks, all with any coefficients and scales; encode it as MPEG-1 and put
    it anywhere in the buffer.  [decodePicture] returns, stands at the next start
    code, and the planes are those of [paint]: every pixel is the interpolated pixel
    of the last picture that the vector points at, plus the transformed coefficients
    of its block, clamped; or, in intra macroblocks, these alone.  The canvas shows
    them, and they are the reference for the next picture.  The last macroblock of
    a row must be a byte long at least. *)
Theorem coded_picture w h j fuel p ending s :
  showing w h j -> matrices_ok j -> of_size w h s -> enough w h fuel -> is_slice (Some ending) = false ->
  index (buffer j) = 8 * p -> 0 <= p -> holds (buffer j) p (enc s ending) ->
  p + Z.of_nat (length (enc s ending)) <= writePos (buffer j) ->
  exists j', decodePicture fuel false j = Some j' /\
    buffer j' = (buffer j) <| index := 8 * (p + Z.of_nat (length (enc s ending)) - 4) |> /\
    forward j' = paint w h (intraQuantMatrix j) (nonIntraQuantMatrix j) (forward j) s /\
    on_canvas w h (canvas j') (forward j').
Proof.
  intros Hj Hm Hs Hfuel He Hi Hp Hh Hw.
  destruct (shot_decoded w h j fuel p ending s false Hj Hm Hs Hfuel He Hi Hp Hh Hw) as (j' & E & _ & Eb & Ef & Ec).
  exists j'. split; [done|]. split; [done|]. split; [done|by apply Ec].
Qed.

(** A predicted picture with a macroblock of each kind. *)
Definition demo_shot : shot :=
  Shot (Delta 0 1) 1 65535 8
    [[Intra 8 [(100, [(0, 5); (2, -1)]); (20, []); (30, [(0, 200)]); (40, []); (50, []); (60, [])]; Skip;
      Coded 12 (Some (3, -5)) [[(0, 1)]; []; []; [(1, -2); (5, 40)]; []; [(0, -1)]]; Move (-2) 7]].

Lemma demo_shot_size : of_size 64 16 demo_shot.
Proof.
  split; [cbn; lia|cbn; lia| |reflexivity]. apply Forall_cons. split; [|constructor].
  split; [reflexivity| |discriminate|apply (bool_decide_eq_true_1 _); vm_compute; reflexivity].
  repeat (apply Forall_cons; split); try apply Forall_nil; try done;
    (split; [discriminate|cbn; lia|cbn; lia|reflexivity| |cbn; done]);
    repeat (apply Forall_cons; split); try apply Forall_nil; try done;
    (split; [unfold byte; lia|split; [repeat (apply Forall_cons; split); try apply Forall_nil; try done; unfold pair_ok; cbn; lia|cbn; lia]]).
Qed.

Definition shot_decoder (w h : Z) (s : shot) : jsmpeg :=
  (initBuffers w h new_jsmpeg) <| buffer := new_reader (enc s 0) |>.

Lemma demo_shot_showing : showing 64 16 (shot_decoder 64 16 demo_shot).
Proof.
  apply init_showing; [|split; [split; [decide_bytes|by vm_compute]|by vm_compute]|reflexivity|reflexivity|discriminate].
  split; [unfold sized_picture; lia|]. split; [lia|]. split; reflexivity.
Qed.

Lemma default_matrices : matrix_ok DEFAULT_INTRA_QUANT_MATRIX /\ matrix_ok DEFAULT_NON_INTRA_QUANT_MATRIX.
Proof. split; (split; [reflexivity|decide_bytes]). Qed.

Lemma coded_picture_witness :
  exists j', decodePicture 65 false (shot_decoder 64 16 demo_shot) = Some j' /\
    forward j' = paint 64 16 DEFAULT_INTRA_QUANT_MATRIX DEFAULT_NON_INTRA_QUANT_MATRIX
                   (forward (shot_decoder 64 16 demo_shot)) demo_shot /\
    on_canvas 64 16 (canvas j') (forward j').
Proof.
  destruct (coded_picture 64 16 (shot_decoder 64 16 demo_shot) 65 0 0 demo_shot demo_shot_showing) as (j' & E & _ & Ef & Ec).
  - exact default_matrices.
  - exact demo_shot_size.
  - split; [vm_compute; discriminate|split; [vm_compute; discriminate|lia]].
  - reflexivity.
  - reflexivity.
  - lia.
  - intros k x Hk. change (store (buffer (shot_decoder 64 16 demo_shot))) with (enc demo_shot 0).
    rewrite Z.add_0_l; unfold tget; zknown. rewrite Nat2Z.id. exact Hk.
  - vm_compute. discriminate.
  - exists j'. split; [exact E|]. split; [exact Ef|exact Ec].
Defined.

(** ** The end of a slice seen too early *)

(** Two macroblocks with the same vector: the second one takes six bits. *)
Definition short_last : shot := Shot (Delta 0 0) 1 65535 8 [[Move 1 2; Move 1 2]].

Definition short_decoder : jsmpeg :=
  (shot_decoder 32 16 short_last) <| forward := Frame (replicate 512 200) (replicate 128 128) (replicate 128 128) |>.

(** The six bits end in the byte where the first macroblock ends, so that the
    bytes behind it are a start code: the second macroblock is not decoded, and
    its place keeps what the plane held two pictures ago. *)
Lemma short_macroblock_lost :
  let pixels fr := (aget (fY fr) 0, aget (fY fr) 16) in
  (pixels ∘ forward) <$> decodePicture 2 false short_decoder = Some (200, 0) /\
  pixels (current short_decoder) = (0, 0) /\
  pixels (paint 32 16 DEFAULT_INTRA_QUANT_MATRIX DEFAULT_NON_INTRA_QUANT_MATRIX (forward short_decoder) short_last) = (200, 200).
Proof. vm_compute. repeat split; reflexivity. Qed.
