(* ===== verification/VMManager.v ===== *)
(** * The VM manager (VMManager/vm_manager.c)

    The server that receives start/create/delete/install requests from the
    web tier, keeps the table [android] of free base images and runs
    [command.sh].  [start_server_iter] is one turn of the accept loop of
    [start_server]; [command] is the function of that name; [step] is the
    family of server processes that the [fork] of [command] creates. *)

From S2P Require Import Prelude CString.

(** ** Data (VMManager/header/client_info.h)

    [id] and [ip] are [char *] into the receive buffer: positions, or NULL. *)
Record client_info := mk_client {
  ci_command : Z;        (* uint8_t *)
  ci_os_type : Z;        (* uint8_t *)
  ci_index : Z;          (* uint8_t *)
  ci_id : option nat;
  ci_ip : option nat;
  ci_connect_type : Z;   (* uint8_t *)
  ci_port_i : Z;         (* uint16_t *)
  ci_port_a : Z;         (* uint16_t *)
  ci_port_e : Z          (* uint16_t *)
}.

(** [main] marks all hundred base images as free. *)
Definition android_init : list Z := replicate 100 1.

(** ** Receiving a request *)

(** [read(client_fd, buffer, 500)]: at most 500 of the bytes that arrive
    overwrite the front of the buffer, which keeps what earlier requests left
    behind them. *)
Definition recv (buffer data : list Z) : list Z :=
  take 500 data ++ drop (length (take 500 data)) buffer.

(** [printf("%s\n", p)]. *)
Definition print_str (buf : list Z) (p : option nat) : outcome unit :=
  match p with
  | None => Crash
  | Some q => _ ← cstr_at buf q; Ok tt
  end.

Definition next_tok (buf : list Z) (sv : nat) : outcome (option nat * list Z * nat) :=
  strtok 32 buf sv.

(** The tokens of a request.  [g] is the freshly allocated, uninitialised
    [client_info]. *)
Definition parse_request (g : client_info) (buf : list Z) : outcome (client_info * list Z) :=
  _ ← cstr_at buf 0;
  '(t0, buf, sv) ← next_tok buf 0;
  cmd ← atoi_at buf t0;
  '(t1, buf, sv) ← next_tok buf sv;
  os ← atoi_at buf t1;
  '(t2, buf, sv) ← next_tok buf sv;
  idx ← atoi_at buf t2;
  '(t3, buf, sv) ← next_tok buf sv;
  _ ← print_str buf t3;
  if (u8 cmd =? 0) || (u8 cmd =? 3) then
    '(t4, buf, sv) ← next_tok buf sv;
    _ ← print_str buf t4;
    '(t5, buf, sv) ← next_tok buf sv;
    ct ← atoi_at buf t5;
    '(t6, buf, sv) ← next_tok buf sv;
    pi ← atoi_at buf t6;
    '(t7, buf, sv) ← next_tok buf sv;
    pa ← atoi_at buf t7;
    '(t8, buf, sv) ← next_tok buf sv;
    pe ← atoi_at buf t8;
    Ok (mk_client (u8 cmd) (u8 os) (u8 idx) t3 t4 (u8 ct) (u16 pi) (u16 pa) (u16 pe), buf)
  else
    Ok (mk_client (u8 cmd) (u8 os) (u8 idx) t3 (ci_ip g) (ci_connect_type g)
          (ci_port_i g) (ci_port_a g) (ci_port_e g), buf).

(** ** The table of Android base images *)

(** The loop [for (i = 0; i < 100; i++) if (android[i] == v) ... break;]. *)
Fixpoint scan_slot (v : Z) (l : list Z) : option nat :=
  match l with
  | [] => None
  | x :: l' => if x =? v then Some O else S <$> scan_slot v l'
  end.

Definition claim_slot (v w : Z) (android : list Z) : Z * list Z :=
  match scan_slot v android with
  | Some i => (Z.of_nat i, <[i := w]> android)
  | None => (0, android)
  end.

(** The choice of [index] at the top of [command]. *)
Definition select_image (cmd os : Z) (android : list Z) : Z * list Z :=
  if cmd =? 1 then (if os =? 0 then claim_slot 1 0 android else (0, android))
  else if cmd =? 2 then (if os =? 0 then claim_slot 0 1 android else (0, android))
  else (0, android).

(** ** command *)

(** [strcpy] into the uninitialised array [os]. *)
Definition strcpy (dst src : list Z) : list Z := src ++ 0 :: drop (S (length src)) dst.

Definition os_name (os_type : Z) (os : list Z) : list Z :=
  if os_type =? 0 then strcpy os (bytes "android")
  else if os_type =? 1 then strcpy os (bytes "tizen")
  else if os_type =? 2 then strcpy os (bytes "ubuntu")
  else if os_type =? 3 then strcpy os (bytes "windows7")
  else os.

Definition sp : list Z := [32].

(** The text of [client_data.dat]. *)
Definition client_data (c : client_info) : list Z :=
  dec (ci_os_type c) ++ sp ++ dec (ci_port_i c) ++ sp ++
  dec (ci_port_a c) ++ sp ++ dec (ci_port_e c).

(** The command line given to [system]. *)
Definition command_line (c : client_info) (id os : list Z) (index : Z) : list Z :=
  bytes "./command.sh " ++ dec (ci_command c) ++ sp ++ id ++ sp ++ os ++ sp ++
  dec (ci_index c) ++ sp ++ dec index.

Section Command.

(** The operating system: [chdir] on working directories, and the results of
    [fopen] and [fclose]. *)
Context {dir : Type} (chdir : dir -> list Z -> option dir).

Inductive event :=
| EWriteFile (d : dir) (name text : list Z)
| ESystem (d : dir) (cmd : list Z).

Record os_results := {
  fopen_ok : bool;
  fclose_ok : bool;
  fork_pid : Z          (* > 0 in the parent, 0 in the child, < 0 on failure *)
}.

(** The return value of [chdir] is ignored by the code. *)
Definition chdir_ign (d : dir) (path : list Z) : dir := default d (chdir d path).

(** [ret] is the value of an explicit [return]; the function otherwise runs
    off its end. *)
Record command_result := mk_result {
  cr_ret : option Z;
  cr_android : list Z;
  cr_cwd : dir;
  cr_events : list event
}.

Definition command (r : os_results) (os0 buf android : list Z) (cwd : dir)
    (c : client_info) : outcome command_result :=
  let '(index, android) := select_image (ci_command c) (ci_os_type c) android in
  let os := os_name (ci_os_type c) os0 in
  id ← match ci_id c with None => Crash | Some p => cstr_at buf p end;
  let finish cwd evs :=
    os_s ← cstr os;
    cmd ← sprintf_to 100 (command_line c id os_s index);
    Ok (mk_result None android cwd
          (evs ++ (if 0 <? fork_pid r then [ESystem cwd cmd] else []))) in
  if (ci_command c =? 0) || (ci_command c =? 3) then
    let cwd := chdir_ign cwd id in
    if negb (fopen_ok r) then Ok (mk_result (Some (-1)) android cwd [])
    else
      text ← sprintf_to 100 (client_data c);
      let evs := [EWriteFile cwd (bytes "client_data.dat") text] in
      if negb (fclose_ok r) then Ok (mk_result (Some (-1)) android cwd evs)
      else finish (chdir_ign cwd (bytes "..")) evs
  else finish cwd [].

(** ** The server process *)

Record server := mk_server {
  sv_buffer : list Z;     (* char buffer[500], zeroed once before the loop *)
  sv_android : list Z;
  sv_cwd : dir
}.

Definition server_init (cwd : dir) : server :=
  mk_server (replicate 500 0) android_init cwd.

(** One turn of the [while (1)] loop; [None] is a failed [accept]. *)
Definition start_server_iter (r : os_results) (g : client_info) (os0 : list Z)
    (conn : option (list Z)) (s : server) : outcome (server * list event) :=
  match conn with
  | None => Ok (s, [])
  | Some data =>
      '(c, buf) ← parse_request g (recv (sv_buffer s) data);
      res ← command r os0 buf (sv_android s) (sv_cwd s) c;
      Ok (mk_server buf (cr_android res) (cr_cwd res), cr_events res)
  end.

(** The processes that run the accept loop.  Serving a request that reaches
    the [fork] leaves two of them: the parent, which is inside [system] until
    the command ends ([busy]), and the child, which returns from [command]
    into the same loop. *)
Record process := mk_proc { pr_server : server; pr_busy : bool }.

Definition with_pid (r : os_results) (pid : Z) : os_results :=
  {| fopen_ok := fopen_ok r; fclose_ok := fclose_ok r; fork_pid := pid |}.

Inductive step : list process -> list event -> list process -> Prop :=
| step_serve ps1 ps2 s r g os0 data parent child evs evs' :
    start_server_iter (with_pid r 1) g os0 (Some data) s = Ok (parent, evs) ->
    start_server_iter (with_pid r 0) g os0 (Some data) s = Ok (child, evs') ->
    Exists (fun e => match e with ESystem _ _ => True | _ => False end) evs ->
    step (ps1 ++ mk_proc s false :: ps2) evs
         (ps1 ++ mk_proc parent true :: ps2 ++ [mk_proc child false])
| step_serve_nofork ps1 ps2 s r g os0 data s' evs :
    start_server_iter (with_pid r (-1)) g os0 (Some data) s = Ok (s', evs) ->
    step (ps1 ++ mk_proc s false :: ps2) evs (ps1 ++ mk_proc s' false :: ps2)
| step_system_done ps1 ps2 s :
    step (ps1 ++ mk_proc s true :: ps2) [] (ps1 ++ mk_proc s false :: ps2).

Inductive steps : list process -> list event -> list process -> Prop :=
| steps_refl ps : steps ps [] ps
| steps_step ps evs ps' evs' ps'' :
    step ps evs ps' -> steps ps' evs' ps'' -> steps ps (evs ++ evs') ps''.

End Command.

(** ** Requests and their parsing *)

(** The lines of LoadBalancer/util/SocketUtil.js: every field, the last one
    too, is followed by a space.  This is the line for a start or an install. *)
Definition start_request (cmd os idx : Z) (id ip : list Z) (ct pi pa pe : Z) : list Z :=
  dec cmd ++ 32 :: dec os ++ 32 :: dec idx ++ 32 :: id ++ 32 :: ip ++ 32 ::
  dec ct ++ 32 :: dec pi ++ 32 :: dec pa ++ 32 :: dec pe ++ [32].

(** The line for a create or a delete. *)
Definition image_request (cmd os idx : Z) (id : list Z) : list Z :=
  dec cmd ++ 32 :: dec os ++ 32 :: dec idx ++ 32 :: id ++ [32].

(** The prefix of a request up to its [id], as [strtok] leaves it. *)
Definition head_fields (cmd os idx : Z) : list Z :=
  ((([] ++ dec cmd ++ [0]) ++ dec os ++ [0]) ++ dec idx ++ [0]).

Definition token (s : list Z) : Prop := s <> [] /\ Forall (tok_byte 32) s.

(** Literal tokens. *)
Ltac solve_token :=
  split; [discriminate|];
  match goal with |- Forall ?P ?l => let l' := eval vm_compute in l in change (Forall P l') end;
  repeat (apply Forall_cons; split; [split; lia|]); apply Forall_nil; exact I.

Lemma print_str_field pre s post :
  Forall (tok_byte 32) s -> print_str (pre ++ s ++ 0 :: post) (Some (length pre)) = Ok tt.
Proof. intros Hs. unfold print_str. by rewrite cstr_at_field_later. Qed.

(** The receive buffer between requests: its size, and the NUL at its end
    that the [memset] put there and no shorter request overwrites. *)
Definition buffer_ok (b : list Z) : Prop := length b = 500%nat /\ b !! 499%nat = Some 0.

(** Replacing a front shorter than the buffer keeps it well formed. *)
Lemma buffer_ok_front b x n :
  buffer_ok b -> (n < 500)%nat -> length x = n -> buffer_ok (x ++ drop n b).
Proof.
  intros [Hl Hz] Hn Hx. split.
  - rewrite length_app, length_drop. lia.
  - rewrite lookup_app_r, lookup_drop, Hx by lia. by replace (n + (499 - n))%nat with 499%nat by lia.
Qed.

Lemma buffer_ok_cstr b : buffer_ok b -> exists s, cstr_at b 0 = Ok s.
Proof. intros [_ Hz]. apply cstr_total. by eapply list_elem_of_lookup_2. Qed.

(** The three numbers that start every request. *)
Lemma parse_head {B} (k : Z -> Z -> Z -> list Z -> nat -> outcome B) cmd os idx post :
  0 <= cmd < 256 -> 0 <= os < 256 -> 0 <= idx < 2147483648 ->
  ('(t0, buf, sv) ← next_tok (dec cmd ++ 32 :: dec os ++ 32 :: dec idx ++ 32 :: post) 0;
   a ← atoi_at buf t0;
   '(t1, buf, sv) ← next_tok buf sv;
   b ← atoi_at buf t1;
   '(t2, buf, sv) ← next_tok buf sv;
   c ← atoi_at buf t2; k a b c buf sv) =
  k cmd os idx (head_fields cmd os idx ++ post) (length (head_fields cmd os idx)).
Proof.
  intros. unfold next_tok, head_fields.
  pose proof (num_field (fun a buf sv =>
   '(t1, buf, sv) ← strtok 32 buf sv; b ← atoi_at buf t1;
   '(t2, buf, sv) ← strtok 32 buf sv; c ← atoi_at buf t2; k a b c buf sv)
    [] cmd (dec os ++ 32 :: dec idx ++ 32 :: post)) as Hf.
  cbn [app length] in Hf. rewrite Hf by lia.
  rewrite num_field by lia. rewrite num_field by lia. reflexivity.
Qed.

(** The fields of the whole request, as [strtok] leaves them. *)
Definition image_fields (cmd os idx : Z) (id : list Z) : list Z :=
  head_fields cmd os idx ++ id ++ [0].

Definition start_fields (cmd os idx : Z) (id ip : list Z) (ct pi pa pe : Z) : list Z :=
  ((((image_fields cmd os idx id ++ ip ++ [0]) ++ dec ct ++ [0]) ++ dec pi ++ [0]) ++
   dec pa ++ [0]) ++ dec pe ++ [0].

Lemma length_start_fields cmd os idx id ip ct pi pa pe :
  length (start_fields cmd os idx id ip ct pi pa pe) =
  length (start_request cmd os idx id ip ct pi pa pe).
Proof.
  unfold start_fields, image_fields, head_fields, start_request.
  repeat (rewrite length_app || cbn [length]). lia.
Qed.

(** The user id of a parsed request, wherever the parser has got to. *)
Lemma image_fields_id cmd os idx id rest :
  Forall (tok_byte 32) id ->
  cstr_at (image_fields cmd os idx id ++ rest) (length (head_fields cmd os idx)) = Ok id.
Proof. intros Hid. unfold image_fields. by apply cstr_at_field. Qed.

(** Parsing a start request: the record the code builds, whatever the buffer
    holds behind the request. *)
Lemma parse_start g cmd os idx id ip ct pi pa pe rest s :
  cmd = 0 \/ cmd = 3 -> 0 <= os < 256 -> 0 <= idx < 256 -> token id -> token ip ->
  0 <= ct < 256 -> 0 <= pi < 65536 -> 0 <= pa < 65536 -> 0 <= pe < 65536 ->
  cstr_at (start_request cmd os idx id ip ct pi pa pe ++ rest) 0 = Ok s ->
  parse_request g (start_request cmd os idx id ip ct pi pa pe ++ rest) =
    Ok (mk_client cmd os idx (Some (length (head_fields cmd os idx)))
          (Some (length (image_fields cmd os idx id))) ct pi pa pe,
        start_fields cmd os idx id ip ct pi pa pe ++ rest).
Proof.
  intros Hcmd Hos Hidx [Hid Hid'] [Hip Hip'] Hct Hpi Hpa Hpe Hs.
  unfold parse_request. rewrite Hs.
  unfold start_request. repeat (rewrite <- app_assoc; cbn [app]). cbn [mbind outcome_bind].
  rewrite parse_head by lia. unfold next_tok.
  rewrite str_field by done. unfold print_str. rewrite cstr_at_field by done.
  cbn [mbind outcome_bind]. rewrite u8_small by lia.
  replace ((cmd =? 0) || (cmd =? 3)) with true by (destruct Hcmd as [-> | ->]; done).
  rewrite str_field, cstr_at_field by done. cbn [mbind outcome_bind].
  rewrite !num_field by lia. by rewrite !u8_small, !u16_small by lia.
Qed.

(** Parsing a create or delete request: the unused fields keep the content
    of the uninitialised allocation. *)
Lemma parse_image g cmd os idx id rest s :
  0 <= cmd < 256 -> cmd <> 0 -> cmd <> 3 -> 0 <= os < 256 -> 0 <= idx < 2147483648 -> token id ->
  cstr_at (image_request cmd os idx id ++ rest) 0 = Ok s ->
  parse_request g (image_request cmd os idx id ++ rest) =
  Ok (mk_client cmd os (u8 idx) (Some (length (head_fields cmd os idx))) (ci_ip g)
        (ci_connect_type g) (ci_port_i g) (ci_port_a g) (ci_port_e g),
      image_fields cmd os idx id ++ rest).
Proof.
  intros Hcmd Hc0 Hc3 Hos Hidx [Hid Hid'] Hs.
  unfold parse_request. rewrite Hs.
  unfold image_request. repeat (rewrite <- app_assoc; cbn [app]). cbn [mbind outcome_bind].
  rewrite parse_head by lia. unfold next_tok.
  rewrite str_field by done. unfold print_str. rewrite cstr_at_field by done.
  cbn [mbind outcome_bind]. rewrite (u8_small cmd), (u8_small os) by lia.
  destruct (Z.eqb_spec cmd 0), (Z.eqb_spec cmd 3); try lia. done.
Qed.

(** ** The image table *)

Lemma scan_slot_Some v l i :
  scan_slot v l = Some i <-> l !! i = Some v /\ forall j, (j < i)%nat -> l !! j <> Some v.
Proof.
  revert i. induction l as [|x l IH]; intros i; simpl.
  { split; [discriminate|]. by intros [? _]. }
  destruct (Z.eqb_spec x v) as [->|Hx].
  - split.
    + intros [= <-]. split; [done|]. lia.
    + intros [Hi Hj]. destruct i as [|i]; [done|]. exfalso. apply (Hj O); [lia|done].
  - destruct i as [|i].
    + split; [by destruct (scan_slot v l)|]. intros [[= ->] _]. done.
    + rewrite fmap_Some. setoid_rewrite IH. split.
      * intros (i' & [Hi Hj] & [= ->]). split; [done|].
        intros [|j] Hlt; simpl; [congruence|]. apply Hj. lia.
      * intros [Hi Hj]. exists i. split; [|done]. split; [done|].
        intros j Hlt. apply (Hj (S j)). lia.
Qed.

Lemma scan_slot_None v l : scan_slot v l = None <-> v ∉ l.
Proof.
  induction l as [|x l IH]; simpl; [split; [by intros _ ?%elem_of_nil|done]|].
  rewrite not_elem_of_cons. destruct (Z.eqb_spec x v) as [->|Hx].
  - split; [discriminate|]. by intros [? _].
  - rewrite fmap_None, IH. intuition.
Qed.

(** The table a sequence of [n] create requests leaves, and the indices they
    were given. *)
Fixpoint create_run (n : nat) (android : list Z) : list Z * list Z :=
  match n with
  | O => ([], android)
  | S n' =>
      let '(i, a) := select_image 1 0 android in
      let '(ids, a') := create_run n' a in
      (i :: ids, a')
  end.

Lemma claim_slot_prefix v w n m :
  v <> w -> (0 < m)%nat ->
  claim_slot v w (replicate n w ++ replicate m v) =
  (Z.of_nat n, replicate (S n) w ++ replicate (m - 1) v).
Proof.
  intros Hvw Hm. unfold claim_slot.
  assert (scan_slot v (replicate n w ++ replicate m v) = Some n) as ->.
  { apply scan_slot_Some. split.
    - rewrite lookup_app_r, length_replicate, Nat.sub_diag by (rewrite length_replicate; lia).
      apply lookup_replicate. split; [done|lia].
    - intros j Hj. rewrite lookup_app_l by (rewrite length_replicate; lia).
      rewrite lookup_replicate_2 by lia. congruence. }
  f_equal. destruct m as [|m]; [lia|]. simpl. rewrite Nat.sub_0_r.
  rewrite insert_app_r_alt by (rewrite length_replicate; lia).
  rewrite length_replicate, Nat.sub_diag. simpl.
  clear Hm. induction n as [|n IHn]; simpl; [done|]. by rewrite IHn.
Qed.

Lemma select_create android : select_image 1 0 android = claim_slot 1 0 android.
Proof. done. Qed.

Lemma select_delete android : select_image 2 0 android = claim_slot 0 1 android.
Proof. done. Qed.

Lemma create_run_from k n :
  (k + n <= 100)%nat ->
  create_run n (replicate k 0 ++ replicate (100 - k) 1) =
  (Z.of_nat <$> seq k n, replicate (k + n) 0 ++ replicate (100 - (k + n)) 1).
Proof.
  revert k. induction n as [|n IH]; intros k Hk; simpl.
  { by rewrite Nat.add_0_r. }
  rewrite select_create, claim_slot_prefix by lia.
  replace (100 - k - 1)%nat with (100 - S k)%nat by lia.
  rewrite IH, Nat.add_succ_comm by lia. done.
Qed.

Lemma create_run_init n :
  (n <= 100)%nat ->
  create_run n android_init =
  (Z.of_nat <$> seq 0 n, replicate n 0 ++ replicate (100 - n) 1).
Proof. intros Hn. apply (create_run_from 0 n). lia. Qed.

Lemma claim_slot_full v w n : v <> w -> claim_slot v w (replicate n w) = (0, replicate n w).
Proof.
  intros Hvw. unfold claim_slot.
  replace (scan_slot v (replicate n w)) with (@None nat); [done|].
  symmetry. apply scan_slot_None. intros [? _]%elem_of_replicate. congruence.
Qed.

Lemma create_run_app a b l :
  create_run (a + b) l =
  (fst (create_run a l) ++ fst (create_run b (snd (create_run a l))),
   snd (create_run b (snd (create_run a l)))).
Proof.
  revert l. induction a as [|a IH]; intros l; simpl.
  - by destruct (create_run b l).
  - destruct (select_image 1 0 l) as [i l']. rewrite IH. by destruct (create_run a l').
Qed.

Lemma create_run_exhausted m k :
  fst (create_run m (replicate 100 0)) =
  (fun k => if (k <? 100)%nat then Z.of_nat k else 0) <$> seq (100 + k) m.
Proof.
  revert k. induction m as [|m IH]; intros k; [done|].
  cbn [create_run]. rewrite select_create, claim_slot_full by lia.
  rewrite (surjective_pairing (create_run m (replicate 100 0))), (IH (S k)).
  cbn [fst seq fmap list_fmap]. by rewrite Nat.add_succ_r.
Qed.

(** A claim finds the slot that is least among those it looks for, whatever
    the rest of the table holds. *)
Lemma claim_slot_least v w android i :
  android !! i = Some v -> (forall j, (j < i)%nat -> android !! j <> Some v) ->
  claim_slot v w android = (Z.of_nat i, <[i := w]> android).
Proof.
  intros Hi Hj. unfold claim_slot.
  by replace (scan_slot v android) with (Some i) by (symmetry; by apply scan_slot_Some).
Qed.

(** ** command *)

Lemma os_name_cstr os_type os0 :
  0 <= os_type <= 3 ->
  cstr (os_name os_type os0) =
  Ok (bytes (if os_type =? 0 then "android" else if os_type =? 1 then "tizen"
             else if os_type =? 2 then "ubuntu" else "windows7")).
Proof.
  intros Hos. unfold os_name, strcpy.
  assert (os_type = 0 \/ os_type = 1 \/ os_type = 2 \/ os_type = 3) as [->|[->|[->| ->]]]
    by lia; reflexivity.
Qed.

Definition os_text (os_type : Z) : list Z :=
  bytes (if os_type =? 0 then "android" else if os_type =? 1 then "tizen"
         else if os_type =? 2 then "ubuntu" else "windows7").

Lemma client_data_short c :
  0 <= ci_os_type c < 256 -> 0 <= ci_port_i c < 65536 -> 0 <= ci_port_a c < 65536 ->
  0 <= ci_port_e c < 65536 -> (length (client_data c) <= 21)%nat.
Proof.
  intros Ho Hi Ha He. unfold client_data, sp. rewrite !length_app.
  pose proof (dec_length 3 (ci_os_type c) ltac:(lia) ltac:(simpl; lia)).
  pose proof (dec_length 5 (ci_port_i c) ltac:(lia) ltac:(simpl; lia)).
  pose proof (dec_length 5 (ci_port_a c) ltac:(lia) ltac:(simpl; lia)).
  pose proof (dec_length 5 (ci_port_e c) ltac:(lia) ltac:(simpl; lia)).
  simpl. lia.
Qed.

Lemma client_data_fits c :
  0 <= ci_os_type c < 256 -> 0 <= ci_port_i c < 65536 -> 0 <= ci_port_a c < 65536 ->
  0 <= ci_port_e c < 65536 -> sprintf_to 100 (client_data c) = Ok (client_data c).
Proof.
  intros Ho Hi Ha He. pose proof (client_data_short c Ho Hi Ha He). unfold sprintf_to.
  destruct (Z.leb_spec (Z.of_nat (length (client_data c)) + 1) 100); [done|lia].
Qed.

(** A sufficient bound on the user id for the command line to fit its array:
    three decimal fields, the longest system name and the fixed text. *)
Lemma command_line_fits c id os index :
  0 <= ci_command c < 256 -> 0 <= os <= 3 -> 0 <= ci_index c < 256 -> 0 <= index < 100 ->
  (length id <= 66)%nat ->
  sprintf_to 100 (command_line c id (os_text os) index) = Ok (command_line c id (os_text os) index).
Proof.
  intros Hc Hos Hi Hx Hid. unfold sprintf_to, command_line, sp. rewrite !length_app.
  pose proof (dec_length 3 (ci_command c) ltac:(lia) ltac:(simpl; lia)).
  pose proof (dec_length 3 (ci_index c) ltac:(lia) ltac:(simpl; lia)).
  pose proof (dec_length 2 index ltac:(lia) ltac:(simpl; lia)).
  assert (length (os_text os) <= 8)%nat.
  { unfold os_text. zdecide; simpl; lia. }
  change (length (bytes "./command.sh ")) with 13%nat. cbn [length].
  match goal with |- (if ?a <=? ?b then _ else _) = _ => destruct (Z.leb_spec a b) end; [done|lia].
Qed.

(** ** Serving whole requests *)

Section Serving.
Context {dir : Type} (chdir : dir -> list Z -> option dir).

Lemma select_image_range cmd os android :
  (length android <= 100)%nat -> 0 <= fst (select_image cmd os android) < 100.
Proof.
  intros Hl. unfold select_image, claim_slot.
  assert (forall v i, scan_slot v android = Some i -> 0 <= Z.of_nat i < 100) as Hr.
  { intros v i [Hi _]%scan_slot_Some. apply lookup_lt_Some in Hi. lia. }
  zdecide; simpl; try lia; destruct (scan_slot _ android) eqn:E; simpl; eauto; lia.
Qed.

(** [command] on a create or delete: which command line is run, from which
    directory, and what becomes of the table. *)
Lemma command_image r os0 buf android cwd c id :
  ci_command c <> 0 -> ci_command c <> 3 -> 0 <= ci_command c < 256 ->
  0 <= ci_os_type c <= 3 -> 0 <= ci_index c < 256 -> (length android <= 100)%nat ->
  (exists p, ci_id c = Some p /\ cstr_at buf p = Ok id) -> (length id <= 66)%nat ->
  command chdir r os0 buf android cwd c =
  let '(i, a) := select_image (ci_command c) (ci_os_type c) android in
  Ok (mk_result None a cwd
        (if 0 <? fork_pid r then [ESystem cwd (command_line c id (os_text (ci_os_type c)) i)]
         else [])).
Proof.
  intros H0 H3 Hc Ho Hi Hl (p & Hp & Hid) Hlen. unfold command. rewrite Hp, Hid.
  pose proof (select_image_range (ci_command c) (ci_os_type c) android Hl) as Hr.
  destruct (select_image _ _ android) as [i a]. simpl in Hr.
  destruct (Z.eqb_spec (ci_command c) 0), (Z.eqb_spec (ci_command c) 3); try lia.
  cbn [orb mbind outcome_bind]. rewrite os_name_cstr by done. cbn [mbind outcome_bind].
  change (bytes _) with (os_text (ci_os_type c)). by rewrite command_line_fits.
Qed.

Lemma recv_short buffer data :
  (length data <= 500)%nat -> recv buffer data = data ++ drop (length data) buffer.
Proof. intros H. unfold recv. by rewrite take_ge. Qed.

(** A create or delete request through the loop body. *)
Lemma serve_image r g os0 s cmd os idx id :
  buffer_ok (sv_buffer s) -> (length (image_request cmd os idx id) < 500)%nat ->
  (length (sv_android s) <= 100)%nat ->
  0 <= cmd < 256 -> cmd <> 0 -> cmd <> 3 -> 0 <= os <= 3 -> 0 <= idx < 2147483648 ->
  token id -> (length id <= 66)%nat ->
  start_server_iter chdir r g os0 (Some (image_request cmd os idx id)) s =
  let '(i, a) := select_image cmd os (sv_android s) in
  Ok (mk_server (image_fields cmd os idx id ++
        drop (length (image_request cmd os idx id)) (sv_buffer s)) a (sv_cwd s),
      if 0 <? fork_pid r
      then [ESystem (sv_cwd s) (bytes "./command.sh " ++ dec cmd ++ sp ++ id ++ sp ++
                                os_text os ++ sp ++ dec (u8 idx) ++ sp ++ dec i)]
      else []).
Proof.
  intros Hb Hq Hl Hc H0 H3 Ho Hi Hid Hlen. unfold start_server_iter.
  rewrite recv_short by lia.
  destruct (buffer_ok_cstr _ (buffer_ok_front _ _ _ Hb Hq eq_refl)) as [str Hstr].
  erewrite parse_image by (done || lia). cbn [mbind outcome_bind].
  rewrite (command_image _ _ _ _ _ _ id); simpl; try (done || lia || apply u8_range).
  - by destruct (select_image cmd os (sv_android s)).
  - eexists. split; [done|]. apply image_fields_id. by destruct Hid.
Qed.

(** [command] on a start or install request. *)
Lemma command_start r os0 buf android cwd c id :
  ci_command c = 0 \/ ci_command c = 3 ->
  0 <= ci_os_type c <= 3 -> 0 <= ci_index c < 256 ->
  0 <= ci_port_i c < 65536 -> 0 <= ci_port_a c < 65536 -> 0 <= ci_port_e c < 65536 ->
  (exists p, ci_id c = Some p /\ cstr_at buf p = Ok id) -> (length id <= 66)%nat ->
  command chdir r os0 buf android cwd c =
  let d1 := chdir_ign chdir cwd id in
  let d2 := chdir_ign chdir d1 (bytes "..") in
  let file := EWriteFile d1 (bytes "client_data.dat") (client_data c) in
  if negb (fopen_ok r) then Ok (mk_result (Some (-1)) android d1 [])
  else if negb (fclose_ok r) then Ok (mk_result (Some (-1)) android d1 [file])
  else Ok (mk_result None android d2
        (file :: if 0 <? fork_pid r
                 then [ESystem d2 (command_line c id (os_text (ci_os_type c)) 0)] else [])).
Proof.
  intros Hcmd Ho Hi Hpi Hpa Hpe (p & Hp & Hid) Hlen. unfold command. rewrite Hp, Hid.
  replace (select_image (ci_command c) (ci_os_type c) android) with (0, android)
    by (unfold select_image; destruct Hcmd as [-> | ->]; done).
  replace ((ci_command c =? 0) || (ci_command c =? 3)) with true
    by (destruct Hcmd as [-> | ->]; done).
  cbn [mbind outcome_bind]. rewrite client_data_fits by lia. cbn [mbind outcome_bind].
  rewrite os_name_cstr by done. cbn [mbind outcome_bind].
  change (bytes (if ci_os_type c =? 0 then _ else _)) with (os_text (ci_os_type c)).
  rewrite command_line_fits by (destruct Hcmd; lia).
  by destruct (fopen_ok r), (fclose_ok r).
Qed.

End Serving.

(** ** Properties *)

(** A well-formed start request, from the socket to the events. *)
Lemma start_served {dir} (chdir : dir -> list Z -> option dir) r g os0 s d1
    cmd os idx id ip ct pi pa pe :
  cmd = 0 \/ cmd = 3 -> 0 <= os <= 3 -> 0 <= idx < 256 -> token id -> token ip ->
  0 <= ct < 256 -> 0 <= pi < 65536 -> 0 <= pa < 65536 -> 0 <= pe < 65536 ->
  (length id <= 66)%nat -> buffer_ok (sv_buffer s) ->
  (length (start_request cmd os idx id ip ct pi pa pe) < 500)%nat ->
  chdir (sv_cwd s) id = Some d1 -> chdir d1 (bytes "..") = Some (sv_cwd s) ->
  fopen_ok r = true -> fclose_ok r = true -> 0 < fork_pid r ->
  exists s',
    start_server_iter chdir r g os0 (Some (start_request cmd os idx id ip ct pi pa pe)) s =
    Ok (s', [EWriteFile d1 (bytes "client_data.dat")
               (dec os ++ sp ++ dec pi ++ sp ++ dec pa ++ sp ++ dec pe);
             ESystem (sv_cwd s)
               (bytes "./command.sh " ++ dec cmd ++ sp ++ id ++ sp ++ os_text os ++ sp ++
                dec idx ++ sp ++ dec 0)]) /\
    sv_android s' = sv_android s /\ sv_cwd s' = sv_cwd s /\ buffer_ok (sv_buffer s').
Proof.
  intros Hcmd Ho Hi Hid Hip Hct Hpi Hpa Hpe Hlen Hb Hq Hd1 Hd2 Hfo Hfc Hpid.
  unfold start_server_iter. rewrite recv_short by lia.
  destruct (buffer_ok_cstr _ (buffer_ok_front _ _ _ Hb Hq eq_refl)) as [str Hstr].
  erewrite parse_start by (done || lia). cbn [mbind outcome_bind].
  rewrite (command_start chdir r os0 _ _ _ _ id); simpl; try (done || lia).
  - unfold chdir_ign. rewrite Hfo, Hfc, Hd1. simpl in *. rewrite Hd2. simpl.
    destruct (Z.ltb_spec 0 (fork_pid r)); [|lia]. eexists. split; [reflexivity|].
    split; [done|]. split; [done|]. apply buffer_ok_front; auto using length_start_fields.
  - eexists. split; [done|]. unfold start_fields. rewrite <- !(app_assoc (image_fields _ _ _ _)).
    apply image_fields_id. by destruct Hid.
Qed.

(** C2: a well-formed start (or install) request is served as intended,
    whatever earlier requests left in the receive buffer.  The fields of the
    line reach the record, [client_data.dat] is written inside the user's
    directory with the operating system and the three ports, the script is run
    from the original directory with the user, system and image index of the
    request, the image table is untouched and the buffer stays well formed. *)
Theorem start_request_served {dir} (chdir : dir -> list Z -> option dir) r g os0 s d1
    cmd os idx id ip ct pi pa pe :
  cmd = 0 \/ cmd = 3 -> 0 <= os <= 3 -> 0 <= idx < 256 -> token id -> token ip ->
  0 <= ct < 256 -> 0 <= pi < 65536 -> 0 <= pa < 65536 -> 0 <= pe < 65536 ->
  (length id <= 66)%nat -> buffer_ok (sv_buffer s) ->
  (length (start_request cmd os idx id ip ct pi pa pe) < 500)%nat ->
  chdir (sv_cwd s) id = Some d1 -> chdir d1 (bytes "..") = Some (sv_cwd s) ->
  fopen_ok r = true -> fclose_ok r = true -> 0 < fork_pid r ->
  exists s',
    start_server_iter chdir r g os0 (Some (start_request cmd os idx id ip ct pi pa pe)) s =
    Ok (s', [EWriteFile d1 (bytes "client_data.dat")
               (dec os ++ sp ++ dec pi ++ sp ++ dec pa ++ sp ++ dec pe);
             ESystem (sv_cwd s)
               (bytes "./command.sh " ++ dec cmd ++ sp ++ id ++ sp ++ os_text os ++ sp ++
                dec idx ++ sp ++ dec 0)]) /\
    sv_android s' = sv_android s /\ sv_cwd s' = sv_cwd s /\ buffer_ok (sv_buffer s').
Proof. apply start_served. Qed.

Definition demo_chdir (d : nat) (path : list Z) : option nat :=
  if decide (path = bytes "..") then Some O else Some 1%nat.
Definition demo_os : os_results := {| fopen_ok := true; fclose_ok := true; fork_pid := 7 |}.
Definition demo_client : client_info := mk_client 9 9 9 None None 9 9 9 9.

Lemma server_init_buffer_ok {dir} (d : dir) : buffer_ok (sv_buffer (server_init d)).
Proof. split; reflexivity. Qed.

Lemma start_request_served_witness :
  exists s', start_server_iter demo_chdir demo_os demo_client []
    (Some (bytes "0 2 5 user 10.0.0.7 1 1 2 3 ")) (server_init O) =
  Ok (s', [EWriteFile 1%nat (bytes "client_data.dat") (bytes "2 1 2 3");
           ESystem O (bytes "./command.sh 0 user ubuntu 5 0")]) /\
  sv_android s' = android_init /\ sv_cwd s' = O /\ buffer_ok (sv_buffer s').
Proof.
  apply (start_request_served demo_chdir demo_os demo_client [] (server_init O) 1%nat
    0 2 5 (bytes "user") (bytes "10.0.0.7") 1 1 2 3);
    try (by left); try lia; try reflexivity; try (simpl; lia);
    try apply server_init_buffer_ok; try solve_token.
Defined.

(** Consecutive creates hand out the base images 0, 1, ..., 99 in order,
    each once; when all hundred are taken the code does not report it but
    hands out image 0 again. *)
Theorem create_images_in_order n :
  fst (create_run n android_init) =
  (fun k => if (k <? 100)%nat then Z.of_nat k else 0) <$> seq 0 n.
Proof.
  destruct (decide (n <= 100)%nat) as [Hn|Hn].
  - rewrite create_run_init by done. apply list_fmap_ext. intros i k [-> ?]%lookup_seq.
    destruct (Nat.ltb_spec (0 + i) 100); [done|lia].
  - replace n with (100 + (n - 100))%nat by lia.
    rewrite create_run_app, create_run_init, seq_app, fmap_app by lia. cbn [fst snd].
    f_equal. change (100 - 100)%nat with O. rewrite app_nil_r. apply (create_run_exhausted _ 0).
Qed.

(** A delete of an Android image releases the lowest image in use,
    whatever image the request names.  After [n] creates, deleting image [idx]
    of any user makes image 0 available again and the next create hands it
    out, although the VM that was given image 0 may still be using it. *)
Theorem delete_releases_lowest {dir} (chdir : dir -> list Z -> option dir) r g os0 s n idx id :
  (1 <= n <= 100)%nat -> sv_android s = snd (create_run n android_init) ->
  buffer_ok (sv_buffer s) -> (length (image_request 2 0 idx id) < 500)%nat ->
  0 <= idx < 256 -> token id -> (length id <= 66)%nat ->
  exists s' evs,
    start_server_iter chdir r g os0 (Some (image_request 2 0 idx id)) s = Ok (s', evs) /\
    sv_android s' = <[0%nat := 1]> (sv_android s) /\
    fst (select_image 1 0 (sv_android s')) = 0.
Proof.
  intros Hn Ha Hb Hq Hi Hid Hlen. rewrite create_run_init in Ha by lia.
  destruct n as [|n]; [lia|]. simpl in Ha.
  rewrite serve_image; try (done || lia);
    [|rewrite Ha; simpl; rewrite length_app, !length_replicate; lia].
  rewrite select_delete, Ha. do 2 eexists. split; [reflexivity|]. done.
Qed.

Lemma delete_releases_lowest_witness :
  exists s' evs,
    start_server_iter demo_chdir demo_os demo_client []
      (Some (image_request 2 0 7 (bytes "user")))
      (mk_server (replicate 500 0) (snd (create_run 9 android_init)) O) = Ok (s', evs) /\
    sv_android s' = <[0%nat := 1]> (snd (create_run 9 android_init)) /\
    fst (select_image 1 0 (sv_android s')) = 0.
Proof.
  apply (delete_releases_lowest demo_chdir demo_os demo_client []
    (mk_server (replicate 500 0) (snd (create_run 9 android_init)) O) 9 7 (bytes "user"));
    try lia; try reflexivity; try (simpl; lia); try solve_token; split; reflexivity.
Defined.

(** The only way a create or delete with a valid system code can go wrong
    in [command] is the unchecked [sprintf] into [char command[100]]: the array
    overflows exactly when the rendered line has a hundred characters or more,
    which the length of the user id alone decides. *)
Theorem command_overflow_iff {dir} (chdir : dir -> list Z -> option dir) r os0 buf android cwd c p id :
  ci_command c = 1 \/ ci_command c = 2 -> 0 <= ci_os_type c <= 3 ->
  ci_id c = Some p -> cstr_at buf p = Ok id ->
  command chdir r os0 buf android cwd c = Crash <->
  100 <= Z.of_nat (length (command_line c id (os_text (ci_os_type c))
                    (fst (select_image (ci_command c) (ci_os_type c) android)))).
Proof.
  intros Hc Ho Hp Hid. unfold command. rewrite Hp, Hid.
  destruct (select_image _ _ android) as [i a]. cbn [fst].
  replace ((ci_command c =? 0) || (ci_command c =? 3)) with false
    by (destruct Hc as [-> | ->]; done).
  cbn [mbind outcome_bind]. rewrite os_name_cstr by done. cbn [mbind outcome_bind].
  change (bytes (if ci_os_type c =? 0 then _ else _)) with (os_text (ci_os_type c)).
  unfold sprintf_to. destruct (Z.leb_spec (Z.of_nat (length (command_line c id
    (os_text (ci_os_type c)) i)) + 1) 100); split; (done || lia).
Qed.

Lemma command_overflow_iff_witness :
  command demo_chdir demo_os [] (replicate 70 97 ++ [0]) android_init O
    (mk_client 1 0 0 (Some O) None 0 0 0 0) = Crash <->
  100 <= Z.of_nat (length (command_line (mk_client 1 0 0 (Some O) None 0 0 0 0)
    (replicate 70 97) (os_text 0) (fst (select_image 1 0 android_init)))).
Proof.
  apply (command_overflow_iff demo_chdir demo_os [] (replicate 70 97 ++ [0]) android_init O
    (mk_client 1 0 0 (Some O) None 0 0 0 0) O (replicate 70 97)); try reflexivity.
  - by left.
  - simpl. lia.
Defined.

(** A connection that sends nothing crashes the server: before the first
    request [strtok] finds no token at all, and after a request the buffer
    holds its tokens, of which [strtok] finds the first and then the end. *)
Theorem empty_connection_crashes {dir} (chdir : dir -> list Z -> option dir) r g os0 s :
  sv_buffer s = replicate 500 0 \/
  (exists n rest, 0 <= n < 256 /\ sv_buffer s = dec n ++ 0 :: rest) ->
  start_server_iter chdir r g os0 (Some []) s = Crash.
Proof.
  intros [Hb|(n & rest & Hn & Hb)]; unfold start_server_iter, recv; cbn [app length drop take].
  - by rewrite Hb.
  - rewrite Hb. unfold parse_request, next_tok, cstr_at. rewrite !drop_0.
    rewrite cstr_app by eauto using tok_byte_nonzero, dec_tok_byte. cbn [mbind outcome_bind].
    pose proof (strtok_last 32 [] (dec n) rest (dec_nonempty n) (dec_tok_byte n)) as H1.
    cbn [app length Nat.add] in H1. rewrite H1. cbn [mbind outcome_bind].
    pose proof (cstr_at_field_later [] (dec n) rest (dec_tok_byte n)) as H2.
    cbn [app length] in H2. cbn [atoi_at]. rewrite H2. cbn [mbind outcome_bind]. by rewrite (strtok_end 32 (dec n) rest).
Qed.

Lemma empty_connection_crashes_witness :
  start_server_iter demo_chdir demo_os demo_client [] (Some []) (server_init O) = Crash.
Proof.
  apply (empty_connection_crashes demo_chdir demo_os demo_client [] (server_init O)).
  by left.
Defined.

(** The [fork] inside [command] leaves two servers with their own copies
    of the image table.  From the initial server there is a run in which two
    users are given the same Android base image. *)
Theorem forked_servers_share_image {dir} (chdir : dir -> list Z -> option dir) (d : dir) :
  exists ps,
    steps chdir [mk_proc (server_init d) false]
      [ESystem d (bytes "./command.sh 1 alice android 0 0");
       ESystem d (bytes "./command.sh 1 bobby android 0 1");
       ESystem d (bytes "./command.sh 1 carol android 0 1")] ps.
Proof.
  pose (r := {| fopen_ok := true; fclose_ok := true; fork_pid := 1 |}).
  eexists.
  eapply (steps_step _ _ [_]);
    [eapply (step_serve _ [] [] _ r demo_client [] (bytes "1 0 0 alice "));
     [vm_compute; reflexivity .. | by left] |].
  eapply (steps_step _ _ []); [eapply (step_system_done _ [])|].
  eapply (steps_step _ _ [_]);
    [eapply (step_serve _ [] _ _ r demo_client [] (bytes "1 0 0 bobby "));
     [vm_compute; reflexivity .. | by left] |].
  eapply (steps_step _ _ [_]);
    [eapply (step_serve _ [_] _ _ r demo_client [] (bytes "1 0 0 carol "));
     [vm_compute; reflexivity .. | by left] |].
  apply steps_refl.
Qed.

(** C40: the error paths of a start request.  When [client_data.dat] cannot be
    opened or closed the function returns -1 without running the script and
    leaves the server inside the user's directory; when the directory does not
    exist the closing [chdir("..")] leaves the server one level too high. *)
Theorem start_error_paths {dir} (chdir : dir -> list Z -> option dir) r os0 buf android cwd c p id :
  ci_command c = 0 \/ ci_command c = 3 ->
  0 <= ci_os_type c <= 3 -> 0 <= ci_index c < 256 ->
  0 <= ci_port_i c < 65536 -> 0 <= ci_port_a c < 65536 -> 0 <= ci_port_e c < 65536 ->
  ci_id c = Some p -> cstr_at buf p = Ok id -> (length id <= 66)%nat ->
  exists res, command chdir r os0 buf android cwd c = Ok res /\ cr_android res = android /\
    (fopen_ok r && fclose_ok r = false ->
       cr_ret res = Some (-1) /\ cr_cwd res = chdir_ign chdir cwd id /\
       forall d cmd, ESystem d cmd ∉ cr_events res) /\
    (fopen_ok r && fclose_ok r = true -> chdir cwd id = None ->
       cr_cwd res = chdir_ign chdir cwd (bytes "..")).
Proof.
  intros Hc Ho Hi Hpi Hpa Hpe Hp Hid Hlen.
  rewrite (command_start chdir r os0 buf android cwd c id) by eauto.
  destruct (fopen_ok r), (fclose_ok r); cbn [negb andb]; eexists; (split; [reflexivity|]);
    (split; [done|]); (split; [intros H; try discriminate H | intros H; try discriminate H]);
    cbn [cr_ret cr_cwd cr_events].
  - intros Hnone. unfold chdir_ign at 2. by rewrite Hnone.
  - split; [done|]. split; [done|]. intros d cmd [Heq|[]%elem_of_nil]%elem_of_cons. discriminate.
  - split; [done|]. split; [done|]. intros d cmd []%elem_of_nil.
  - split; [done|]. split; [done|]. intros d cmd []%elem_of_nil.
Qed.

Lemma start_error_paths_witness :
  exists res, command demo_chdir {| fopen_ok := false; fclose_ok := true; fork_pid := 1 |}
      [] (bytes "user" ++ [0]) android_init O (mk_client 0 2 5 (Some O) None 1 1 2 3) = Ok res /\
    cr_android res = android_init /\
    (false && true = false ->
       cr_ret res = Some (-1) /\ cr_cwd res = chdir_ign demo_chdir O (bytes "user") /\
       forall d cmd, ESystem d cmd ∉ cr_events res) /\
    (false && true = true -> demo_chdir O (bytes "user") = None ->
       cr_cwd res = chdir_ign demo_chdir O (bytes "..")).
Proof.
  apply (start_error_paths demo_chdir {| fopen_ok := false; fclose_ok := true; fork_pid := 1 |}
    [] (bytes "user" ++ [0]) android_init O (mk_client 0 2 5 (Some O) None 1 1 2 3) O (bytes "user"));
    try (simpl; lia); try reflexivity.
Defined.
