(* ===== verification/LoadBalancer.v ===== *)
(** * The load balancer (LoadBalancer/)

    The web application in front of the system: routes/select.js hands out
    the ports of the web server's workers and sends requests to the VM
    manager, util/Redis.js keeps the table of ports, model/ImageDAO.js and
    model/MemberDAO.js the users and their images, routes/member.js logs users
    in.

    Node.js runs one callback at a time.  A Redis command is sent, executed by
    the server, and answered; commands of one connection are executed in the
    order they were sent and answered in that order.  [lstep] interleaves the
    arrival of requests, the execution of commands, the callbacks, and the
    commands of other clients (the workers of the web server).  Redis stores
    strings; the client library turns [null] into ["null"], as the code
    expects. *)

From stdpp Require Import gmap.
From coqutil Require Import Datatypes.RecordSettersUsingExistingGetters.
From S2P Require Import Prelude CString Js.

Abbreviation hash := (gmap (list Z) (list Z)).

(** ** Requests to the VM manager (util/SocketUtil.js) *)

(** The text written when the connection is made. *)
Fixpoint socket_line (fields : list jsval) : outcome (list Z) :=
  match fields with
  | [] => Ok []
  | v :: fields => t ← toString v; l ← socket_line fields; Ok (t ++ bytes " " ++ l)
  end.

Definition getSocketStart (command ostype index id ip connectType imagePort audioPort eventPort : jsval) :=
  socket_line [command; ostype; index; id; ip; connectType; imagePort; audioPort; eventPort].
Definition getSocketInstall (command ostype index id ip connectType imagePort audioPort eventPort : jsval) :=
  socket_line [command; ostype; index; id; ip; connectType; imagePort; audioPort; eventPort].
Definition getSocketCreate (command ostype index id : jsval) := socket_line [command; ostype; index; id].
Definition getSocketDelete (command ostype index id : jsval) := socket_line [command; ostype; index; id].

(** ** Choosing a port (routes/select.js) *)

Definition getImageIndex (ImageVersion : jsval) : jsval :=
  if bool_decide (ImageVersion = JStr (bytes "androidx86")) then JNum 0
  else if bool_decide (ImageVersion = JStr (bytes "tizen")) then JNum 1
  else if bool_decide (ImageVersion = JStr (bytes "linux")) then JNum 2
  else if bool_decide (ImageVersion = JStr (bytes "window7")) then JNum 3
  else JUndefined.

Definition port_key (index : Z) : list Z := concat_js (JStr (bytes "port")) (JNum index).

(** [result['port' + index]]. *)
Definition field (h : hash) (index : Z) : jsval :=
  match h !! port_key index with Some v => JStr v | None => JUndefined end.

(** [for (index = 1; index <= 3; index++) if (test) break;]: the final index. *)
Fixpoint scan_ports (n : nat) (index : Z) (test : jsval -> bool) (h : hash) : Z :=
  match n with
  | O => index
  | S n' => if test (field h index) then index else scan_ports n' (index + 1) test h
  end.

Record request := mk_request {
  rq_id : nat;            (* the response object *)
  rq_install : bool;      (* requestInstallOS or requestStartOS *)
  rq_email : jsval;       (* req.session.MemberEmail *)
  rq_index : jsval;       (* req_Obj.Index *)
  rq_image : jsval;       (* req_Obj.ImageVersion *)
  rq_ip : jsval;          (* getIP(req).clientIp *)
  rq_port : jsval         (* req.session.port *)
}.

(** A callback waiting for the reply of a command. *)
Inductive cont :=
| KCheck1 (r : request)              (* checkOverLogin on sessionList1 *)
| KCheck2 (r : request)              (* checkOverLogin on sessionList2 *)
| KLoad (r : request)                (* getSessionList of LoadBalancer *)
| KSet (r : request) (index : Z)     (* setSession of LoadBalancer *)
| KInit.                             (* setSession of initRedis *)

Inductive cmd := HGetAll (category : list Z) | HSet (category key value : list Z).

Inductive reply := RHash (h : option hash) | RSet.

Inductive effect :=
| Respond (r : nat) (text : list Z)
| Connect (ip : list Z) (line : outcome (list Z)).

Record lb := mk_lb {
  redis : gmap (list Z) hash;
  commands : list (cmd * cont);
  replies : list (reply * cont);
  effects : list effect
}.

Definition sessionList1 : list Z := bytes "sessionList1".
Definition sessionList2 : list Z := bytes "sessionList2".
Definition android_Ip : list Z := bytes "211.189.20.198".
Definition another_Ip : list Z := bytes "211.189.20.198".

Definition issue (c : cmd) (k : cont) (s : lb) : lb := s <| commands ::= fun l => l ++ [(c, k)] |>.
Definition emit (e : effect) (s : lb) : lb := s <| effects ::= fun l => l ++ [e] |>.

Definition getSessionList (category : list Z) (k : cont) : lb -> lb := issue (HGetAll category) k.
Definition setSession (category key : list Z) (value : jsval) (k : cont) : lb -> lb :=
  issue (HSet category key (show value)) k.

Definition initRedis (s : lb) : lb :=
  fold_left (fun s index =>
    setSession sessionList2 (port_key index) JNull KInit
      (setSession sessionList1 (port_key index) JNull KInit s)) [1; 2; 3; 4; 5; 6; 7; 8] s.

(** The list a request takes its port from. *)
Definition own_list (r : request) : list Z := if rq_install r then sessionList2 else sessionList1.

Definition requestStartOS (r : request) (s : lb) : lb :=
  let ImageVersion := getImageIndex (rq_image r) in
  if loose_eq ImageVersion (JStr (bytes "androidx86")) then
    emit (Connect android_Ip (getSocketStart ImageVersion (rq_index r) (rq_email r) (rq_ip r) (JNum 1)
      (rq_port r) (rq_port r) (rq_port r) JUndefined)) s
  else getSessionList sessionList1 (KCheck1 r) s.

Definition requestInstallOS (r : request) (s : lb) : lb :=
  let ImageVersion := getImageIndex (rq_image r) in
  if loose_eq ImageVersion (JStr (bytes "androidx86")) then s
  else getSessionList sessionList1 (KCheck1 r) s.

(** The loop of [checkOverLogin] on the reply; reading a property of [null]
    throws. *)
Definition checkOverLogin (email : jsval) (result : option hash) : outcome bool :=
  match result with
  | None => Crash
  | Some h => Ok (negb (3 <? scan_ports 3 1 (fun v => loose_eq v email) h))
  end.

(** The callback given to [LoadBalancer]: [port] is [req.session.port]. *)
Definition grant_effects (r : request) (port : Z) : list effect :=
  let ImageVersion := getImageIndex (rq_image r) in
  [Connect another_Ip
     (if rq_install r
      then getSocketInstall (JNum 3) ImageVersion (rq_index r) (rq_email r) (rq_ip r)
             (JNum 0) (JNum port) (JNum port) (JNum port)
      else getSocketStart (JNum 0) ImageVersion (rq_index r) (rq_email r) (rq_ip r)
             (JNum 1) (JNum port) (JNum port) (JNum port));
   Respond (rq_id r) (bytes "http://211.189.20.76:3000" ++ bytes " " ++ dec port)].
Definition granted (r : request) (port : Z) (s : lb) : lb :=
  s <| effects ::= fun l => l ++ grant_effects r port |>.

(** The second check is issued, but its callback comes after [check] was
    tested. *)
Definition callback (rp : reply) (k : cont) (s : lb) : outcome lb :=
  match rp, k with
  | RHash result, KCheck1 r =>
      match checkOverLogin (rq_email r) result with
      | Crash => Crash
      | Ok true => Ok (emit (Respond (rq_id r) (bytes "dup")) s)
      | Ok false => Ok (getSessionList (own_list r) (KLoad r) (getSessionList sessionList2 (KCheck2 r) s))
      end
  | RHash result, KCheck2 r => _ ← checkOverLogin (rq_email r) result; Ok s
  | RHash result, KLoad r =>
      match result with
      | None => Crash
      | Some h =>
          let index := scan_ports 3 1 (fun v => loose_eq v (JStr (bytes "null"))) h in
          if index <=? 3 then Ok (setSession (own_list r) (port_key index) (rq_email r) (KSet r index) s)
          else Ok (emit (Respond (rq_id r) (bytes "full")) s)
      end
  | RSet, KSet r index => Ok (granted r index s)
  | _, _ => Ok s
  end.

(** Redis executes a command. *)
Definition hset (category key value : list Z) (d : gmap (list Z) hash) : gmap (list Z) hash :=
  <[category := <[key := value]> (default ∅ (d !! category))]> d.

Definition exec (c : cmd) (d : gmap (list Z) hash) : gmap (list Z) hash * reply :=
  match c with
  | HGetAll category => (d, RHash (d !! category))
  | HSet category key value => (hset category key value d, RSet)
  end.

Inductive label :=
| LRequest (r : request)                      (* a request arrives *)
| LExec                                       (* Redis executes the next command *)
| LReply                                      (* the next callback runs *)
| LFail                                       (* Redis refuses the next command *)
| LOther (category key value : list Z).       (* another client sets a field *)

Definition lstep (l : label) (s : lb) : outcome lb :=
  match l with
  | LRequest r => Ok (if rq_install r then requestInstallOS r s else requestStartOS r s)
  | LExec =>
      match commands s with
      | [] => Ok s
      | (c, k) :: cs =>
          let '(d, rp) := exec c (redis s) in
          Ok (s <| redis := d |> <| commands := cs |> <| replies ::= fun l => l ++ [(rp, k)] |>)
      end
  | LReply =>
      match replies s with
      | [] => Ok s
      | (rp, k) :: rs => callback rp k (s <| replies := rs |>)
      end
  | LFail => Ok (s <| commands ::= drop 1 |>)
  | LOther category key value => Ok (s <| redis ::= hset category key value |>)
  end.

Fixpoint lrun (ls : list label) (s : lb) : outcome lb :=
  match ls with [] => Ok s | l :: ls => s ← lstep l s; lrun ls s end.

(** ** One request at a time *)

(** The comparison with ["androidx86"] comes after the name was replaced by a
    number, so it never succeeds. *)
Lemma image_never_android v : loose_eq (getImageIndex v) (JStr (bytes "androidx86")) = false.
Proof. unfold getImageIndex. repeat case_bool_decide; vm_compute; reflexivity. Qed.

(** The answer to a request when the ports in use are [h1] (sessions that were
    started) and [own] (those of the list the request uses): the new list, and
    what is sent. *)
Definition assign (r : request) (h1 own : hash) : hash * list effect :=
  if scan_ports 3 1 (fun v => loose_eq v (rq_email r)) h1 <=? 3 then (own, [Respond (rq_id r) (bytes "dup")])
  else
    let index := scan_ports 3 1 (fun v => loose_eq v (JStr (bytes "null"))) own in
    if index <=? 3 then (<[port_key index := show (rq_email r)]> own, grant_effects r index)
    else (own, [Respond (rq_id r) (bytes "full")]).

(** A request that nothing interferes with: every command it sends is executed
    and answered.  Steps for commands it does not send do nothing. *)
Definition serve (r : request) : list label :=
  [LRequest r; LExec; LReply; LExec; LExec; LReply; LReply; LExec; LReply].

(** Nothing is under way, and both lists exist. *)
Record idle (h1 h2 : hash) (s : lb) : Prop := mk_idle {
  idle_commands : commands s = [];
  idle_replies : replies s = [];
  idle_list1 : redis s !! sessionList1 = Some h1;
  idle_list2 : redis s !! sessionList2 = Some h2
}.

Lemma lists_differ : sessionList1 <> sessionList2.
Proof. done. Qed.

(** The operations on an explicit state. *)
Lemma issue_mk c k d cs rs es : issue c k (mk_lb d cs rs es) = mk_lb d (cs ++ [(c, k)]) rs es.
Proof. done. Qed.
Lemma emit_mk e d cs rs es : emit e (mk_lb d cs rs es) = mk_lb d cs rs (es ++ [e]).
Proof. done. Qed.
Lemma granted_mk r p d cs rs es : granted r p (mk_lb d cs rs es) = mk_lb d cs rs (es ++ grant_effects r p).
Proof. done. Qed.
Lemma exec_mk c k d cs rs es :
  lstep LExec (mk_lb d ((c, k) :: cs) rs es) = Ok (mk_lb (exec c d).1 cs (rs ++ [((exec c d).2, k)]) es).
Proof. unfold lstep. cbn [commands redis]. by destruct (exec c d). Qed.
Lemma reply_mk rp k d cs rs es :
  lstep LReply (mk_lb d cs ((rp, k) :: rs) es) = callback rp k (mk_lb d cs rs es).
Proof. done. Qed.
Lemma exec_none d rs es : lstep LExec (mk_lb d [] rs es) = Ok (mk_lb d [] rs es).
Proof. done. Qed.
Lemma reply_none d cs es : lstep LReply (mk_lb d cs [] es) = Ok (mk_lb d cs [] es).
Proof. done. Qed.
Lemma lrun_cons l ls s : lrun (l :: ls) s = (s ← lstep l s; lrun ls s).
Proof. done. Qed.

Create Rewrite HintDb lb.
#[export] Hint Rewrite issue_mk emit_mk granted_mk exec_mk reply_mk exec_none reply_none : lb.

(** Runs the next label on an explicit state. *)
Ltac lb_step := rewrite lrun_cons; autorewrite with lb; cbn [exec fst snd app mbind outcome_bind].

Definition own_hash (r : request) (h1 h2 : hash) : hash := if rq_install r then h2 else h1.

Lemma own_lookup r h1 h2 s : idle h1 h2 s -> redis s !! own_list r = Some (own_hash r h1 h2).
Proof. intros []. unfold own_list, own_hash. by destruct (rq_install r). Qed.

Lemma own_hset r v d own :
  d !! own_list r = Some own -> hset (own_list r) (port_key v) (show (rq_email r)) d =
  <[own_list r := <[port_key v := show (rq_email r)]> own]> d.
Proof. intros E. unfold hset. by rewrite E. Qed.

(** Serving a request is [assign]. *)
Lemma serve_assign r h1 h2 s :
  idle h1 h2 s ->
  let '(own, es) := assign r h1 (own_hash r h1 h2) in
  lrun (serve r) s = Ok (mk_lb (<[own_list r := own]> (redis s)) [] [] (effects s ++ es)).
Proof.
  intros Hi. pose proof (own_lookup r _ _ _ Hi) as Ho. destruct Hi as [Hc Hr H1 H2].
  destruct s as [d cs rs es]. cbn [commands replies redis effects] in *. subst cs rs. unfold serve, assign.
  rewrite lrun_cons. cbn [lstep]. unfold requestInstallOS, requestStartOS, getSessionList.
  rewrite image_never_android. replace (if rq_install r then _ else _)
    with (mk_lb d [(HGetAll sessionList1, KCheck1 r)] [] es) by (by destruct (rq_install r)).
  cbn [mbind outcome_bind]. lb_step. lb_step. cbn [callback]. rewrite H1. cbn [checkOverLogin].
  rewrite Z.ltb_antisym, negb_involutive. destruct (_ <=? 3) eqn:E.
  { autorewrite with lb. cbn [mbind outcome_bind]. do 6 lb_step. cbn [lrun].
    by rewrite insert_id. }
  unfold getSessionList. autorewrite with lb. cbn [mbind outcome_bind app]. do 2 lb_step.
  lb_step. cbn [callback]. rewrite H2. cbn [checkOverLogin mbind outcome_bind].
  lb_step. cbn [callback]. rewrite Ho. destruct (scan_ports _ _ _ (own_hash _ _ _) <=? 3) eqn:E2.
  - unfold setSession. autorewrite with lb. cbn [mbind outcome_bind app]. do 2 lb_step.
    cbn [callback]. autorewrite with lb. cbn [mbind outcome_bind lrun]. by rewrite own_hset with (own := own_hash r h1 h2).
  - autorewrite with lb. cbn [mbind outcome_bind]. do 2 lb_step. cbn [lrun]. by rewrite insert_id.
Qed.

(** ** Ports belong to one user each *)

Lemma scan_ports_spec n i test h :
  let p := scan_ports n i test h in
  (p = i + Z.of_nat n /\ forall j, i <= j < i + Z.of_nat n -> test (field h j) = false) \/
  (i <= p < i + Z.of_nat n /\ test (field h p) = true /\ forall j, i <= j < p -> test (field h j) = false).
Proof.
  cbv zeta. revert i. induction n as [|n IH]; intros i; cbn [scan_ports].
  { left. split; [lia|]. intros j Hj. lia. }
  destruct (test (field h i)) eqn:E.
  { right. split; [lia|]. split; [done|]. intros j Hj. lia. }
  destruct (IH (i + 1)) as [[Hp Hj]|(Hp & Ht & Hj)].
  - left. split; [lia|]. intros j Hr. destruct (Z.eq_dec j i) as [->|]; [done|]. apply Hj. lia.
  - right. split; [lia|]. split; [done|]. intros j Hr. destruct (Z.eq_dec j i) as [->|]; [done|].
    apply Hj. lia.
Qed.

Lemma port_key_inj i j : 1 <= i <= 3 -> 1 <= j <= 3 -> port_key i = port_key j -> i = j.
Proof.
  intros Hi Hj. assert (i = 1 \/ i = 2 \/ i = 3) as Ci by lia. assert (j = 1 \/ j = 2 \/ j = 3) as Cj by lia.
  by destruct Ci as [-> | [-> | ->]], Cj as [-> | [-> | ->]].
Qed.

(** Port [i] is in the hands of [e]. *)
Definition holds (h : hash) (i : Z) (e : list Z) : Prop := h !! port_key i = Some e.

(** Every port has an entry, and no user has two. *)
Definition fair (h : hash) : Prop :=
  forall i, 1 <= i <= 3 -> exists e, holds h i e /\
    forall j, 1 <= j <= 3 -> holds h j e -> e <> bytes "null" -> j = i.

Definition answered (es : list effect) : list nat :=
  omap (fun e => match e with Respond r _ => Some r | _ => None end) es.

Lemma field_holds h i e : holds h i e -> field h i = JStr e.
Proof. unfold holds, field. by intros ->. Qed.

Lemma holds_insert h i j e v :
  1 <= i <= 3 -> 1 <= j <= 3 -> holds (<[port_key i := v]> h) j e <-> (i = j /\ v = e) \/ (i <> j /\ holds h j e).
Proof.
  intros Hi Hj. unfold holds. rewrite lookup_insert_Some. split.
  - intros [[E <-]|[E H]]; [left|right]; (split; [|done]); [by apply port_key_inj|congruence].
  - intros [[-> ->]|[Hne H]]; [by left|right]. split; [|done]. intros E. by apply Hne, port_key_inj.
Qed.

(** One start request keeps the list fair, takes no port away from its user,
    and is answered once. *)
Lemma assign_fair r h e :
  fair h -> rq_email r = JStr e -> e <> bytes "null" ->
  let '(h', es) := assign r h h in
  fair h' /\ answered es = [rq_id r] /\
  (forall i v, 1 <= i <= 3 -> holds h i v -> v <> bytes "null" -> holds h' i v).
Proof.
  intros Hf He Hn. unfold assign. rewrite He.
  pose proof (scan_ports_spec 3 1 (fun v => loose_eq v (JStr e)) h) as Hdup.
  set (dup := scan_ports 3 1 _ h) in *. cbv zeta in Hdup |- *. destruct Hdup as [[Ep Hj]|(Hp & _)].
  2: { destruct (Z.leb_spec dup 3); [done|lia]. }
  destruct (Z.leb_spec dup 3) as [|_]; [lia|]. clearbody dup.
  destruct (scan_ports_spec 3 1 (fun v => loose_eq v (JStr (bytes "null"))) h) as [[Eq _]|(Hq & Ht & _)];
    set (q := scan_ports 3 1 _ h) in *; clearbody q.
  { destruct (Z.leb_spec q 3); [lia|done]. }
  destruct (Z.leb_spec q 3); [|lia]. split; [|split; [done|]].
  - intros i Hi. destruct (decide (q = i)) as [->|Hne].
    + exists e. split; [apply holds_insert; [lia|done|by left]|].
      intros j Hr Hh _. apply holds_insert in Hh as [[-> _]|[Hne Hh]]; [done| |lia|done].
      specialize (Hj j ltac:(lia)). rewrite (field_holds _ _ _ Hh), loose_eq_str in Hj.
      by rewrite bool_decide_eq_false in Hj.
    + destruct (Hf i Hi) as (v & Hv & Hu). exists v. split; [apply holds_insert; [lia|done|by right]|].
      intros j Hr Hh Hvn. apply holds_insert in Hh as [[-> <-]|[Hne' Hh]]; [| |lia|done].
      * specialize (Hj i ltac:(lia)). rewrite (field_holds _ _ _ Hv), loose_eq_str in Hj.
        by rewrite bool_decide_eq_false in Hj.
      * by apply Hu.
  - intros i v Hi Hh Hv. apply holds_insert; [lia|done|]. right. split; [|done]. intros ->.
    rewrite (field_holds _ _ _ Hh), loose_eq_str in Ht. by apply bool_decide_eq_true in Ht.
Qed.

(** A start request of a logged-in user. *)
Definition start_of_user (r : request) : Prop :=
  rq_install r = false /\ exists e, rq_email r = JStr e /\ e <> bytes "null".

Lemma lrun_app ls1 ls2 s : lrun (ls1 ++ ls2) s = (s' ← lrun ls1 s; lrun ls2 s').
Proof.
  revert s. induction ls1 as [|l ls1 IH]; intros s; [done|]. cbn [app lrun].
  destruct (lstep l s); cbn [mbind outcome_bind]; [apply IH|done].
Qed.

(** C8: one port per user, and no port for two.  When start requests are
    served one after the other, every request gets exactly one answer, every
    port that was handed out stays with its user, and no user has two. *)
Theorem ports_exclusive rs h1 h2 s :
  Forall start_of_user rs -> idle h1 h2 s -> fair h1 ->
  exists h1' es s', lrun (rs ≫= serve) s = Ok s' /\ idle h1' h2 s' /\ fair h1' /\
    effects s' = effects s ++ es /\ answered es = rq_id <$> rs /\
    forall i v, 1 <= i <= 3 -> holds h1 i v -> v <> bytes "null" -> holds h1' i v.
Proof.
  intros Hrs. revert h1 s. induction Hrs as [|r rs (Hin & e & He & Hn) _ IH]; intros h1 s Hi Hf.
  { exists h1, [], s. rewrite app_nil_r. done. }
  pose proof (serve_assign r h1 h2 s Hi) as Hs. pose proof (assign_fair r h1 e Hf He Hn) as Ha.
  unfold own_hash, own_list in Hs. rewrite Hin in Hs. destruct (assign r h1 h1) as [h es].
  destruct Ha as (Hf' & Hans & Hkeep).
  set (s1 := mk_lb _ [] [] _) in Hs. assert (idle h h2 s1) as Hi1.
  { constructor; try done; cbn [s1 redis]; [apply lookup_insert_eq|].
    rewrite lookup_insert_ne by apply lists_differ. apply Hi. }
  destruct (IH h s1 Hi1 Hf') as (h' & es' & s' & Hrun & Hi' & Hf'' & Heff & Hans' & Hkeep').
  exists h', (es ++ es'), s'. cbn [mbind list_bind]. rewrite lrun_app, Hs. cbn [mbind outcome_bind].
  split; [done|]. split; [done|]. split; [done|]. split; [rewrite Heff; cbn; by rewrite app_assoc|].
  split; [|auto]. unfold answered in *. rewrite omap_app, Hans, Hans'. done.
Qed.

(** ** The application after start-up *)

Definition all_null : hash :=
  list_to_map ((fun i => (port_key i, bytes "null")) <$> [1; 2; 3; 4; 5; 6; 7; 8]).

Definition lb_start : lb := mk_lb {[sessionList1 := all_null; sessionList2 := all_null]} [] [] [].

Lemma init_lb_start :
  lrun (replicate 16 LExec ++ replicate 16 LReply) (initRedis (mk_lb ∅ [] [] [])) = Ok lb_start.
Proof. vm_compute. reflexivity. Qed.

Lemma idle_start : idle all_null all_null lb_start.
Proof. by constructor. Qed.

Lemma fair_start : fair all_null.
Proof.
  intros i Hi. exists (bytes "null"). split; [|done].
  assert (i = 1 \/ i = 2 \/ i = 3) as [-> | [-> | ->]] by lia; vm_compute; reflexivity.
Qed.

Definition demo_user (n : nat) (email : String.string) (install : bool) : request :=
  mk_request n install (JStr (bytes email)) (JStr (bytes "4")) (JStr (bytes "linux"))
    (JStr (bytes "10.0.0.9")) JUndefined.

Lemma ports_exclusive_witness :
  exists h1' es s', lrun ([demo_user 1 "ann" false; demo_user 2 "bob" false; demo_user 3 "ann" false] ≫= serve)
      lb_start = Ok s' /\ idle h1' all_null s' /\ fair h1' /\
    effects s' = effects lb_start ++ es /\ answered es = [1; 2; 3]%nat /\
    forall i v, 1 <= i <= 3 -> holds all_null i v -> v <> bytes "null" -> holds h1' i v.
Proof.
  apply (ports_exclusive [demo_user 1 "ann" false; demo_user 2 "bob" false; demo_user 3 "ann" false]
    all_null all_null lb_start).
  - repeat constructor; eexists; by split.
  - apply idle_start.
  - apply fair_start.
Defined.

(** ** What interleaving breaks *)

(** Two users are given the same port when their requests overlap.  The
    list is read, searched and written in separate steps; between the read
    and the write of one request the other one reads the same list. *)
Theorem overlapping_starts_share_port :
  let a := demo_user 1 "ann" false in
  let b := demo_user 2 "bob" false in
  exists s h, lrun [LRequest a; LRequest b; LExec; LExec; LReply; LReply; LExec; LExec; LExec; LExec;
                    LReply; LReply; LReply; LReply; LExec; LExec; LReply; LReply] lb_start = Ok s /\
    effects s = grant_effects a 1 ++ grant_effects b 1 /\ idle h all_null s /\ holds h 1 (bytes "bob").
Proof.
  cbv zeta. eexists _, _. split; [vm_compute; reflexivity|]. split; [vm_compute; reflexivity|].
  split; [constructor; try reflexivity; vm_compute; reflexivity|]. vm_compute. reflexivity.
Qed.

(** ** Ports of started sessions *)

(** A command that would free a port of [sessionList1]. *)
Definition frees (c : cmd) : bool :=
  match c with
  | HSet category _ value => bool_decide (category = sessionList1) && bool_decide (value = bytes "null")
  | HGetAll _ => false
  end.

Definition label_keeps (l : label) : Prop :=
  match l with
  | LRequest r => show (rq_email r) <> bytes "null"
  | LOther category _ _ => category <> sessionList1
  | _ => True
  end.

Definition cont_keeps (k : cont) : Prop :=
  match k with
  | KCheck1 r | KCheck2 r | KLoad r | KSet r _ => show (rq_email r) <> bytes "null"
  | KInit => True
  end.

(** No command under way frees a port, and none will be issued. *)
Definition keeping (s : lb) : Prop :=
  Forall (fun '(c, k) => frees c = false /\ cont_keeps k) (commands s) /\
  Forall (fun '(_, k) => cont_keeps k) (replies s).

(** Port [i] of [sessionList1] is in use. *)
Definition in_use (i : Z) (s : lb) : Prop :=
  exists h e, redis s !! sessionList1 = Some h /\ holds h i e /\ e <> bytes "null".

Lemma hset_in_use category key value i d h e :
  frees (HSet category key value) = false ->
  d !! sessionList1 = Some h -> holds h i e -> e <> bytes "null" ->
  exists h' e', hset category key value d !! sessionList1 = Some h' /\ holds h' i e' /\ e' <> bytes "null".
Proof.
  intros Hf Hd Hh He. unfold hset. destruct (decide (category = sessionList1)) as [->|Hne].
  - rewrite Hd. cbn [default]. rewrite lookup_insert_eq. cbn [frees] in Hf.
    rewrite bool_decide_true in Hf by done. cbn [andb] in Hf. apply bool_decide_eq_false in Hf.
    unfold holds. destruct (decide (key = port_key i)) as [->|Hk].
    + eexists _, value. split; [done|]. split; [apply lookup_insert_eq|done].
    + eexists _, e. split; [done|]. split; [by rewrite lookup_insert_ne|done].
  - rewrite lookup_insert_ne by done. eauto.
Qed.

Lemma keeping_issue c k s : keeping s -> frees c = false -> cont_keeps k -> keeping (issue c k s).
Proof. intros [Hc Hr] Hf Hk. split; [|done]. apply Forall_app. split; [done|]. by repeat constructor. Qed.

Lemma frees_show category key v :
  show v <> bytes "null" -> frees (HSet category key (show v)) = false.
Proof. intros Hv. cbn [frees]. rewrite (bool_decide_false (show v = _)) by done. apply andb_false_r. Qed.

Lemma callback_keeping rp k s s' :
  callback rp k s = Ok s' -> keeping s -> cont_keeps k -> keeping s' /\ redis s' = redis s.
Proof.
  intros Hcb Hs Hk. destruct rp as [res|], k as [r|r|r|r p|]; cbn [callback] in Hcb; cbn [cont_keeps] in Hk;
    try (injection Hcb as <-; done).
  - destruct (checkOverLogin _ res) as [[]|]; [| |done]; injection Hcb as <-; [done|].
    split; [|done]. apply keeping_issue; [|done|done]. by apply keeping_issue.
  - destruct (checkOverLogin _ res); [|done]. injection Hcb as <-. done.
  - destruct res as [h|]; [|done]. destruct (_ <=? 3); injection Hcb as <-; [|done].
    split; [|done]. apply keeping_issue; [done|by apply frees_show|done].
Qed.

Lemma step_in_use l s s' i :
  lstep l s = Ok s' -> label_keeps l -> keeping s -> in_use i s -> keeping s' /\ in_use i s'.
Proof.
  intros Hl Hlk Hs Hu. pose proof Hs as [Hc Hr]. pose proof Hu as (h & e & Hd & Hh & He).
  destruct l as [r| | | |category key value]; cbn [lstep] in Hl.
  - injection Hl as <-. unfold requestInstallOS, requestStartOS. rewrite image_never_android.
    destruct (rq_install r); (split; [by apply keeping_issue|done]).
  - destruct (commands s) as [|[c k] cs]; [by injection Hl as <-|].
    apply Forall_cons in Hc as [[Hf Hk] Hcs].
    destruct c as [cat|cat key v]; cbn [exec] in Hl; injection Hl as <-.
    + split; [split; [done|]|done]. apply Forall_app. split; [done|]. by repeat constructor.
    + split; [split; [done|]|]. { apply Forall_app. split; [done|]. by repeat constructor. }
      by apply (hset_in_use _ _ _ i _ h e).
  - destruct (replies s) as [|[rp k] rs] eqn:Er; [by injection Hl as <-|].
    apply Forall_cons in Hr as [Hk Hrs].
    destruct (callback_keeping _ _ _ _ Hl) as [Hs' Hd']; [by split|done|].
    split; [done|]. exists h, e. by rewrite Hd'.
  - injection Hl as <-. split; [split; [|done]|done]. by apply Forall_drop.
  - injection Hl as <-. split; [done|]. apply (hset_in_use _ _ _ i _ h e); try done.
    cbn [frees]. by rewrite bool_decide_false.
Qed.

Lemma run_in_use ls s s' i :
  keeping s -> Forall label_keeps ls -> lrun ls s = Ok s' -> in_use i s -> in_use i s'.
Proof.
  intros Hs Hls. revert s Hs. induction Hls as [|l ls Hl _ IH]; intros s Hs Hrun Hu; cbn [lrun] in Hrun.
  { by injection Hrun as <-. }
  destruct (lstep l s) as [s1|] eqn:E; [|done]. cbn [mbind outcome_bind] in Hrun.
  destruct (step_in_use _ _ _ i E Hl Hs Hu) as [Hs1 Hu1]. by apply (IH s1).
Qed.

(** *** No start is granted *)

(** All three ports of a reply are taken. *)
Definition all_taken (h : hash) : Prop :=
  forall i, 1 <= i <= 3 -> exists e, holds h i e /\ e <> bytes "null".

(** A start request under way has not been given a port, and will read a list
    without a free one. *)
Definition cmd_waits (ck : cmd * cont) : Prop :=
  match snd ck with
  | KSet r _ => rq_install r = true
  | KLoad r => rq_install r = true \/ fst ck = HGetAll sessionList1
  | _ => True
  end.

Definition reply_waits (rk : reply * cont) : Prop :=
  match snd rk with
  | KSet r _ => rq_install r = true
  | KLoad r => rq_install r = true \/ exists h, fst rk = RHash (Some h) /\ all_taken h
  | _ => True
  end.

Definition waits (s : lb) : Prop := Forall cmd_waits (commands s) /\ Forall reply_waits (replies s).

(** A start line sent to the VM manager: command 0. *)
Definition starts_vm (e : effect) : bool :=
  match e with Connect _ (Ok l) => bool_decide (take 2 l = bytes "0 ") | _ => false end.

Definition no_start (es : list effect) : Prop := Forall (fun e => starts_vm e = false) es.

Lemma install_no_start r p : rq_install r = true -> no_start (grant_effects r p).
Proof.
  intros Hin. unfold grant_effects. rewrite Hin. repeat constructor. cbn [starts_vm].
  unfold getSocketInstall. cbn [socket_line]. destruct (toString (JNum 3)) as [t|] eqn:E; [|done].
  injection E as <-. cbn [mbind outcome_bind]. by destruct (toString _ ≫= _).
Qed.

Lemma scan_taken h :
  all_taken h -> (scan_ports 3 1 (fun v => loose_eq v (JStr (bytes "null"))) h <=? 3) = false.
Proof.
  intros Hall. destruct (scan_ports_spec 3 1 (fun v => loose_eq v (JStr (bytes "null"))) h)
    as [[Eq _]|(Hq & Ht & _)]; set (q := scan_ports 3 1 _ h) in *; clearbody q.
  { destruct (Z.leb_spec q 3); [lia|done]. }
  exfalso. destruct (Hall q) as (e & He & Hne); [lia|].
  rewrite (field_holds _ _ _ He), loose_eq_str in Ht. by apply bool_decide_eq_true in Ht.
Qed.

Lemma waits_issue c k s : waits s -> cmd_waits (c, k) -> waits (issue c k s).
Proof. intros [Hc Hr] Hk. split; [|done]. apply Forall_app. split; [done|]. by repeat constructor. Qed.

Lemma callback_waits rp k s s' :
  callback rp k s = Ok s' -> waits s -> reply_waits (rp, k) ->
  waits s' /\ exists es, effects s' = effects s ++ es /\ no_start es.
Proof.
  intros Hcb Hs Hk.
  assert (forall t : lb, waits t -> effects t = effects s ->
    waits t /\ exists es, effects t = effects s ++ es /\ no_start es) as Hsame.
  { intros t Ht He. split; [done|]. exists []. rewrite app_nil_r. by repeat constructor. }
  assert (forall r t, waits (emit (Respond (rq_id r) t) s) /\
    exists es, effects (emit (Respond (rq_id r) t) s) = effects s ++ es /\ no_start es) as Hanswer.
  { intros r t. split; [done|]. eexists. split; [reflexivity|]. by repeat constructor. }
  destruct rp as [res|], k as [r|r|r|r p|]; cbn [callback] in Hcb; unfold reply_waits in Hk; cbn [fst snd] in Hk;
    try (injection Hcb as <-; auto; fail).
  - destruct (checkOverLogin _ res) as [[]|]; [| |done]; injection Hcb as <-; [apply Hanswer|].
    apply Hsame; [|done]. apply waits_issue; [by apply waits_issue|].
    unfold cmd_waits, own_list. cbn [fst snd]. destruct (rq_install r); [by left|by right].
  - destruct (checkOverLogin _ res); [|done]. injection Hcb as <-. auto.
  - destruct res as [h|]; [|done]. destruct Hk as [Hin|(h' & [= <-] & Hall)].
    + destruct (_ <=? 3); injection Hcb as <-; [|apply Hanswer].
      apply Hsame; [|done]. by apply waits_issue.
    + rewrite scan_taken in Hcb by done. injection Hcb as <-. apply Hanswer.
  - injection Hcb as <-. split; [done|]. eexists. split; [reflexivity|]. by apply install_no_start.
Qed.

Lemma step_waits l s s' :
  lstep l s = Ok s' -> (forall i, 1 <= i <= 3 -> in_use i s) -> waits s ->
  waits s' /\ exists es, effects s' = effects s ++ es /\ no_start es.
Proof.
  intros Hl Hu Hs. pose proof Hs as [Hc Hr].
  assert (forall t : lb, waits t -> effects t = effects s ->
    waits t /\ exists es, effects t = effects s ++ es /\ no_start es) as Hsame.
  { intros t Ht He. split; [done|]. exists []. rewrite app_nil_r. by repeat constructor. }
  destruct l as [r| | | |category key value]; cbn [lstep] in Hl.
  - injection Hl as <-. unfold requestInstallOS, requestStartOS. rewrite image_never_android.
    destruct (rq_install r); (apply Hsame; [by apply waits_issue|done]).
  - destruct (commands s) as [|[c k] cs]; [injection Hl as <-; auto|].
    apply Forall_cons in Hc as [Hk Hcs].
    destruct (exec c (redis s)) as [d rp] eqn:E. injection Hl as <-. apply Hsame; [|done].
    split; [done|]. apply Forall_app. split; [done|]. repeat constructor.
    unfold reply_waits, cmd_waits in *. cbn [fst snd] in *. destruct k as [| |r|r p|]; try done.
    destruct Hk as [?| ->]; [by left|]. injection E as <- <-. right.
    destruct (Hu 1 ltac:(lia)) as (h & _ & Hh & _). exists h. rewrite Hh. split; [done|].
    intros i Hi. destruct (Hu i Hi) as (h' & e & Hh' & He & Hne). simplify_eq. eauto.
  - destruct (replies s) as [|[rp k] rs] eqn:Er; [injection Hl as <-; auto|].
    apply Forall_cons in Hr as [Hk Hrs].
    by apply (callback_waits _ _ _ _ Hl); [split|].
  - injection Hl as <-. apply Hsame; [|done]. split; [by apply Forall_drop|done].
  - injection Hl as <-. by apply Hsame.
Qed.

Lemma run_waits ls s s' :
  keeping s -> Forall label_keeps ls -> lrun ls s = Ok s' ->
  (forall i, 1 <= i <= 3 -> in_use i s) -> waits s ->
  exists es, effects s' = effects s ++ es /\ no_start es.
Proof.
  intros Hs Hls. revert s Hs. induction Hls as [|l ls Hl _ IH]; intros s Hs Hrun Hu Hw; cbn [lrun] in Hrun.
  { injection Hrun as <-. exists []. rewrite app_nil_r. by repeat constructor. }
  destruct (lstep l s) as [s1|] eqn:E; [|done]. cbn [mbind outcome_bind] in Hrun.
  destruct (step_waits _ _ _ E Hu Hw) as (Hw1 & es & He & Hes).
  destruct (IH s1) as (es' & He' & Hes'); try done.
  - by apply (step_in_use _ _ _ 1 E Hl Hs), Hu.
  - intros i Hi. by apply (step_in_use _ _ _ i E Hl Hs), Hu.
  - exists (es ++ es'). rewrite He', He, app_assoc. split; [done|]. by apply Forall_app.
Qed.

(** C9: the port of a started session is never free again.  Whatever requests
    arrive, in whatever order Redis and the callbacks interleave, a port of
    [sessionList1] that is in use stays in use; and from a state in which all
    three are in use and nothing is under way, no interleaving ever sends a
    start line to the VM manager again, and a start request that is served
    alone is answered with [dup] or [full].  The runs are those in which no
    user has the e-mail [null] and the other clients of Redis write
    [sessionList2] only, as the workers of the web server do. *)
Theorem started_ports_never_released ls s s' :
  keeping s -> Forall label_keeps ls -> lrun ls s = Ok s' ->
  (forall i, in_use i s -> in_use i s') /\
  ((forall i, 1 <= i <= 3 -> in_use i s) ->
   (commands s = [] -> replies s = [] ->
     exists es, effects s' = effects s ++ es /\ Forall (fun e => starts_vm e = false) es) /\
   (forall r h1 h2, rq_install r = false -> idle h1 h2 s' ->
     exists t, (t = bytes "dup" \/ t = bytes "full") /\
       lrun (serve r) s' = Ok (mk_lb (redis s') [] [] (effects s' ++ [Respond (rq_id r) t])))).
Proof.
  intros Hs Hls Hrun. split; [intros i; by apply (run_in_use ls s)|]. intros Hall. split.
  { intros Hc Hr. apply (run_waits ls s s' Hs Hls Hrun Hall). split; [rewrite Hc|rewrite Hr]; constructor. }
  intros r h1 h2 Hin Hi. pose proof (serve_assign r h1 h2 s' Hi) as Hsv.
  unfold own_hash, own_list in Hsv. rewrite Hin in Hsv. unfold assign in Hsv.
  destruct (_ <=? 3) in Hsv.
  { exists (bytes "dup"). split; [by left|]. rewrite Hsv, insert_id by apply Hi. done. }
  exists (bytes "full"). split; [by right|]. rewrite scan_taken in Hsv.
  { rewrite Hsv, insert_id by apply Hi. done. }
  intros i Hi3. destruct (run_in_use ls s s' i Hs Hls Hrun) as (h & e & Hh & Hh' & He); [by apply Hall|].
  destruct Hi as [_ _ H1 _]. rewrite H1 in Hh. injection Hh as ->. eauto.
Qed.

(** Three users start a session; all three pages are closed again. *)
Definition demo_full : lb :=
  default lb_start (match lrun ([demo_user 1 "ann" false; demo_user 2 "bob" false; demo_user 3 "cyd" false] ≫= serve)
    lb_start with Ok s => Some s | Crash => None end).

Definition demo_closes : list label :=
  (fun i => LOther sessionList2 (port_key i) (bytes "null")) <$> [1; 2; 3].

Definition in_useb (i : Z) (s : lb) : bool :=
  match redis s !! sessionList1 ≫= (fun h => h !! port_key i) with
  | Some e => bool_decide (e <> bytes "null")
  | None => false
  end.

Lemma in_useb_spec i s : in_useb i s = true -> in_use i s.
Proof.
  unfold in_useb, in_use. destruct (redis s !! sessionList1 ≫= _) as [e|] eqn:E; [|done].
  apply bind_Some in E as (h & Hh & He). intros Hne%bool_decide_eq_true. by exists h, e.
Qed.

Lemma demo_full_in_use i : 1 <= i <= 3 -> in_use i demo_full.
Proof.
  intros Hi. assert (forallb (fun i => in_useb i demo_full) [1; 2; 3] = true) as Hall
    by (vm_compute; reflexivity).
  rewrite forallb_forall in Hall. apply in_useb_spec, Hall. cbn. lia.
Qed.

(** Then a fourth user asks for one. *)
Definition demo_labels : list label := demo_closes ++ serve (demo_user 4 "dee" false).

Definition demo_later : lb :=
  default lb_start (match lrun demo_labels demo_full with Ok s => Some s | Crash => None end).

Lemma demo_later_run : lrun demo_labels demo_full = Ok demo_later.
Proof. vm_compute. reflexivity. Qed.

Lemma demo_full_quiet : commands demo_full = [] /\ replies demo_full = [].
Proof. split; vm_compute; reflexivity. Qed.

Lemma demo_full_keeping : keeping demo_full.
Proof. destruct demo_full_quiet as [Hc Hr]. split; [rewrite Hc|rewrite Hr]; constructor. Qed.

Lemma demo_labels_keep : Forall label_keeps demo_labels.
Proof. unfold demo_labels, demo_closes. by repeat constructor. Qed.

Lemma started_ports_never_released_witness :
  (forall i, 1 <= i <= 3 -> in_use i demo_full) /\ lrun demo_labels demo_full = Ok demo_later /\
  (forall i, in_use i demo_full -> in_use i demo_later) /\
  exists es, effects demo_later = effects demo_full ++ es /\ Forall (fun e => starts_vm e = false) es.
Proof.
  destruct (started_ports_never_released demo_labels demo_full demo_later
    demo_full_keeping demo_labels_keep demo_later_run) as [H1 H2].
  split; [exact demo_full_in_use|]. split; [exact demo_later_run|]. split; [exact H1|].
  destruct demo_full_quiet as [Hc Hr]. exact (proj1 (H2 demo_full_in_use) Hc Hr).
Defined.
