(* ===== verification/Accounts.v ===== *)
(** * Users and images (LoadBalancer/model/, routes/member.js, routes/select.js)

    The collections of the database, the functions of MemberDAO.js and
    ImageDAO.js on them, and the routes that log users in, register them, and
    create, list and delete images.  The database operations of a request are
    executed in the order the code issues them; the fields of a request are
    strings, as the pages send them. *)

From coqutil Require Import Datatypes.RecordSettersUsingExistingGetters.
From S2P Require Import Prelude CString Js LoadBalancer.

(** ** The database (util/DBUtil.js) *)

Record member := mk_member {
  m_Index : jsval;
  m_Email : list Z;
  m_Password : list Z;
  m_Firstname : list Z;
  m_Lastname : list Z
}.

(** [ImageListDO] has the same fields. *)
Record image := mk_image { i_Index : Z; i_Email : list Z; i_Image : list Z }.

(** An indexer is its counter, absent before the first insert. *)
Record db := mk_db {
  members : list member;
  memberIndexers : option Z;
  images : list image;
  imageIndexers : option Z
}.

(** [insert] of a document whose [_id] exists is refused. *)
Definition init_seq (i : option Z) : option Z := Some (default 0 i).

(** [findAndModify] with [$inc] and [new]: the new value. *)
Definition next_seq (i : option Z) : Z := default 0 i + 1.

(** ** model/MemberDAO.js *)

Definition getIndexers (d : db) : jsval * db :=
  let n := next_seq (memberIndexers d) in (JNum n, d <| memberIndexers := Some n |>).

Definition initIndexers (d : db) : db := d <| memberIndexers ::= init_seq |>.

Definition insertMember (i : jsval) (e p f l : list Z) (d : db) : db :=
  d <| members ::= fun ms => ms ++ [mk_member i e p f l] |>.

(** [findOne]. *)
Definition find_member (f : member -> bool) (d : db) : option member :=
  match filter (fun m => f m = true) (members d) with m :: _ => Some m | [] => None end.

Definition checkLoginMember (e p : list Z) (d : db) : bool :=
  match find_member (fun m => bool_decide (m_Email m = e) && bool_decide (m_Password m = p)) d with
  | Some _ => true
  | None => false
  end.

Definition checkIdMember (e : list Z) (d : db) : jsval :=
  match find_member (fun m => bool_decide (m_Email m = e)) d with Some _ => JStr e | None => JBool false end.

Definition getIndexMember (e : list Z) (d : db) : jsval :=
  match find_member (fun m => bool_decide (m_Email m = e)) d with Some m => m_Index m | None => JBool false end.

(** ** routes/member.js *)

(** The answer sent, if any, and the e-mail stored in the session. *)
Definition loginMember (e p : list Z) (d : db) : option bool * option (list Z) :=
  if checkLoginMember e p d then
    if negb (loose_eq (getIndexMember e d) (JBool false)) then (Some true, Some e) else (None, None)
  else (Some false, None).

Definition mobile_loginMember (e p : list Z) (d : db) : option (list Z) :=
  if checkLoginMember e p d then
    if negb (loose_eq (getIndexMember e d) (JBool false)) then Some (bytes "true") else None
  else Some (bytes "false").

Definition idCheckMember (e : list Z) (d : db) : bool := loose_eq (checkIdMember e d) (JBool true).

Definition joinMember (e p f l : list Z) (d : db) : bool * db :=
  let d := initIndexers d in
  let '(inputIndex, d) := getIndexers d in
  if loose_eq (checkIdMember e d) (JBool true) then (false, d)
  else (true, insertMember inputIndex e p f l d).

(** ** model/ImageDAO.js and the image routes of routes/select.js *)

Definition checkImageList (e : list Z) (d : db) : list image :=
  filter (fun i => i_Email i = e) (images d).

Definition insertImage (i : Z) (e v : list Z) (d : db) : db :=
  d <| images ::= fun l => l ++ [mk_image i e v] |>.

(** [parseInt] that gives NaN matches no document. *)
Definition deleteImage (i e v : list Z) (d : db) : db :=
  d <| images ::= filter (fun x => ~ (Some (i_Index x) = parseInt i /\ i_Email x = e /\ i_Image x = v)) |>.

Definition requestOSList (e : list Z) (d : db) : list image := checkImageList e d.

(** The request sent to the VM manager, and the database. *)
Definition requestCreateOS (e v : list Z) (d : db) : effect * db :=
  let d := d <| imageIndexers ::= init_seq |> in
  let inputIndex := next_seq (imageIndexers d) in
  let d := insertImage inputIndex e v (d <| imageIndexers := Some inputIndex |>) in
  (Connect (if bool_decide (v = bytes "androidx86") then android_Ip else another_Ip)
     (getSocketCreate (JNum 1) (getImageIndex (JStr v)) (JNum inputIndex) (JStr e)), d).

Definition requestDeleteOS (i e v : list Z) (d : db) : effect * db :=
  (Connect (if bool_decide (v = bytes "androidx86") then android_Ip else another_Ip)
     (getSocketDelete (JNum 2) (getImageIndex (JStr v)) (JStr i) (JStr e)), deleteImage i e v d).

(** ** Lemmas *)

Lemma find_member_some f d : (exists m, m ∈ members d /\ f m = true) <-> is_Some (find_member f d).
Proof.
  unfold find_member. destruct (filter _ (members d)) as [|m ms] eqn:E.
  - split; [|by intros [? ?]]. intros (m & Hin & Hf).
    assert (m ∈ filter (fun m => f m = true) (members d)) as H by (by apply list_elem_of_filter).
    rewrite E in H. by apply elem_of_nil in H.
  - split; [done|]. intros _. exists m.
    assert (m ∈ filter (fun m => f m = true) (members d)) as H by (rewrite E; apply elem_of_cons; by left).
    apply list_elem_of_filter in H. tauto.
Qed.

Lemma checkLogin_spec e p d :
  checkLoginMember e p d = true <-> exists m, m ∈ members d /\ m_Email m = e /\ m_Password m = p.
Proof.
  unfold checkLoginMember.
  pose proof (find_member_some (fun m => bool_decide (m_Email m = e) && bool_decide (m_Password m = p)) d) as H.
  destruct (find_member _ d) as [m|]; (split; [intros Ht|intros (m' & Hin & He & Hp)]); try done.
  - destruct H as [_ H]. destruct (H ltac:(eauto)) as (m' & Hin & Hf). exists m'.
    rewrite andb_true_iff, !bool_decide_eq_true in Hf. tauto.
  - destruct H as [H _]. destruct H as [? ?]; [|done]. exists m'. split; [done|].
    by rewrite !bool_decide_true.
Qed.

Definition db_empty : db := mk_db [] None [] None.

(** Every member got a positive number. *)
Definition numbered (d : db) : Prop :=
  0 <= default 0 (memberIndexers d) /\ Forall (fun m => exists n, m_Index m = JNum n /\ 1 <= n) (members d).

Record registration := mk_reg { r_email : list Z; r_password : list Z; r_first : list Z; r_last : list Z }.

Definition join (d : db) (r : registration) : db :=
  (joinMember (r_email r) (r_password r) (r_first r) (r_last r) d).2.

(** An e-mail that JavaScript does not take for the number 1. *)
Definition not_one (e : list Z) : Prop := loose_eq (JStr e) (JBool true) = false.

Lemma id_never_taken e d : not_one e -> loose_eq (checkIdMember e d) (JBool true) = false.
Proof. intros Hn. unfold checkIdMember. by destruct (find_member _ d). Qed.

Lemma join_accepted r d :
  not_one (r_email r) ->
  exists n, joinMember (r_email r) (r_password r) (r_first r) (r_last r) d =
    (true, mk_db (members d ++ [mk_member (JNum n) (r_email r) (r_password r) (r_first r) (r_last r)])
             (Some n) (images d) (imageIndexers d)) /\ n = default 0 (memberIndexers d) + 1.
Proof.
  intros Hn. exists (default 0 (memberIndexers d) + 1). split; [|done]. destruct d as [ms mi imgs ii].
  unfold joinMember, getIndexers. by rewrite id_never_taken.
Qed.

Lemma join_numbered d r : not_one (r_email r) -> numbered d -> numbered (join d r).
Proof.
  intros Hn [Hc Hm]. destruct (join_accepted r d Hn) as (n & E & Hnn). unfold join. rewrite E.
  cbn [snd]. split; simpl; [lia|].
  apply Forall_app. split; [done|]. repeat constructor. exists n. split; [done|lia].
Qed.

Lemma login_spec e p d :
  numbered d ->
  loginMember e p d =
  if checkLoginMember e p d then (Some true, Some e) else (Some false, None).
Proof.
  intros [_ Hm]. unfold loginMember. destruct (checkLoginMember e p d) eqn:E; [|done].
  apply checkLogin_spec in E as (m & Hin & He & _). unfold getIndexMember.
  destruct (find_member _ d) as [m'|] eqn:Ef.
  - assert (m' ∈ members d) as Hin'.
    { unfold find_member in Ef. destruct (filter _ (members d)) as [|x l] eqn:El; [done|].
      injection Ef as ->. assert (m' ∈ m' :: l) as H by (apply elem_of_cons; by left).
      rewrite <- El in H. apply list_elem_of_filter in H. tauto. }
    rewrite Forall_forall in Hm. destruct (Hm m' Hin') as (n & -> & Hn).
    unfold loose_eq. cbn [unbool b2z]. by destruct (Z.eqb_spec n 0); [lia|].
  - destruct (proj1 (find_member_some (fun m => bool_decide (m_Email m = e)) d)) as [? H]; [|by rewrite Ef in H].
    exists m. split; [done|]. by apply bool_decide_eq_true.
Qed.

Lemma joins_members rs d :
  Forall (fun r => not_one (r_email r)) rs -> numbered d ->
  numbered (fold_left join rs d) /\
  forall e p, (exists m, m ∈ members (fold_left join rs d) /\ m_Email m = e /\ m_Password m = p) <->
    (exists m, m ∈ members d /\ m_Email m = e /\ m_Password m = p) \/
    (exists r, r ∈ rs /\ r_email r = e /\ r_password r = p).
Proof.
  intros Hrs. revert d. induction Hrs as [|r rs Hr _ IH]; intros d Hd; cbn [fold_left].
  { split; [done|]. intros e p. split; [by left|]. intros [H|(r & H & _)]; [done|by apply elem_of_nil in H]. }
  destruct (IH (join d r) (join_numbered d r Hr Hd)) as [Hn Hm]. split; [done|].
  intros e p. rewrite Hm. unfold join. destruct (join_accepted r d Hr) as (n & -> & _).
  cbn [snd members]. setoid_rewrite elem_of_app. setoid_rewrite list_elem_of_singleton.
  setoid_rewrite elem_of_cons. split.
  - intros [(m & [Hin| ->] & He & Hp)|(r' & Hin & He)]; [left; eauto|right; exists r; auto|right; eauto].
  - intros [(m & Hin & He)|(r' & [-> | Hin] & He & Hp)]; [left; eauto| |right; eauto].
    left. eexists. split; [by right|]. done.
Qed.

(** C34: users can log in exactly with what they registered.  After any sequence
    of registrations, a login succeeds, and stores the e-mail in the session,
    if and only if its e-mail and password are those of one of them.  And every
    registration is accepted, also one whose e-mail is already taken: both
    passwords then open the account.  (E-mails that JavaScript compares as equal
    to [true], such as 1 and 0x1, are the exception.) *)
Theorem login_iff_registered rs e p :
  Forall (fun r => not_one (r_email r)) rs ->
  let d := fold_left join rs db_empty in
  loginMember e p d =
    (if bool_decide (Exists (fun r => r_email r = e /\ r_password r = p) rs)
     then (Some true, Some e) else (Some false, None)) /\
  forall r, not_one (r_email r) -> (joinMember (r_email r) (r_password r) (r_first r) (r_last r) d).1 = true.
Proof.
  intros Hrs. cbv zeta. destruct (joins_members rs db_empty Hrs) as [Hn Hm]; [by repeat constructor|].
  split.
  - rewrite login_spec by done. destruct (checkLoginMember _ _ _) eqn:E.
    + apply checkLogin_spec, Hm in E as [(m & H & _)|(r & Hin & He)]; [by apply elem_of_nil in H|].
      rewrite bool_decide_true; [done|]. apply Exists_exists. eauto.
    + rewrite bool_decide_false; [done|]. intros (r & Hin & He)%Exists_exists.
      assert (checkLoginMember e p (fold_left join rs db_empty) = true); [|congruence].
      apply checkLogin_spec, Hm. right. eauto.
  - intros r Hr. by destruct (join_accepted r (fold_left join rs db_empty) Hr) as (n & -> & _).
Qed.

Definition demo_regs : list registration :=
  [mk_reg (bytes "ann@x") (bytes "secret") [] []; mk_reg (bytes "ann@x") (bytes "other") [] []].

Lemma login_iff_registered_witness :
  let d := fold_left join demo_regs db_empty in
  loginMember (bytes "ann@x") (bytes "other") d =
    (if bool_decide (Exists (fun r => r_email r = bytes "ann@x" /\ r_password r = bytes "other") demo_regs)
     then (Some true, Some (bytes "ann@x")) else (Some false, None)) /\
  forall r, not_one (r_email r) -> (joinMember (r_email r) (r_password r) (r_first r) (r_last r) d).1 = true.
Proof.
  apply (login_iff_registered demo_regs (bytes "ann@x") (bytes "other")).
  repeat constructor; vm_compute; reflexivity.
Defined.

(** ** Images *)

Inductive image_op := Create (e v : list Z) | Delete (i e v : list Z).

Definition image_step (d : db) (op : image_op) : db :=
  match op with
  | Create e v => (requestCreateOS e v d).2
  | Delete i e v => (requestDeleteOS i e v d).2
  end.

(** Image numbers are below the counter and differ. *)
Definition images_ok (d : db) : Prop :=
  0 <= default 0 (imageIndexers d) /\
  Forall (fun i => 1 <= i_Index i <= default 0 (imageIndexers d)) (images d) /\ NoDup (i_Index <$> images d).

Lemma image_step_ok d op : images_ok d -> images_ok (image_step d op).
Proof.
  intros (Hc & Hr & Hd). destruct d as [ms mi imgs ii]. cbn [images imageIndexers] in *.
  destruct op as [e v|i e v]; unfold images_ok; cbn [image_step requestCreateOS requestDeleteOS snd].
  - unfold insertImage, next_seq, init_seq. cbn. split; [lia|]. split.
    + apply Forall_app. split; [|repeat constructor; simpl; lia].
      eapply Forall_impl; [exact Hr|]. simpl. lia.
    + rewrite fmap_app. apply NoDup_app. split; [done|]. split; [|apply NoDup_singleton].
      intros x (y & -> & Hy)%list_elem_of_fmap Hx. cbn in Hx. apply list_elem_of_singleton in Hx.
      rewrite Forall_forall in Hr. specialize (Hr y Hy). lia.
  - unfold deleteImage. cbn. split; [done|]. split; [by apply Forall_filter|].
    eapply sublist_NoDup; [exact Hd|apply fmap_sublist, sublist_filter].
Qed.

(** C35: image numbers are unique, and a delete undoes a create.  After any
    sequence of creates and deletes of any users, no two images have the same
    number; deleting the image just created, by the number the page shows,
    restores the collection. *)
Theorem image_numbers_unique ops e v :
  let d := fold_left image_step ops db_empty in
  NoDup (i_Index <$> images d) /\
  let n := next_seq (imageIndexers d) in
  n < 2147483648 -> images (image_step (image_step d (Create e v)) (Delete (dec n) e v)) = images d.
Proof.
  cbv zeta. set (d := fold_left image_step ops db_empty).
  assert (images_ok d) as (Hc & Hr & Hd).
  { unfold d. assert (images_ok db_empty) as H by (by repeat constructor).
    revert H. generalize db_empty. induction ops as [|op ops IH]; intros d0 H; [done|].
    cbn [fold_left]. by apply IH, image_step_ok. }
  clearbody d. split; [done|]. intros Hn. destruct d as [ms mi imgs ii].
  cbn [images imageIndexers] in *. unfold next_seq in *. cbn.
  unfold insertImage, deleteImage, next_seq, init_seq. cbn. rewrite filter_app, parseInt_dec by lia.
  rewrite filter_all, filter_cons_False, filter_nil, app_nil_r; [done| |].
  - cbn. intros H. by apply H.
  - eapply Forall_impl; [exact Hr|]. simpl. intros x Hx [E _]. injection E as E. rewrite E in Hx. lia.
Qed.

Lemma image_numbers_unique_witness :
  let d := fold_left image_step [Create (bytes "ann") (bytes "linux"); Delete (bytes "1") (bytes "ann") (bytes "linux");
             Create (bytes "bob") (bytes "tizen")] db_empty in
  NoDup (i_Index <$> images d) /\
  (next_seq (imageIndexers d) < 2147483648 ->
   images (image_step (image_step d (Create (bytes "ann") (bytes "linux")))
     (Delete (dec (next_seq (imageIndexers d))) (bytes "ann") (bytes "linux"))) = images d).
Proof.
  apply (image_numbers_unique [Create (bytes "ann") (bytes "linux"); Delete (bytes "1") (bytes "ann") (bytes "linux");
    Create (bytes "bob") (bytes "tizen")] (bytes "ann") (bytes "linux")).
Defined.
