(* ===== verification/WebServer.v ===== *)
(** * The web server and its pages (WebServer/)

    [Browser]: the event pages (public/js/desktopEvent_stream.js,
    mobileEvent_stream.js) that turn mouse, touch and key events into text
    messages, and the addresses the pages connect to.  [Worker]: one worker of
    bin/www, which passes pictures and sound of the emulator on to the
    browsers and the browser's messages to the emulator.  [Routes]: the pages'
    routes (routes/index.js, routes/select.js).  The libraries [ws],
    [binaryjs], [net] and [http] appear as the events they deliver and the
    calls made on them. *)

From Stdlib Require Import SpecFloat.
From coqutil Require Import Datatypes.RecordSettersUsingExistingGetters.
From S2P Require Import Prelude CString Js.

(** ** The event pages *)

Module Browser.

(** What is sent over [Event_client]. *)
Inductive msg := Mouse (x y : option Z) (state : Z) | Key (down : bool) (key : Z).

(** A number in a message; [None] is NaN. *)
Definition num_text (v : option Z) : list Z :=
  match v with Some n => dec n | None => bytes "NaN" end.

Definition render (m : msg) : list Z :=
  match m with
  | Mouse x y state =>
      bytes "0" ++ bytes " " ++ num_text x ++ bytes " " ++ num_text y ++ bytes " " ++
      dec state ++ bytes " "
  | Key down key => bytes "1" ++ bytes " " ++ bytes (if down then "1" else "0") ++ bytes " " ++ dec key
  end.

(** The WebSocket of [event_init]: [send] throws before it is open and does
    nothing after it was closed. *)
Inductive sock := NoClient | Connecting | Open | Closed.

Record page := mk_page {
  innerWidth : spec_float;
  innerHeight : spec_float;
  Event_client : sock;
  check : Z;
  sent : list msg
}.

(** [None] is the exception of [send], which ends the handler. *)
Definition send (m : msg) (p : page) : option page :=
  match Event_client p with
  | NoClient | Closed => Some p
  | Connecting => None
  | Open => Some (p <| sent ::= fun l => l ++ [m] |>)
  end.

(** [parseInt] of a number goes through its text; a coordinate on the screen
    is written without an exponent, so this is truncation. *)
Definition scale_x (p : page) (input_x : spec_float) : option Z :=
  trunc (fmul (fdiv input_x (innerWidth p)) (of_Z 1280)).
Definition scale_y (p : page) (input_y : spec_float) : option Z :=
  trunc (fmul (fdiv input_y (innerHeight p)) (of_Z 768)).

Definition send_at (x y : spec_float) (state : Z) (p : page) : option page :=
  send (Mouse (scale_x p x) (scale_y p y) state) p.

(** A handler whose last statement may throw. *)
Definition ending (f : page -> option page) (p : page) : page := default p (f p).

Definition keydown (which : Z) : page -> page := ending (send (Key true which)).
Definition keyup (which : Z) : page -> page := ending (send (Key false which)).

Definition mouseEvent_down (which : Z) (x y : spec_float) (p : page) : page :=
  let p := if which =? 1 then ending (send_at x y 1) (p <| check := 1 |>) else p in
  if which =? 3 then ending (send_at x y 4) (p <| check := 4 |>) else p.

Definition mouseEvent_move (x y : spec_float) (p : page) : page :=
  if check p =? 1 then ending (send_at x y 1) p else p.

Definition mouseEvent_up (x y : spec_float) (p : page) : page :=
  ending (send_at x y 0) (p <| check := 0 |>).

(** The reset of [check] follows the call that may throw. *)
Definition mouseEvent_out (x y : spec_float) (p : page) : page :=
  if check p =? 1 then
    match send_at x y 0 p with Some p => p <| check := 0 |> | None => p end
  else p <| check := 0 |>.

Definition touchEvent_start (x y : spec_float) (p : page) : page :=
  ending (send_at x y 1) (p <| check := 1 |>).
Definition touchEvent_move (x y : spec_float) (p : page) : page :=
  if check p =? 1 then ending (send_at x y 1) p else p.
Definition touchEvent_end (x y : spec_float) (p : page) : page :=
  ending (send_at x y 0) (p <| check := 0 |>).

Inductive event :=
| KeyDown (which : Z) | KeyUp (which : Z)
| Down (which : Z) (x y : spec_float) | Move (x y : spec_float)
| Up (x y : spec_float) | Out (x y : spec_float)
| TouchStart (x y : spec_float) | TouchMove (x y : spec_float) | TouchEnd (x y : spec_float).

Definition handle (p : page) (e : event) : page :=
  match e with
  | KeyDown k => keydown k p
  | KeyUp k => keyup k p
  | Down w x y => mouseEvent_down w x y p
  | Move x y => mouseEvent_move x y p
  | Up x y => mouseEvent_up x y p
  | Out x y => mouseEvent_out x y p
  | TouchStart x y => touchEvent_start x y p
  | TouchMove x y => touchEvent_move x y p
  | TouchEnd x y => touchEvent_end x y p
  end.

(** The addresses of [init], [image_init], [audio_init] and [event_init]:
    [port_data] is a string, so [700 + port_data] is a concatenation. *)
Definition target_ip : list Z := bytes "ws://211.189.20.76:".
Definition image_init (ip : list Z) (port_data : jsval) : list Z := ip ++ concat_js (JNum 900) port_data.
Definition audio_init (ip : list Z) (port_data : jsval) : list Z := ip ++ concat_js (JNum 950) port_data.
Definition event_init (ip : list Z) (port_data : jsval) : list Z := ip ++ concat_js (JNum 700) port_data.

(** ** The button the guest sees *)

(** The last button state sent. *)
Definition button (l : list msg) : Z :=
  fold_left (fun b m => match m with Mouse _ _ state => state | Key _ _ => b end) l 0.

Lemma button_snoc l m :
  button (l ++ [m]) = match m with Mouse _ _ state => state | Key _ _ => button l end.
Proof. unfold button. by rewrite fold_left_app. Qed.

(** The connection is open, and the guest sees the button the page tracks. *)
Definition in_step (p : page) : Prop := Event_client p = Open /\ button (sent p) = check p.

(** The right button leaves the canvas while pressed. *)
Definition drags_out (p : page) (e : event) : bool :=
  match e with Out _ _ => check p =? 4 | _ => false end.

Lemma send_open m p : Event_client p = Open -> send m p = Some (p <| sent ::= fun l => l ++ [m] |>).
Proof. intros E. unfold send. by rewrite E. Qed.

Lemma check_cases p e : check p = 0 \/ check p = 1 \/ check p = 4 ->
  check (handle p e) = 0 \/ check (handle p e) = 1 \/ check (handle p e) = 4.
Proof.
  intros Hc. destruct e; cbn [handle];
    unfold keydown, keyup, mouseEvent_down, mouseEvent_move, mouseEvent_up, mouseEvent_out,
      touchEvent_start, touchEvent_move, touchEvent_end, ending, send_at, send; cases; simpl in *;
    simplify_eq; unfold RecordSettersUsingExistingGetters.const in *; simpl in *; auto.
Qed.

Lemma handle_in_step p e :
  in_step p -> check p = 0 \/ check p = 1 \/ check p = 4 -> drags_out p e = false -> in_step (handle p e).
Proof.
  intros [Ho Hb] Hc Hd. destruct e; cbn [handle];
    unfold keydown, keyup, mouseEvent_down, mouseEvent_move, mouseEvent_up, mouseEvent_out,
      touchEvent_start, touchEvent_move, touchEvent_end, ending, send_at, in_step;
    repeat (case_match; rewrite ?send_open in * by done; simplify_eq);
    rewrite ?send_open by done; cbn [default]; simpl in *;
    unfold RecordSettersUsingExistingGetters.const in *; simpl;
    rewrite ?button_snoc; zdecide_in Hd; split; try done; try lia.
Qed.

Lemma page_run es p :
  in_step p -> check p = 0 \/ check p = 1 \/ check p = 4 ->
  (forall es1 e es2, es = es1 ++ e :: es2 -> drags_out (fold_left handle es1 p) e = false) ->
  in_step (fold_left handle es p).
Proof.
  revert p. induction es as [|e es IH]; intros p Hi Hc Hd; [done|]. cbn [fold_left]. apply IH.
  - apply handle_in_step; [done|done|]. exact (Hd [] e es eq_refl).
  - by apply check_cases.
  - intros es1 e' es2 ->. exact (Hd (e :: es1) e' es2 eq_refl).
Qed.

(** A page with an open connection. *)
Definition page_open (w h : spec_float) : page := mk_page w h Open 0 [].

(** C23: the button the guest sees is the button the page tracks.  From an open
    connection, whatever the user does with mouse, fingers and keys, the last
    button state sent is [check], unless the right button is dragged out of
    the canvas.  The exception is real: there the release is never sent, and
    further moves of the mouse do not send it either. *)
Theorem page_button_in_step w h es :
  (forall es1 e es2, es = es1 ++ e :: es2 ->
     drags_out (fold_left handle es1 (page_open w h)) e = false) ->
  let p := fold_left handle es (page_open w h) in
  button (sent p) = check p /\
  forall x y x' y' moves, Forall (fun e => exists x y, e = Move x y) moves ->
    let q := fold_left handle (Down 3 x y :: Out x' y' :: moves) p in check q = 0 /\ button (sent q) = 4.
Proof.
  intros Hd. cbv zeta.
  destruct (page_run es (page_open w h)) as [Ho Hb]; [done|by left|done|].
  split; [exact Hb|]. intros x y x' y' moves Hm. set (p := fold_left handle es _) in *. clearbody p.
  cbn [fold_left]. set (q := handle (handle p _) _).
  assert (check q = 0 /\ button (sent q) = 4) as Hq.
  { unfold q. cbn [handle]. unfold mouseEvent_down, ending, send_at. cbn [Z.eqb Pos.eqb].
    rewrite send_open by done. split; [done|]. exact (button_snoc (sent p) (Mouse _ _ 4)). }
  clearbody q. induction Hm as [|e moves (x1 & y1 & ->) _ IH]; [done|]. cbn [fold_left].
  replace (handle q (Move x1 y1)) with q; [exact IH|].
  cbn [handle]. unfold mouseEvent_move. by destruct Hq as [-> _].
Qed.

Lemma page_button_in_step_witness :
  let p := fold_left handle [Down 1 (of_Z 3) (of_Z 4); Move (of_Z 5) (of_Z 6); Out (of_Z 7) (of_Z 0); KeyDown 65]
             (page_open (of_Z 1366) (of_Z 768)) in
  button (sent p) = check p /\
  forall x y x' y' moves, Forall (fun e => exists x y, e = Move x y) moves ->
    let q := fold_left handle (Down 3 x y :: Out x' y' :: moves) p in check q = 0 /\ button (sent q) = 4.
Proof.
  apply (page_button_in_step (of_Z 1366) (of_Z 768)
    [Down 1 (of_Z 3) (of_Z 4); Move (of_Z 5) (of_Z 6); Out (of_Z 7) (of_Z 0); KeyDown 65]).
  intros es1 e es2 E.
  do 4 (destruct es1 as [|? es1]; cbn [app] in E; injection E as <- E; [subst; vm_compute; reflexivity|]).
  by destruct es1.
Defined.
End Browser.

(** ** A worker of bin/www *)

Module Worker.

(** [cluster.worker.id] counts from 1; the ports of worker [id]. *)
Definition IMAGE_STREAM_SECRET : Z := 1234.
Definition AUDIO_STREAM_SECRET : Z := 1234.
Definition IMAGE_STREAM_PORT (id : Z) : Z := 8000 + id.
Definition IMAGE_WEBSOCKET_PORT (id : Z) : Z := 9000 + id.
Definition AUDIO_STREAM_PORT (id : Z) : Z := 8500 + id.
Definition AUDIO_WEBSOCKET_PORT (id : Z) : Z := 9500 + id.
Definition NET_SOCKET_PORT (id : Z) : Z := 7500 + id.
Definition EVENT_WEBSOCKET_PORT (id : Z) : Z := 7000 + id.

Definition width : Z := 768.
Definition height : Z := 1280.

Definition writeUInt16BE (v : Z) : list Z := [Z.shiftr v 8; Z.land v 255].
Definition streamHeader : list Z := bytes "jsmp" ++ writeUInt16BE width ++ writeUInt16BE height.

(** [request.url.substr(1).split('/')[0]]. *)
Fixpoint before_slash (s : list Z) : list Z :=
  match s with [] => [] | c :: s' => if c =? 47 then [] else c :: before_slash s' end.
Definition param0 (url : list Z) : list Z := before_slash (drop 1 url).

(** Sockets, requests and audio streams are numbered; a picture client comes
    with its [readyState]. *)
Record worker := mk_worker {
  id : Z;
  clients : list (nat * Z);
  image_requests : list nat;
  audio_requests : list nat;
  Audio_stream : option nat;
  NET_SOCKET_TARGET : option nat
}.

Definition worker_init (i : Z) : worker := mk_worker i [] [] [] None None.

Inductive event :=
| ImageConnect (c : nat) | ImageState (c : nat) (readyState : Z) | ImageClose (c : nat)
| ImageRequest (r : nat) (url : list Z) | ImageData (r : nat) (data : list Z)
| AudioConnect (c : nat) | AudioClose (c : nat)
| AudioRequest (r : nat) (url : list Z) | AudioData (r : nat) (data : list Z)
| AudioRequestClose (r : nat) | AudioRequestError (r : nat)
| NetConnect (s : nat) | NetError (s : nat) | NetEnd (s : nat)
| EventMessage (data : list Z) | EventClose.

Inductive call :=
| SendHeader (c : nat) (data : list Z) | SendImage (c : nat) (data : list Z)
| StreamWrite (c : nat) (data : list Z) | StreamEnd (c : nat)
| NetWrite (s : nat) (data : list Z) | NetClose (s : nat)
| RedisSet (category key : list Z) (value : jsval)
| ResponseEnd (r : nat).

Definition broadcast (w : worker) (data : list Z) : list call :=
  omap (fun '(c, rs) => if rs =? 1 then Some (SendImage c data) else None) (clients w).

Definition handle (w : worker) (e : event) : worker * list call :=
  match e with
  | ImageConnect c => (w <| clients ::= fun l => l ++ [(c, 1)] |>, [SendHeader c streamHeader])
  | ImageState c rs =>
      (w <| clients ::= fmap (fun '(c', rs') => (c', if Nat.eqb c' c then rs else rs')) |>, [])
  | ImageClose c =>
      (w <| clients ::= filter (fun x => x.1 <> c) |>,
       [RedisSet (bytes "sessionList2") (concat_js (JStr (bytes "port")) (JNum (id w))) JNull])
  | ImageRequest r url =>
      if loose_eq (JStr (param0 url)) (JNum IMAGE_STREAM_SECRET)
      then (w <| image_requests ::= cons r |>, [])
      else (w, [ResponseEnd r])
  | ImageData r data =>
      if bool_decide (r ∈ image_requests w) then (w, broadcast w data) else (w, [])
  | AudioConnect c => (w <| Audio_stream := Some c |>, [])
  | AudioClose c => (w <| Audio_stream := None |>, [])
  | AudioRequest r url =>
      if loose_eq (JStr (param0 url)) (JNum AUDIO_STREAM_SECRET)
      then (w <| audio_requests ::= cons r |>, [])
      else (w, [ResponseEnd r])
  | AudioData r data =>
      if bool_decide (r ∈ audio_requests w)
      then (w, match Audio_stream w with Some c => [StreamWrite c data] | None => [] end) else (w, [])
  | AudioRequestClose r =>
      if bool_decide (r ∈ audio_requests w)
      then (w, match Audio_stream w with Some c => [StreamEnd c] | None => [] end) else (w, [])
  | AudioRequestError r =>
      if bool_decide (r ∈ audio_requests w) then (w <| Audio_stream := None |>, []) else (w, [])
  | NetConnect s => (w <| NET_SOCKET_TARGET := Some s |>, [])
  | NetError _ | NetEnd _ => (w <| NET_SOCKET_TARGET := None |>, [])
  | EventMessage data =>
      (w, match NET_SOCKET_TARGET w with
          | Some s => [NetWrite s (concat_js (JStr data) (JStr [10]))]
          | None => []
          end)
  | EventClose => (w, match NET_SOCKET_TARGET w with Some s => [NetClose s] | None => [] end)
  end.

Fixpoint run (w : worker) (es : list event) : worker * list call :=
  match es with
  | [] => (w, [])
  | e :: es => let '(w', cs) := handle w e in let '(w'', cs') := run w' es in (w'', cs ++ cs')
  end.

(** ** What reaches a socket *)

(** The bytes written to emulator socket [s], in order. *)
Definition to_emulator (s : nat) (cs : list call) : list (list Z) :=
  omap (fun c => match c with NetWrite s' d => if Nat.eqb s' s then Some d else None | _ => None end) cs.

(** What picture client [c] received. *)
Definition to_client (c : nat) (cs : list call) : list (list Z) :=
  omap (fun x => match x with
    | SendHeader c' d | SendImage c' d => if Nat.eqb c' c then Some d else None | _ => None end) cs.

Definition messages (es : list event) : list (list Z) :=
  omap (fun e => match e with EventMessage d => Some d | _ => None end) es.

(** Events that change which emulator the messages go to. *)
Definition is_net (e : event) : bool :=
  match e with NetConnect _ | NetError _ | NetEnd _ => true | _ => false end.

Lemma run_app w es1 es2 :
  run w (es1 ++ es2) =
  let '(w1, c1) := run w es1 in let '(w2, c2) := run w1 es2 in (w2, c1 ++ c2).
Proof.
  revert w. induction es1 as [|e es1 IH]; intros w; cbn [app run].
  - by destruct (run w es2).
  - destruct (handle w e) as [w1 c]. rewrite IH. destruct (run w1 es1) as [w2 c1].
    destruct (run w2 es2) as [w3 c2]. by rewrite app_assoc.
Qed.

Lemma to_emulator_app s l1 l2 : to_emulator s (l1 ++ l2) = to_emulator s l1 ++ to_emulator s l2.
Proof. apply omap_app. Qed.
Lemma to_client_app c l1 l2 : to_client c (l1 ++ l2) = to_client c l1 ++ to_client c l2.
Proof. apply omap_app. Qed.

Lemma broadcast_no_net s w data : to_emulator s (broadcast w data) = [].
Proof.
  unfold broadcast. induction (clients w) as [|[c rs] l IH]; [done|]. cbn [omap list_omap].
  by destruct (rs =? 1).
Qed.

Lemma handle_emulator s w e :
  NET_SOCKET_TARGET w = Some s -> is_net e = false ->
  NET_SOCKET_TARGET (handle w e).1 = Some s /\
  to_emulator s (handle w e).2 = (fun d => d ++ [10]) <$> messages [e].
Proof.
  intros Ht He. destruct e; try done; cbn [handle]; rewrite ?Ht;
    repeat (case_match; cbn [fst snd]); try done; split; try done.
  - apply broadcast_no_net.
  - cbn. by rewrite Nat.eqb_refl.
Qed.

(** The messages of the browser reach the emulator complete and in order,
    each ended by a newline, as long as the emulator stays connected. *)
Lemma messages_relayed s w es :
  NET_SOCKET_TARGET w = Some s -> Forall (fun e => is_net e = false) es ->
  NET_SOCKET_TARGET (run w es).1 = Some s /\
  to_emulator s (run w es).2 = (fun d => d ++ [10]) <$> messages es.
Proof.
  intros Ht Hes. revert w Ht. induction Hes as [|e es He _ IH]; intros w Ht; [done|].
  cbn [run]. destruct (handle_emulator s w e Ht He) as [Ht1 Hm1].
  destruct (handle w e) as [w1 c1]. cbn [fst snd] in *. destruct (IH w1 Ht1) as [Ht2 Hm2].
  destruct (run w1 es) as [w2 c2]. cbn [fst snd] in *. split; [done|].
  rewrite to_emulator_app, Hm1, Hm2. unfold messages. rewrite <- fmap_app, <- omap_app. done.
Qed.

(** The picture data of a sequence of events: that of the requests with the
    right secret. *)
Fixpoint pictures (ok : list nat) (es : list event) : list (list Z) :=
  match es with
  | [] => []
  | ImageRequest r url :: es =>
      pictures (if loose_eq (JStr (param0 url)) (JNum IMAGE_STREAM_SECRET) then r :: ok else ok) es
  | ImageData r d :: es => if bool_decide (r ∈ ok) then d :: pictures ok es else pictures ok es
  | _ :: es => pictures ok es
  end.

(** Events of other picture clients only. *)
Definition spares (c : nat) (e : event) : bool :=
  match e with
  | ImageConnect c' | ImageState c' _ | ImageClose c' => negb (Nat.eqb c' c)
  | _ => true
  end.

(** Client [c] is in the list once, and open. *)
Definition open_once (c : nat) (l : list (nat * Z)) : Prop :=
  exists l1 l2, l = l1 ++ ((c, 1) :: l2) /\ (c ∉ l1.*1) /\ (c ∉ l2.*1).

Lemma broadcast_absent c l data :
  c ∉ l.*1 ->
  to_client c (omap (fun '(c, rs) => if rs =? 1 then Some (SendImage c data) else None) l) = [].
Proof.
  induction l as [|[c' rs] l IH]; [done|]. cbn [fmap list_fmap fst]. rewrite not_elem_of_cons.
  intros [Hne Hni]. cbn [omap list_omap]. destruct (rs =? 1); [|auto].
  cbn. destruct (Nat.eqb_spec c' c); [congruence|]. by apply IH.
Qed.

Lemma broadcast_open c w data :
  open_once c (clients w) -> to_client c (broadcast w data) = [data].
Proof.
  intros (l1 & l2 & E & H1 & H2). unfold broadcast. rewrite E, omap_app, to_client_app.
  rewrite (broadcast_absent c l1) by done. cbn. rewrite Nat.eqb_refl.
  f_equal. by apply broadcast_absent.
Qed.

Lemma open_once_handle c w e :
  open_once c (clients w) -> spares c e = true -> open_once c (clients (handle w e).1).
Proof.
  intros (l1 & l2 & E & H1 & H2) Hs. destruct e; cbn [handle]; repeat case_match; cbn [fst clients];
    try (by exists l1, l2); cbn [spares] in Hs;
    apply negb_true_iff, Nat.eqb_neq in Hs; simpl; rewrite E.
  - exists l1, (l2 ++ [(c0, 1)]). split; [by rewrite <- app_assoc|]. split; [done|].
    rewrite fmap_app, not_elem_of_app. split; [done|]. cbn. rewrite list_elem_of_singleton. congruence.
  - rewrite fmap_app, fmap_cons. destruct (Nat.eqb_spec c c0); [congruence|].
    eexists _, _. split; [done|].
    assert (forall l : list (nat * Z),
      ((fun '(c', rs') => (c', if Nat.eqb c' c0 then readyState else rs')) <$> l).*1 = l.*1) as Hf.
    { intros l. rewrite <- list_fmap_compose. apply list_fmap_ext. by intros ? [] _. }
    by rewrite !Hf.
  - rewrite filter_app, filter_cons. cbn [fst]. rewrite decide_True by done.
    eexists _, _. split; [done|].
    assert (forall l : list (nat * Z), c ∉ l.*1 -> c ∉ (filter (fun x => x.1 <> c0) l).*1) as Hf.
    { intros l Hl ([c' rs] & -> & [_ Hin]%list_elem_of_filter)%list_elem_of_fmap. apply Hl.
      by apply (list_elem_of_fmap_2 fst) in Hin. }
    split; by apply Hf.
Qed.

Lemma pictures_step c w e es :
  open_once c (clients w) -> spares c e = true ->
  pictures (image_requests w) (e :: es) =
  to_client c (handle w e).2 ++ pictures (image_requests (handle w e).1) es.
Proof.
  intros Ho Hs. destruct e; cbn [handle pictures]; try done;
    try (repeat case_match; cbn; rewrite ?app_nil_r; done).
  - cbn [spares] in Hs. apply negb_true_iff in Hs. cbn. by rewrite Hs.
  - destruct (bool_decide _); [|done]. cbn [fst snd]. by rewrite broadcast_open.
Qed.

Lemma pictures_delivered c w es :
  open_once c (clients w) -> Forall (fun e => spares c e = true) es ->
  to_client c (run w es).2 = pictures (image_requests w) es.
Proof.
  intros Ho Hes. revert w Ho. induction Hes as [|e es He _ IH]; intros w Ho; [done|].
  rewrite (pictures_step c) by done. cbn [run].
  pose proof (open_once_handle c w e Ho He) as Ho1. destruct (handle w e) as [w1 c1].
  cbn [fst snd] in *. specialize (IH w1 Ho1). destruct (run w1 es) as [w2 c2]. cbn [fst snd] in *.
  by rewrite to_client_app, IH.
Qed.

(** C10: the browser's messages reach the emulator.  After the emulator has
    connected, as long as no connection event intervenes, it is written the
    messages of the browser, all of them, in order, each ended by a newline.
    But the end of an old connection also disconnects a new one: every message
    after it is dropped, until the next connect. *)
Theorem worker_relays_messages w s es :
  Forall (fun e => is_net e = false) es ->
  to_emulator s (run w (NetConnect s :: es)).2 = (fun d => d ++ [10]) <$> messages es /\
  forall s', to_emulator s (run w (NetConnect s' :: NetConnect s :: NetEnd s' :: es)).2 = [].
Proof.
  intros Hes. split.
  - cbn [run handle]. pose proof (messages_relayed s (w <| NET_SOCKET_TARGET := Some s |>) es eq_refl Hes) as [_ H].
    by destruct (run _ es).
  - intros s'. cbn [run handle].
    set (w' := _ <| NET_SOCKET_TARGET := None |>). assert (NET_SOCKET_TARGET w' = None) as Hn by done.
    clearbody w'. assert (to_emulator s (run w' es).2 = []) as H.
    { clear w s'. revert w' Hn. induction Hes as [|e es He _ IH]; intros w Hn; [done|]. cbn [run].
      assert (NET_SOCKET_TARGET (handle w e).1 = None /\ to_emulator s (handle w e).2 = []) as [Hn1 H1].
      { destruct e; try done; cbn [handle]; rewrite ?Hn; repeat case_match; cbn [fst snd];
          split; try done. apply broadcast_no_net. }
      destruct (handle w e) as [w1 c1]. specialize (IH w1 Hn1). destruct (run w1 es) as [w2 c2].
      cbn [fst snd] in *. by rewrite to_emulator_app, H1, IH. }
    by destruct (run w' es).
Qed.

Lemma worker_relays_messages_witness :
  to_emulator 7 (run (worker_init 2) (NetConnect 7 :: [EventMessage [49]; ImageConnect 3; EventMessage [50]])).2
  = (fun d => d ++ [10]) <$> messages [EventMessage [49]; ImageConnect 3; EventMessage [50]] /\
  forall s', to_emulator 7 (run (worker_init 2) (NetConnect s' :: NetConnect 7 :: NetEnd s' ::
    [EventMessage [49]; ImageConnect 3; EventMessage [50]])).2 = [].
Proof.
  apply (worker_relays_messages (worker_init 2) 7 [EventMessage [49]; ImageConnect 3; EventMessage [50]]).
  repeat constructor.
Defined.

Lemma header_then_pictures w c es :
  c ∉ (clients w).*1 -> Forall (fun e => spares c e = true) es ->
  to_client c (run w (ImageConnect c :: es)).2 = streamHeader :: pictures (image_requests w) es.
Proof.
  intros Hc Hes. cbn [run handle].
  pose proof (pictures_delivered c (w <| clients ::= fun l => l ++ [(c, 1)] |>) es) as H.
  destruct (run _ es) as [w' cs]. cbn [snd] in *. rewrite to_client_app. cbn [to_client omap list_omap].
  rewrite Nat.eqb_refl. cbn [app]. f_equal. apply H; [|done].
  exists (clients w), []. split; [done|]. split; [done|apply not_elem_of_nil].
Qed.

(** C17: a picture client receives the stream header and then every chunk of
    the requests that know the secret, once and in order, and nothing else,
    while other clients come and go. *)
Theorem worker_broadcasts_pictures w c es :
  c ∉ (clients w).*1 -> Forall (fun e => spares c e = true) es ->
  to_client c (run w (ImageConnect c :: es)).2 = streamHeader :: pictures (image_requests w) es.
Proof. apply header_then_pictures. Qed.

Lemma worker_broadcasts_pictures_witness :
  to_client 1 (run (worker_init 1) (ImageConnect 1 ::
    [ImageRequest 5 (bytes "/1234"); ImageConnect 2; ImageData 5 [0; 0; 1]; ImageClose 2; ImageData 6 [9]])).2 =
  streamHeader :: pictures []
    [ImageRequest 5 (bytes "/1234"); ImageConnect 2; ImageData 5 [0; 0; 1]; ImageClose 2; ImageData 6 [9]].
Proof.
  apply (worker_broadcasts_pictures (worker_init 1) 1); [apply not_elem_of_nil|repeat constructor].
Defined.

(** Sound stops after the first request.  When a sound request closes, the
    stream to the browser is ended and stays the current one; the data of all
    later requests is written to the ended stream. *)
Theorem sound_after_first_request_lost w c r1 r2 d1 d2 :
  let es := [AudioConnect c; AudioRequest r1 (bytes "/1234"); AudioData r1 d1; AudioRequestClose r1;
             AudioRequest r2 (bytes "/1234"); AudioData r2 d2] in
  (run w es).2 = [StreamWrite c d1; StreamEnd c; StreamWrite c d2].
Proof.
  cbv zeta. assert (loose_eq (JStr (param0 (bytes "/1234"))) (JNum AUDIO_STREAM_SECRET) = true) as E
    by (vm_compute; reflexivity).
  cbn [run handle]. rewrite E. simpl. by rewrite !bool_decide_true by set_solver.
Qed.
End Worker.

(** ** Routes (routes/index.js, routes/select.js) *)

Module Routes.

(** [POST /]: the port of the form becomes that of the session; the page
    depends on the browser. *)
Definition post_index (mobile : bool) (port : jsval) : jsval * list Z :=
  (port, bytes (if mobile then "mobile_stream.html" else "desktop_stream.html")).

(** [POST /select] with [action_target] [requestPort]. *)
Definition requestPort (session_port : jsval) : outcome (list Z) := toString session_port.

End Routes.
