(* ===== verification/PicturePlayer.v ===== *)
(** * Pictures from the socket (public/lib/jsmpg.js, streaming)

    The messages of the worker are collected in a ring buffer, the stream is cut
    at the picture start codes, and each picture is handed to the decoder, which
    draws it at the next animation frame.  The cutting is proved to refine a
    specification that looks at the whole stream. *)

From coqutil Require Import Datatypes.RecordSettersUsingExistingGetters.
From S2P Require Import Prelude CString JsArray MpegTables BitReader MpegDecoder WebServer.

(** ** State *)

Definition socketBufferSize : Z := 524288.

(** [nextPictureBuffer]. *)
Record source := Source {
  next : reader;
  chunkBegin : Z;
  lastWriteBeforeWrap : Z;
  waitForIntraFrame : bool }.

Record player := Player {
  video : jsmpeg;
  src : source;
  currentPictureDecoded : bool;
  frames : nat }.           (* animation frames requested and not yet run *)

(** [initSocketClient]. *)
Definition initSocketClient (j : jsmpeg) : player :=
  Player (j <| buffer := new_reader (zeros socketBufferSize) |>)
    (Source (Reader (zeros socketBufferSize) 0 0) 0 0 true) false 0.

Definition SOCKET_MAGIC_BYTES : list Z := bytes "jsmp".

Definition decodeSocketHeader (data : list Z) (j : jsmpeg) : jsmpeg :=
  let at_ i := tget data i in
  if bool_decide (at_ 0 = Some 106) && bool_decide (at_ 1 = Some 115) &&
     bool_decide (at_ 2 = Some 109) && bool_decide (at_ 3 = Some 112)
  then initBuffers (default 0 (at_ 4) * 256 + default 0 (at_ 5))
                   (default 0 (at_ 6) * 256 + default 0 (at_ 7)) j
  else j.

(** ** Receiving *)

(** The message goes behind the last one, or to the front when it does not
    fit; [false] is a RangeError. *)
Definition append (data : list Z) (s : source) : source * bool :=
  let n := next s in
  let s :=
    if Z.of_nat (length (store n)) <? writePos n + Z.of_nat (length data) then
      s <| lastWriteBeforeWrap := writePos n |> <| next := n <| writePos := 0 |> <| index := 0 |> |>
    else s in
  let n := next s in
  match set_at (store n) data (writePos n) with
  | Ok st => (s <| next := n <| store := st |> <| writePos := writePos n + Z.of_nat (length data) |> |>, true)
  | Crash => (s, false)
  end.

(** [while( true )] up to a picture start code; [false] when there is none. *)
Fixpoint search (fuel : nat) (n : reader) : option (bool * reader) :=
  match fuel with
  | O => None
  | S fuel' =>
      let '(startCode, n) := findNextMPEGStartCode n in
      if bool_decide (startCode = Some NOT_FOUND) || (writePos n <? shr (index n) 3) then
        Some (false, n <| index := shl (Z.max (writePos n - 3) 0) 3 |>)
      else if bool_decide (startCode = Some START_PICTURE) then Some (true, n)
      else search fuel' n
  end.

Inductive found := NoPicture | Threw | Runs | Found (chunkEnd : Z).

(** The part of the handler that looks at the stream. *)
Definition scan_message (data : list Z) (s : source) : source * found :=
  let '(s, ok) := append data s in
  if negb ok then (s, Threw)
  else
    match search (S (length (store (next s)))) (next s) with
    | None => (s, Runs)
    | Some (false, n) => (s <| next := n |>, NoPicture)
    | Some (true, n) =>
        let s := s <| next := n |> in
        if waitForIntraFrame s then
          let '(type, n) := getBits (advance n 10) 3 in
          let s := s <| next := n |> in
          (if type =? PICTURE_TYPE_I
           then s <| waitForIntraFrame := false |> <| chunkBegin := shr (index n - 13) 3 |> else s,
           NoPicture)
        else (s, Found (shr (index n) 3))
    end.

(** Copy the picture to the decoder's buffer. *)
Definition load (s : source) (chunkEnd : Z) (r : reader) : outcome reader :=
  let st := store (next s) in
  if chunkBegin s <? chunkEnd then
    cur ← set_at (store r) (subarray st (chunkBegin s) chunkEnd) 0;
    Ok (Reader cur (chunkEnd - chunkBegin s) 0)
  else
    cur ← set_at (store r) (subarray st (chunkBegin s) (lastWriteBeforeWrap s)) 0;
    let written := lastWriteBeforeWrap s - chunkBegin s in
    cur ← set_at cur (subarray st 0 chunkEnd) written;
    Ok (Reader cur (chunkEnd + written) 0).

(** What a handler does: it returns, throws a RangeError, or is still decoding
    when the fuel is used up. *)
Inductive result := Returns (p : player) | Throws (p : player) | Decoding.

Definition receiveSocketMessage (fuel : nat) (data : list Z) (p : player) : result :=
  let v := if sequenceStarted (video p) then video p else decodeSocketHeader data (video p) in
  match scan_message data (src p) with
  | (_, Runs) => Decoding
  | (s, Threw) => Throws (p <| video := v |> <| src := s |>)
  | (s, NoPicture) => Returns (p <| video := v |> <| src := s |>)
  | (s, Found chunkEnd) =>
      match (if currentPictureDecoded p then Some v else decodePicture fuel true v) with
      | None => Decoding
      | Some v =>
          match load s chunkEnd (buffer v) with
          | Crash => Throws (p <| video := v |> <| src := s |>)
          | Ok r =>
              Returns (Player (v <| buffer := r |>) (s <| chunkBegin := chunkEnd |>) false
                         (S (frames p)))
          end
      end
  end.

(** An animation frame: [scheduleDecoding]. *)
Definition scheduleDecoding (fuel : nat) (p : player) : option player :=
  v ← decodePicture fuel false (video p);
  Some (Player v (src p) true (pred (frames p))).

(** ** The stream *)

(** A whole picture start code at byte [j] of the stream. *)
Definition picture_at (t : list Z) (j : Z) : bool :=
  bool_decide (tget t j = Some 0) && bool_decide (tget t (j + 1) = Some 0) &&
  bool_decide (tget t (j + 2) = Some 1) && bool_decide (tget t (j + 3) = Some START_PICTURE).

Fixpoint first_picture (n : nat) (t : list Z) (i : Z) : option Z :=
  match n with
  | O => None
  | S n' => if picture_at t i then Some i else first_picture n' t (i + 1)
  end.

(** The first picture start code from byte [i] on. *)
Definition picture_from (t : list Z) (i : Z) : option Z :=
  first_picture (Z.to_nat (Z.of_nat (length t) - i)) t i.

(** The type of the picture whose start code is at byte [j]. *)
Definition intra_at (t : list Z) (j : Z) : bool :=
  match tget t (j + 5) with
  | Some y => Z.land (Z.shiftr y 3) 7 =? PICTURE_TYPE_I
  | None => false
  end.

(** The specification: keep the whole stream, and cut it after the next picture
    start code behind the last one, at most once per message.  Nothing is handed
    out before the first intra picture. *)
Record cut := Cut { stream : list Z; mark : Z; started : bool }.

Definition cutter (m : list Z) (c : cut) : cut * option (list Z) :=
  let t := stream c ++ m in
  match picture_from t (mark c) with
  | Some j =>
      if started c then (Cut t (j + 4) true, Some (subarray t (mark c) (j + 4)))
      else (Cut t (j + 4) (intra_at t j), None)
  | None => (Cut t (mark c) (started c), None)
  end.

Lemma first_picture_spec n t i :
  match first_picture n t i with
  | Some j => i <= j < i + Z.of_nat n /\ picture_at t j = true /\
              forall k, i <= k < j -> picture_at t k = false
  | None => forall k, i <= k < i + Z.of_nat n -> picture_at t k = false
  end.
Proof.
  revert i. induction n as [|n IH]; intros i; cbn [first_picture]; [lia|].
  destruct (picture_at t i) eqn:E.
  - split; [lia|]. split; [done|lia].
  - specialize (IH (i + 1)). destruct (first_picture n t (i + 1)) as [j|].
    + destruct IH as (? & ? & Hk). split; [lia|]. split; [done|].
      intros k Hk'. destruct (Z.eq_dec k i) as [->|]; [done|]. apply Hk. lia.
    + intros k Hk. destruct (Z.eq_dec k i) as [->|]; [done|]. apply IH. lia.
Qed.

Lemma picture_at_in t j : picture_at t j = true -> 0 <= j /\ j + 4 <= Z.of_nat (length t).
Proof.
  intros H. unfold picture_at in H. rewrite !andb_true_iff, !bool_decide_eq_true in H.
  destruct H as [[[H0 _] _] H3]. split.
  - destruct (Z.lt_ge_cases j 0); [|done]. by rewrite tget_out in H0 by lia.
  - destruct (Z.le_gt_cases (j + 4) (Z.of_nat (length t))); [done|]. by rewrite tget_out in H3 by lia.
Qed.

Lemma picture_from_spec t i :
  match picture_from t i with
  | Some j => i <= j /\ picture_at t j = true /\ forall k, i <= k < j -> picture_at t k = false
  | None => forall k, i <= k -> picture_at t k = false
  end.
Proof.
  unfold picture_from. pose proof (first_picture_spec (Z.to_nat (Z.of_nat (length t) - i)) t i) as H.
  destruct (first_picture _ t i) as [j|]; [destruct H as (? & ? & ?); split; [lia|done]|].
  intros k Hk. destruct (picture_at t k) eqn:E; [|done]. rewrite <- E. apply H.
  apply picture_at_in in E. lia.
Qed.

Lemma picture_from_unique t i j :
  i <= j -> picture_at t j = true -> (forall k, i <= k < j -> picture_at t k = false) ->
  picture_from t i = Some j.
Proof.
  intros Hij Hj Hmin. pose proof (picture_from_spec t i) as H.
  destruct (picture_from t i) as [j'|]; [|by rewrite H in Hj by done].
  destruct H as (H1 & H2 & H3). f_equal.
  destruct (Z.lt_total j j') as [Hlt|[Heq|Hlt]]; [|done|].
  - by rewrite H3 in Hj by lia.
  - by rewrite Hmin in H2 by lia.
Qed.

Lemma picture_from_none t i :
  (forall k, i <= k -> picture_at t k = false) -> picture_from t i = None.
Proof.
  intros Hno. pose proof (picture_from_spec t i) as H. destruct (picture_from t i) as [j|]; [|done].
  destruct H as (H1 & H2 & _). by rewrite Hno in H2 by done.
Qed.

(** ** The search finds the first picture *)

(** The part of the stream in the buffer. *)
Definition received (n : reader) : list Z := take (Z.to_nat (writePos n)) (store n).

Lemma received_get n k :
  0 <= writePos n <= Z.of_nat (length (store n)) ->
  tget (received n) k = if k <? writePos n then tget (store n) k else None.
Proof.
  intros Hw. unfold received, tget. destruct (Z.leb_spec 0 k), (Z.ltb_spec k (writePos n)); try done.
  - apply lookup_take_lt. lia.
  - apply lookup_take_ge. lia.
Qed.

Lemma received_picture n k :
  0 <= writePos n <= Z.of_nat (length (store n)) -> k + 4 <= writePos n ->
  picture_at (received n) k = prefix_at n k && bool_decide (byte_at n (k + 3) = Some START_PICTURE).
Proof.
  intros Hw Hk. unfold picture_at, prefix_at, byte_at. rewrite !received_get by done. zknown. done.
Qed.

Lemma length_received n :
  0 <= writePos n <= Z.of_nat (length (store n)) -> Z.of_nat (length (received n)) = writePos n.
Proof. intros Hw. unfold received. rewrite length_take. lia. Qed.

Lemma received_late n k :
  0 <= writePos n <= Z.of_nat (length (store n)) -> writePos n < k + 4 -> picture_at (received n) k = false.
Proof.
  intros Hw Hk. destruct (picture_at (received n) k) eqn:E; [|done].
  apply picture_at_in in E. rewrite length_received in E by done. lia.
Qed.

(** No start code begins inside another one. *)
Lemma no_overlap t i k :
  tget t i = Some 0 -> tget t (i + 1) = Some 0 -> tget t (i + 2) = Some 1 ->
  i < k < i + 3 -> picture_at t k = false.
Proof.
  intros H0 H1 H2 Hk. unfold picture_at.
  assert (k = i + 1 \/ k = i + 2) as [-> | ->] by lia.
  - replace (i + 1 + 1) with (i + 2) by lia. rewrite H2.
    rewrite (bool_decide_eq_false_2 (Some 1 = Some 0)) by done. by rewrite andb_false_r.
  - rewrite H2. by rewrite (bool_decide_eq_false_2 (Some 1 = Some 0)).
Qed.

Lemma picture_from_skip t i i' :
  i <= i' -> (forall k, i <= k < i' -> picture_at t k = false) -> picture_from t i = picture_from t i'.
Proof.
  intros Hi Hno. pose proof (picture_from_spec t i') as H. destruct (picture_from t i') as [j|].
  - destruct H as (H1 & H2 & H3). apply picture_from_unique; [lia|done|].
    intros k Hk. destruct (Z.lt_ge_cases k i'); [apply Hno; lia|apply H3; lia].
  - apply picture_from_none. intros k Hk. destruct (Z.lt_ge_cases k i'); [apply Hno; lia|by apply H].
Qed.

Lemma search_spec fuel n :
  sized n -> writePos n - from n < Z.of_nat fuel -> (0 < fuel)%nat ->
  search fuel n = Some
    match picture_from (received n) (from n) with
    | Some j => (true, n <| index := 8 * (j + 4) |>)
    | None => (false, n <| index := 8 * Z.max (writePos n - 3) 0 |>)
    end.
Proof.
  revert n. induction fuel as [|fuel IH]; intros n Hn Hf Hpos; [lia|]. cbn [search].
  pose proof (find_spec n Hn) as Hs. destruct Hn as (Hb & Hw & Hl & Hi) eqn:En. clear En.
  assert (0 <= from n) as Hfrom by (apply Z.div_pos; lia).
  assert (forall x, x <= writePos n -> shl (Z.max (x - 3) 0) 3 = 8 * Z.max (x - 3) 0) as Hshl
    by (intros; rewrite shl_small by lia; lia).
  assert (forall k, from n <= k -> prefix_at n k = false -> picture_at (received n) k = false) as Hno.
  { intros k Hk Hp. destruct (Z.le_gt_cases (k + 4) (writePos n)); [|by apply received_late].
    by rewrite received_picture, Hp by done. }
  destruct (findNextMPEGStartCode n) as [c n'].
  destruct Hs as [(i & Hiw & Hp & Hmin & -> & ->)|(Hnone & -> & ->)].
  2:{ rewrite (bool_decide_eq_true_2 (Some NOT_FOUND = Some NOT_FOUND)) by done. cbn [orb].
      rewrite picture_from_none.
      - do 2 f_equal. cbn. unfold RecordSettersUsingExistingGetters.const. by rewrite Hshl.
      - intros k Hk. destruct (Z.lt_ge_cases k (writePos n)); [apply Hno, Hnone; lia|].
        apply received_late; [done|lia]. }
  change (writePos (n <| index := 8 * (i + 4) |>)) with (writePos n).
  change (index (n <| index := 8 * (i + 4) |>)) with (8 * (i + 4)).
  assert (shr (8 * (i + 4)) 3 = i + 4) as ->.
  { rewrite shr_div by lia. change (2 ^ 3) with 8. rewrite Z.mul_comm. apply Z.div_mul. lia. }
  destruct (Z.ltb_spec (writePos n) (i + 4)) as [Hlate|Hin].
  { rewrite orb_true_r, picture_from_none.
    - do 2 f_equal. cbn. unfold RecordSettersUsingExistingGetters.const. by rewrite Hshl.
    - intros k Hk. destruct (Z.lt_ge_cases k i); [apply Hno, Hmin; lia|].
      apply received_late; [done|lia]. }
  unfold byte_at. rewrite tget_in by lia. pose proof (aget_byte (store n) (i + 3) Hb) as Hbyte. unfold byte in Hbyte.
  rewrite (bool_decide_eq_false_2 (Some (aget (store n) (i + 3)) = Some NOT_FOUND)) by (intros [= E]; unfold NOT_FOUND in E; lia).
  cbn [orb].
  assert (picture_at (received n) i = bool_decide (Some (aget (store n) (i + 3)) = Some START_PICTURE)) as Hpi.
  { rewrite received_picture, Hp by done. unfold byte_at. by rewrite tget_in by lia. }
  destruct (bool_decide (Some (aget (store n) (i + 3)) = Some START_PICTURE)) eqn:Ec.
  { rewrite (picture_from_unique _ _ i); [done|lia|done|]. intros k Hk. apply Hno, Hmin; lia. }
  rewrite IH; [|apply sized_index; [done|lia]|rewrite from_bytes; cbn; lia|lia].
  rewrite from_bytes. change (received (n <| index := 8 * (i + 4) |>)) with (received n).
  rewrite (picture_from_skip _ (from n) (i + 4)); [done|lia|].
  intros k Hk. destruct (Z.lt_ge_cases k i); [apply Hno, Hmin; lia|].
  destruct (Z.eq_dec k i) as [->|]; [done|].
  unfold prefix_at, byte_at in Hp. rewrite !andb_true_iff, !bool_decide_eq_true in Hp. destruct Hp as [[H0 H1] H2].
  destruct (Z.eq_dec k (i + 3)) as [->|].
  - unfold picture_at. rewrite received_get by done. zknown. rewrite tget_in by lia.
    apply bool_decide_eq_false in Ec. rewrite (bool_decide_eq_false_2 (_ = Some 0)); [done|exact Ec].
  - apply (no_overlap _ i); [rewrite received_get by done; by zknown..|lia].
Qed.

(** ** The ring buffer implements the specification *)

(** No picture of the stream has type 0, which MPEG-1 forbids: its header then
    continues no start code. *)
Definition typed (t : list Z) : Prop :=
  forall j y, picture_at t j = true -> tget t (j + 5) = Some y -> 8 <= y.

(** What is known of a message: it is made of bytes, the unfinished picture and
    the message fill at most half of the buffer, the first picture's type has
    arrived with its start code, and when the buffer wraps around, no start code
    lies before the message. *)
Record acceptable (s : source) (c : cut) (m : list Z) : Prop := {
  acc_bytes : Forall byte m;
  acc_typed : typed (stream c ++ m);
  acc_size : 2 * (Z.of_nat (length (stream c ++ m)) - mark c) <= socketBufferSize;
  acc_whole : started c = false -> forall j, picture_at (stream c ++ m) j = true ->
    j + 6 <= Z.of_nat (length (stream c ++ m));
  acc_wrap : socketBufferSize < writePos (next s) + Z.of_nat (length m) ->
    3 <= Z.of_nat (length m) /\
    forall k, mark c <= k < Z.of_nat (length (stream c)) -> picture_at (stream c ++ m) k = false }.

(** Where the unfinished picture is: behind the last start code, or wrapped
    around once, with its first part still untouched. *)
Definition chunk_here (s : source) (c : cut) (B : Z) : Prop :=
  B <= mark c /\ chunkBegin s = mark c - B.

Definition chunk_wrapped (s : source) (c : cut) (B : Z) : Prop :=
  mark c <= B /\ exists B0, B0 <= mark c /\ chunkBegin s = mark c - B0 /\
    lastWriteBeforeWrap s = B - B0 /\ B - B0 <= socketBufferSize /\
    socketBufferSize < chunkBegin s + (Z.of_nat (length (stream c)) - mark c) /\
    forall i, chunkBegin s <= i < B - B0 -> tget (store (next s)) i = tget (stream c) (B0 + i).

(** The first byte of the buffer is byte [B] of the stream. *)
Record lap (s : source) (c : cut) (B : Z) : Prop := {
  lap_pos : 0 <= B /\ writePos (next s) = Z.of_nat (length (stream c)) - B;
  lap_sized : sized (next s) /\ Z.of_nat (length (store (next s))) = socketBufferSize;
  lap_store : forall i, 0 <= i < writePos (next s) -> tget (store (next s)) i = tget (stream c) (B + i);
  lap_room : B = 0 \/ 3 <= writePos (next s);
  lap_wait : waitForIntraFrame s = negb (started c);
  lap_mark : 0 <= mark c <= Z.of_nat (length (stream c)) /\
             (mark c = 0 \/ picture_at (stream c) (mark c - 4) = true);
  lap_chunk : started c = true -> chunk_here s c B \/ chunk_wrapped s c B }.

(** The search goes on where it misses no picture, whatever comes. *)
Definition resumes (s : source) (c : cut) (B : Z) : Prop :=
  forall u, typed (stream c ++ u) ->
    picture_from (stream c ++ u) (B + from (next s)) = picture_from (stream c ++ u) (mark c).

Definition tracks (s : source) (c : cut) : Prop := exists B, lap s c B /\ resumes s c B.

Lemma tget_app_l t u i : i < Z.of_nat (length t) -> tget (t ++ u) i = tget t i.
Proof. intros Hi. unfold tget. destruct (Z.leb_spec 0 i); [|done]. apply lookup_app_l. lia. Qed.

Lemma tget_app_r t u i : 0 <= i -> tget (t ++ u) (Z.of_nat (length t) + i) = tget u i.
Proof.
  intros Hi. unfold tget. zknown. rewrite lookup_app_r by lia. f_equal. lia.
Qed.

Lemma tget_drop t B i : 0 <= B -> 0 <= i -> tget (drop (Z.to_nat B) t) i = tget t (B + i).
Proof. intros. unfold tget. zknown. rewrite lookup_drop. f_equal. lia. Qed.

Lemma list_tget_eq (t u : list Z) :
  length t = length u -> (forall i, 0 <= i < Z.of_nat (length t) -> tget t i = tget u i) -> t = u.
Proof.
  intros Hl H. apply list_eq. intros i. destruct (Nat.lt_ge_cases i (length t)).
  - specialize (H (Z.of_nat i) ltac:(lia)). unfold tget in H. destruct (Z.leb_spec 0 (Z.of_nat i)); [|lia].
    by rewrite Nat2Z.id in H.
  - rewrite !lookup_ge_None_2 by lia. done.
Qed.

Lemma picture_at_app t u k : k + 4 <= Z.of_nat (length t) -> picture_at (t ++ u) k = picture_at t k.
Proof. intros Hk. unfold picture_at. by rewrite !tget_app_l by lia. Qed.

Lemma picture_at_drop t B k : 0 <= B -> 0 <= k -> picture_at (drop (Z.to_nat B) t) k = picture_at t (B + k).
Proof. intros. unfold picture_at. rewrite !tget_drop, !Z.add_assoc by lia. done. Qed.

Lemma picture_from_drop t B i :
  0 <= B -> 0 <= i ->
  picture_from (drop (Z.to_nat B) t) i = (fun j => j - B) <$> picture_from t (B + i).
Proof.
  intros HB Hi. pose proof (picture_from_spec t (B + i)) as H. destruct (picture_from t (B + i)) as [j|]; cbn.
  - destruct H as (H1 & H2 & H3). apply picture_from_unique; [lia|..].
    + rewrite picture_at_drop by lia. by replace (B + (j - B)) with j by lia.
    + intros k Hk. rewrite picture_at_drop by lia. apply H3. lia.
  - apply picture_from_none. intros k Hk. rewrite picture_at_drop by lia. apply H. lia.
Qed.

(** No picture begins in the last three bytes of a start code. *)
Lemma after_mark t j k :
  typed t -> picture_at t j = true -> j < k < j + 4 -> picture_at t k = false.
Proof.
  intros Ht Hj Hk. pose proof Hj as Hj'. unfold picture_at in Hj'.
  rewrite !andb_true_iff, !bool_decide_eq_true in Hj'. destruct Hj' as [[[H0 H1] H2] H3].
  destruct (Z.eq_dec k (j + 3)) as [->|]; [|apply (no_overlap t j); [done..|lia]].
  unfold picture_at. rewrite !andb_false_iff, !bool_decide_eq_false. left. right.
  replace (j + 3 + 2) with (j + 5) by lia. intros E. specialize (Ht _ _ Hj E). lia.
Qed.

(** Going on three bytes before the end misses nothing. *)
Lemma resume_end t u m :
  typed (t ++ u) -> 0 <= m <= Z.of_nat (length t) -> (m = 0 \/ picture_at t (m - 4) = true) ->
  picture_from t m = None ->
  picture_from (t ++ u) (Z.max (Z.of_nat (length t) - 3) 0) = picture_from (t ++ u) m.
Proof.
  intros Ht Hm Hmark Hnone. pose proof (picture_from_spec t m) as H. rewrite Hnone in H.
  destruct (Z.le_gt_cases m (Z.max (Z.of_nat (length t) - 3) 0)).
  - symmetry. apply picture_from_skip; [done|]. intros k Hk. rewrite picture_at_app by lia. apply H. lia.
  - apply picture_from_skip; [lia|]. intros k Hk. destruct Hmark as [->|Hmark]; [lia|].
    apply (after_mark _ (m - 4)); [done| |lia]. by rewrite picture_at_app by lia.
Qed.

(** Going on behind the type of a picture misses nothing. *)
Lemma resume_type t j :
  typed t -> picture_at t j = true -> picture_from t (j + 6) = picture_from t (j + 4).
Proof.
  intros Ht Hj. symmetry. apply picture_from_skip; [lia|]. intros k Hk.
  assert (tget t (j + 5) <> Some 0) as Hy by (intros E; specialize (Ht _ _ Hj E); lia).
  unfold picture_at. assert (k = j + 4 \/ k = j + 5) as [-> | ->] by lia.
  - replace (j + 4 + 1) with (j + 5) by lia. rewrite (bool_decide_eq_false_2 (tget t (j + 5) = Some 0)) by done.
    by rewrite andb_false_r.
  - by rewrite (bool_decide_eq_false_2 (tget t (j + 5) = Some 0)) by done.
Qed.

Lemma set_at_get a b off :
  0 <= off -> off + Z.of_nat (length b) <= Z.of_nat (length a) ->
  exists a', set_at a b off = Ok a' /\ length a' = length a /\
    (Forall byte a -> Forall byte b -> Forall byte a') /\
    forall i, tget a' i = if (off <=? i) && (i <? off + Z.of_nat (length b)) then tget b (i - off) else tget a i.
Proof.
  intros H1 H2. unfold set_at. zknown. cbn [andb].
  eexists. split; [done|]. split; [rewrite !length_app, length_take, length_drop; lia|].
  split; [intros; rewrite !Forall_app; auto using Forall_take, Forall_drop|].
  intros i. unfold tget. destruct (Z.leb_spec off i), (Z.ltb_spec i (off + Z.of_nat (length b))); cbn [andb].
  - zknown. rewrite lookup_app_r by (rewrite length_take; lia). rewrite length_take.
    rewrite lookup_app_l by lia. f_equal. lia.
  - zknown. rewrite lookup_app_r by (rewrite length_take; lia). rewrite length_take.
    rewrite lookup_app_r by lia. rewrite lookup_drop. f_equal. lia.
  - destruct (Z.leb_spec 0 i); [|done]. rewrite lookup_app_l by (rewrite length_take; lia).
    apply lookup_take_lt. lia.
  - lia.
Qed.

(** The message behind the last one. *)
Lemma append_fits s c B m :
  lap s c B -> resumes s c B -> acceptable s c m ->
  writePos (next s) + Z.of_nat (length m) <= socketBufferSize ->
  exists s', append m s = (s', true) /\ lap s' (Cut (stream c ++ m) (mark c) (started c)) B /\
    picture_from (stream c ++ m) (B + from (next s')) = picture_from (stream c ++ m) (mark c).
Proof.
  intros [(HB & Hw) ((Hby & Hwl & Hl & Hi) & Hsize) Hst Hroom Hwait (Hm & Hmark) Hch] Hres
    [Ab At As Aw _] Hfit. rewrite length_app in As. unfold socketBufferSize in *.
  destruct s as [[st w ix] cb lw wt], c as [t mk go]. cbn in *. unfold append. cbn. zknown. cbn.
  destruct (set_at_get st m w) as (st' & -> & Hlen & Hb & Hget); [lia..|].
  eexists. split; [done|]. split; [|apply Hres, At].
  split; cbn; unfold RecordSettersUsingExistingGetters.const; rewrite ?length_app, ?Hlen.
  - lia.
  - split; [|done]. split; [by apply Hb|]. cbn. rewrite Hlen. lia.
  - intros i Hi'. rewrite Hget. destruct (Z.leb_spec w i); cbn [andb].
    + zknown. rewrite <- (tget_app_r t m) by lia. f_equal. lia.
    + rewrite Hst by lia. by rewrite tget_app_l by lia.
  - lia.
  - done.
  - split; [lia|]. destruct Hmark; [by left|right]. by rewrite picture_at_app by lia.
  - intros Hgo. destruct (Hch Hgo) as [[H1 H2]|(H1 & B0 & H2 & H3 & H4 & H5 & H6 & H7)]; [by left|right].
    split; [done|]. exists B0. unfold socketBufferSize in *. cbn in *. rewrite length_app. repeat (split; [done || lia|]).
    intros i Hi'. rewrite Hget. zknown. cbn [andb]. rewrite H7 by lia. by rewrite tget_app_l by lia.
Qed.

(** The message at the front of the buffer. *)
Lemma append_wraps s c B m :
  lap s c B -> acceptable s c m -> socketBufferSize < writePos (next s) + Z.of_nat (length m) ->
  exists s' B', append m s = (s', true) /\ lap s' (Cut (stream c ++ m) (mark c) (started c)) B' /\
    picture_from (stream c ++ m) (B' + from (next s')) = picture_from (stream c ++ m) (mark c).
Proof.
  intros [(HB & Hw) ((Hby & Hwl & Hl & Hi) & Hsize) Hst Hroom Hwait (Hm & Hmark) Hch]
    [Ab At As Aw Awr] Hwrap. destruct (Awr Hwrap) as [H3 Hnone]. clear Awr. rewrite length_app in As.
  unfold socketBufferSize in *.
  destruct s as [[st w ix] cb lw wt], c as [t mk go]. cbn in *. unfold append. cbn. zknown. cbn.
  unfold RecordSettersUsingExistingGetters.const.
  destruct (set_at_get st m 0) as (st' & -> & Hlen & Hb & Hget); [lia..|].
  eexists _, (Z.of_nat (length t)). split; [done|]. split.
  - split; cbn; unfold RecordSettersUsingExistingGetters.const; rewrite ?length_app, ?Hlen.
    + lia.
    + split; [|done]. split; [by apply Hb|]. cbn. rewrite Hlen. lia.
    + intros i Hi'. rewrite Hget. zknown. cbn [andb]. rewrite tget_app_r by lia. f_equal. lia.
    + lia.
    + done.
    + split; [lia|]. destruct Hmark; [by left|right]. by rewrite picture_at_app by lia.
    + intros Hgo. right. destruct (Hch Hgo) as [[H1 H2]|(H1 & B0 & H2 & H4 & H5 & H6 & H7 & H8)]; unfold socketBufferSize in *; cbn in *.
      2:{ lia. }
      split; cbn; [lia|]. exists B. unfold socketBufferSize. cbn. rewrite length_app. repeat (split; [done || lia|]).
      intros i Hi'. rewrite Hget. zknown. cbn [andb]. rewrite Hst by lia. by rewrite tget_app_l by lia.
  - cbn. unfold from. cbn. change (7 / 8) with 0. rewrite Z.add_0_r. symmetry.
    apply picture_from_skip; [lia|]. apply Hnone.
Qed.

Lemma append_lap s c B m :
  lap s c B -> resumes s c B -> acceptable s c m ->
  exists s' B', append m s = (s', true) /\ lap s' (Cut (stream c ++ m) (mark c) (started c)) B' /\
    picture_from (stream c ++ m) (B' + from (next s')) = picture_from (stream c ++ m) (mark c).
Proof.
  intros HL HR HA. destruct (Z.le_gt_cases (writePos (next s) + Z.of_nat (length m)) socketBufferSize).
  - destruct (append_fits s c B m) as (s' & ?); [done..|]. by exists s', B.
  - by apply (append_wraps s c B m).
Qed.

Lemma lap_received s c B : lap s c B -> received (next s) = drop (Z.to_nat B) (stream c).
Proof.
  intros [(HB & Hw) ((_ & Hwl & _) & _) Hst _ _ _ _]. pose proof (length_received (next s) Hwl) as Hl.
  apply list_tget_eq; [rewrite length_drop; lia|].
  intros i Hi. rewrite received_get, tget_drop by lia. zknown. apply Hst. lia.
Qed.

Lemma lap_index s c B i :
  lap s c B -> 0 <= i < 268435456 -> lap (s <| next := (next s) <| index := i |> |>) c B.
Proof.
  intros [H1 ((H2 & H3 & H4 & _) & H5) H6 H7 H8 H9 H10] Hi. by split.
Qed.

(** The search after the message has arrived, seen on the stream. *)
Lemma lap_search s c B :
  lap s c B -> picture_from (stream c) (B + from (next s)) = picture_from (stream c) (mark c) ->
  search (S (length (store (next s)))) (next s) = Some
    match picture_from (stream c) (mark c) with
    | Some j => (true, (next s) <| index := 8 * (j - B + 4) |>)
    | None => (false, (next s) <| index := 8 * Z.max (writePos (next s) - 3) 0 |>)
    end.
Proof.
  intros HL Hf. pose proof HL as [(HB & _) (Hs & _) _ _ _ _ _]. pose proof Hs as (_ & ? & _ & Hi).
  assert (0 <= from (next s)) by (apply Z.div_pos; lia).
  rewrite search_spec by (done || lia). rewrite (lap_received s c B HL), picture_from_drop, Hf by lia.
  by destruct (picture_from (stream c) (mark c)).
Qed.

Lemma from_next s x : from (next (s <| next := (next s) <| index := 8 * x |> |>)) = x.
Proof. exact (from_bytes (next s) x). Qed.

Lemma nothing_found s c B :
  lap s c B -> picture_from (stream c) (mark c) = None ->
  tracks (s <| next := (next s) <| index := 8 * Z.max (writePos (next s) - 3) 0 |> |>) c.
Proof.
  intros HL Hnone. pose proof HL as [(HB & Hw) ((_ & Hwl & Hl & _) & _) _ Hroom _ (Hm & Hmark) _].
  exists B. split; [apply lap_index; [done|lia]|].
  intros u Hu. rewrite from_next.
  replace (B + Z.max (writePos (next s) - 3) 0) with (Z.max (Z.of_nat (length (stream c)) - 3) 0) by lia.
  by apply resume_end.
Qed.

(** Where the found picture lies. *)
Lemma found_bounds s c B j :
  lap s c B -> picture_from (stream c) (B + from (next s)) = picture_from (stream c) (mark c) ->
  picture_from (stream c) (mark c) = Some j ->
  picture_at (stream c) j = true /\ mark c <= j /\ B <= j /\ j + 4 <= Z.of_nat (length (stream c)) /\
  writePos (next s) = Z.of_nat (length (stream c)) - B /\ Z.of_nat (length (stream c)) - B <= socketBufferSize.
Proof.
  intros [(HB & Hw) ((_ & Hwl & _ & Hi) & Hsize) _ _ _ _ _] Hf Hj. rewrite Hj in Hf.
  assert (0 <= from (next s)) by (apply Z.div_pos; lia).
  pose proof (picture_from_spec (stream c) (B + from (next s))) as H1. rewrite Hf in H1.
  pose proof (picture_from_spec (stream c) (mark c)) as H2. rewrite Hj in H2.
  destruct H1 as (? & Hp & _), H2 as (? & _). pose proof (picture_at_in _ _ Hp). split; [done|lia].
Qed.

(** The stream behind a picture that was found, with the search at its header. *)
Lemma found_tracks s s' c B j i go :
  lap s c B -> picture_at (stream c) j = true -> B <= j ->
  next s' = (next s) <| index := i |> -> (i = 8 * (j - B + 4) \/ i = 8 * (j - B + 4) + 13) ->
  waitForIntraFrame s' = negb go -> (go = true -> chunkBegin s' = j - B + 4) ->
  tracks s' (Cut (stream c) (j + 4) go).
Proof.
  intros [(HB & Hw) ((Hby & Hwl & Hl & _) & Hsize) Hst Hroom _ _ _] Hj HBj Hn Hi Hwait Hcb.
  pose proof (picture_at_in _ _ Hj). exists B. split.
  - split; rewrite ?Hn; cbn; try done.
    + split; [|done]. repeat (split; [done|]). change (0 <= i < 268435456). lia.
    + split; [lia|]. right. by replace (j + 4 - 4) with j by lia.
    + intros Hgo. left. split; cbn; [lia|]. rewrite Hcb by done. lia.
  - intros u Hu. rewrite Hn. cbn [stream mark] in *.
    assert (picture_at (stream c ++ u) j = true) by (by rewrite picture_at_app by lia).
    destruct Hi as [-> | ->]; [rewrite from_bytes; f_equal; lia|].
    rewrite <- resume_type by done. f_equal. unfold from. cbn. unfold RecordSettersUsingExistingGetters.const.
    replace (8 * (j - B + 4) + 13 + 7) with (4 + (j - B + 6) * 8) by lia. rewrite Z.div_add by lia.
    change (4 / 8) with 0. lia.
Qed.

(** ** Handing out a picture *)

Lemma subarray_get a b e i :
  0 <= b -> tget (subarray a b e) i = if (0 <=? i) && (i <? e - b) then tget a (b + i) else None.
Proof.
  intros Hb. unfold subarray, tget. destruct (Z.leb_spec 0 i); [|done]. cbn [andb].
  destruct (Z.ltb_spec i (e - b)).
  - zknown. rewrite lookup_take_lt, lookup_drop by lia. f_equal. lia.
  - apply lookup_take_ge. lia.
Qed.

Lemma length_subarray a b e :
  0 <= b <= e -> e <= Z.of_nat (length a) -> Z.of_nat (length (subarray a b e)) = e - b.
Proof. intros. unfold subarray. rewrite length_take, length_drop. lia. Qed.

Lemma subarray_byte a b e : Forall byte a -> Forall byte (subarray a b e).
Proof. intros. by apply Forall_take, Forall_drop. Qed.

(** The decoder's buffer with a picture in it. *)
Definition holding (r : reader) (b : list Z) : Prop :=
  received r = b /\ index r = 0 /\ Forall byte (store r) /\ writePos r = Z.of_nat (length b) /\
  Z.of_nat (length (store r)) = socketBufferSize.

Lemma holding_intro st w b :
  (forall i, 0 <= i < w -> tget st i = tget b i) -> Z.of_nat (length b) = w -> Forall byte st ->
  Z.of_nat (length st) = socketBufferSize -> w <= socketBufferSize -> holding (Reader st w 0) b.
Proof.
  intros Hget Hlen Hb Hl Hw. split; [|by repeat split].
  assert (0 <= writePos (Reader st w 0) <= Z.of_nat (length (store (Reader st w 0)))) as Hin by (cbn; lia).
  pose proof (length_received _ Hin) as Hlr. cbn in Hlr. apply list_tget_eq; [lia|].
  intros i Hi. rewrite received_get by done. cbn. zknown. apply Hget. lia.
Qed.

Lemma load_here s c B j r :
  lap s c B -> chunk_here s c B -> mark c <= j -> B <= j -> j + 4 <= Z.of_nat (length (stream c)) ->
  Forall byte (store r) -> Z.of_nat (length (store r)) = socketBufferSize ->
  exists r', load s (j + 4 - B) r = Ok r' /\ holding r' (subarray (stream c) (mark c) (j + 4)).
Proof.
  intros [(HB & Hw) ((Hby & Hwl & _ & _) & Hsize) Hst _ _ (Hm & _) _] [H1 H2] Hmj HBj Hj Hb Hl.
  unfold load. rewrite H2. zknown.
  destruct (set_at_get (store r) (subarray (store (next s)) (mark c - B) (j + 4 - B)) 0)
    as (st & -> & Hlen & Hbs & Hget); [lia|rewrite length_subarray; lia|]. cbn.
  eexists. split; [done|]. apply holding_intro.
  - intros i Hi. rewrite Hget, length_subarray, !subarray_get by lia. zknown. cbn [andb].
    rewrite Hst by lia. f_equal. lia.
  - rewrite length_subarray; lia.
  - by apply Hbs; [|apply subarray_byte].
  - by rewrite Hlen.
  - lia.
Qed.

Lemma load_wrapped s c B j r :
  lap s c B -> chunk_wrapped s c B -> B <= j -> j + 4 <= Z.of_nat (length (stream c)) ->
  2 * (Z.of_nat (length (stream c)) - mark c) <= socketBufferSize ->
  Forall byte (store r) -> Z.of_nat (length (store r)) = socketBufferSize ->
  exists r', load s (j + 4 - B) r = Ok r' /\ holding r' (subarray (stream c) (mark c) (j + 4)).
Proof.
  intros [(HB & Hw) ((Hby & Hwl & _ & _) & Hsize) Hst _ _ (Hm & _) _]
    (H1 & B0 & H2 & H3 & H4 & H5 & H6 & H7) HBj Hj Hhalf Hb Hl.
  unfold load. rewrite H3, H4 in *. zknown.
  destruct (set_at_get (store r) (subarray (store (next s)) (mark c - B0) (B - B0)) 0)
    as (st & -> & Hlen & Hbs & Hget); [lia|rewrite length_subarray; lia|]. cbn.
  destruct (set_at_get st (subarray (store (next s)) 0 (j + 4 - B)) (B - B0 - (mark c - B0)))
    as (st' & -> & Hlen' & Hbs' & Hget'); [lia|rewrite length_subarray; lia|]. cbn.
  eexists. split; [done|]. apply holding_intro.
  - intros i Hi. rewrite Hget', Hget, !length_subarray, !subarray_get by lia.
    destruct (Z.leb_spec (B - B0 - (mark c - B0)) i); zknown; cbn [andb].
    + rewrite Hst by lia. f_equal. lia.
    + rewrite H7 by lia. f_equal. lia.
  - rewrite length_subarray; lia.
  - apply Hbs'; [|by apply subarray_byte]. by apply Hbs; [|apply subarray_byte].
  - by rewrite Hlen', Hlen.
  - lia.
Qed.

(** The type that is read behind a start code, 0 behind the end of the buffer. *)
Lemma type_bits n q :
  0 <= q < 16777216 -> Forall byte (store n) ->
  nextBits (advance (n <| index := 8 * q |>) 10) 3 = Z.land (Z.shiftr (default 0 (tget (store n) (q + 1))) 3) 7.
Proof.
  intros Hq Hb. unfold nextBits, advance. cbn. unfold RecordSettersUsingExistingGetters.const.
  assert (byte (default 0 (tget (store n) (q + 1)))) as Hy.
  { destruct (tget (store n) (q + 1)) eqn:E; [by eapply tget_byte|done]. }
  assert (shr (8 * q + 10) 3 = q + 1) as ->.
  { rewrite shr_div by lia. replace (8 * q + 10) with (2 + (q + 1) * 2 ^ 3) by lia.
    rewrite Z.div_add by lia. done. }
  assert (Z.rem (8 * q + 10) 8 = 2) as ->.
  { rewrite Z.rem_mod_nonneg by lia. replace (8 * q + 10) with (2 + (q + 1) * 8) by lia. by rewrite Z.mod_add. }
  change (3 <=? 8 - 2) with true. unfold byte_at. cbn iota.
  change (tget (store _) (q + 1)) with (tget (store n) (q + 1)). unfold int, shr, byte in *.
  generalize dependent (default 0 (tget (store n) (q + 1))). intros y Hy. by rewrite !(s32_small y) by lia.
Qed.

(** Before the first intra picture, the type of the picture that was found decides. *)
Lemma waiting_step s t mk B j :
  lap s (Cut t mk false) B -> picture_at t j = true -> B <= j -> j + 6 <= Z.of_nat (length t) ->
  Z.of_nat (length t) - B <= socketBufferSize ->
  let '(type, n) := getBits (advance ((next s) <| index := 8 * (j - B + 4) |>) 10) 3 in
  let s := s <| next := (next s) <| index := 8 * (j - B + 4) |> |> <| next := n |> in
  tracks (if type =? PICTURE_TYPE_I
          then s <| waitForIntraFrame := false |> <| chunkBegin := shr (index n - 13) 3 |> else s)
    (Cut t (j + 4) (intra_at t j)).
Proof.
  intros HL Hp HBj Hj Hsz. unfold socketBufferSize in Hsz.
  pose proof HL as [(HB & Hw) ((Hby & _) & Hsize) Hst _ Hwait _ _]. cbn [stream started] in *.
  assert (tget (store (next s)) (j - B + 4 + 1) = Some (aget t (j + 5))) as Hy.
  { rewrite Hst by lia. rewrite <- tget_in by lia. f_equal. lia. }
  unfold getBits. rewrite type_bits, Hy by (done || lia). change (default 0 (Some ?y)) with y. rewrite advance_advance.
  assert (intra_at t j = (Z.land (Z.shiftr (aget t (j + 5)) 3) 7 =? PICTURE_TYPE_I)) as ->.
  { unfold intra_at. by rewrite tget_in by lia. }
  assert (shr (8 * (j - B + 4) + 10 + 3 - 13) 3 = j - B + 4) as Hb.
  { replace (8 * (j - B + 4) + 10 + 3 - 13) with ((j - B + 4) * 2 ^ 3) by lia. rewrite shr_div by lia.
    apply Z.div_mul. lia. }
  destruct (_ =? PICTURE_TYPE_I); eapply (found_tracks s _ (Cut t mk false) B j); try done; try (by right).
  intros _. etransitivity; [|exact Hb]. change (shr (8 * (j - B + 4) + (10 + 3) - 13) 3 = shr (8 * (j - B + 4) + 10 + 3 - 13) 3).
  by rewrite Z.add_assoc.
Qed.

(** One message, seen by the receiving half of the player. *)
Lemma scan_step s c m :
  tracks s c -> acceptable s c m ->
  match cutter m c with
  | (c', None) => exists s', scan_message m s = (s', NoPicture) /\ tracks s' c'
  | (c', Some b) => exists s' e, scan_message m s = (s', Found e) /\
      tracks (s' <| chunkBegin := e |>) c' /\
      forall r, Forall byte (store r) -> Z.of_nat (length (store r)) = socketBufferSize ->
        exists r', load s' e r = Ok r' /\ holding r' b
  end.
Proof.
  intros (B & HL & HR) HA. destruct (append_lap s c B m HL HR HA) as (s1 & B1 & E & HL1 & Hf).
  unfold scan_message. rewrite E. cbn [negb].
  pose proof (lap_search _ _ _ HL1 Hf) as Hs. cbn [stream mark] in Hs. rewrite Hs.
  pose proof (fun j => found_bounds _ _ _ j HL1 Hf) as Hfb. cbn [stream mark] in Hfb.
  unfold cutter. cbn zeta. destruct (picture_from (stream c ++ m) (mark c)) as [j|] eqn:Ej.
  2:{ eexists. split; [done|]. by apply nothing_found with (B := B1). }
  destruct (Hfb j eq_refl) as (Hp & Hmj & HBj & Hjl & Hw & Hsz). clear Hfb.
  pose proof HL1 as [(HB1 & _) (Hsized & Hsize) Hst _ Hwait _ Hch]. cbn [stream started] in *.
  pose proof HA as [_ _ As Aw _]. unfold socketBufferSize in Hsz.
  change (waitForIntraFrame (s1 <| next := _ |>)) with (waitForIntraFrame s1).
  rewrite Hwait. destruct (started c) eqn:Hgo; cbn [negb].
  - assert (shr (index ((next s1) <| index := 8 * (j - B1 + 4) |>)) 3 = j + 4 - B1) as He.
    { change (shr (8 * (j - B1 + 4)) 3 = j + 4 - B1). rewrite shr_div by lia.
      rewrite Z.mul_comm, Z.div_mul by lia. lia. }
    exists (s1 <| next := (next s1) <| index := 8 * (j - B1 + 4) |> |>), (j + 4 - B1).
    split; [by rewrite <- He|]. split.
    + eapply (found_tracks s1 _ (Cut (stream c ++ m) (mark c) true) B1 j); try done; [by left|].
      change (true = true -> j + 4 - B1 = j - B1 + 4). lia.
    + intros r Hb Hl. destruct (Hch eq_refl) as [Hh|Hh].
      * by apply (load_here _ (Cut (stream c ++ m) (mark c) true)); [apply lap_index; [done|lia]|..].
      * by apply (load_wrapped _ (Cut (stream c ++ m) (mark c) true)); [apply lap_index; [done|lia]|..].
  - specialize (Aw eq_refl j Hp). eexists. split; [done|].
    by apply (waiting_step s1 (stream c ++ m) (mark c) B1 j).
Qed.

(** ** The player *)

Record follows (p : player) (c : cut) : Prop := {
  fo_src : tracks (src p) c;
  fo_video : wf (video p);
  fo_buffer : Z.of_nat (length (store (buffer (video p)))) = socketBufferSize }.

Lemma init_wf w h j : wf j -> wf (initBuffers w h j) /\ buffer (initBuffers w h j) = buffer j.
Proof.
  intros [H1 H2 H3 H4 [H5 H5'] H6 H7]. unfold initBuffers. cbn zeta. case_match; (split; [|done]); [by split|].
  split; try done; try apply new_frame_bytes.
  split; [apply Forall_replicate; unfold byte; lia|apply zeros_byte].
Qed.

Lemma header_wf data j : wf j -> wf (decodeSocketHeader data j) /\ buffer (decodeSocketHeader data j) = buffer j.
Proof. intros Hj. unfold decodeSocketHeader. cbn zeta. case_match; [by apply init_wf|done]. Qed.

Lemma chunk_not_short m c c' b : cutter m c = (c', Some b) -> 0 <= mark c -> 4 <= Z.of_nat (length b).
Proof.
  unfold cutter. cbn zeta. pose proof (picture_from_spec (stream c ++ m) (mark c)) as H.
  destruct (picture_from _ _) as [j|]; [|done]. destruct H as (? & Hp & _). apply picture_at_in in Hp.
  destruct (started c); [|done]. intros [= <- <-] Hm. rewrite length_subarray; lia.
Qed.

Lemma holding_wf r b j : holding r b -> 4 <= Z.of_nat (length b) -> wf j -> wf (j <| buffer := r |>).
Proof.
  intros (Hr & Hi & Hb & Hw & Hl) Hlen [H1 H2 H3 H4 H5 H6 H7]. split; try done.
  change (ready r). unfold socketBufferSize in Hl. split; [split; [done|lia]|]. split; [|lia].
  rewrite Hw. split; [done|]. rewrite <- Hr. unfold received. rewrite length_take. lia.
Qed.

Lemma follows_empty z :
  Forall byte z -> Z.of_nat (length z) = socketBufferSize ->
  follows (Player (new_jsmpeg <| buffer := new_reader z |>) (Source (Reader z 0 0) 0 0 true) false 0)
    (Cut [] 0 false).
Proof.
  unfold socketBufferSize. intros Hz Hl. split.
  - exists 0. split; [|by intros u _].
    split; cbn; try lia; try done.
    split; [|done]. split; [done|]. cbn. lia.
  - split; try done. split; [by split|]. cbn. lia.
  - done.
Qed.

Lemma follows_init : follows (initSocketClient new_jsmpeg) (Cut [] 0 false).
Proof. apply follows_empty; [apply zeros_byte|by apply length_zeros]. Qed.

(** A message that brings no picture, and one that brings a picture [b] when the
    last one is out of the way. *)
Lemma message_step fuel m p c v :
  follows p c -> acceptable (src p) c m ->
  v = (if sequenceStarted (video p) then video p else decodeSocketHeader m (video p)) ->
  match cutter m c with
  | (c', None) => exists p', receiveSocketMessage fuel m p = Returns p' /\ follows p' c' /\ video p' = v /\
      frames p' = frames p /\ currentPictureDecoded p' = currentPictureDecoded p
  | (c', Some b) =>
      match (if currentPictureDecoded p then Some v else decodePicture fuel true v) with
      | None => receiveSocketMessage fuel m p = Decoding
      | Some v' => exists p' r, receiveSocketMessage fuel m p = Returns p' /\ follows p' c' /\
          video p' = v' <| buffer := r |> /\ holding r b /\ frames p' = S (frames p) /\
          currentPictureDecoded p' = false
      end
  end.
Proof.
  intros [Ht Hv Hb] Ha Ev. pose proof (scan_step (src p) c m Ht Ha) as Hs.
  assert (wf v /\ buffer v = buffer (video p)) as [Hwf Hbuf].
  { subst v. destruct (sequenceStarted (video p)); [done|]. by apply header_wf. }
  assert (0 <= mark c) as Hm by (destruct Ht as (B & [_ _ _ _ _ ? _] & _); lia).
  unfold receiveSocketMessage. rewrite <- Ev. destruct (cutter m c) as [c' [b|]] eqn:Ec.
  2:{ destruct Hs as (s' & -> & Ht'). eexists. split; [done|]. split; [|done].
      split; [done|done|]. change (Z.of_nat (length (store (buffer v))) = socketBufferSize). by rewrite Hbuf. }
  destruct Hs as (s' & e & -> & Ht' & Hload).
  assert (forall v', (if currentPictureDecoded p then Some v else decodePicture fuel true v) = Some v' ->
    wf v' /\ store (buffer v') = store (buffer (video p))) as Hv'.
  { intros v' E. rewrite <- Hbuf. destruct (currentPictureDecoded p); [by simplify_eq|].
    apply decodePicture_kept in E as [? Ho]; [|done]. split; [done|]. by injection Ho. }
  destruct (if currentPictureDecoded p then Some v else _) as [v'|]; [|done].
  destruct (Hv' v' eq_refl) as [Hwf' Hst].
  destruct (Hload (buffer v')) as (r & -> & Hr); [apply Hwf'|by rewrite Hst|].
  eexists _, r. split; [done|]. split; [|done].
  pose proof (chunk_not_short _ _ _ _ Ec Hm). split; [done|by apply (holding_wf r b)|].
  apply Hr.
Qed.

(** C4: the ring buffer cuts the stream into its pictures.  Started empty, the
    player follows the specification that sees the whole stream: after each
    acceptable message (bytes; with the unfinished picture at most half of the
    buffer; every picture with a type; the first type in one message with its start
    code; no start code across the wrap-around) it still does, it never throws, and it hands the decoder
    exactly the bytes between two picture start codes, also when they lie on
    both sides of the wrap-around.  It returns unless the picture before is
    still being decoded. *)
Theorem socket_refines_cutter fuel m p c :
  follows p c -> acceptable (src p) c m ->
  match receiveSocketMessage fuel m p with
  | Returns p' => follows p' (cutter m c).1 /\
      match (cutter m c).2 with
      | Some b => holding (buffer (video p')) b /\ frames p' = S (frames p) /\ currentPictureDecoded p' = false
      | None => buffer (video p') = buffer (video p) /\ frames p' = frames p /\
                currentPictureDecoded p' = currentPictureDecoded p
      end
  | Throws _ => False
  | Decoding => currentPictureDecoded p = false /\ is_Some (cutter m c).2 /\
      decodePicture fuel true (if sequenceStarted (video p) then video p else decodeSocketHeader m (video p)) = None
  end.
Proof.
  intros Hf Ha. pose proof (message_step fuel m p c _ Hf Ha eq_refl) as H.
  destruct (cutter m c) as [c' [b|]].
  - destruct (currentPictureDecoded p) eqn:Hd.
    + destruct H as (p' & r & -> & ? & -> & ?). done.
    + destruct (decodePicture _ _ _) as [v|] eqn:Ev; [destruct H as (p' & r & -> & ? & -> & ?); done|].
      rewrite H. split; [done|]. by split; [eexists|].
  - destruct H as (p' & -> & ? & -> & ? & ?). split; [done|]. split; [|done].
    destruct (sequenceStarted (video p)); [done|]. by apply header_wf, Hf.
Qed.

Definition demo_start : list Z := [9; 0; 0; 1; 0; 0; 8; 7].

(** The start code and the header of an intra picture in the first message. *)
Lemma socket_refines_cutter_witness :
  match receiveSocketMessage 1 demo_start (initSocketClient new_jsmpeg) with
  | Returns p' => follows p' (Cut demo_start 5 true) /\ frames p' = 0%nat
  | _ => False
  end.
Proof.
  assert (cutter demo_start (Cut [] 0 false) = (Cut demo_start 5 true, None)) as Ec by (vm_compute; reflexivity).
  assert (acceptable (src (initSocketClient new_jsmpeg)) (Cut [] 0 false) demo_start) as Ha.
  { assert (forall j, picture_at demo_start j = true -> j = 1) as Hj.
    { intros j Hj. pose proof (picture_at_in _ _ Hj) as [? Hl]. change (Z.of_nat (length demo_start)) with 8 in Hl.
      assert (j = 0 \/ j = 1 \/ j = 2 \/ j = 3 \/ j = 4) as [-> | [-> | [-> | [-> | ->]]]] by lia; done. }
    split; cbn [stream mark started app]; try done.
    - decide_bytes.
    - intros j y Hp Hy. apply Hj in Hp as ->. vm_compute in Hy. by simplify_eq.
    - intros _ j Hp. apply Hj in Hp as ->. by vm_compute. }
  pose proof (socket_refines_cutter 1 demo_start _ _ follows_init Ha) as H. rewrite Ec in H.
  destruct (receiveSocketMessage 1 demo_start _); [|done|].
  - destruct H as (Hf & _ & Hfr & _). by split.
  - destruct H as (_ & [? ?] & _). done.
Defined.
