(* ===== verification/VideoSession.v ===== *)
(** * From the encoder to the canvas

    The worker of the web server (WebServer.v), the receiving half of the
    browser's player (PicturePlayer.v) and the decoder (MpegFilm.v) together:
    pictures that arrive at the worker, one per chunk, appear on the canvas of
    a browser that has connected, for as long as the session lasts. *)

From coqutil Require Import Datatypes.RecordSettersUsingExistingGetters.
From S2P Require Import Prelude CString JsArray MpegTables BitReader MpegBlock MpegDecoder Canvas.
From S2P Require Import MpegStream MpegPicture MpegCoefficients MpegCells MpegFilm WebServer PicturePlayer.

(** ** Pictures as chunks of the stream *)

(** A picture with its start code. *)
Definition chunk (pic : shot) : list Z := [0; 0; 1; START_PICTURE] ++ body pic.

(** A picture of the size the stream header announces.  Two of them fit into half
    of the ring buffer. *)
Record full_size (pic : shot) : Prop := {
  fs_size : of_size 768 1280 pic;
  fs_body : Z.of_nat (length (body pic)) <= 130000 }.

(** ** Encoded pictures contain no picture start code *)

(** No picture start code begins in [l], whatever start code follows. *)
Definition quiet (l : list Z) : Prop :=
  forall rest i, 0 <= i < Z.of_nat (length l) -> picture_at (l ++ 0 :: 0 :: 1 :: rest) i = false.

Lemma picture_at_shift t u i : 0 <= i -> picture_at (t ++ u) (Z.of_nat (length t) + i) = picture_at u i.
Proof.
  intros Hi. unfold picture_at. rewrite <- !Z.add_assoc. by rewrite !tget_app_r by lia.
Qed.

(** The start code of a slice. *)
Lemma quiet_join l1 l2 k : quiet l1 -> quiet l2 -> k <> 0 -> quiet (l1 ++ [0; 0; 1; k] ++ l2).
Proof.
  intros H1 H2 Hk rest i Hi. rewrite !length_app in Hi. cbn [length] in Hi. rewrite <- !app_assoc.
  destruct (Z.lt_ge_cases i (Z.of_nat (length l1))); [apply (H1 (k :: l2 ++ 0 :: 0 :: 1 :: rest)); lia|].
  replace i with (Z.of_nat (length l1) + (i - Z.of_nat (length l1))) by lia.
  rewrite picture_at_shift by lia. set (i' := i - Z.of_nat (length l1)). assert (0 <= i') by lia.
  destruct (Z.lt_ge_cases i' 4).
  - assert (i' = 0 \/ i' = 1 \/ i' = 2 \/ i' = 3) as [-> | [-> | [-> | ->]]] by lia; unfold picture_at; cbn;
      try done; by rewrite ?(bool_decide_eq_false_2 (Some k = Some 0)) by congruence.
  - replace i' with (Z.of_nat (length [0; 0; 1; k]) + (i' - 4)) by (cbn; lia).
    rewrite picture_at_shift by lia. apply H2. lia.
Qed.

Definition bit_at (w : list bool) (k : nat) : bool := default false (w !! k).

(** The bits of a packed byte. *)
Lemma pack_n_get n w i x : pack_n n w !! i = Some x -> x = byte_of (take 8 (drop (8 * i) w)).
Proof.
  revert w i. induction n as [|n IH]; intros w [|i] Hx; cbn in Hx; try done; [by simplify_eq|].
  apply IH in Hx as ->. rewrite drop_drop. do 3 f_equal. lia.
Qed.

Lemma pack_bits w i x :
  pack w !! i = Some x -> forall k, (k < 8)%nat -> bit_at w (8 * i + k) = Z.testbit x (7 - Z.of_nat k).
Proof.
  intros Hi k Hk. apply pack_n_get in Hi as ->. rewrite byte_of_bit by done.
  unfold bit_at. by rewrite lookup_take_lt, lookup_drop by lia.
Qed.

(** The three bytes of a start code prefix would be 23 zeros and a one. *)
Lemma quiet_pack w : calm_to 0 12 w = true -> quiet (pack w).
Proof.
  intros Hc rest i Hi. destruct (picture_at _ i) eqn:E; [exfalso|done].
  unfold picture_at in E. rewrite !andb_true_iff, !bool_decide_eq_true in E. destruct E as [[[E0 E1] E2] _].
  destruct (Z.lt_ge_cases (i + 2) (Z.of_nat (length (pack w)))) as [Hl|Hl].
  2:{ assert (i + 2 = Z.of_nat (length (pack w)) + 0 \/ i + 2 = Z.of_nat (length (pack w)) + 1) as [E|E] by lia;
        by rewrite E, tget_app_r in E2 by lia. }
  rewrite tget_app_l in E0, E1, E2 by lia. unfold tget in *.
  destruct (Z.leb_spec 0 i); [|lia]. destruct (Z.leb_spec 0 (i + 1)); [|lia]. destruct (Z.leb_spec 0 (i + 2)); [|lia].
  set (n := Z.to_nat i) in *. replace (Z.to_nat (i + 1)) with (n + 1)%nat in E1 by lia.
  replace (Z.to_nat (i + 2)) with (n + 2)%nat in E2 by lia.
  pose proof (pack_bits _ _ _ E0) as B0. pose proof (pack_bits _ _ _ E1) as B1. pose proof (pack_bits _ _ _ E2) as B2.
  assert (8 * (n + 2) + 7 < length w)%nat as Hlen.
  { specialize (B2 7%nat ltac:(lia)). change (Z.testbit 1 _) with true in B2. unfold bit_at in B2.
    destruct (w !! (8 * (n + 2) + 7)%nat) eqn:Ew; [|done]. by apply lookup_lt_Some in Ew. }
  destruct (calm_zeros w (8 * n) 23 Hc) as [H23 _]; [|lia]. intros k Hk.
  assert (bit_at w k = false) as Hb.
  { destruct (Nat.lt_ge_cases k (8 * n + 8)); [|destruct (Nat.lt_ge_cases k (8 * n + 16))].
    - replace k with (8 * n + (k - 8 * n))%nat by lia. rewrite B0 by lia. apply Z.testbit_0_l.
    - replace k with (8 * (n + 1) + (k - 8 * n - 8))%nat by lia. rewrite B1 by lia. apply Z.testbit_0_l.
    - replace k with (8 * (n + 2) + (k - 8 * n - 16))%nat by lia. rewrite B2 by lia.
      apply Z.bits_above_log2; cbn; lia. }
  destruct (lookup_lt_is_Some_2 w k) as [b Eb]; [lia|]. unfold bit_at in Hb. rewrite Eb in *. by cbn in Hb; subst.
Qed.

Lemma quiet_slices {R} (encr : R -> list bool) q k l rs :
  1 <= k -> quiet l -> Forall (fun row => quiet (pack (slice_bits encr q row))) rs -> quiet (l ++ slice_bytes encr q k rs).
Proof.
  intros Hk Hl Hrs. revert k l Hk Hl. induction Hrs as [|row rs Hr _ IH]; intros k l Hk Hl; cbn [slice_bytes].
  - by rewrite app_nil_r.
  - rewrite !app_assoc. rewrite <- (app_assoc l). apply IH; [lia|]. by apply quiet_join; [| |lia].
Qed.

Lemma quiet_row pic row n :
  0 <= quantizer pic < 32 -> (rsize_of (s_kind pic) <= 6)%nat -> row_ok pic n row ->
  quiet (pack (slice_bits (enc_row pic) (quantizer pic) row)).
Proof.
  intros Hq Hr6 [_ Hc _ _]. apply quiet_pack. unfold slice_bits. rewrite app_assoc.
  assert (all_below 32 (fun q => calm_to 0 12 (write 5 q ++ [false])) = true) as Hall by (vm_compute; reflexivity).
  apply (all_below_spec _ _ (quantizer pic)) in Hall; [|lia].
  apply calm_to_app with (b := 12%nat); [exact Hall|].
  apply cells_calm; [apply kind_type|done|done|by apply ctx_start_ok with (rsize := rsize_of (s_kind pic))|lia|done].
Qed.

(** ** The body of a picture *)

(** The header: a picture type other than zero, and no byte that could end a start
    code prefix. *)
Lemma header_bytes pic :
  0 <= pel_of (s_kind pic) < 2 ->
  exists b0 b1 b2 b3 bs, pack (picture_header pic) = b0 :: b1 :: b2 :: b3 :: bs /\
    (8 <= b1 /\ Z.land (Z.shiftr b1 3) 7 = type_of_kind (s_kind pic)) /\ (bs = [] \/ exists b4, bs = [b4] /\ b4 <> 1).
Proof.
  intros Hfp. unfold picture_header. destruct (s_kind pic) as [|fp rsize]; do 5 eexists; (split; [reflexivity|]).
  - split; [|by left].
    match goal with |- 8 <= byte_of ?w /\ _ => let w' := eval cbn in w in change w with w' end.
    match goal with |- context [byte_of [?a; ?b; _; _; _; ?c; ?d; ?e]] => destruct a, b, c, d, e end; by vm_compute.
  - split.
    + match goal with |- 8 <= byte_of ?w /\ _ => let w' := eval cbn in w in change w with w' end.
      match goal with |- context [byte_of [?a; ?b; _; _; _; ?c; ?d; ?e]] => destruct a, b, c, d, e end; by vm_compute.
    + right. eexists. split; [reflexivity|].
      match goal with |- byte_of ?w <> _ => let w' := eval cbn in w in change w with w' end.
      match goal with |- context [byte_of (?a :: _)] => destruct a end; by vm_compute.
Qed.

Lemma byte_of_byte w : byte (byte_of w).
Proof.
  unfold byte_of, byte. cbv zeta.
  repeat match goal with |- context [b2z ?b] => pose proof (b2z_range b); generalize dependent (b2z b); intros end. lia.
Qed.

Lemma pack_bytes w : Forall byte (pack w).
Proof.
  unfold pack. generalize ((length w + 7) / 8)%nat. intros n. revert w.
  induction n as [|n IH]; intros w; cbn [pack_n]; constructor; [apply byte_of_byte|done].
Qed.

Lemma slices_bytes {R} (encr : R -> list bool) q k rs :
  1 <= k -> k + Z.of_nat (length rs) <= 256 -> Forall byte (slice_bytes encr q k rs).
Proof.
  revert k. induction rs as [|row rs IH]; intros k Hk Hl; cbn [slice_bytes length] in *; [constructor|].
  rewrite !Forall_app. split; [repeat constructor; unfold byte; lia|].
  split; [apply pack_bytes|apply IH; lia].
Qed.

Lemma body_bytes pic : Z.of_nat (length (rows pic)) <= 255 -> Forall byte (body pic).
Proof. intros Hl. unfold body. rewrite Forall_app. split; [apply pack_bytes|]. apply slices_bytes; lia. Qed.

Section Body.
Context (w h : Z) (pic : shot) (Hpic : of_size w h pic).

Lemma length_body : 4 <= Z.of_nat (length (body pic)).
Proof using Type. unfold body. rewrite length_app, length_header. destruct (s_kind pic); lia. Qed.

Lemma body_type :
  exists y, tget (body pic) 1 = Some y /\ 8 <= y /\ Z.land (Z.shiftr y 3) 7 = type_of_kind (s_kind pic).
Proof.
  unfold body. destruct (header_bytes pic) as (b0 & b1 & b2 & b3 & bs & -> & (? & ?) & _); [apply Hpic|]. by exists b1.
Qed.

Lemma quiet_body : quiet (body pic).
Proof.
  destruct Hpic as [[Hfp Hr6] Hq Hrows _]. unfold body. apply quiet_slices; [lia| |].
  2:{ eapply Forall_impl; [exact Hrows|]. intros row Hrow. by eapply quiet_row. }
  destruct (header_bytes pic Hfp) as (b0 & b1 & b2 & b3 & bs & -> & (Hb & _) & Hbs).
  intros rest i Hi. unfold picture_at.
  assert (i = 0 \/ i = 1 \/ i = 2 \/ i = 3 \/ i = 4) as Hc by (destruct Hbs as [-> | (b4 & -> & _)]; cbn [length] in Hi; lia).
  destruct Hbs as [-> | (b4 & -> & H4)], Hc as [-> | [-> | [-> | [-> | ->]]]]; cbn; try (cbn in Hi; lia);
    rewrite ?(bool_decide_eq_false_2 (Some b1 = Some 0)) by (intros [=]; lia); try done;
    by rewrite ?(bool_decide_eq_false_2 (Some 0 = Some 1)), ?(bool_decide_eq_false_2 (Some b4 = Some 1)), ?andb_false_r by congruence.
Qed.
End Body.

(** ** The stream of a session *)

(** Every picture start code of the stream is followed by a type. *)
Definition closed (t : list Z) : Prop :=
  forall rest j, picture_at (t ++ 0 :: 0 :: 1 :: rest) j = true -> j < Z.of_nat (length t) ->
    exists y, tget t (j + 5) = Some y /\ 8 <= y.

Lemma closed_typed t : closed t -> typed t.
Proof.
  intros Hc j y Hj Hy. pose proof (picture_at_in _ _ Hj).
  destruct (Hc [] j) as (y' & Hy' & ?); [by rewrite picture_at_app by lia|lia|]. congruence.
Qed.

Lemma quiet_closed t : quiet t -> closed t.
Proof.
  intros Hq rest j Hj Hl. pose proof (picture_at_in _ _ Hj). by rewrite Hq in Hj by lia.
Qed.

Lemma closed_chunk w h t pic : of_size w h pic -> closed t -> closed (t ++ chunk pic).
Proof.
  intros Hpic Hc rest j Hj Hl. unfold chunk in *. rewrite <- !app_assoc in Hj.
  pose proof (picture_at_in _ _ Hj) as [Hj0 _]. rewrite !length_app in Hl. cbn [length] in Hl.
  destruct (body_type w h pic Hpic) as (y & Hy & Hy8 & _).
  destruct (Z.lt_ge_cases j (Z.of_nat (length t))).
  { destruct (Hc (START_PICTURE :: body pic ++ 0 :: 0 :: 1 :: rest) j) as (y' & Hy' & ?); [done|done|].
    exists y'. split; [|done]. rewrite tget_app_l; [done|]. unfold tget in Hy'. case_match; [|done].
    apply lookup_lt_Some in Hy'. lia. }
  replace j with (Z.of_nat (length t) + (j - Z.of_nat (length t))) in * by lia.
  rewrite picture_at_shift in Hj by lia. set (i := j - Z.of_nat (length t)) in *. assert (0 <= i) by lia. clearbody i.
  destruct (Z.lt_ge_cases i 4) as [Hi|Hi].
  - assert (tget ([0; 0; 1; START_PICTURE] ++ body pic ++ 0 :: 0 :: 1 :: rest) 5 = Some y) as Hy'.
    { change 5 with (Z.of_nat (length [0; 0; 1; START_PICTURE]) + 1). rewrite tget_app_r by lia.
      rewrite tget_app_l; [done|]. pose proof (length_body pic). lia. }
    destruct (Z.eq_dec i 0) as [->|].
    { exists y. split; [|done]. rewrite <- Z.add_assoc, tget_app_r by lia. rewrite <- Hy.
      change (0 + 5) with (Z.of_nat (length [0; 0; 1; START_PICTURE]) + 1). by rewrite tget_app_r by lia. }
    exfalso. unfold picture_at in Hj. rewrite !andb_true_iff, !bool_decide_eq_true in Hj. destruct Hj as [[[E0 E1] E2] _].
    assert (i = 1 \/ i = 2 \/ i = 3) as [-> | [-> | ->]] by lia; [done|done|].
    change (3 + 2) with 5 in E2. rewrite Hy' in E2. by simplify_eq.
  - exfalso. replace i with (Z.of_nat (length [0; 0; 1; START_PICTURE]) + (i - 4)) in Hj by (cbn; lia).
    rewrite picture_at_shift in Hj by lia. rewrite (quiet_body w h pic Hpic) in Hj by lia. done.
Qed.

(** ** A session *)

(** What happens in the browser, in any order: a message comes, or an animation
    frame runs the callbacks requested up to then. *)
Inductive happening := Message (m : list Z) | AnimationFrame.

Fixpoint run_callbacks (n fuel : nat) (p : player) : option player :=
  match n with
  | O => Some p
  | S n' => scheduleDecoding fuel p ≫= run_callbacks n' fuel
  end.

Definition happen (fuel : nat) (h : happening) (p : player) : option player :=
  match h with
  | Message m =>
      match receiveSocketMessage fuel m p with
      | Returns p => Some p
      | Throws _ | Decoding => None
      end
  | AnimationFrame => run_callbacks (frames p) fuel p
  end.

Fixpoint watch (fuel : nat) (hs : list happening) (p : player) : option player :=
  match hs with
  | [] => Some p
  | h :: hs' => happen fuel h p ≫= watch fuel hs'
  end.

Fixpoint messages (hs : list happening) : list (list Z) :=
  match hs with
  | [] => []
  | Message m :: hs' => m :: messages hs'
  | AnimationFrame :: hs' => messages hs'
  end.

(** At most two messages come between two animation frames ([k] have come since
    the last one). *)
Fixpoint unhurried (k : nat) (hs : list happening) : bool :=
  match hs with
  | [] => true
  | Message _ :: hs' => (k <? 2)%nat && unhurried (S k) hs'
  | AnimationFrame :: hs' => unhurried 0 hs'
  end.

(** The planes of a session's pictures. *)
Definition screen_paint : frame -> shot -> frame :=
  paint 768 1280 DEFAULT_INTRA_QUANT_MATRIX DEFAULT_NON_INTRA_QUANT_MATRIX.

Lemma screen_paint_eq fr pic :
  paint 768 1280 DEFAULT_INTRA_QUANT_MATRIX DEFAULT_NON_INTRA_QUANT_MATRIX fr pic = screen_paint fr pic.
Proof. reflexivity. Qed.

Lemma screen_paint_key fr fr' pic :
  of_size 768 1280 pic -> s_kind pic = Key -> screen_paint fr pic = screen_paint fr' pic.
Proof. intros Hp Hk. apply paint_key; [by vm_compute|exact Hp|exact Hk]. Qed.

#[local] Opaque paint screen_paint.

Definition screen (j : jsmpeg) : Prop :=
  sequenceStarted j = true /\ geo j = new_geometry 768 1280 /\ fits (geo j) (current j) /\
  Z.of_nat (length (currentRGBA j)) = 4 * 768 * 1280 /\
  matrices j = (DEFAULT_INTRA_QUANT_MATRIX, DEFAULT_NON_INTRA_QUANT_MATRIX).

Lemma screen_outline j j' : screen j -> outline j' = outline j -> matrices j' = matrices j -> screen j'.
Proof.
  intros (H1 & H2 & H3 & H4 & H5) Ho Hm. unfold outline in Ho.
  apply pair_equal_spec in Ho as [Ho Hl]. apply pair_equal_spec in Ho as [Ho Hsh].
  apply pair_equal_spec in Ho as [Ho Hs]. apply pair_equal_spec in Ho as [_ Hg].
  unfold screen. rewrite Hs, Hg, Hl, Hm. repeat (split; [done|]). split; [|done]. by eapply fits_shape, H3.
Qed.

Lemma screen_decoded fuel skip j j' :
  screen j -> wf j -> decodePicture fuel skip j = Some j' -> screen j' /\ wf j' /\ outline j' = outline j.
Proof.
  intros Hs Hwf E. destruct (decodePicture_kept _ _ _ _ Hwf E) as [Hwf' Ho].
  split; [|done]. by eapply screen_outline, matrices_kept.
Qed.

(** A decoder without a picture in its buffer: the type it reads is 0. *)
Lemma nothing_decoded fuel skip j q :
  index (buffer j) = 8 * q -> 0 <= q < 16777216 -> Forall byte (store (buffer j)) ->
  tget (store (buffer j)) (q + 1) = Some 0 ->
  exists j', decodePicture fuel skip j = Some j' /\ forward j' = forward j /\ canvas j' = canvas j.
Proof.
  intros Hi Hq Hb H0. unfold decodePicture, getBits.
  change (buffer (j <| currentFrame := _ |>)) with (buffer j).
  assert (nextBits (advance (buffer j) 10) 3 = 0) as ->.
  { replace (buffer j) with ((buffer j) <| index := 8 * q |>) by (rewrite <- Hi; by destruct (buffer j)).
    rewrite type_bits by done. by rewrite H0. }
  eexists. split; [reflexivity|done].
Qed.

Lemma follows_decoded fuel skip p c v b n :
  follows p c -> decodePicture fuel skip (video p) = Some v -> follows (Player v (src p) b n) c.
Proof.
  intros [F1 F2 F3] E. destruct (decodePicture_kept _ _ _ _ F2 E) as [Hwf Ho].
  split; cbn [src video]; [done|done|]. unfold outline in Ho.
  do 5 apply pair_equal_spec in Ho as [Ho _]. by rewrite Ho.
Qed.

(** How far the decoder is.  No picture has been handed to it; or one has,
    animation frames have been requested, and drawing it gives the planes
    [shown]; or it is on the canvas. *)
Definition fresh (p : player) (pic : shot) : Prop :=
  frames p = 0%nat /\ currentPictureDecoded p = false /\ s_kind pic = Key /\
  exists z, buffer (video p) = new_reader z /\ Forall byte z /\ tget z 1 = Some 0.

Definition loaded (p : player) (k : nat) (shown : frame) : Prop :=
  (1 <= frames p <= k)%nat /\ currentPictureDecoded p = false /\
  exists prev, full_size prev /\ holding (buffer (video p)) (enc prev START_PICTURE) /\
    screen_paint (forward (video p)) prev = shown.

Definition on_screen (p : player) (shown : frame) : Prop :=
  frames p = 0%nat /\ currentPictureDecoded p = true /\ forward (video p) = shown /\
  on_canvas 768 1280 (canvas (video p)) shown.

(** The picture [pic] has arrived behind [t], and waits for the next start code;
    the planes of the picture before it are [shown]; [k] messages have come since
    the last animation frame. *)
Record viewing (p : player) (t : list Z) (pic : shot) (shown : frame) (k : nat) : Prop := {
  vi_follows : follows p (Cut (t ++ chunk pic) (Z.of_nat (length t) + 4) true);
  vi_closed : closed t;
  vi_pic : full_size pic;
  vi_screen : screen (video p);
  vi_stage : fresh p pic \/ loaded p k shown \/ on_screen p shown }.

Lemma full_length pic : full_size pic -> 4 <= Z.of_nat (length (body pic)) <= 130000.
Proof. intros [_ ?]. pose proof (length_body pic). lia. Qed.

Lemma chunk_bytes pic : full_size pic -> Forall byte (chunk pic).
Proof. intros H. unfold chunk. rewrite Forall_app. split; [by repeat constructor|].
  apply body_bytes. rewrite (os_count _ _ _ (fs_size _ H)). by vm_compute.
Qed.

Lemma length_chunk pic : Z.of_nat (length (chunk pic)) = Z.of_nat (length (body pic)) + 4.
Proof. unfold chunk. rewrite length_app. cbn [length]. lia. Qed.

(** A picture start code behind a quiet part of the stream is found. *)
Lemma code_quiet t l rest k :
  quiet l -> Z.of_nat (length t) <= k < Z.of_nat (length (t ++ l)) ->
  picture_at ((t ++ l) ++ [0; 0; 1; START_PICTURE] ++ rest) k = false.
Proof.
  intros Hq Hk. rewrite length_app in Hk. rewrite <- app_assoc.
  replace k with (Z.of_nat (length t) + (k - Z.of_nat (length t))) by lia.
  rewrite picture_at_shift by lia. apply (Hq (START_PICTURE :: rest)). lia.
Qed.

Lemma code_found t l rest :
  quiet l ->
  picture_from ((t ++ l) ++ [0; 0; 1; START_PICTURE] ++ rest) (Z.of_nat (length t)) = Some (Z.of_nat (length (t ++ l))).
Proof.
  intros Hq. apply picture_from_unique.
  - rewrite length_app. lia.
  - rewrite <- (Z.add_0_r (Z.of_nat (length (t ++ l)))). by rewrite picture_at_shift.
  - intros k Hk. by apply code_quiet.
Qed.

Lemma chunk_acceptable s t pic pic' :
  closed t -> full_size pic -> full_size pic' ->
  acceptable s (Cut (t ++ chunk pic) (Z.of_nat (length t) + 4) true) (chunk pic').
Proof.
  intros Ht Hp Hp'. pose proof (full_length pic Hp). pose proof (full_length pic' Hp').
  split; cbn [stream mark started]; try done.
  - by apply chunk_bytes.
  - apply closed_typed, (closed_chunk 768 1280), (closed_chunk 768 1280); [apply Hp'|apply Hp|done].
  - rewrite !length_app, !Nat2Z.inj_add, !length_chunk. unfold socketBufferSize. lia.
  - intros _. rewrite length_chunk. split; [lia|]. intros k Hk. unfold chunk at 1. rewrite app_assoc.
    apply (code_quiet _ _ (body pic')); [by apply (quiet_body 768 1280), Hp|]. rewrite length_app in Hk. rewrite !length_app. cbn [length] in *.
    unfold chunk in Hk. rewrite length_app in Hk. cbn [length] in Hk. lia.
Qed.

Lemma chunk_cut t pic pic' :
  full_size pic ->
  cutter (chunk pic') (Cut (t ++ chunk pic) (Z.of_nat (length t) + 4) true) =
  (Cut ((t ++ chunk pic) ++ chunk pic') (Z.of_nat (length (t ++ chunk pic)) + 4) true,
   Some (enc pic START_PICTURE)).
Proof.
  intros Hp. unfold cutter. cbn [stream mark started].
  pose proof (code_found (t ++ [0; 0; 1; START_PICTURE]) (body pic) (body pic') (quiet_body 768 1280 pic (fs_size _ Hp))) as Hf.
  rewrite <- (app_assoc t) in Hf. change ([0; 0; 1; START_PICTURE] ++ body pic) with (chunk pic) in Hf.
  change ([0; 0; 1; START_PICTURE] ++ body pic') with (chunk pic') in Hf.
  rewrite (length_app t [_; _; _; _]), Nat2Z.inj_add in Hf. change (Z.of_nat (length [0; 0; 1; START_PICTURE])) with 4 in Hf.
  rewrite Hf. do 2 f_equal. unfold enc, subarray, chunk. rewrite <- !app_assoc.
  rewrite (app_assoc t _ (body pic ++ _ ++ _)). rewrite drop_app_length'; [|rewrite length_app; cbn; lia].
  rewrite (app_assoc (body pic)). rewrite take_app_length'; [done|].
  rewrite !length_app. cbn [length]. lia.
Qed.

(** A decoder with a complete picture in its buffer. *)
Lemma screen_shown v r pic fuel skip :
  screen v -> wf v -> full_size pic -> (80 <= fuel)%nat -> holding r (enc pic START_PICTURE) -> buffer v = r ->
  exists j, decodePicture fuel skip v = Some j /\ forward j = screen_paint (forward v) pic /\
    (skip = false -> on_canvas 768 1280 (canvas j) (forward j)) /\
    buffer j = r <| index := 8 * (Z.of_nat (length (enc pic START_PICTURE)) - 4) |>.
Proof.
  intros Hsc Hwf [Hs _] Hfuel Hr Hb. pose proof Hr as (Hrec & Hi & Hby & Hw & Hl).
  pose proof Hsc as (Hseq & Hg & Hfit & Hrgba & Hm). apply pair_equal_spec in Hm as [Hm1 Hm2].
  set (e := enc pic START_PICTURE) in *.
  destruct (shot_decoded 768 1280 v fuel 0 START_PICTURE pic skip) as (j & E & _ & Eb & Ef & Ec); try done.
  - split; [rewrite Hm1|rewrite Hm2]; apply default_matrices.
  - split; [change (48 <= Z.of_nat fuel); lia|]. split; [change (80 <= Z.of_nat fuel); lia|lia].
  - by rewrite Hb, Hi.
  - rewrite Hb. intros k x Hk. fold e in Hk.
    rewrite <- Hrec in Hk. unfold received in Hk. pose proof (lookup_lt_Some _ _ _ Hk) as Hkl. rewrite length_take in Hkl.
    rewrite lookup_take_lt in Hk by lia. unfold tget. zknown. by rewrite Z.add_0_l, Nat2Z.id.
  - rewrite Hb. change (0 + Z.of_nat (length e) <= writePos r). lia.
  - exists j. split; [done|]. split; [|split; [exact Ec|by rewrite Eb, Hb]].
    rewrite Ef, Hm1, Hm2. apply screen_paint_eq.
Qed.

(** A further callback finds the start code behind the picture, and no picture. *)
Lemma spent_callback fuel v r pic :
  full_size pic -> holding r (enc pic START_PICTURE) ->
  buffer v = r <| index := 8 * (Z.of_nat (length (enc pic START_PICTURE)) - 4) |> ->
  exists j, decodePicture fuel false v = Some j /\ forward j = forward v /\ canvas j = canvas v.
Proof.
  intros Hp (Hrec & Hi & Hby & Hw & Hl) Hb. pose proof (full_length pic Hp).
  set (n := Z.of_nat (length (body pic))) in *.
  assert (Z.of_nat (length (enc pic START_PICTURE)) = n + 4) as Hlen
    by (unfold enc, n; rewrite length_app; cbn [length]; lia).
  apply (nothing_decoded fuel false v n); rewrite ?Hb.
  - change (8 * (Z.of_nat (length (enc pic START_PICTURE)) - 4) = 8 * n). rewrite Hlen. lia.
  - lia.
  - exact Hby.
  - assert (tget (received r) (n + 1) = Some 0) as H0.
    { rewrite Hrec. unfold enc, n. by rewrite tget_app_r. }
    rewrite received_get in H0 by (unfold socketBufferSize in Hl; lia). case_match; [exact H0|done].
Qed.

(** The next picture arrives, and the last one is handed to the decoder. *)
Lemma message_viewed fuel p t pic shown k pic' :
  viewing p t pic shown k -> full_size pic' -> (80 <= fuel)%nat ->
  exists p', happen fuel (Message (chunk pic')) p = Some p' /\
    viewing p' (t ++ chunk pic) pic' (screen_paint shown pic) (S k) /\ (0 < frames p')%nat.
Proof.
  intros [Hf Hc Hp Hsc Hst] Hp' Hfuel. pose proof (chunk_acceptable (src p) t pic pic' Hc Hp Hp') as Ha.
  pose proof (message_step fuel (chunk pic') p _ (video p) Hf Ha) as Hm.
  rewrite (proj1 Hsc) in Hm. specialize (Hm eq_refl). rewrite chunk_cut in Hm by done.
  assert (exists v, (if currentPictureDecoded p then Some (video p) else decodePicture fuel true (video p)) = Some v /\
    screen_paint (forward v) pic = screen_paint shown pic) as (v & Hv & Hpaint).
  { destruct Hst as [(_ & -> & Hk & z & Hb & Hzb & Hz)|[(_ & -> & prev & Hprev & Hr & Hs)|(_ & -> & Hs & _)]].
    - destruct (nothing_decoded fuel true (video p) 0) as (v & Hv & _ & _);
        [rewrite Hb; exact eq_refl|lia|rewrite Hb; exact Hzb|rewrite Hb; exact Hz|].
      exists v. split; [exact Hv|]. apply (screen_paint_key _ _ pic (fs_size _ Hp) Hk).
    - destruct (screen_shown (video p) _ prev fuel true Hsc (fo_video _ _ Hf) Hprev Hfuel Hr eq_refl)
        as (v & Hv & Hfv & _ & _). exists v. split; [exact Hv|]. exact (f_equal (fun f => screen_paint f pic) (eq_trans Hfv Hs)).
    - exists (video p). split; [exact eq_refl|]. exact (f_equal (fun f => screen_paint f pic) Hs). }
  rewrite Hv in Hm. destruct Hm as (p1 & r & E1 & Hf1 & Ev1 & Hr & Hfr1 & Hd1).
  assert (screen v) as Hsv.
  { destruct (currentPictureDecoded p); [injection Hv as <-; exact Hsc|].
    exact (proj1 (screen_decoded _ _ _ _ Hsc (fo_video _ _ Hf) Hv)). }
  exists p1. unfold happen. rewrite E1. split; [exact eq_refl|]. split; [|lia].
  split; [exact Hf1|apply (closed_chunk 768 1280); [apply Hp|done]|exact Hp'|rewrite Ev1; exact Hsv|].
  right. left. split; [|split; [exact Hd1|]].
  - rewrite Hfr1. destruct Hst as [(-> & _)|[(? & _)|(-> & _)]]; lia.
  - exists pic. split; [exact Hp|]. rewrite Ev1. split; [exact Hr|exact Hpaint].
Qed.

(** A callback whose decoding leaves the planes [shown] on the canvas. *)
Lemma callback_viewed fuel p c v n shown :
  follows p c -> screen (video p) -> frames p = S n -> decodePicture fuel false (video p) = Some v ->
  forward v = shown -> on_canvas 768 1280 (canvas v) shown ->
  exists p', scheduleDecoding fuel p = Some p' /\ follows p' c /\ screen (video p') /\ frames p' = n /\
    video p' = v /\ currentPictureDecoded p' = true.
Proof.
  intros Hf Hsc Hn Hv Hs Hc. exists (Player v (src p) true (Nat.pred (frames p))).
  unfold scheduleDecoding. rewrite Hv. split; [exact eq_refl|].
  split; [exact (follows_decoded fuel false p c v _ _ Hf Hv)|].
  split; [exact (proj1 (screen_decoded _ _ _ _ Hsc (fo_video _ _ Hf) Hv))|].
  split; [cbn [frames]; by rewrite Hn|]. split; [exact eq_refl|exact eq_refl].
Qed.

(** The callbacks of one animation frame: the first draws the picture, the second
    finds no other one. *)
Lemma loaded_drawn fuel p c k shown :
  follows p c -> screen (video p) -> loaded p k shown -> (k <= 2)%nat -> (80 <= fuel)%nat ->
  exists p', happen fuel AnimationFrame p = Some p' /\ follows p' c /\ screen (video p') /\ on_screen p' shown.
Proof.
  intros Hf Hsc (Hfr & Hd & prev & Hprev & Hr & Hs) Hk Hfuel. unfold happen.
  destruct (screen_shown (video p) _ prev fuel false Hsc (fo_video _ _ Hf) Hprev Hfuel Hr eq_refl)
    as (v & Hv & Hfv & Hcv & Hbv). rewrite Hs in Hfv. specialize (Hcv eq_refl). rewrite Hfv in Hcv.
  destruct (frames p) as [|n] eqn:En; [lia|]. cbn [run_callbacks].
  destruct (callback_viewed fuel p c v n shown Hf Hsc En Hv Hfv Hcv) as (p1 & -> & Hf1 & Hs1 & Hn1 & Hv1 & Hd1).
  cbn [mbind option_bind]. destruct n as [|n].
  - exists p1. split; [exact eq_refl|]. split; [exact Hf1|]. split; [exact Hs1|].
    split; [exact Hn1|]. split; [exact Hd1|]. rewrite Hv1. split; [exact Hfv|exact Hcv].
  - assert (n = 0)%nat as -> by lia. cbn [run_callbacks].
    destruct (spent_callback fuel v _ prev Hprev Hr Hbv) as (v2 & Hv2 & Hf2 & Hc2).
    rewrite Hfv in Hf2. rewrite <- Hc2 in Hcv. rewrite <- Hv1 in Hv2.
    destruct (callback_viewed fuel p1 c v2 0 shown Hf1 Hs1 Hn1 Hv2 Hf2 Hcv) as (p2 & -> & Hfo2 & Hs2 & Hn2 & Hvv2 & Hd2).
    cbn [mbind option_bind]. exists p2. split; [exact eq_refl|]. split; [exact Hfo2|]. split; [exact Hs2|].
    split; [exact Hn2|]. split; [exact Hd2|]. rewrite Hvv2. split; [exact Hf2|exact Hcv].
Qed.

Lemma frame_drawn fuel p t pic shown k :
  viewing p t pic shown k -> (k <= 2)%nat -> (80 <= fuel)%nat ->
  exists p', happen fuel AnimationFrame p = Some p' /\ viewing p' t pic shown 0 /\
    (fresh p pic \/ on_screen p' shown).
Proof.
  intros [Hf Hc Hp Hsc Hst] Hk Hfuel.
  assert (frames p = 0%nat -> happen fuel AnimationFrame p = Some p) as Hnone by (unfold happen; intros ->; exact eq_refl).
  destruct Hst as [Hfresh|[Hl|Hon]].
  - exists p. split; [exact (Hnone (proj1 Hfresh))|]. split; [|left; exact Hfresh].
    split; [exact Hf|exact Hc|exact Hp|exact Hsc|left; exact Hfresh].
  - destruct (loaded_drawn fuel p _ k shown Hf Hsc Hl Hk Hfuel) as (p' & E & Hf' & Hs' & Hon).
    exists p'. split; [exact E|]. split; [|right; exact Hon].
    split; [exact Hf'|exact Hc|exact Hp|exact Hs'|right; right; exact Hon].
  - exists p. split; [exact (Hnone (proj1 Hon))|]. split; [|right; exact Hon].
    split; [exact Hf|exact Hc|exact Hp|exact Hsc|right; right; exact Hon].
Qed.

(** The stream header sets the decoder up. *)
Lemma header_quiet : quiet Worker.streamHeader.
Proof.
  intros rest i Hi. change (Z.of_nat (length Worker.streamHeader)) with 8 in Hi.
  change (Worker.streamHeader) with [106; 115; 109; 112; 3; 0; 5; 0].
  assert (i = 0 \/ i = 1 \/ i = 2 \/ i = 3 \/ i = 4 \/ i = 5 \/ i = 6 \/ i = 7) as Hc by lia.
  by destruct Hc as [-> | [-> | [-> | [-> | [-> | [-> | [-> | ->]]]]]]].
Qed.

Lemma init_screen j : sequenceStarted j = false -> screen (initBuffers 768 1280 j).
Proof.
  intros Hs. unfold initBuffers. cbn zeta.
  change (sequenceStarted (j <| geo := _ |> <| intraQuantMatrix := _ |> <| nonIntraQuantMatrix := _ |>)) with (sequenceStarted j).
  rewrite Hs. split; [done|]. split; [done|]. split; [|split; [|done]].
  - apply new_frame_fits. by vm_compute.
  - change (Z.of_nat (length (replicate (Z.to_nat (4 * 768 * 1280)) 255)) = 4 * 768 * 1280).
    rewrite length_replicate. lia.
Qed.

(** No intra picture has come yet: [l] is what follows the last picture start
    code, and the decoder has decoded nothing. *)
Record waiting (p : player) (t l : list Z) : Prop := {
  wa_follows : follows p (Cut (t ++ l) (Z.of_nat (length t)) false);
  wa_closed : closed (t ++ l);
  wa_quiet : quiet l;
  wa_length : Z.of_nat (length l) <= 130000;
  wa_frames : frames p = 0%nat;
  wa_screen : screen (video p);
  wa_undecoded : currentPictureDecoded p = false;
  wa_empty : exists z, buffer (video p) = new_reader z /\ Forall byte z /\ tget z 1 = Some 0 }.

Lemma header_received fuel :
  exists p, happen fuel (Message Worker.streamHeader) (initSocketClient new_jsmpeg) = Some p /\ waiting p [] Worker.streamHeader.
Proof.
  pose proof header_quiet as Hq.
  assert (forall k, picture_at Worker.streamHeader k = false) as Hno.
  { intros k. destruct (picture_at _ k) eqn:E; [|done]. pose proof (picture_at_in _ _ E).
    rewrite <- (picture_at_app _ (0 :: 0 :: 1 :: [])) in E by lia. by rewrite Hq in E by lia. }
  pose proof (fun v => message_step fuel Worker.streamHeader (initSocketClient new_jsmpeg) (Cut [] 0 false)
    v follows_init) as Hm.
  assert (cutter Worker.streamHeader (Cut [] 0 false) = (Cut Worker.streamHeader 0 false, None)) as Ec.
  { unfold cutter. cbn [stream mark started app]. by rewrite picture_from_none by done. }
  rewrite Ec in Hm. destruct (Hm (initBuffers 768 1280 (video (initSocketClient new_jsmpeg)))) as (p & E & Hf & Ev & Hfr & Hd).
  - split; cbn [stream mark started app]; try done.
    + decide_bytes.
    + intros j y Hj. by rewrite Hno in Hj.
    + intros _ j Hj. by rewrite Hno in Hj.
  - done.
  - exists p. unfold happen. rewrite E. split; [done|].
    split; [exact Hf|by apply quiet_closed|exact Hq|change (8 <= 130000); lia|exact Hfr| |exact Hd|].
    + rewrite Ev. by apply init_screen.
    + rewrite Ev. exists (zeros socketBufferSize). split; [done|]. split; [apply zeros_byte|].
      unfold tget, zeros. apply lookup_replicate_2. unfold socketBufferSize. lia.
Qed.

Lemma chunk_intra w h t pic :
  of_size w h pic -> intra_at (t ++ chunk pic) (Z.of_nat (length t)) = (type_of_kind (s_kind pic) =? PICTURE_TYPE_I).
Proof.
  intros Hp. unfold intra_at. rewrite tget_app_r by lia. destruct (body_type w h pic Hp) as (y & Hy & _ & Ht).
  change (chunk pic) with ([0; 0; 1; START_PICTURE] ++ body pic).
  change 5 with (Z.of_nat (length [0; 0; 1; START_PICTURE]) + 1). rewrite tget_app_r, Hy by lia. by rewrite Ht.
Qed.

(** A picture that comes while the player waits. *)
Lemma awaited_step fuel p t l pic :
  waiting p t l -> full_size pic ->
  exists p', happen fuel (Message (chunk pic)) p = Some p' /\ video p' = video p /\ frames p' = 0%nat /\
    currentPictureDecoded p' = false /\
    follows p' (Cut ((t ++ l) ++ chunk pic) (Z.of_nat (length (t ++ l)) + 4) (type_of_kind (s_kind pic) =? PICTURE_TYPE_I)).
Proof.
  intros [Hf Hcl Hq Hl Hfr Hsc Hd _] Hp. pose proof (closed_chunk _ _ _ pic (fs_size _ Hp) Hcl) as Hcl1.
  pose proof (full_length pic Hp).
  pose proof (message_step fuel (chunk pic) p _ (video p) Hf) as Hm.
  unfold cutter in Hm. cbn [stream mark started] in Hm.
  assert (picture_from ((t ++ l) ++ chunk pic) (Z.of_nat (length t)) = Some (Z.of_nat (length (t ++ l)))) as Hfound
    by exact (code_found t l (body pic) Hq).
  rewrite Hfound, (chunk_intra 768 1280) in Hm by apply Hp.
  destruct Hm as (p' & E & Hf' & Ev & Hfr' & Hd').
  - split; cbn [stream mark started].
    + by apply chunk_bytes.
    + by apply closed_typed.
    + rewrite !length_app, !Nat2Z.inj_add, length_chunk. unfold socketBufferSize. lia.
    + intros _ j Hj. pose proof (picture_at_in _ _ Hj).
      destruct (Hcl1 [] j) as (y & Hy & _); [by rewrite picture_at_app by lia|lia|].
      unfold tget in Hy. destruct (Z.leb_spec 0 (j + 5)); [|done]. apply lookup_lt_Some in Hy. lia.
    + intros _. rewrite length_chunk. split; [lia|]. intros k Hk. by apply (code_quiet _ _ (body pic)).
  - by rewrite (proj1 Hsc).
  - exists p'. unfold happen. rewrite E, Hfr'. split; [done|]. split; [done|]. split; [done|].
    split; [by rewrite Hd'|done].
Qed.

(** Predicted pictures are passed over ... *)
Lemma delta_passed fuel p t l pic :
  waiting p t l -> full_size pic -> s_kind pic <> Key ->
  exists p' t' l', happen fuel (Message (chunk pic)) p = Some p' /\ waiting p' t' l'.
Proof.
  intros Hw Hp Hk. destruct (awaited_step fuel p t l pic Hw Hp) as (p1 & E & Ev & Hfr & Hd & Hf).
  destruct Hw as [_ Hcl _ _ _ Hsc _ He].
  exists p1, ((t ++ l) ++ [0; 0; 1; START_PICTURE]), (body pic). split; [exact E|].
  split; rewrite <- ?(app_assoc (t ++ l)), ?Ev; try done.
  - rewrite length_app, Nat2Z.inj_add. by destruct (s_kind pic).
  - apply (closed_chunk 768 1280); [apply Hp|done].
  - by apply (quiet_body 768 1280), Hp.
  - by apply full_length.
Qed.

(** ... up to the first intra picture. *)
Lemma key_received fuel p t l pic shown k :
  waiting p t l -> full_size pic -> s_kind pic = Key ->
  exists p', happen fuel (Message (chunk pic)) p = Some p' /\ viewing p' (t ++ l) pic shown k.
Proof.
  intros Hw Hp Hk. destruct (awaited_step fuel p t l pic Hw Hp) as (p1 & E & Ev & Hfr & Hd & Hf).
  destruct Hw as [_ Hcl _ _ _ Hsc _ Hz]. exists p1. split; [exact E|]. split; try done.
  - by rewrite Hk in Hf.
  - by rewrite Ev.
  - left. unfold fresh. by rewrite Ev.
Qed.

(** From the first intra picture on. *)
Lemma viewing_run fuel hs p t pic shown k pics last more :
  (80 <= fuel)%nat -> viewing p t pic shown k -> (k <= 2)%nat -> unhurried k hs = true ->
  messages hs = chunk <$> more -> Forall full_size more -> pic :: more = pics ++ [last] ->
  more <> [] \/ ~ fresh p pic ->
  exists p', watch fuel (hs ++ [AnimationFrame]) p = Some p' /\
    on_canvas 768 1280 (canvas (video p')) (foldl screen_paint shown pics).
Proof.
  intros Hfuel. revert p t pic shown k pics more.
  induction hs as [|[m|] hs IH]; intros p t pic shown k pics more Hv Hk Hu Hm Hall Hpics Hne;
    cbn [messages unhurried app watch] in *.
  - destruct more; [|done]. destruct Hne as [?|Hne]; [done|].
    destruct (frame_drawn fuel p t pic shown k Hv Hk Hfuel) as (p' & E & _ & [?|Hon]); [done|].
    exists p'. rewrite E. split; [done|]. assert (pics = []) as -> by (destruct pics as [|? []]; by simplify_list_eq).
    apply Hon.
  - destruct more as [|pic1 more]; [done|]. injection Hm as -> Hm. apply Forall_cons in Hall as [H1 Hall].
    apply andb_true_iff in Hu as [Hk2%Nat.ltb_lt Hu].
    destruct (message_viewed fuel p t pic shown k pic1 Hv H1 Hfuel) as (p1 & -> & Hv1 & Hfr). cbn [mbind option_bind].
    destruct pics as [|x pics]; [by simplify_list_eq|]. injection Hpics as <- Hpics. cbn [foldl].
    apply (IH p1 _ pic1 _ (S k) pics more Hv1); [lia|done|done|done|done|]. right. intros [? _]. lia.
  - destruct (frame_drawn fuel p t pic shown k Hv Hk Hfuel) as (p1 & -> & Hv1 & Hon). cbn [mbind option_bind].
    apply (IH p1 t pic shown 0%nat pics more Hv1); [lia|done|done|done|done|].
    destruct Hne as [?|Hne]; [by left|]. destruct Hon as [?|(_ & Hd & _)]; [done|]. right. intros (_ & ? & _). congruence.
Qed.

(** From the stream header on. *)
Lemma waiting_run fuel hs p t l k shown deltas key pics last :
  (80 <= fuel)%nat -> waiting p t l -> unhurried k hs = true ->
  messages hs = chunk <$> deltas ++ key :: pics ++ [last] ->
  Forall full_size (deltas ++ key :: pics ++ [last]) ->
  Forall (fun pic => s_kind pic <> Key) deltas -> s_kind key = Key ->
  exists p', watch fuel (hs ++ [AnimationFrame]) p = Some p' /\
    on_canvas 768 1280 (canvas (video p')) (foldl screen_paint shown (key :: pics)).
Proof.
  intros Hfuel. revert p t l k deltas.
  induction hs as [|[m|] hs IH]; intros p t l k deltas Hw Hu Hm Hall Hd Hkey; cbn [messages unhurried app watch] in *.
  - by destruct deltas.
  - apply andb_true_iff in Hu as [Hk2%Nat.ltb_lt Hu]. destruct deltas as [|d deltas]; cbn [app fmap list_fmap] in Hm.
    + injection Hm as -> Hm. apply Forall_cons in Hall as [Hsk Hall].
      destruct (key_received fuel p t l key shown (S k) Hw Hsk Hkey) as (p1 & -> & Hv). cbn [mbind option_bind].
      apply (viewing_run fuel hs p1 (t ++ l) key shown (S k) (key :: pics) last (pics ++ [last]));
        [exact Hfuel|exact Hv|lia|exact Hu|exact Hm|exact Hall|exact eq_refl|left; by destruct pics].
    + injection Hm as -> Hm. apply Forall_cons in Hall as [H1 Hall]. apply Forall_cons in Hd as [Hd1 Hd].
      destruct (delta_passed fuel p t l d Hw H1 Hd1) as (p1 & t1 & l1 & -> & Hw1). cbn [mbind option_bind].
      by apply (IH p1 t1 l1 (S k) deltas).
  - unfold happen at 1. rewrite (wa_frames _ _ _ Hw). cbn [run_callbacks mbind option_bind].
    by apply (IH p t l 0%nat deltas).
Qed.

(** The planes of a new sequence. *)
Definition blank : frame := new_frame (new_geometry 768 1280).

(** From the connection on. *)
Lemma session_run fuel hs k deltas key pics last :
  (80 <= fuel)%nat -> unhurried k hs = true ->
  messages hs = Worker.streamHeader :: (chunk <$> deltas ++ key :: pics ++ [last]) ->
  Forall full_size (deltas ++ key :: pics ++ [last]) ->
  Forall (fun pic => s_kind pic <> Key) deltas -> s_kind key = Key ->
  exists p', watch fuel (hs ++ [AnimationFrame]) (initSocketClient new_jsmpeg) = Some p' /\
    on_canvas 768 1280 (canvas (video p')) (foldl screen_paint blank (key :: pics)).
Proof.
  intros Hfuel. revert k. induction hs as [|[m|] hs IH]; intros k Hu Hm Hall Hd Hkey;
    cbn [messages unhurried app watch] in *.
  - done.
  - injection Hm as -> Hm. apply andb_true_iff in Hu as [_ Hu].
    destruct (header_received fuel) as (p & -> & Hw). cbn [mbind option_bind].
    by apply (waiting_run fuel hs p [] Worker.streamHeader (S k) blank deltas key pics last).
  - cbn [happen frames initSocketClient run_callbacks mbind option_bind]. by apply (IH 0%nat).
Qed.


#[local] Transparent screen_paint.

(** C3: pictures reach the canvas.  A browser connects to a worker, possibly in the
    middle of a group of pictures, and the worker is then sent encoded pictures,
    one per chunk: predicted ones, and then a film that starts with an intra
    picture and goes on with intra and predicted pictures in any order, all of the
    announced size and of at most 130000 bytes.  Its messages reach the browser in
    order, interleaved with animation frames in any way in which at most two come
    between two frames (the end of this file shows what a third one can do).  The
    browser handles every message and every frame without an exception; and at the
    first frame after the chunk of the last picture has come, its canvas shows the
    picture before the last (the decoder takes a picture only when the start code of
    the next one has come), pixel by pixel: each picture of the film painted from
    the planes of the one before it, however many pictures there are, however often
    the ring buffer has wrapped around, and also when pictures in between were
    never drawn because the next one came too soon.  Other browsers may come and go
    meanwhile. *)
Theorem stream_reaches_canvas fuel w c es deltas key pics last hs :
  (80 <= fuel)%nat -> c ∉ (Worker.clients w).*1 ->
  Forall (fun e => Worker.spares c e = true) es ->
  Worker.pictures (Worker.image_requests w) es = chunk <$> deltas ++ key :: pics ++ [last] ->
  Forall full_size (deltas ++ key :: pics ++ [last]) ->
  Forall (fun pic => s_kind pic <> Key) deltas -> s_kind key = Key ->
  messages hs = Worker.to_client c (Worker.run w (Worker.ImageConnect c :: es)).2 -> unhurried 0 hs = true ->
  exists p,
    watch fuel (hs ++ [AnimationFrame]) (initSocketClient new_jsmpeg) = Some p /\
    on_canvas 768 1280 (canvas (video p))
      (planes_after 768 1280 DEFAULT_INTRA_QUANT_MATRIX DEFAULT_NON_INTRA_QUANT_MATRIX blank (key :: pics)).
Proof.
  intros Hfuel Hc Hes Hpics Hall Hdeltas Hkey Hm Hu. rewrite Worker.header_then_pictures, Hpics in Hm by done.
  apply (session_run fuel hs 0 deltas key pics last); done.
Qed.

(** A grey picture, and one that moves everything by half a pixel at the left edge. *)
Definition plain (v : Z) : shot :=
  Shot Key 0 65535 8 (replicate 80 (replicate 48 (Intra 8 [(v, []); (v, []); (v, []); (v, []); (128, []); (128, [])]))).

Definition drift : shot :=
  Shot (Delta 0 0) 1 65535 8 (replicate 80 (Move 1 0 :: replicate 46 Skip ++ [Move (-9) 5])).

Definition long_ending (s : shot) (row : list cell) : bool :=
  (8 <=? length (last_bits (type_of_kind (s_kind s)) (2 ^ Z.of_nat (rsize_of (s_kind s))) (rsize_of (s_kind s))
                   (ctx_start (quantizer s)) 0 row))%nat.

Lemma plain_full v : 0 <= v < 256 -> forallb (long_ending (plain v)) (rows (plain v)) = true ->
  (Z.of_nat (length (body (plain v))) <=? 130000) = true -> full_size (plain v).
Proof.
  intros Hv Hend Hlen. split; [|by apply Z.leb_le]. split; [cbn; lia|cbn; lia| |reflexivity].
  apply Forall_forall. intros row Hrow. rewrite forallb_forall in Hend.
  pose proof (Hend row (proj1 (list_elem_of_In _ _) Hrow)) as Hlast. apply Nat.leb_le in Hlast.
  cbn [rows plain] in Hrow. apply elem_of_replicate in Hrow as [-> _].
  split; [reflexivity| |discriminate|exact Hlast]. apply Forall_replicate.
  split; [reflexivity|cbn; lia|cbn; lia|reflexivity| |cbn; done].
  do 6 (apply Forall_cons; split; [split; [unfold byte; lia|split; [constructor|cbn; lia]]|]). constructor.
Qed.

Lemma drift_full : full_size drift.
Proof.
  split; [|apply Z.leb_le; vm_compute; reflexivity]. split; [cbn; lia|cbn; lia| |reflexivity].
  apply Forall_replicate.
  split; [reflexivity| |discriminate|apply Nat.leb_le; vm_compute; reflexivity].
  apply Forall_cons. split; [|apply Forall_app; split; [apply Forall_replicate|apply Forall_cons; split; [|constructor]]];
    (split; [discriminate|cbn; lia|cbn; lia|reflexivity| |cbn; done]);
    repeat (apply Forall_cons; split); try apply Forall_nil; done.
Qed.

Definition demo_events : list Worker.event :=
  [Worker.ImageRequest 5 (bytes "/1234"); Worker.ImageData 5 (chunk drift); Worker.ImageConnect 2;
   Worker.ImageData 5 (chunk (plain 200)); Worker.ImageClose 2; Worker.ImageData 5 (chunk drift);
   Worker.ImageData 5 (chunk (plain 30))].

(** The messages: two come before the first animation frame, and again two at the
    end, where the picture in between is never drawn. *)
Definition demo_schedule : list happening :=
  [Message Worker.streamHeader; Message (chunk drift); AnimationFrame; Message (chunk (plain 200)); AnimationFrame;
   Message (chunk drift); Message (chunk (plain 30))].

Lemma demo_pictures :
  Worker.pictures [] demo_events = chunk <$> [drift] ++ plain 200 :: [drift] ++ [plain 30].
Proof.
  unfold demo_events. cbn [Worker.pictures].
  assert (Js.loose_eq (Js.JStr (Worker.param0 (bytes "/1234"))) (Js.JNum Worker.IMAGE_STREAM_SECRET) = true) as ->
    by (vm_compute; reflexivity).
  by rewrite !bool_decide_eq_true_2 by (apply list_elem_of_here).
Qed.

Lemma stream_reaches_canvas_witness :
  exists p,
    watch 80 (demo_schedule ++ [AnimationFrame]) (initSocketClient new_jsmpeg) = Some p /\
    on_canvas 768 1280 (canvas (video p))
      (planes_after 768 1280 DEFAULT_INTRA_QUANT_MATRIX DEFAULT_NON_INTRA_QUANT_MATRIX blank [plain 200; drift]).
Proof.
  assert (full_size (plain 200)) as H200 by (apply plain_full; [lia|vm_compute; reflexivity|vm_compute; reflexivity]).
  assert (full_size (plain 30)) as H30 by (apply plain_full; [lia|vm_compute; reflexivity|vm_compute; reflexivity]).
  apply (stream_reaches_canvas 80 (Worker.worker_init 1) 1 demo_events [drift] (plain 200) [drift] (plain 30) demo_schedule).
  - lia.
  - apply not_elem_of_nil.
  - repeat constructor.
  - exact demo_pictures.
  - pose proof drift_full. by repeat (apply Forall_cons; split).
  - apply Forall_cons. split; [discriminate|constructor].
  - reflexivity.
  - rewrite Worker.header_then_pictures; [|apply not_elem_of_nil|repeat constructor].
    cbn [messages demo_schedule]. exact (f_equal (cons Worker.streamHeader) (eq_sym demo_pictures)).
  - reflexivity.
Defined.

(** ** Too many callbacks *)




