(* ===== verification/MpegFile.v ===== *)
(** * Videos from files (public/lib/jsmpg.js, loading and seeking)

    The other way to feed the decoder: a whole file, with an index of its intra
    pictures for seeking.  The index is proved to list every intra picture of
    the file with its number, and seeking to go to the last one that is not
    after the picture asked for, and a recording of a stream to play back.  The
    index array belongs to the prototype, so that all players of a page share
    it. *)

From coqutil Require Import Datatypes.RecordSettersUsingExistingGetters.
From S2P Require Import Prelude JsArray MpegTables BitReader MpegDecoder MpegPicture MpegCoefficients MpegCells.
From S2P Require Import MpegFilm PicturePlayer VideoSession.

(** ** State *)

Record intraFrame := IntraFrame { frameNo : Z; frameIndex : Z }.

Record filePlayer := FilePlayer {
  film : jsmpeg;
  intraFrames : list intraFrame;     (* jsmpeg.prototype.intraFrames *)
  frameCount : Z;
  firstSequenceHeader : Z;
  playing : bool;
  scheduled : nat;                   (* calls of scheduleNextFrame *)
  seekable : bool; autoplay : bool; loop : bool }.

Definition with_reader (r : reader) (p : filePlayer) : filePlayer :=
  p <| film := (film p) <| buffer := r |> |>.

(** ** Operations *)

(** The loop of [collectIntraFrames]. *)
Fixpoint collect (fuel : nat) (frame : Z) (found : list intraFrame) (r : reader)
    : option (Z * list intraFrame * reader) :=
  match fuel with
  | O => None
  | S fuel' =>
      '(code, r) ← findStartCode START_PICTURE r;
      if bool_decide (code = Some NOT_FOUND) then Some (frame, found, r)
      else
        let '(type, r) := getBits (advance r 10) 3 in
        let found := if type =? PICTURE_TYPE_I then found ++ [IntraFrame frame (index r - 13)] else found in
        collect fuel' (frame + 1) found r
  end.

Definition collectIntraFrames (p : filePlayer) : option filePlayer :=
  let r := buffer (film p) in
  '(frame, found, r) ← collect (S (length (store r))) 0 (intraFrames p) r;
  Some (with_reader r p <| intraFrames := found |> <| frameCount := frame |>).

(** The last entry of the leading entries that are not after [seekFrame]. *)
Fixpoint seek_target (target : option intraFrame) (fs : list intraFrame) (seekFrame : Z) : option intraFrame :=
  match fs with
  | [] => target
  | f :: fs' => if frameNo f <=? seekFrame then seek_target (Some f) fs' seekFrame else target
  end.

(** Pictures decoded without output on the way to an exact frame. *)
Fixpoint skip_pictures (n fuel : nat) (j : jsmpeg) : option jsmpeg :=
  match n with
  | O => Some j
  | S n' =>
      j ← decodePicture fuel true j;
      '(_, r) ← findStartCode START_PICTURE (buffer j);
      skip_pictures n' fuel (j <| buffer := r |>)
  end.

Inductive sought := Refused | NoTarget | Running | Sought (p : filePlayer).

Definition seekToFrame (fuel : nat) (seekFrame : Z) (seekExact : bool) (p : filePlayer) : sought :=
  if (seekFrame <? 0) || (frameCount p <=? seekFrame) || bool_decide (intraFrames p = []) then Refused
  else
    match seek_target None (intraFrames p) seekFrame with
    | None => NoTarget                 (* target.index of null: a TypeError *)
    | Some target =>
        let j := film p in
        let j := j <| buffer := (buffer j) <| index := frameIndex target |> |>
                   <| currentFrame := frameNo target - 1 |> in
        match
          (if seekExact then
             j ← skip_pictures (Z.to_nat (seekFrame - frameNo target)) fuel j;
             Some (j <| currentFrame := seekFrame - 1 |>)
           else Some j) ≫= decodePicture fuel false
        with
        | Some j => Sought (p <| film := j |>)
        | None => Running
        end
    end.

Definition play (p : filePlayer) : filePlayer :=
  if playing p then p else p <| playing := true |> <| scheduled := S (scheduled p) |>.

Definition pause (p : filePlayer) : filePlayer := p <| playing := false |>.

Definition stop (p : filePlayer) : filePlayer :=
  p <| film := (film p) <| currentFrame := -1 |>
                 <| buffer := (buffer (film p)) <| index := firstSequenceHeader p |> |> |>
    <| playing := false |>.

(** [true] when a picture was shown, [false] at the end of the file. *)
Fixpoint nextFrame (fuel : nat) (p : filePlayer) : option (bool * filePlayer) :=
  match fuel with
  | O => None
  | S fuel' =>
      let '(code, r) := findNextMPEGStartCode (buffer (film p)) in
      let p := with_reader r p in
      if bool_decide (code = Some START_SEQUENCE) then
        nextFrame fuel' (p <| film := decodeSequenceHeader (film p) |>)
      else if bool_decide (code = Some START_PICTURE) then
        let p := if playing p then p <| scheduled := S (scheduled p) |> else p in
        j ← decodePicture fuel false (film p);
        Some (true, p <| film := j |>)
      else if bool_decide (code = Some NOT_FOUND) then
        let p := stop p in
        Some (false, if loop p && sequenceStarted (film p) then play p else p)
      else nextFrame fuel' p
  end.

Definition loadCallback (fuel : nat) (file : list Z) (p : filePlayer) : option filePlayer :=
  let p := with_reader (new_reader file) p in
  p ← (if seekable p then
         p ← collectIntraFrames p;
         Some (with_reader ((buffer (film p)) <| index := 0 |>) p)
       else Some p);
  '(_, r) ← findStartCode START_SEQUENCE (buffer (film p));
  let p := with_reader r p <| firstSequenceHeader := index r |> in
  let p := p <| film := decodeSequenceHeader (film p) |> in
  '(_, p) ← nextFrame fuel p;
  Some (if autoplay p then play p else p).

(** ** Searching a whole file *)

(** A reader at a byte of a file. *)
Definition whole (r : reader) : Prop := sized r /\ writePos r = Z.of_nat (length (store r)).

Lemma whole_index r i : whole r -> 0 <= i < 268435456 -> whole (r <| index := i |>).
Proof. intros [Hs Hw] Hi. split; [by apply sized_index|done]. Qed.

Lemma prefix_picture t i x :
  tget t i = Some 0 -> tget t (i + 1) = Some 0 -> tget t (i + 2) = Some 1 -> tget t (i + 3) = x ->
  x <> Some START_PICTURE -> forall k, i <= k < i + 4 -> picture_at t k = false.
Proof.
  intros H0 H1 H2 H3 Hx k Hk. destruct (Z.eq_dec k i) as [->|].
  - unfold picture_at. rewrite H3, (bool_decide_eq_false_2 (x = Some START_PICTURE)) by done. by rewrite andb_false_r.
  - destruct (Z.eq_dec k (i + 3)) as [->|]; [|apply (no_overlap t i); [done..|lia]].
    unfold picture_at. rewrite H3. by rewrite (bool_decide_eq_false_2 (x = Some 0)) by exact Hx.
Qed.

Lemma findStartCode_picture fuel r :
  whole r -> writePos r - from r < Z.of_nat fuel -> (0 < fuel)%nat ->
  findStartCode_loop fuel START_PICTURE r = Some
    match picture_from (store r) (from r) with
    | Some j => (Some START_PICTURE, r <| index := 8 * (j + 4) |>)
    | None => (Some NOT_FOUND, r <| index := 8 * writePos r |>)
    end.
Proof.
  revert r. induction fuel as [|fuel IH]; intros r Hr Hf Hpos; [lia|].
  cbn [findStartCode_loop]. pose proof Hr as [Hs Hw]. pose proof (find_spec r Hs) as Hfind.
  destruct Hs as (Hb & _ & Hl & Hi). assert (0 <= from r) by (apply Z.div_pos; lia).
  assert (forall k, from r <= k -> prefix_at r k = false -> picture_at (store r) k = false) as Hno.
  { intros k Hk Hp. unfold picture_at, prefix_at, byte_at in *. by rewrite Hp. }
  destruct (findNextMPEGStartCode r) as [c r'].
  destruct Hfind as [(i & Hir & Hp & Hmin & -> & ->)|(Hnone & -> & ->)].
  2:{ rewrite (bool_decide_eq_true_2 (Some NOT_FOUND = Some NOT_FOUND)), orb_true_r by done.
      rewrite picture_from_none; [done|]. intros k Hk. destruct (Z.lt_ge_cases k (writePos r)); [apply Hno, Hnone; lia|].
      destruct (picture_at _ k) eqn:E; [|done]. apply picture_at_in in E. lia. }
  assert (byte_at r (i + 3) <> Some NOT_FOUND) as Hnf.
  { intros E. apply tget_byte in E; [|done]. unfold byte, NOT_FOUND in E. lia. }
  rewrite (bool_decide_eq_false_2 (byte_at r (i + 3) = Some NOT_FOUND)), orb_false_r by done.
  unfold prefix_at, byte_at in Hp. rewrite !andb_true_iff, !bool_decide_eq_true in Hp. destruct Hp as [[H0 H1] H2].
  case_bool_decide as Ec.
  - rewrite (picture_from_unique _ _ i); [by rewrite Ec|lia| |intros k Hk; apply Hno, Hmin; lia].
    unfold byte_at in Ec. unfold picture_at. rewrite H0, H1, H2, Ec. done.
  - rewrite IH; [|apply whole_index; [done|lia]|rewrite from_bytes; cbn; lia|lia].
    rewrite from_bytes. change (store (r <| index := _ |>)) with (store r).
    rewrite (picture_from_skip _ (from r) (i + 4)); [done|lia|].
    intros k Hk. destruct (Z.lt_ge_cases k i); [apply Hno, Hmin; lia|].
    apply (prefix_picture _ i _ H0 H1 H2 eq_refl Ec). lia.
Qed.

(** ** The index *)

(** The pictures of a file from byte [i] on. *)
Fixpoint pictures_from (n : nat) (t : list Z) (i : Z) : list Z :=
  match n with
  | O => []
  | S n' => if picture_at t i then i :: pictures_from n' t (i + 1) else pictures_from n' t (i + 1)
  end.

Definition pictures_in (t : list Z) : list Z := pictures_from (length t) t 0.

(** The entries of the index for these pictures, numbered from [k] on. *)
Fixpoint entries (t : list Z) (k : Z) (js : list Z) : list intraFrame :=
  match js with
  | [] => []
  | j :: js' =>
      (if intra_at t j then [IntraFrame k (8 * (j + 4))] else []) ++ entries t (k + 1) js'
  end.

Lemma pictures_from_skip n t i i' :
  i <= i' -> (forall k, i <= k < i' -> picture_at t k = false) ->
  pictures_from (n + Z.to_nat (i' - i)) t i = pictures_from n t i'.
Proof.
  intros Hi. remember (Z.to_nat (i' - i)) as d eqn:Hd. revert i Hi Hd.
  induction d as [|d IH]; intros i Hi Hd Hno.
  - replace i' with i by lia. by rewrite Nat.add_0_r.
  - rewrite Nat.add_succ_r. cbn [pictures_from]. rewrite Hno by lia. apply IH; [lia|lia|].
    intros k Hk. apply Hno. lia.
Qed.

(** The pictures from [i] on, up to the end of the file. *)
Definition pictures_after (t : list Z) (i : Z) : list Z :=
  pictures_from (Z.to_nat (Z.of_nat (length t) - i)) t i.

Lemma pictures_after_step t i :
  typed t -> 0 <= i ->
  pictures_after t i =
    match picture_from t i with Some j => j :: pictures_after t (j + 6) | None => [] end.
Proof.
  intros Ht Hi. unfold pictures_after. pose proof (picture_from_spec t i) as H.
  destruct (picture_from t i) as [j|].
  - destruct H as (Hij & Hj & Hmin). pose proof (picture_at_in _ _ Hj) as [_ Hl].
    replace (Z.to_nat (Z.of_nat (length t) - i))
      with (S (Z.to_nat (Z.of_nat (length t) - j - 1)) + Z.to_nat (j - i))%nat by lia.
    rewrite pictures_from_skip by done. cbn [pictures_from]. rewrite Hj. f_equal.
    assert (forall k, j < k < j + 6 -> picture_at t k = false) as Hno.
    { intros k Hk. destruct (Z.lt_ge_cases k (j + 4)); [apply (after_mark t j); [done|done|lia]|].
      pose proof (resume_type t j Ht Hj) as Hr. pose proof (picture_from_spec t (j + 4)) as H4.
      pose proof (picture_from_spec t (j + 6)) as H6. rewrite Hr in H6.
      destruct (picture_from t (j + 4)); [destruct H6 as [? _]|]; apply H4; lia. }
    destruct (Z.le_gt_cases (j + 6) (Z.of_nat (length t))).
    + replace (Z.to_nat (Z.of_nat (length t) - j - 1))
        with (Z.to_nat (Z.of_nat (length t) - (j + 6)) + Z.to_nat (j + 6 - (j + 1)))%nat by lia.
      apply pictures_from_skip; [lia|]. intros k Hk. apply Hno. lia.
    + rewrite (Z2Nat.nonpos (Z.of_nat (length t) - (j + 6))) by lia. replace (Z.to_nat (Z.of_nat (length t) - j - 1))
        with (0 + Z.to_nat (Z.of_nat (length t) - (j + 1)))%nat by lia.
      rewrite pictures_from_skip; [done|lia|]. intros k Hk. apply Hno. lia.
  - destruct (Z.le_gt_cases i (Z.of_nat (length t))); [|by rewrite Z2Nat.nonpos by lia].
    replace (Z.to_nat (Z.of_nat (length t) - i)) with (0 + Z.to_nat (Z.of_nat (length t) - i))%nat by lia.
    rewrite pictures_from_skip; [done|lia|]. intros k Hk. apply H. lia.
Qed.

(** The type read after a picture start code. *)
Lemma type_intra r j :
  whole r -> 0 <= j < 16777212 ->
  (nextBits (advance (r <| index := 8 * (j + 4) |>) 10) 3 =? PICTURE_TYPE_I) = intra_at (store r) j.
Proof.
  intros [(Hb & _) _] Hj. rewrite type_bits by (done || lia). unfold intra_at.
  replace (j + 4 + 1) with (j + 5) by lia. by destruct (tget (store r) (j + 5)).
Qed.

Lemma collect_spec fuel frame found r :
  typed (store r) -> whole r -> writePos r - from r < Z.of_nat fuel -> (0 < fuel)%nat ->
  exists r', collect fuel frame found r =
    Some (frame + Z.of_nat (length (pictures_after (store r) (from r))),
          found ++ entries (store r) frame (pictures_after (store r) (from r)), r') /\
    store r' = store r /\ writePos r' = writePos r.
Proof.
  revert frame found r. induction fuel as [|fuel IH]; intros frame found r Ht Hr Hf Hpos; [lia|].
  cbn [collect]. pose proof Hr as [(Hb & _ & Hl & Hi) Hw].
  assert (0 <= from r) by (apply Z.div_pos; lia).
  unfold findStartCode. rewrite findStartCode_picture by (done || lia). cbn [mbind option_bind].
  rewrite pictures_after_step by done. pose proof (picture_from_spec (store r) (from r)) as Hp.
  destruct (picture_from (store r) (from r)) as [j|].
  2:{ rewrite bool_decide_eq_true_2 by done. cbn [length entries]. eexists. split; [by rewrite Z.add_0_r, app_nil_r|done]. }
  destruct Hp as (Hj & Hpj & _). pose proof (picture_at_in _ _ Hpj).
  rewrite bool_decide_eq_false_2 by done. unfold getBits. rewrite type_intra by (done || lia).
  rewrite advance_advance. set (r1 := advance (r <| index := 8 * (j + 4) |>) (10 + 3)).
  assert (from r1 = j + 6) as Hfr.
  { unfold from. change (index r1) with (8 * (j + 4) + 13).
    replace (8 * (j + 4) + 13 + 7) with (4 + (j + 6) * 8) by lia. rewrite Z.div_add by lia. change (4 / 8) with 0. lia. }
  change (index r1) with (8 * (j + 4) + 13). replace (8 * (j + 4) + 13 - 13) with (8 * (j + 4)) by lia.
  destruct (IH (frame + 1) (if intra_at (store r) j then found ++ [IntraFrame frame (8 * (j + 4))] else found) r1)
    as (r' & E & Hst).
  - done.
  - apply (whole_index r (8 * (j + 4) + 13)); [done|lia].
  - rewrite Hfr. change (writePos r1) with (writePos r). lia.
  - lia.
  - rewrite Hfr in E. change (store r1) with (store r) in E. exists r'. rewrite E. split; [|exact Hst]. cbn [length entries].
    f_equal. f_equal. f_equal; [lia|]. destruct (intra_at (store r) j); cbn [app]; [|done]. by rewrite <- app_assoc.
Qed.

Lemma pictures_in_after t : pictures_in t = pictures_after t 0.
Proof. unfold pictures_in, pictures_after. do 2 f_equal. lia. Qed.

Lemma new_reader_whole file :
  Forall byte file -> Z.of_nat (length file) < 16777216 -> whole (new_reader file).
Proof. intros Hb Hl. split; [|done]. split; [done|]. cbn. lia. Qed.

Lemma index_collected file p :
  Forall byte file -> Z.of_nat (length file) < 16777216 -> typed file ->
  exists r, collectIntraFrames (with_reader (new_reader file) p) =
    Some (with_reader r p <| intraFrames := intraFrames p ++ entries file 0 (pictures_in file) |>
                         <| frameCount := Z.of_nat (length (pictures_in file)) |>) /\
    r <| index := 0 |> = new_reader file.
Proof.
  intros Hb Hl Ht. pose proof (new_reader_whole file Hb Hl) as Hw.
  destruct (collect_spec (S (length file)) 0 (intraFrames p) (new_reader file)) as (r & E & Hst & Hwp); [done|done| |lia|].
  { change (Z.of_nat (length file) - 0 < Z.of_nat (S (length file))). lia. }
  exists r. split; [|destruct r; cbn in Hst, Hwp; by subst]. unfold collectIntraFrames. change (buffer (film (with_reader (new_reader file) p))) with (new_reader file).
  change (store (new_reader file)) with file in *. change (intraFrames (with_reader _ p)) with (intraFrames p).
  change (from (new_reader file)) with 0 in E. rewrite pictures_in_after, E. done.
Qed.

(** ** Seeking *)

(** The last intra picture that is not after picture [n]. *)
Fixpoint last_intra (t : list Z) (k : Z) (js : list Z) (n : Z) (found : option intraFrame) : option intraFrame :=
  match js with
  | [] => found
  | j :: js' =>
      last_intra t (k + 1) js' n
        (if (k <=? n) && intra_at t j then Some (IntraFrame k (8 * (j + 4))) else found)
  end.

Lemma last_intra_past t k js n o : n < k -> last_intra t k js n o = o.
Proof.
  revert k o. induction js as [|j js IH]; intros k o Hk; cbn [last_intra]; [done|].
  destruct (Z.leb_spec k n); [lia|]. cbn [andb]. apply IH. lia.
Qed.

Lemma seek_last_intra t k js n o : seek_target o (entries t k js) n = last_intra t k js n o.
Proof.
  revert k o. induction js as [|j js IH]; intros k o; cbn [entries last_intra]; [done|].
  destruct (intra_at t j); cbn [app seek_target frameNo]; [|by rewrite andb_false_r].
  rewrite andb_true_r. destruct (Z.leb_spec k n); [apply IH|]. by rewrite last_intra_past by lia.
Qed.

(** Picture [k] of the file, an intra picture at byte [j], is the last one up to
    picture [n]. *)
Definition nearest_intra (file : list Z) (n k j : Z) : Prop :=
  0 <= k <= n /\ tget (pictures_in file) k = Some j /\ intra_at file j = true /\
  forall k' j', k < k' <= n -> tget (pictures_in file) k' = Some j' -> intra_at file j' = false.

Lemma last_intra_spec t k js n o :
  0 <= k ->
  (last_intra t k js n o = o /\ forall i j, k <= i <= n -> tget js (i - k) = Some j -> intra_at t j = false) \/
  exists i j, last_intra t k js n o = Some (IntraFrame i (8 * (j + 4))) /\ k <= i <= n /\
    tget js (i - k) = Some j /\ intra_at t j = true /\
    forall i' j', i < i' <= n -> tget js (i' - k) = Some j' -> intra_at t j' = false.
Proof.
  revert k o. induction js as [|j js IH]; intros k o Hk; cbn [last_intra].
  { left. split; [done|]. intros i j Hi Hj. unfold tget in Hj. by destruct (0 <=? i - k). }
  assert (forall i, k < i -> tget (j :: js) (i - k) = tget js (i - (k + 1))) as Hs.
  { intros i Hi. unfold tget. zknown. by replace (Z.to_nat (i - k)) with (S (Z.to_nat (i - (k + 1)))) by lia. }
  assert (forall i, k = i -> tget (j :: js) (i - k) = Some j) as H0 by (intros i ->; by rewrite Z.sub_diag).
  destruct (IH (k + 1) (if (k <=? n) && intra_at t j then Some (IntraFrame k (8 * (j + 4))) else o) ltac:(lia))
    as [[E Hno]|(i & j' & E & Hi & Hj & Hint & Hno)]; rewrite E.
  - destruct (Z.leb_spec k n); cbn [andb]; [destruct (intra_at t j) eqn:Ej|].
    + right. exists k, j. split; [done|]. split; [lia|]. split; [by apply H0|]. split; [done|].
      intros i' j' Hi' Hj'. rewrite Hs in Hj' by lia. by apply (Hno i'); [lia|].
    + left. split; [done|]. intros i j' Hi Hj. destruct (Z.eq_dec i k) as [->|].
      * rewrite H0 in Hj by done. by simplify_eq.
      * rewrite Hs in Hj by lia. by apply (Hno i); [lia|].
    + left. split; [done|]. lia.
  - right. exists i, j'. split; [done|]. split; [lia|]. rewrite Hs by lia. split; [done|]. split; [done|].
    intros i' j2 Hi' Hj2. rewrite Hs in Hj2 by lia. by apply (Hno i').
Qed.

(** The index is empty exactly when there is no intra picture. *)
Lemma entries_intra t k js : entries t k js = [] <-> Forall (fun j => intra_at t j = false) js.
Proof.
  revert k. induction js as [|j js IH]; intros k; cbn [entries]; [by split|].
  rewrite Forall_cons. destruct (intra_at t j); cbn [app]; [|rewrite IH; by intuition].
  split; [done|by intros [? _]].
Qed.

(** C26: the seek index.  Loading a seekable file whose pictures have types (the
    byte that holds the type is not below 8, as with every valid type) adds exactly its intra pictures to the index, in
    order, each with its number among all pictures and the position behind its start
    code, and counts all pictures.  With an index of this file alone, seeking to
    picture [n] of the file (without [seekExact]) returns false when the file has no
    intra picture at all; it throws when there is one, but none up to [n]; and
    otherwise it starts at the nearest intra picture up to [n] and shows what is
    decoded there.  (The index is an array of the prototype: what earlier players
    collected stays in it.) *)
Theorem seek_finds_intra fuel file p n :
  Forall byte file -> Z.of_nat (length file) < 16777216 -> typed file ->
  exists p', collectIntraFrames (with_reader (new_reader file) p) = Some p' /\
    frameCount p' = Z.of_nat (length (pictures_in file)) /\
    intraFrames p' = intraFrames p ++ entries file 0 (pictures_in file) /\
    (intraFrames p = [] -> 0 <= n < frameCount p' ->
     let at_ k j := (film p') <| buffer := (buffer (film p')) <| index := 8 * (j + 4) |> |> <| currentFrame := k - 1 |> in
     match seekToFrame fuel n false p' with
     | Refused => Forall (fun j => intra_at file j = false) (pictures_in file)
     | NoTarget => Exists (fun j => intra_at file j = true) (pictures_in file) /\
         forall k j, 0 <= k <= n -> tget (pictures_in file) k = Some j -> intra_at file j = false
     | Running => exists k j, nearest_intra file n k j /\ decodePicture fuel false (at_ k j) = None
     | Sought p'' => exists k j, nearest_intra file n k j /\ decodePicture fuel false (at_ k j) = Some (film p'')
     end).
Proof.
  intros Hb Hl Ht. destruct (index_collected file p Hb Hl Ht) as (r & E & _).
  eexists. split; [exact E|]. split; [done|]. split; [done|]. intros Hp Hn. cbv zeta.
  match goal with |- context [seekToFrame fuel n false ?q] => set (p' := q) in * end.
  assert (intraFrames p' = entries file 0 (pictures_in file)) as Hi.
  { change (intraFrames p ++ entries file 0 (pictures_in file) = entries file 0 (pictures_in file)). by rewrite Hp. }
  clearbody p'. unfold seekToFrame. destruct (Z.ltb_spec n 0); [lia|]. destruct (Z.leb_spec (frameCount p') n); [lia|].
  cbn [orb]. case_bool_decide as Hnil; [by rewrite Hi in Hnil; apply entries_intra in Hnil|].
  rewrite Hi in *. rewrite seek_last_intra.
  destruct (last_intra_spec file 0 (pictures_in file) n None ltac:(lia)) as [[-> Hno]|(k & j & -> & Hk & Hj & Hint & Hno)].
  - split; [|intros k j Hk Hj; apply (Hno k); [lia|]; by rewrite Z.sub_0_r].
    rewrite entries_intra in Hnil. apply not_Forall_Exists in Hnil; [|apply _].
    eapply Exists_impl; [exact Hnil|]. unfold compose. intros j Hj. by destruct (intra_at file j).
  - rewrite Z.sub_0_r in Hj. cbn [frameNo frameIndex mbind option_bind].
    assert (nearest_intra file n k j) as Hnear.
    { split; [lia|]. split; [done|]. split; [done|]. intros k' j' Hk' Hj'. apply (Hno k'); [lia|]. by rewrite Z.sub_0_r. }
    destruct (decodePicture _ _ _) eqn:Ed; exists k, j; split; try done; exact Ed.
Qed.

Lemma typed_check t :
  all_below (length t) (fun j => negb (picture_at t j) || match tget t (j + 5) with Some y => 8 <=? y | None => true end) = true ->
  typed t.
Proof.
  intros H j y Hj Hy. pose proof (picture_at_in _ _ Hj). apply (all_below_spec _ _ j) in H; [|lia].
  cbn beta in H. rewrite Hj, Hy in H. by apply Z.leb_le.
Qed.

(** An intra picture of one macroblock, and the header of a predicted one. *)
Definition demo_file : list Z := [0; 0; 1; 0] ++ demo_picture ++ [0; 16; 0; 0].

Definition demo_film : filePlayer := FilePlayer (initBuffers 16 16 new_jsmpeg) [] 0 0 false 0 true false false.

Lemma seek_finds_intra_witness :
  exists p', collectIntraFrames (with_reader (new_reader demo_file) demo_film) = Some p' /\
    frameCount p' = 2 /\ intraFrames p' = [IntraFrame 0 32] /\
    match seekToFrame 2 1 false p' with
    | Sought _ | Running => exists k j, nearest_intra demo_file 1 k j
    | Refused | NoTarget => False
    end.
Proof.
  destruct (seek_finds_intra 2 demo_file demo_film 1) as (p' & E & Hc & Hi & Hs).
  - decide_bytes.
  - by vm_compute.
  - apply typed_check. by vm_compute.
  - assert (Z.of_nat (length (pictures_in demo_file)) = 2) as H2 by (vm_compute; reflexivity).
    assert (entries demo_file 0 (pictures_in demo_file) = [IntraFrame 0 32]) as H1 by (vm_compute; reflexivity).
    rewrite H2 in Hc. rewrite H1 in Hi. change (intraFrames p' = [IntraFrame 0 32]) in Hi.
    exists p'. split; [exact E|]. split; [exact Hc|]. split; [exact Hi|].
    specialize (Hs eq_refl ltac:(lia)). cbv zeta in Hs.
    destruct (seekToFrame 2 1 false p').
    + apply (Forall_lookup_1 _ _ 0 0) in Hs; [|vm_compute; reflexivity]. vm_compute in Hs. discriminate.
    + destruct Hs as [_ Hs]. specialize (Hs 0 0 ltac:(lia) ltac:(vm_compute; reflexivity)). vm_compute in Hs. discriminate.
    + destruct Hs as (k & j & Hn & _). exists k, j. exact Hn.
    + destruct Hs as (k & j & Hn & _). exists k, j. exact Hn.
Defined.

(** ** Recordings *)

(** What [startRecording] writes. *)
Lemma header_width w h rest r :
  0 <= w < 4096 -> 0 <= h < 4096 -> store r = recording_header w h ++ rest -> index r = 32 ->
  getBits r 12 = (w, advance r 12) /\ getBits (advance r 12) 12 = (h, advance r 24).
Proof.
  intros Hw Hh Hs Hi. unfold getBits. rewrite advance_advance. change (12 + 12) with 24.
  assert (0 <= w / 16 < 256) by (split; [apply Z.div_pos; lia|apply Z.div_lt_upper_bound; lia]).
  assert (0 <= h / 256 < 16) by (split; [apply Z.div_pos; lia|apply Z.div_lt_upper_bound; lia]).
  pose proof (Z.mod_pos_bound w 16 ltac:(lia)). pose proof (Z.mod_pos_bound h 256 ltac:(lia)).
  pose proof (Z.div_mod w 16 ltac:(lia)). pose proof (Z.div_mod h 256 ltac:(lia)).
  assert (forall x, Z.land x 15 = x mod 16) as L15 by (intros x; apply (Z.land_ones x 4); lia).
  assert (forall x, Z.land x 255 = x mod 256) as L255 by (intros x; apply (Z.land_ones x 8); lia).
  assert (forall a b, 0 <= b < 16 -> Z.lor (a * 16) b = a * 16 + b) as O4 by (intros a b; apply (lor_shift_add a 4 b); lia).
  assert (forall a b, 0 <= b < 256 -> Z.lor (a * 256) b = a * 256 + b) as O8 by (intros a b; apply (lor_shift_add a 8 b); lia).
  assert (tget (store r) 4 = Some (w / 16)) as B4.
  { rewrite Hs. change (tget _ 4) with (Some (u8 (shr w 4))). f_equal. unfold u8. rewrite shr_div by lia. apply Z.mod_small. lia. }
  assert (tget (store r) 5 = Some (w mod 16 * 16 + h / 256)) as B5.
  { rewrite Hs. change (tget _ 5) with (Some (u8 (Z.lor (shl (Z.land w 15) 4) (shr h 8)))). f_equal. unfold u8. rewrite shr_div by lia. change (2 ^ 8) with 256.
    rewrite L15, shl_small by lia. change (2 ^ 4) with 16.
    rewrite O4 by lia. apply Z.mod_small. lia. }
  assert (tget (store r) 6 = Some (h mod 256)) as B6.
  { rewrite Hs. change (tget _ 6) with (Some (u8 (Z.land h 255))). f_equal. unfold u8. rewrite L255. apply Z.mod_small. lia. }
  assert (forall x, 0 <= x < 256 -> int (Some x) = x) as Hint by (intros; unfold int; cbn; apply s32_small; lia).
  assert (forall x, 0 <= x < 256 -> Z.land x 255 = x) as H255.
  { intros x Hx. rewrite L255. apply Z.mod_small. lia. }
  split; f_equal.
  - unfold nextBits, byte_at. rewrite Hi. change (shr 32 3) with 4. change (Z.rem 32 8) with 0.
    change (12 <=? 8 - 0) with false. change (Z.rem (32 + 12) 8) with 4. change (shr (32 + 12 - 1) 3) with 5.
    change (Z.to_nat (5 - (4 + 1))) with 0%nat. change (Z.max (4 + 1) 5) with 5. change (0 <? 4) with true.
    change (shr 255 (8 - (8 - 0))) with 255. cbn [middle]. cbv zeta. rewrite B4, B5, !Hint, H255 by lia.
    rewrite shl_small, shr_div by lia. change (2 ^ 4) with 16. change (8 - 4) with 4. change (2 ^ 4) with 16.
    replace ((w mod 16 * 16 + h / 256) / 16) with (w mod 16)
      by (rewrite Z.add_comm, Z.div_add by lia; rewrite Z.div_small; lia).
    rewrite O4 by lia. lia.
  - unfold nextBits, byte_at. change (index (advance r 12)) with (index r + 12). rewrite Hi.
    change (store (advance r 12)) with (store r).
    change (shr (32 + 12) 3) with 5. change (Z.rem (32 + 12) 8) with 4.
    change (12 <=? 8 - 4) with false. change (Z.rem (32 + 12 + 12) 8) with 0. change (shr (32 + 12 + 12 - 1) 3) with 6.
    change (Z.to_nat (6 - (5 + 1))) with 0%nat. change (Z.max (5 + 1) 6) with 6. change (0 <? 0) with false.
    change (shr 255 (8 - (8 - 4))) with 15. cbn [middle]. cbv zeta. rewrite B5, B6, !Hint by lia.
    rewrite L15.
    replace ((w mod 16 * 16 + h / 256) mod 16) with (h / 256)
      by (rewrite Z.add_comm, Z.mod_add by lia; rewrite Z.mod_small; lia).
    rewrite shl_small by lia. change (2 ^ 8) with 256. rewrite O8 by lia. lia.
Qed.

(** The header leaves the decoder with buffers of that size, 25 pictures per
    second and the default matrices. *)
Lemma recording_header_read j w h rest r :
  0 <= w < 4096 -> 0 <= h < 4096 -> store r = recording_header w h ++ rest -> index r = 32 ->
  decodeSequenceHeader (j <| buffer := r |>) =
  (initBuffers w h (j <| buffer := r |> <| pictureRate := Some 25000 |>)) <| buffer := advance r 64 |>.
Proof.
  intros Hw Hh Hs Hi. destruct (header_width w h rest r Hw Hh Hs Hi) as [G1 G2].
  destruct r as [st wp ix]. cbn in Hs, Hi. subst st ix. set (r := Reader _ _ _) in *.
  assert (nextBits (advance (advance r 24) 4) 4 = 3) as G3 by reflexivity.
  assert (nextBits (advance (advance (advance (advance r 24) 4) 4) (18 + 1 + 10 + 1)) 1 = 0) as G4 by reflexivity.
  assert (nextBits (advance (advance (advance (advance (advance r 24) 4) 4) (18 + 1 + 10 + 1)) 1) 1 = 0) as G5 by reflexivity.
  clearbody r. unfold decodeSequenceHeader. change (buffer (j <| buffer := r |>)) with r. rewrite G1, G2.
  unfold getBits. rewrite G3, G4. change (nz 0) with false. cbn iota beta. rewrite G5. change (nz 0) with false. cbn iota beta.
  rewrite !advance_advance. done.
Qed.

(** ** Playing a recording *)

(** What the recorder keeps of a picture: up to and with the next start code. *)
Definition part (pic : shot) : list Z := enc pic START_PICTURE.

Lemma part_length pic : (4 <= length (part pic))%nat.
Proof. unfold part, enc. rewrite length_app. cbn [length]. lia. Qed.

Lemma part_inside r c pic : holds r c (part pic) -> 0 <= c -> c + Z.of_nat (length (part pic)) <= Z.of_nat (length (store r)).
Proof.
  intros Hh Hc. apply holds_in; [done..|]. pose proof (part_length pic). by destruct (part pic); [cbn in *; lia|].
Qed.

(** The parts that the recorder collects while these pictures are decoded. *)
Definition recorded (w h : Z) (pics : list shot) : list Z :=
  recording_header w h ++ concat (part <$> pics).

(** The planes after some pictures of a recording. *)
Definition replayed (w h : Z) : frame -> list shot -> frame :=
  planes_after w h DEFAULT_INTRA_QUANT_MATRIX DEFAULT_NON_INTRA_QUANT_MATRIX.

Lemma enough_more w h fuel : enough w h fuel -> enough w h (S fuel).
Proof. intros (? & ? & ?). repeat split; lia. Qed.

(** The first start code is found. *)
Lemma find_first r i :
  sized r -> from r <= i < writePos r -> prefix_at r i = true ->
  (forall k, from r <= k < i -> prefix_at r k = false) ->
  findNextMPEGStartCode r = (byte_at r (i + 3), r <| index := 8 * (i + 4) |>).
Proof.
  intros Hr Hi Hp Hmin. pose proof (find_spec r Hr) as H. destruct (findNextMPEGStartCode r) as [c r'].
  destruct H as [(i' & Hi' & Hp' & Hmin' & -> & ->)|(Hnone & _)].
  - assert (i' = i) as ->; [|done]. destruct (Z.lt_total i' i) as [Hlt|[?|Hlt]]; [|done|].
    + by rewrite Hmin in Hp' by lia.
    + by rewrite Hmin' in Hp by lia.
  - by rewrite Hnone in Hp by lia.
Qed.

Section Playing.
Context (w h : Z) (file : list Z).
Context (Hfile : Forall byte file) (Hlen : Z.of_nat (length file) < 16777216).

(** A player on the file whose next start code is at byte [c]. *)
Definition next_code (r : reader) (c : Z) : Prop :=
  store r = file /\ writePos r = Z.of_nat (length file) /\ 0 <= index r < 268435456 /\ from r <= c /\
  forall k, from r <= k < c -> prefix_at r k = false.

Definition index_of (p : filePlayer) : list intraFrame * Z := (intraFrames p, frameCount p).

Record at_code (p : filePlayer) (c : Z) (fr : frame) : Prop := {
  ac_showing : showing w h (film p);
  ac_reader : next_code (buffer (film p)) c;
  ac_paused : playing p = false /\ autoplay p = false;
  ac_matrices : matrices (film p) = (DEFAULT_INTRA_QUANT_MATRIX, DEFAULT_NON_INTRA_QUANT_MATRIX);
  ac_forward : forward (film p) = fr }.

Definition holds_file (c : Z) (l : list Z) : Prop := holds (new_reader file) c l.

Lemma next_shows fuel p c fr pic :
  at_code p c fr -> 0 <= c -> of_size w h pic -> holds_file c ([0; 0; 1; START_PICTURE] ++ part pic) -> enough w h fuel ->
  exists p', nextFrame fuel p = Some (true, p') /\ on_canvas w h (canvas (film p')) (replayed w h fr [pic]) /\
    at_code p' (c + Z.of_nat (length (part pic))) (replayed w h fr [pic]) /\ index_of p' = index_of p.
Proof.
  intros [Hsh Hr Hpl Hmat Hfr] Hc Hpic Hh Hfuel.
  pose proof Hh as Hh0. apply holds_prefix in Hh0 as [Hp Hcode]. apply holds_app in Hh as [_ Hh].
  change (Z.of_nat (length [0; 0; 1; START_PICTURE])) with 4 in Hh.
  assert (c + 4 + Z.of_nat (length (part pic)) <= Z.of_nat (length file)) as Hfit.
  { apply (part_inside (new_reader file)); [done|lia]. }
  destruct fuel as [|fuel]; [destruct Hfuel as (_ & _ & ?); lia|].
  cbn [nextFrame]. destruct (buffer (film p)) as [st wp ix] eqn:Er. destruct Hr as (E1 & E2 & Hix & Hle & Hno).
  cbn in E1, E2, Hix. subst st wp. set (r0 := Reader file _ _) in *.
  rewrite (find_first r0 c); [|split; [done|cbn; lia]|cbn [writePos r0]; lia|exact Hp|done].
  change (byte_at r0 (c + 3)) with (byte_at (new_reader file) (c + 3)). rewrite Hcode.
  rewrite (bool_decide_eq_false_2 (Some START_PICTURE = Some START_SEQUENCE)) by done.
  rewrite (bool_decide_eq_true_2 (Some START_PICTURE = Some START_PICTURE)) by done.
  set (p1 := with_reader _ p). change (playing p1) with (playing p). rewrite (proj1 Hpl).
  assert (showing w h (film p1)) as Hsh1.
  { apply showing_reader; [done|]. split; [split; [done|change (0 <= 8 * (c + 4)); lia]|]. cbn. lia. }
  change (matrices (film p1) = (DEFAULT_INTRA_QUANT_MATRIX, DEFAULT_NON_INTRA_QUANT_MATRIX)) in Hmat.
  pose proof Hmat as Hm. apply pair_equal_spec in Hm as [Hm1 Hm2].
  destruct (shot_decoded w h (film p1) (S fuel) (c + 4) START_PICTURE pic false) as (j & E & Hj & Hb & Ef & Hcan);
    [exact Hsh1|split; [rewrite Hm1|rewrite Hm2]; apply default_matrices|exact Hpic|exact Hfuel|reflexivity|reflexivity|lia
    |exact Hh|exact Hfit|].
  assert (forward j = replayed w h fr [pic]) as Efr by (rewrite Ef, Hm1, Hm2, <- Hfr; reflexivity).
  rewrite E. cbn [mbind option_bind]. eexists. split; [reflexivity|]. split; [rewrite <- Efr; by apply Hcan|].
  split; [|reflexivity]. split; [exact Hj| |exact Hpl|rewrite <- Hmat; by apply matrices_kept in E|exact Efr].
  change (next_code (buffer j) (c + Z.of_nat (length (part pic)))). rewrite Hb. fold (part pic).
  split; [done|]. split; [done|]. rewrite from_bytes.
  split; [change (0 <= 8 * (c + 4 + Z.of_nat (length (part pic)) - 4) < 268435456); lia|]. split; [lia|]. intros k Hk. lia.
Qed.

(** [k] more pictures. *)
Fixpoint next_frames (k fuel : nat) (p : filePlayer) : option filePlayer :=
  match k with
  | O => Some p
  | S k' => '(_, p) ← nextFrame fuel p; next_frames k' fuel p
  end.

(** The end of a picture is the start code of the next one. *)
Lemma holds_rest c pic pics :
  holds_file c ([0; 0; 1; START_PICTURE] ++ concat (part <$> pic :: pics)) ->
  holds_file c ([0; 0; 1; START_PICTURE] ++ part pic) /\
  holds_file (c + Z.of_nat (length (part pic))) ([0; 0; 1; START_PICTURE] ++ concat (part <$> pics)).
Proof.
  cbn [fmap list_fmap concat]. intros Hh. split; [rewrite app_assoc in Hh; by apply holds_app in Hh as [Hh _]|].
  unfold part at 1, enc in Hh. rewrite <- app_assoc, app_assoc in Hh.
  apply holds_app in Hh as [_ Hh]. unfold part at 1, enc. rewrite !length_app in *. cbn [length] in *.
  unfold holds_file. replace (c + Z.of_nat (length (body pic) + 4)) with (c + Z.of_nat (4 + length (body pic))) by lia.
  exact Hh.
Qed.

Lemma frames_shown fuel pics p c fr k :
  at_code p c fr -> 0 <= c -> Forall (of_size w h) pics ->
  holds_file c ([0; 0; 1; START_PICTURE] ++ concat (part <$> pics)) -> enough w h fuel -> (k <= length pics)%nat ->
  exists p' c', next_frames k fuel p = Some p' /\ at_code p' c' (replayed w h fr (take k pics)) /\ index_of p' = index_of p /\
    (k <> 0%nat -> on_canvas w h (canvas (film p')) (replayed w h fr (take k pics))).
Proof.
  intros Hat Hc Hall Hh Hfuel. revert p c fr k Hat Hc Hh. induction Hall as [|pic1 pics H1 Hall IH];
    intros p c fr [|k] Hat Hc Hh Hk; cbn [length] in Hk; [by exists p, c|lia|by exists p, c|]. apply holds_rest in Hh as [Hh1 Hh].
  destruct (next_shows fuel p c fr pic1 Hat Hc H1 Hh1 Hfuel) as (p1 & E & Hcan & Hat1 & Hi1).
  cbn [next_frames]. rewrite E. cbn [mbind option_bind].
  destruct (IH p1 (c + Z.of_nat (length (part pic1))) _ k Hat1) as (p' & c' & E' & Hat' & Hi' & Hcan'); [lia|done|lia|].
  exists p', c'. split; [exact E'|]. split; [exact Hat'|]. split; [by rewrite Hi'|]. intros _.
  destruct k as [|k]; [|by apply Hcan']. cbn in E'. simplify_eq. exact Hcan.
Qed.
End Playing.

(** The start codes of the recording's header. *)
Lemma recorded_codes w h rest r :
  store r = recording_header w h ++ rest ->
  prefix_at r 0 = true /\ byte_at r 3 = Some START_SEQUENCE /\
  prefix_at r 12 = true /\ byte_at r 15 = Some 184 /\
  (forall k, 16 <= k < 20 -> prefix_at r k = false).
Proof.
  intros Hs. unfold prefix_at, byte_at. rewrite Hs. repeat (split; [done|]).
  intros k Hk. assert (k = 16 \/ k = 17 \/ k = 18 \/ k = 19) as [-> | [-> | [-> | ->]]] by lia; done.
Qed.

Lemma recorded_bytes w h pics :
  Forall (of_size w h) pics -> sized_picture w h -> h <= 2800 -> Forall byte (recorded w h pics).
Proof.
  intros Hall Hs Hh. unfold recorded. rewrite Forall_app. split.
  - unfold recording_header. apply Forall_fmap, Forall_forall. intros x _. apply u8_range.
  - apply Forall_concat, Forall_fmap. eapply Forall_impl; [exact Hall|]. intros pic Hpic. change (Forall byte (part pic)).
    unfold part, enc. rewrite Forall_app. split; [|by repeat constructor]. apply body_bytes. rewrite (os_count _ _ _ Hpic).
    destruct (geometry_spec w h Hs) as (_ & _ & _ & _ & Hch & _ & _ & _ & _ & Hh1). lia.
Qed.

Lemma recorded_holds w h pics :
  holds_file (recorded w h pics) 20 ([0; 0; 1; START_PICTURE] ++ concat (part <$> pics)).
Proof.
  change (recorded w h pics)
    with ((take 20 (recording_header w h) ++ [0; 0; 1; START_PICTURE]) ++ concat (part <$> pics)).
  rewrite <- app_assoc. set (l := [0; 0; 1; START_PICTURE] ++ _).
  intros k x Hk. unfold tget. cbn [store new_reader]. rewrite (proj2 (Z.leb_le 0 (20 + Z.of_nat k))) by lia.
  replace (Z.to_nat (20 + Z.of_nat k)) with (length (take 20 (recording_header w h)) + k)%nat
    by (change (length (take 20 (recording_header w h))) with 20%nat; lia).
  rewrite lookup_app_r by lia. by replace (_ + k - _)%nat with k by lia.
Qed.

Lemma film_reader p j r r' :
  film (with_reader r' (p <| film := j <| buffer := r |> |>)) = j <| buffer := r' |>.
Proof. by destruct j. Qed.

(** The header is read, and the player goes on to the first picture. *)
Lemma recording_opened w h p pics f :
  let file := recorded w h pics in
  sized_picture w h /\ h <= 2800 /\ Z.even w = true /\ Z.even h = true -> w < 4096 ->
  film p = new_jsmpeg <| buffer := new_reader file |> -> autoplay p = false -> playing p = false ->
  Forall byte file -> Z.of_nat (length file) < 16777216 ->
  exists p1, at_code w h file p1 20 (new_frame (new_geometry w h)) /\ index_of p1 = index_of p /\
    ('(_, r) ← findStartCode START_SEQUENCE (buffer (film p));
     let p := with_reader r p <| firstSequenceHeader := index r |> in
     let p := p <| film := decodeSequenceHeader (film p) |> in
     '(_, p) ← nextFrame (S (S f)) p;
     Some (if autoplay p then play p else p)) =
    '(_, p) ← nextFrame (S f) p1; Some (if autoplay p then play p else p).
Proof.
  intros file Hs Hw Hfilm Hauto Hplay Hb Hlen.
  destruct (recorded_codes w h (concat (part <$> pics)) (new_reader file) eq_refl) as (P0 & C3 & P12 & C15 & Hno).
  assert (24 <= Z.of_nat (length file)) as H24 by (subst file; unfold recorded; rewrite length_app; cbn; lia).
  set (r := (new_reader file) <| index := 32 |>).
  assert (findStartCode START_SEQUENCE (new_reader file) = Some (Some START_SEQUENCE, r)) as E0.
  { unfold findStartCode. cbn [findStartCode_loop].
    rewrite (find_first (new_reader file) 0); [|by apply new_reader_whole|cbn [writePos new_reader]; change (from _) with 0; lia|done
      |change (from _) with 0; intros; lia].
    change (0 + 3) with 3. rewrite C3. done. }
  set (r1 := advance r 64). set (r2 := r <| index := 8 * (12 + 4) |>).
  assert (findNextMPEGStartCode r1 = (Some 184, r2)) as E1.
  { rewrite (find_first r1 12); [by change (byte_at r1 (12 + 3)) with (byte_at (new_reader file) 15); rewrite C15
      |by apply (sized_index (new_reader file) 96); [apply new_reader_whole|]|change (from r1) with 12; change (writePos r1) with (Z.of_nat (length file)); lia|done
      |change (from r1) with 12; intros; lia]. }
  rewrite Hfilm. change (buffer (new_jsmpeg <| buffer := _ |>)) with (new_reader file). rewrite E0. cbn [mbind option_bind].
  set (pl := with_reader r p <| firstSequenceHeader := index r |>).
  assert (film pl = new_jsmpeg <| buffer := r |>) as Hfl by (by subst pl; unfold with_reader; cbn; rewrite Hfilm).
  rewrite Hfl, (recording_header_read new_jsmpeg w h (concat (part <$> pics)) r)
    by (reflexivity || (destruct Hs as ([? ?] & ?); lia)).
  fold r1. set (j0 := new_jsmpeg <| buffer := r |> <| pictureRate := _ |>). set (j1 := (initBuffers w h j0) <| buffer := r1 |>). set (p2 := pl <| film := j1 |>).
  pose proof (film_reader pl (initBuffers w h j0) r1 r2 : film (with_reader r2 p2) = _) as Hf2.
  exists (with_reader r2 p2). split; [|split; [reflexivity|]].
  - split; [rewrite Hf2|rewrite Hf2|exact (conj Hplay Hauto)|rewrite Hf2; reflexivity|rewrite Hf2; reflexivity].
    + apply (init_showing w h j0 r2); [exact Hs| |reflexivity|reflexivity|discriminate].
      split; [split; [exact Hb|change (0 <= 128); lia]|].
      change (writePos r2) with (Z.of_nat (length file)). change (store r2) with file. lia.
    + change (next_code file r2 20). split; [reflexivity|]. split; [reflexivity|]. change (from r2) with 16.
      split; [change (0 <= 128 < 268435456); lia|]. split; [lia|]. exact Hno.
  - cbn [nextFrame]. change (buffer (film p2)) with r1. rewrite E1. reflexivity.
Qed.

(** A new player of the page. *)
Record fresh (p : filePlayer) : Prop := {
  fr_film : film p = new_jsmpeg;
  fr_autoplay : autoplay p = false;
  fr_playing : playing p = false }.

(** The index after a file has been loaded. *)
Definition indexed (file : list Z) (p : filePlayer) : list intraFrame * Z :=
  if seekable p then (intraFrames p ++ entries file 0 (pictures_in file), Z.of_nat (length (pictures_in file)))
  else index_of p.

Lemma recording_loads w h p pics f :
  let file := recorded w h pics in
  sized_picture w h /\ h <= 2800 /\ Z.even w = true /\ Z.even h = true -> w < 4096 -> fresh p ->
  Forall byte file -> Z.of_nat (length file) < 16777216 -> (seekable p = true -> typed file) ->
  exists p1, at_code w h file p1 20 (new_frame (new_geometry w h)) /\ index_of p1 = indexed file p /\
    loadCallback (S (S f)) file p = '(_, p) ← nextFrame (S f) p1; Some (if autoplay p then play p else p).
Proof.
  intros file Hs Hw [Hfilm Hauto Hplay] Hb Hlen Ht. unfold loadCallback, indexed.
  change (seekable (with_reader _ p)) with (seekable p). destruct (seekable p).
  - destruct (index_collected file p Hb Hlen (Ht eq_refl)) as (r & -> & Hr). cbn [mbind option_bind].
    set (p0 := with_reader _ _).
    assert (film p0 = new_jsmpeg <| buffer := new_reader file |>) as Hp0.
    { change (film p0) with ((film p) <| buffer := r <| index := 0 |> |>). by rewrite Hr, Hfilm. }
    destruct (recording_opened w h p0 pics f Hs Hw Hp0 Hauto Hplay Hb Hlen) as (p1 & Hat & Hi & E).
    exists p1. split; [exact Hat|]. split.
    { rewrite Hi. unfold index_of. f_equal. }
    exact E.
  - cbn [mbind option_bind]. set (p0 := with_reader _ _).
    assert (film p0 = new_jsmpeg <| buffer := new_reader file |>) as Hp0.
    { change (film p0) with ((film p) <| buffer := new_reader file |>). by rewrite Hfilm. }
    destruct (recording_opened w h p0 pics f Hs Hw Hp0 Hauto Hplay Hb Hlen) as (p1 & Hat & Hi & E).
    exists p1. split; [exact Hat|]. split; [exact Hi|exact E].
Qed.

(** The file plays back. *)
Lemma recorded_plays w h p pics fuel k :
  sized_picture w h /\ h <= 2800 /\ Z.even w = true /\ Z.even h = true -> w < 4096 -> fresh p ->
  Forall (of_size w h) pics -> (k < length pics)%nat ->
  Z.of_nat (length (recorded w h pics)) < 16777216 -> (seekable p = true -> typed (recorded w h pics)) -> enough w h fuel ->
  exists p' c, loadCallback (S fuel) (recorded w h pics) p ≫= next_frames k (S fuel) = Some p' /\
    at_code w h (recorded w h pics) p' c (replayed w h (new_frame (new_geometry w h)) (take (S k) pics)) /\
    index_of p' = indexed (recorded w h pics) p /\
    on_canvas w h (canvas (film p')) (replayed w h (new_frame (new_geometry w h)) (take (S k) pics)).
Proof.
  intros Hs Hw Hfresh Hall Hk Hlen Ht Hfuel.
  pose proof (recorded_bytes w h pics Hall (proj1 Hs) ltac:(lia)) as Hb.
  destruct fuel as [|f]; [destruct Hfuel as (_ & _ & ?); lia|].
  destruct (recording_loads w h p pics f Hs Hw Hfresh Hb Hlen Ht) as (p1 & Hat & Hi & ->).
  destruct pics as [|pic1 pics]; cbn [length] in Hk; [lia|]. apply Forall_cons in Hall as [H1 Hall].
  destruct (holds_rest (recorded w h (pic1 :: pics)) 20 pic1 pics) as [Hh1 Hh]; [apply recorded_holds|].
  destruct (next_shows w h _ Hb Hlen (S f) p1 20 _ pic1 Hat) as (p2 & E & Hcan & Hat2 & Hi2); [lia|done|done|done|].
  rewrite E. cbn [mbind option_bind]. rewrite (proj2 (ac_paused _ _ _ _ _ _ Hat2)).
  destruct (frames_shown w h _ Hb Hlen (S (S f)) pics p2 _ _ k Hat2) as (p' & c' & E' & Hat' & Hi' & Hcan');
    [lia|done|exact Hh|by apply enough_more|lia|].
  exists p', c'. split; [exact E'|]. split; [exact Hat'|]. split; [by rewrite Hi', Hi2|].
  destruct k as [|k]; [|by apply Hcan']. cbn in E'. simplify_eq. exact Hcan.
Qed.

(** ** Making a recording *)

(** What the recorder does when a picture has been decoded: it waits for the first
    intra picture, and keeps that one and all pictures after it. *)
Definition with_part (rec : recorder) (part : list Z) : recorder :=
  Recorder true false (recordedFrames rec + 1) (recordedSize rec + Z.of_nat (length part)) (recordBuffers rec ++ [part]).

Definition record_step (rec : recorder) (type : Z) (part : list Z) : recorder :=
  if recorderWaitForIntraFrame rec && negb (type =? PICTURE_TYPE_I) then rec else with_part rec part.

Lemma step_recorded j :
  isRecording (recording j) = true -> 0 <= writePos (buffer j) <= Z.of_nat (length (store (buffer j))) ->
  recording (recordFrameFromCurrentBuffer j) =
  record_step (recording j) (pictureCodingType (pic j)) (subarray (store (buffer j)) 0 (writePos (buffer j))).
Proof.
  intros Hrec Hw. unfold recordFrameFromCurrentBuffer, record_step. rewrite Hrec. cbn [negb].
  destruct (_ && _); [done|]. unfold with_part, subarray. rewrite drop_0, Z.sub_0_r, length_take.
  rewrite Nat.min_l, Z2Nat.id by lia. done.
Qed.

Lemma finish_recorded fuel skip j pc r j' :
  finish_picture fuel skip j pc r = Some j' -> isRecording (recording j) = true ->
  0 <= writePos (buffer j') <= Z.of_nat (length (store (buffer j'))) ->
  recording j' = record_step (recording j) (pictureCodingType pc) (subarray (store (buffer j')) 0 (writePos (buffer j'))).
Proof.
  unfold finish_picture. intros E Hrec Hw.
  destruct (skip_headers _ _) as [[code r1]|]; cbn [mbind option_bind] in E; [|done].
  destruct (decode_slices _ _ _ _ _ _ _ _ _) as [d|]; cbn [mbind option_bind] in E; [|done].
  set (jd := _ <| block_data := blockData d |>) in E.
  destruct (record_keeps jd) as (_ & _ & _ & _ & _ & Kb).
  assert (recording j' = recording (recordFrameFromCurrentBuffer jd) /\ buffer j' = buffer (recordFrameFromCurrentBuffer jd))
    as [-> Hb] by (destruct skip; injection E as <-; done).
  rewrite Kb in Hb. rewrite Hb in Hw |- *. by apply step_recorded.
Qed.

(** The decoder's buffer with a picture of the stream: up to and with the next
    start code. *)
Record loaded (pic : shot) (r : reader) : Prop := {
  ld_bytes : Forall byte (store r);
  ld_size : Z.of_nat (length (store r)) < 16777216;
  ld_index : index r = 0;
  ld_end : writePos r = Z.of_nat (length (part pic));
  ld_holds : holds r 0 (part pic) }.

(** One picture after the other is loaded and decoded. *)
Fixpoint decode_all (fuel : nat) (rs : list reader) (j : jsmpeg) : option jsmpeg :=
  match rs with
  | [] => Some j
  | r :: rs' => decodePicture fuel false (j <| buffer := r |>) ≫= decode_all fuel rs'
  end.

Lemma loaded_part pic r : loaded pic r -> subarray (store r) 0 (writePos r) = part pic.
Proof.
  intros [_ _ _ -> Hh]. unfold subarray. rewrite drop_0, Z.sub_0_r, Nat2Z.id.
  assert (length (part pic) <= length (store r))%nat as Hl.
  { apply part_inside in Hh; lia. }
  apply list_eq_same_length with (n := length (part pic)); [done|by rewrite length_take, Nat.min_l|].
  intros i x y Hi Hx Hy. rewrite lookup_take_lt in Hx by done. apply Hh in Hy. unfold tget in Hy.
  rewrite Z.add_0_l, (proj2 (Z.leb_le 0 (Z.of_nat i))), Nat2Z.id in Hy by lia. congruence.
Qed.

Section Recording.
Context (w h : Z) (fuel : nat) (Hfuel : enough w h fuel).

(** A decoder that records. *)
Record rolling (j : jsmpeg) : Prop := {
  ro_showing : showing w h j;
  ro_matrices : matrices_ok j;
  ro_recording : isRecording (recording j) = true }.

Lemma loaded_decoded j pic r :
  rolling j -> of_size w h pic -> loaded pic r ->
  exists j', decodePicture fuel false (j <| buffer := r |>) = Some j' /\ rolling j' /\
    recording j' = record_step (recording j) (type_of_kind (s_kind pic)) (part pic).
Proof.
  intros [Hj Hm Hrec] Hpic Hld. pose proof (loaded_part _ _ Hld) as Hpart.
  destruct Hld as [Hb Hsize Hi He Hh].
  assert (4 <= Z.of_nat (length (part pic)) <= Z.of_nat (length (store r))) as Hl.
  { pose proof (part_length pic). apply part_inside in Hh; lia. }
  assert (ready r) as Hr by (split; [split; [done|lia]|lia]).
  pose proof (showing_reader w h j r Hj Hr) as Hj1. set (j1 := j <| buffer := r |>) in *.
  destruct (shot_decoded w h j1 fuel 0 START_PICTURE pic false) as (j' & E & Hj' & Eb & _);
    [exact Hj1|exact Hm|exact Hpic|exact Hfuel|reflexivity|exact Hi|lia|exact Hh
    |change (0 + Z.of_nat (length (part pic)) <= writePos r); lia|].
  pose proof Hh as Hh0. unfold part, enc, body in Hh0. rewrite <- app_assoc in Hh0. apply holds_app in Hh0 as [Hh0 _].
  destruct (picture_header_decoded w h pic fuel false j1 0 Hpic) as (n & En & _);
    [exact Hi|lia|split; [done|change (index (buffer j1)) with (index r); rewrite Hi; lia]|exact Hh0|].
  assert (recording j' = record_step (recording j) (type_of_kind (s_kind pic)) (part pic)) as Erec.
  { pose proof E as Ef. rewrite En in Ef. apply finish_recorded in Ef; [|exact Hrec|rewrite Eb; change (0 <= writePos r <= Z.of_nat (length (store r))); lia].
    rewrite Ef, Eb, pic_of_type.
    change (subarray (store ((buffer j1) <| index := ?i |>)) 0 ?e) with (subarray (store r) 0 (writePos r)).
    by rewrite Hpart. }
  exists j'. split; [exact E|]. split; [|exact Erec]. split; [exact Hj'| |].
  - apply matrices_kept in E. unfold matrices_ok. apply pair_equal_spec in E as [-> ->]. exact Hm.
  - rewrite Erec. unfold record_step. by destruct (_ && _).
Qed.

(** The recorder after some pictures. *)
Lemma all_recorded pics rs j :
  rolling j -> Forall (of_size w h) pics -> Forall2 loaded pics rs ->
  exists j', decode_all fuel rs j = Some j' /\ rolling j' /\
    recording j' = foldl (fun rec pic => record_step rec (type_of_kind (s_kind pic)) (part pic)) (recording j) pics.
Proof.
  intros Hj Hall Hld. revert j Hj Hall. induction Hld as [|pic r pics rs H1 Hld IH]; intros j Hj Hall.
  { by exists j. }
  apply Forall_cons in Hall as [Hs Hall]. destruct (loaded_decoded j pic r Hj Hs H1) as (j1 & E & Hj1 & Er).
  destruct (IH j1 Hj1 Hall) as (j' & E' & Hj' & Er').
  exists j'. cbn [decode_all foldl]. rewrite E, <- Er. by split; [|split].
Qed.
End Recording.

Lemma deltas_unrecorded rec deltas :
  recorderWaitForIntraFrame rec = true -> Forall (fun pic => s_kind pic <> Key) deltas ->
  foldl (fun rec pic => record_step rec (type_of_kind (s_kind pic)) (part pic)) rec deltas = rec.
Proof.
  intros Hw Hd. induction Hd as [|pic deltas Hk Hd IH]; cbn [foldl]; [done|].
  unfold record_step at 2. rewrite Hw. by destruct (s_kind pic).
Qed.

Lemma rest_recorded rec pics :
  recorderWaitForIntraFrame rec = false ->
  recordBuffers (foldl (fun rec pic => record_step rec (type_of_kind (s_kind pic)) (part pic)) rec pics) =
  recordBuffers rec ++ (part <$> pics).
Proof.
  revert rec. induction pics as [|pic pics IH]; intros rec Hw; cbn [foldl fmap list_fmap]; [by rewrite app_nil_r|].
  unfold record_step at 2. rewrite Hw. cbn [andb]. rewrite IH by done. cbn [with_part recordBuffers]. by rewrite <- app_assoc.
Qed.

(** C14: a recording plays back.  While a decoder of that size shows a stream of
    encoded pictures, [startRecording], the recorder's part of [decodePicture] and
    [stopRecording] make a file that a new player can load.  The predicted pictures
    before the first intra picture are left out; then [loadCallback] and [k] times
    [nextFrame] return, and the canvas shows picture [k] of the rest, pixel by
    pixel, painted from the planes of the pictures before it.  The sequence header,
    which the recorder makes up, gives back the size and the default matrices. *)
Theorem recording_plays_back w h j p deltas key pics rs fuel k :
  showing w h j -> matrices_ok j -> w < 4096 ->
  Forall (of_size w h) (deltas ++ key :: pics) -> Forall2 loaded (deltas ++ key :: pics) rs ->
  Forall (fun pic => s_kind pic <> Key) deltas -> s_kind key = Key ->
  fresh p -> seekable p = false -> (k <= length pics)%nat -> Z.of_nat (length (recorded w h (key :: pics))) < 16777216 -> enough w h fuel ->
  exists j' p', decode_all fuel rs (startRecording true j) = Some j' /\
    loadCallback (S fuel) (concat (stopRecording j').1) p ≫= next_frames k (S fuel) = Some p' /\
    on_canvas w h (canvas (film p'))
      (planes_after w h DEFAULT_INTRA_QUANT_MATRIX DEFAULT_NON_INTRA_QUANT_MATRIX (new_frame (new_geometry w h))
        (take (S k) (key :: pics))).
Proof.
  intros Hj Hm Hw Hall Hld Hdeltas Hkey Hfresh Hseek Hk Hlen Hfuel.
  pose proof (sh_size _ _ _ Hj) as Hs. pose proof (sh_geo _ _ _ Hj) as Hg.
  destruct (all_recorded w h fuel Hfuel (deltas ++ key :: pics) rs (startRecording true j)) as (j' & E & _ & Er); [|done..|].
  { split; [|exact Hm|reflexivity]. destruct Hj as [? ? [? ? ? ? ? ? ?] ? ?]. done. }
  apply Forall_app in Hall as [_ Hall].
  destruct (recorded_plays w h p (key :: pics) fuel k) as (p' & _ & Ep & _ & _ & Hcan);
    [done..|cbn [length]; lia|done|by rewrite Hseek|done|].
  exists j', p'. split; [exact E|]. split; [|exact Hcan]. cbn [stopRecording fst]. rewrite Er, foldl_app.
  rewrite (deltas_unrecorded (recording (startRecording true j)) deltas eq_refl Hdeltas). cbn [foldl]. rewrite rest_recorded; rewrite Hkey; [|done].
  change (recordBuffers (record_step _ _ _)) with [recording_header (width (geo j)) (height (geo j)); part key].
  rewrite Hg. exact Ep.
Qed.

(** An intra picture, and the predicted one of MpegFilm.v. *)
Definition demo_key : shot :=
  Shot Key 0 65535 8
    [replicate 4 (Intra 8 [(100, [(0, 5); (2, -1)]); (20, []); (30, [(0, 200)]); (40, []); (50, []); (60, [])])].

Lemma demo_key_size : of_size 64 16 demo_key.
Proof.
  split; [cbn; lia|cbn; lia| |reflexivity]. apply Forall_cons. split; [|constructor].
  split; [reflexivity| |discriminate|apply Nat.leb_le; vm_compute; reflexivity]. apply Forall_replicate.
  split; [reflexivity|cbn; lia|cbn; lia|reflexivity| |cbn; done].
  do 6 (apply Forall_cons; split; [split; [unfold byte; lia|
    split; [repeat (apply Forall_cons; split); try apply Forall_nil; unfold pair_ok; cbn; lia|cbn; lia]]|]).
  constructor.
Qed.

Lemma part_loaded pic :
  Z.of_nat (length (rows pic)) <= 255 -> Z.of_nat (length (part pic)) < 16777216 -> loaded pic (new_reader (part pic)).
Proof.
  intros Hr Hl. split; [|exact Hl|reflexivity|reflexivity|].
  - change (Forall byte (body pic ++ [0; 0; 1; START_PICTURE])). rewrite Forall_app.
    split; [by apply body_bytes|by repeat constructor].
  - intros i x Hi. unfold tget. zknown. rewrite Z.add_0_l, Nat2Z.id. exact Hi.
Qed.

Definition demo_player : filePlayer := FilePlayer new_jsmpeg [] 0 0 false 0 false false false.

(** Recording starts at a predicted picture, and the player shows the picture after
    the intra picture. *)
Lemma recording_plays_back_witness :
  exists j' p',
    decode_all 65 ((fun pic => new_reader (part pic)) <$> [demo_shot; demo_key; demo_shot])
      (startRecording true (shot_decoder 64 16 demo_shot)) = Some j' /\
    loadCallback 66 (concat (stopRecording j').1) demo_player ≫= next_frames 1 66 = Some p' /\
    on_canvas 64 16 (canvas (film p'))
      (planes_after 64 16 DEFAULT_INTRA_QUANT_MATRIX DEFAULT_NON_INTRA_QUANT_MATRIX (new_frame (new_geometry 64 16))
        [demo_key; demo_shot]).
Proof.
  apply (recording_plays_back 64 16 (shot_decoder 64 16 demo_shot) demo_player [demo_shot] demo_key [demo_shot] _ 65 1).
  - exact demo_shot_showing.
  - exact default_matrices.
  - lia.
  - pose proof demo_key_size. pose proof demo_shot_size. by repeat (apply Forall_cons; split).
  - repeat (apply Forall2_cons; split); [..|constructor];
      (apply part_loaded; [vm_compute; discriminate|vm_compute; reflexivity]).
  - apply Forall_cons. split; [discriminate|constructor].
  - reflexivity.
  - split; reflexivity.
  - reflexivity.
  - cbn [length]. lia.
  - vm_compute. reflexivity.
  - split; [vm_compute; discriminate|split; [vm_compute; discriminate|lia]].
Defined.
