(* ===== verification/MpegSeek.v ===== *)
(** * Seeking (public/lib/jsmpg.js)

    A recording is loaded with its index of intra pictures, and played up to any
    picture.  [seekToFrame] to an exact picture goes back to the nearest intra
    picture and decodes the pictures in between without output; it is proved to
    show what playing up to that picture shows. *)

From coqutil Require Import Datatypes.RecordSettersUsingExistingGetters.
From S2P Require Import Prelude JsArray MpegTables BitReader MpegDecoder MpegPicture MpegCoefficients MpegCells.
From S2P Require Import MpegFilm PicturePlayer VideoSession MpegFile.

(** ** The pictures of a recording *)

(** Where the pictures of a recording start; the last start code has no picture
    behind it. *)
Fixpoint marks (c : Z) (pics : list shot) : list Z :=
  c :: match pics with [] => [] | pic :: pics' => marks (c + Z.of_nat (length (part pic))) pics' end.

Lemma marks_cons c pics : marks c pics = c :: tail (marks c pics).
Proof. by destruct pics. Qed.

Lemma length_marks c pics : length (marks c pics) = S (length pics).
Proof. revert c. induction pics as [|pic pics IH]; intros c; cbn [marks length]; [done|]. by rewrite IH. Qed.

Definition picture_code : list Z := [0; 0; 1; START_PICTURE].

Lemma recorded_chunks pics : picture_code ++ concat (part <$> pics) = concat (chunk <$> pics) ++ picture_code.
Proof.
  induction pics as [|pic pics IH]; cbn [fmap list_fmap concat]; [done|]. unfold part at 1, enc, chunk at 1.
  fold picture_code. rewrite <- !app_assoc. by rewrite IH.
Qed.

Lemma closed_chunks w h t pics : Forall (of_size w h) pics -> closed t -> closed (t ++ concat (chunk <$> pics)).
Proof.
  intros Hall. revert t. induction Hall as [|pic pics Hp Hall IH]; intros t Ht; cbn [fmap list_fmap concat].
  - by rewrite app_nil_r.
  - rewrite app_assoc. by apply IH, (closed_chunk w h).
Qed.

Lemma closed_end t : closed t -> typed (t ++ picture_code).
Proof.
  intros Hc j y Hj Hy. pose proof (picture_at_in _ _ Hj) as [Hj0 Hjl].
  rewrite length_app in Hjl. change (length picture_code) with 4%nat in Hjl.
  destruct (Z.lt_ge_cases j (Z.of_nat (length t))).
  - destruct (Hc [START_PICTURE] j Hj) as (y' & Hy' & ?); [done|]. rewrite tget_app_l in Hy; [congruence|].
    unfold tget in Hy'. case_match; [|done]. apply lookup_lt_Some in Hy'. lia.
  - exfalso. unfold tget in Hy. case_match; [|done]. apply lookup_lt_Some in Hy.
    rewrite length_app in Hy. change (length picture_code) with 4%nat in Hy. lia.
Qed.

Lemma quiet_header w h : quiet (take 20 (recording_header w h)).
Proof.
  intros rest i Hi. change (length (take 20 (recording_header w h))) with 20%nat in Hi.
  assert (exists k, i = Z.of_nat k /\ (k < 20)%nat) as (k & -> & Hk) by (exists (Z.to_nat i); lia).
  unfold picture_at. do 20 (destruct k as [|k]; [cbn; repeat case_bool_decide; try done; lia|]). lia.
Qed.

Lemma recorded_split w h pics :
  recorded w h pics = take 20 (recording_header w h) ++ picture_code ++ concat (part <$> pics).
Proof. reflexivity. Qed.

Lemma recorded_typed w h pics : Forall (of_size w h) pics -> typed (recorded w h pics).
Proof.
  intros Hall. rewrite recorded_split, recorded_chunks, app_assoc.
  by apply closed_end, (closed_chunks w h), quiet_closed, quiet_header.
Qed.

Lemma code_here t rest : picture_at (t ++ picture_code ++ rest) (Z.of_nat (length t)) = true.
Proof. rewrite <- (Z.add_0_r (Z.of_nat (length t))). by rewrite picture_at_shift. Qed.

Lemma pictures_after_type t j : typed t -> 0 <= j -> picture_at t j = true -> pictures_after t (j + 6) = pictures_after t (j + 4).
Proof. intros Ht Hj Hp. rewrite !pictures_after_step by (done || lia). by rewrite resume_type. Qed.

Lemma pictures_marked w h file pics t :
  file = t ++ picture_code ++ concat (part <$> pics) -> typed file -> Forall (of_size w h) pics ->
  pictures_after file (Z.of_nat (length t) + 4) = tail (marks (Z.of_nat (length t)) pics).
Proof.
  intros Ef Ht Hall. revert t Ef. induction Hall as [|pic pics Hp Hall IH]; intros t Ef; cbn [marks tail];
    rewrite pictures_after_step by (done || lia).
  - rewrite picture_from_none; [done|]. intros k Hk. destruct (picture_at file k) eqn:E; [|done].
    apply picture_at_in in E. rewrite Ef, length_app in E. cbn in E. lia.
  - cbn [fmap list_fmap concat] in Ef. unfold part at 1, enc in Ef. fold picture_code in Ef.
    pose proof (code_found (t ++ picture_code) (body pic) (concat (part <$> pics)) (quiet_body w h pic Hp)) as Hf.
    fold picture_code in Hf. rewrite <- !app_assoc in Ef.
    rewrite <- (app_assoc _ (body pic)), <- !(app_assoc t), <- Ef in Hf.
    rewrite (length_app t picture_code), Nat2Z.inj_add in Hf. change (Z.of_nat (length picture_code)) with 4 in Hf. rewrite Hf.
    set (t' := t ++ picture_code ++ body pic) in *.
    assert (file = t' ++ picture_code ++ concat (part <$> pics)) as Ef' by (subst t'; by rewrite <- !app_assoc).
    assert (Z.of_nat (length t') = Z.of_nat (length t) + Z.of_nat (length (part pic))) as Hl.
    { subst t'. unfold part, enc. rewrite !length_app. cbn [length picture_code]. lia. }
    rewrite pictures_after_type; [|done|lia|rewrite Ef'; apply code_here].
    rewrite (IH t' Ef'), <- Hl. symmetry. apply marks_cons.
Qed.

Lemma recorded_pictures w h pics : Forall (of_size w h) pics -> pictures_in (recorded w h pics) = marks 20 pics.
Proof.
  intros Hall. pose proof (recorded_typed w h pics Hall) as Ht. set (file := recorded w h pics) in *.
  rewrite pictures_in_after, pictures_after_step by (done || lia).
  pose proof (code_found [] (take 20 (recording_header w h)) (concat (part <$> pics)) (quiet_header w h)) as Hf.
  change (picture_from file 0 = Some 20) in Hf. rewrite Hf.
  pose proof (code_here (take 20 (recording_header w h)) (concat (part <$> pics)) : picture_at file 20 = true) as H20.
  rewrite pictures_after_type by (done || lia).
  pose proof (pictures_marked w h file pics (take 20 (recording_header w h)) eq_refl Ht Hall) as Hm.
  change (Z.of_nat (length (take 20 (recording_header w h)))) with 20 in Hm. rewrite Hm. symmetry. apply marks_cons.
Qed.

Section Marks.
Context (w h : Z) (file : list Z).

(** Picture [k] stands where its mark says. *)
Lemma mark_holds pics c k pic :
  holds_file file c (picture_code ++ concat (part <$> pics)) -> 0 <= c -> pics !! k = Some pic ->
  exists j, marks c pics !! k = Some j /\ 0 <= j /\ holds_file file j (picture_code ++ concat (part <$> drop k pics)).
Proof.
  revert c k. induction pics as [|pic1 pics IH]; intros c k Hh Hc Hk; [done|].
  destruct k as [|k]; [by exists c|]. apply holds_rest in Hh as [_ Hh].
  cbn in Hk |- *. destruct (IH _ k Hh) as (j & Hj & ?); [lia|done|]. by exists j.
Qed.

Lemma holds_intra c pic :
  of_size w h pic -> 0 <= c -> holds_file file c (picture_code ++ part pic) ->
  intra_at file c = (type_of_kind (s_kind pic) =? PICTURE_TYPE_I).
Proof.
  intros Hp Hc Hh. destruct (body_type w h pic Hp) as (y & Hy & _ & Ht). unfold intra_at.
  assert (tget file (c + 5) = Some y) as ->; [|by rewrite Ht].
  apply (Hh 5%nat). unfold part, enc. rewrite app_assoc. apply lookup_app_l_Some. exact Hy.
Qed.
End Marks.

(** ** Going to a picture *)

Section Seeking.
Context (w h : Z) (file : list Z) (fuel : nat).
Context (Hfile : Forall byte file) (Hlen : Z.of_nat (length file) < 16777216) (Hfuel : enough w h fuel).

(** A decoder behind the start code at byte [c] of the file. *)
Record seated (j : jsmpeg) (c : Z) (fr : frame) : Prop := {
  se_showing : showing w h j;
  se_reader : buffer j = Reader file (Z.of_nat (length file)) (8 * (c + 4));
  se_matrices : matrices j = (DEFAULT_INTRA_QUANT_MATRIX, DEFAULT_NON_INTRA_QUANT_MATRIX);
  se_forward : forward j = fr }.

Lemma seated_decoded skip j c fr pic :
  seated j c fr -> 0 <= c -> of_size w h pic -> holds_file file c (picture_code ++ part pic) ->
  let c' := c + Z.of_nat (length (part pic)) in
  exists j', decodePicture fuel skip j = Some j' /\ c' + 4 <= Z.of_nat (length file) /\
    seated (j' <| buffer := Reader file (Z.of_nat (length file)) (8 * (c' + 4)) |>) c' (replayed w h fr [pic]) /\
    buffer j' = Reader file (Z.of_nat (length file)) (8 * c') /\
    (skip = false -> on_canvas w h (canvas j') (replayed w h fr [pic])).
Proof.
  intros [Hj Hr Hmat Hfr] Hc Hpic Hh c'. pose proof Hmat as Hm. apply pair_equal_spec in Hm as [Hm1 Hm2].
  apply holds_app in Hh as [_ Hh]. change (Z.of_nat (length picture_code)) with 4 in Hh.
  assert (c + 4 + Z.of_nat (length (part pic)) <= Z.of_nat (length file)) as Hfit.
  { apply (part_inside (new_reader file)); [exact Hh|lia]. }
  destruct (shot_decoded w h j fuel (c + 4) START_PICTURE pic skip) as (j' & E & Hj' & Eb & Ef & Ec).
  - exact Hj.
  - split; [rewrite Hm1|rewrite Hm2]; apply default_matrices.
  - exact Hpic.
  - exact Hfuel.
  - reflexivity.
  - by rewrite Hr.
  - lia.
  - rewrite Hr. exact Hh.
  - rewrite Hr. exact Hfit.
  - assert (forward j' = replayed w h fr [pic]) as Efr by (rewrite Ef, Hm1, Hm2, <- Hfr; reflexivity).
    exists j'. split; [exact E|]. split; [lia|]. split; [|split].
    + split; [|reflexivity|rewrite <- Hmat; exact (matrices_kept _ _ _ _ E)|exact Efr].
      apply showing_reader; [exact Hj'|]. split; [split; [exact Hfile|change (0 <= 8 * (c' + 4)); lia]|].
      cbn [store writePos]. pose proof (part_length pic). lia.
    + rewrite Eb, Hr. fold (part pic). change (Reader file (Z.of_nat (length file)) (8 * (c + 4 + Z.of_nat (length (part pic)) - 4)) =
        Reader file (Z.of_nat (length file)) (8 * c')). f_equal. lia.
    + intros Hs. rewrite <- Efr. by apply Ec.
Qed.

(** The next picture is found where this one ends. *)
Lemma next_found c rest :
  0 <= c -> c + 4 <= Z.of_nat (length file) -> holds_file file c (picture_code ++ rest) ->
  findStartCode START_PICTURE (Reader file (Z.of_nat (length file)) (8 * c)) =
  Some (Some START_PICTURE, Reader file (Z.of_nat (length file)) (8 * (c + 4))).
Proof.
  intros Hc Hl Hh. unfold findStartCode. cbn [store].
  assert (whole (Reader file (Z.of_nat (length file)) (8 * c))) as Hw.
  { split; [|reflexivity]. split; [exact Hfile|]. cbn [store writePos index]. lia. }
  rewrite findStartCode_picture; [|exact Hw| |lia].
  2:{ unfold from. cbn [writePos index].
      assert (0 <= (8 * c + 7) / 8) by (apply Z.div_pos; lia). lia. }
  assert (from (Reader file (Z.of_nat (length file)) (8 * c)) = c) as ->.
  { unfold from. cbn [index]. rewrite Z.add_comm, (Z.mul_comm 8), Z.div_add by lia. change (7 / 8) with 0. lia. }
  cbn [store]. rewrite (picture_from_unique _ _ c); [reflexivity|lia| |intros; lia].
  apply holds_prefix in Hh as [Hp Hcode]. unfold picture_at. unfold prefix_at, byte_at in Hp. cbn [store new_reader] in Hp.
  unfold byte_at in Hcode. cbn [store new_reader] in Hcode. rewrite Hp, Hcode. done.
Qed.

Lemma pictures_skipped m pics j c fr :
  seated j c fr -> 0 <= c -> Forall (of_size w h) pics -> holds_file file c (picture_code ++ concat (part <$> pics)) ->
  (m <= length pics)%nat ->
  exists j' c', skip_pictures m fuel j = Some j' /\ 0 <= c' /\ seated j' c' (replayed w h fr (take m pics)) /\
    holds_file file c' (picture_code ++ concat (part <$> drop m pics)).
Proof.
  intros Hj Hc Hall Hh Hm. revert m j c fr Hj Hc Hh Hm.
  induction Hall as [|pic pics Hp Hall IH]; intros [|m] j c fr Hj Hc Hh Hm; cbn [length] in Hm; [by exists j, c|lia|by exists j, c|].
  apply holds_rest in Hh as [Hh1 Hh]. cbn [skip_pictures take drop].
  destruct (seated_decoded true j c fr pic Hj Hc Hp Hh1) as (j1 & -> & Hl & Hj1 & Eb & _). cbn [mbind option_bind].
  assert (0 <= c + Z.of_nat (length (part pic))) as Hc1 by lia.
  rewrite Eb, (next_found _ _ Hc1 Hl Hh). cbn [mbind option_bind].
  destruct (IH m _ _ _ Hj1 Hc1 Hh ltac:(lia)) as (j' & c' & E & ?). by exists j', c'.
Qed.
End Seeking.

(** ** Exact seeking *)

Lemma replayed_app w h fr l1 l2 : replayed w h fr (l1 ++ l2) = replayed w h (replayed w h fr l1) l2.
Proof. unfold replayed, planes_after. apply foldl_app. Qed.

Lemma replayed_key w h fr fr' key l :
  sized_picture w h -> of_size w h key -> s_kind key = Key -> replayed w h fr (key :: l) = replayed w h fr' (key :: l).
Proof. intros Hs Hk Hkind. unfold replayed. exact (planes_after_key w h _ _ fr fr' key l Hs Hk Hkind). Qed.

(** From an intra picture on, the pictures before it do not matter. *)
Lemma replayed_from_key w h fr fr' pics k key n :
  sized_picture w h -> Forall (of_size w h) pics -> pics !! k = Some key -> s_kind key = Key -> (k <= n)%nat ->
  replayed w h fr (take (S (n - k)) (drop k pics)) = replayed w h fr' (take (S n) pics).
Proof.
  intros Hs Hall Hk Hkey Hn. rewrite <- (take_drop k (take (S n) pics)), replayed_app, skipn_firstn_comm.
  replace (S n - k)%nat with (S (n - k)) by lia. rewrite (drop_S _ _ _ Hk). cbn [take].
  exact (replayed_key w h _ _ key _ Hs (Forall_lookup_1 _ _ _ _ Hall Hk) Hkey).
Qed.

(** The index of a recording leads to an intra picture that is not after picture [n]. *)
Lemma recorded_target w h pics key n :
  Forall (of_size w h) pics -> head pics = Some key -> s_kind key = Key -> (n < length pics)%nat ->
  exists k pic c, seek_target None (entries (recorded w h pics) 0 (pictures_in (recorded w h pics))) (Z.of_nat n) =
      Some (IntraFrame (Z.of_nat k) (8 * (c + 4))) /\
    (k <= n)%nat /\ pics !! k = Some pic /\ s_kind pic = Key /\ 0 <= c /\
    holds_file (recorded w h pics) c (picture_code ++ concat (part <$> drop k pics)).
Proof.
  intros Hall Hhead Hkey Hn. set (file := recorded w h pics). rewrite seek_last_intra.
  pose proof (recorded_pictures w h pics Hall : pictures_in file = _) as Hpics. rewrite Hpics.
  assert (forall k pic j, pics !! k = Some pic -> tget (marks 20 pics) (Z.of_nat k) = Some j ->
    0 <= j /\ holds_file file j (picture_code ++ concat (part <$> drop k pics)) /\
    intra_at file j = (type_of_kind (s_kind pic) =? PICTURE_TYPE_I)) as Hat.
  { intros k pic j Hk Hj. destruct (mark_holds file pics 20 k pic (recorded_holds w h pics) ltac:(lia) Hk) as (j' & Hj' & H0 & Hh).
    unfold tget in Hj. rewrite (proj2 (Z.leb_le 0 (Z.of_nat k))), Nat2Z.id in Hj by lia. simplify_eq.
    split; [done|]. split; [done|]. apply (holds_intra w h); [exact (Forall_lookup_1 _ _ _ _ Hall Hk)|done|].
    rewrite (drop_S _ _ _ Hk) in Hh. by apply holds_rest in Hh as [Hh _]. }
  destruct (last_intra_spec file 0 (marks 20 pics) (Z.of_nat n) None ltac:(lia))
    as [[_ Hno]|(i & j & -> & Hi & Hj & Hint & _)].
  - exfalso. destruct pics as [|key' pics]; [done|]. cbn in Hhead. simplify_eq.
    destruct (Hat 0%nat key 20 eq_refl eq_refl) as (_ & _ & Hi). rewrite (Hno 0 20) in Hi; [|lia|reflexivity]. by rewrite Hkey in Hi.
  - rewrite Z.sub_0_r in Hj. replace i with (Z.of_nat (Z.to_nat i)) in Hj |- * by lia.
    destruct (lookup_lt_is_Some_2 pics (Z.to_nat i)) as [pic Hpic]; [lia|].
    destruct (Hat _ _ _ Hpic Hj) as (H0 & Hh & Hty). rewrite Hint in Hty.
    exists (Z.to_nat i), pic, j. split; [done|]. split; [lia|]. split; [done|]. split; [by destruct (s_kind pic)|done].
Qed.

Lemma showing_frame w h j x : showing w h j -> showing w h (j <| currentFrame := x |>).
Proof. intros [? ? [? ? ? ? ? ? ?] ? ?]. by split. Qed.

(** A player takes its seat at an intra picture ... *)
Lemma seat_taken w h file p c0 fr c x :
  at_code w h file p c0 fr -> 0 <= c ->
  seated w h file ((film p) <| buffer := (buffer (film p)) <| index := 8 * (c + 4) |> |> <| currentFrame := x |>) c fr.
Proof.
  intros [Hsh (E1 & E2 & _) _ Hm Hf] Hc. pose proof (wf_ready _ (sh_wf _ _ _ Hsh)) as ((Hb & _) & H4).
  destruct (buffer (film p)) as [st wp ix] eqn:Er. cbn [store writePos] in *. subst st wp.
  split; [|reflexivity|exact Hm|exact Hf]. apply showing_frame, showing_reader; [exact Hsh|].
  split; [|exact H4]. split; [exact Hb|]. change (0 <= 8 * (c + 4)). lia.
Qed.

(** ... and goes on to picture [n]. *)
Lemma sought_shown w h file fuel (Hb : Forall byte file) (Hlen : Z.of_nat (length file) < 16777216) (Hfuel : enough w h fuel)
    l k n key j c fr x :
  seated w h file j c fr -> 0 <= c -> sized_picture w h -> Forall (of_size w h) l ->
  holds_file file c (picture_code ++ concat (part <$> drop k l)) -> l !! k = Some key -> s_kind key = Key ->
  (k <= n)%nat -> (n < length l)%nat ->
  exists j', (j ← skip_pictures (n - k) fuel j; Some (j <| currentFrame := x |>)) ≫= decodePicture fuel false = Some j' /\
    on_canvas w h (canvas j') (replayed w h (new_frame (new_geometry w h)) (take (S n) l)).
Proof.
  intros Hj Hc Hs Hall Hh Hk Hkey Hkn Hn.
  destruct (pictures_skipped w h file fuel Hb Hlen Hfuel (n - k) (drop k l) j c fr Hj Hc) as (j1 & c1 & E1 & Hc1 & Hj1 & Hh1);
    [by apply Forall_drop|exact Hh|rewrite length_drop; lia|].
  rewrite E1. cbn [mbind option_bind]. rewrite drop_drop in Hh1. replace (k + (n - k))%nat with n in Hh1 by lia.
  destruct (lookup_lt_is_Some_2 l n Hn) as [pic Hpic]. rewrite (drop_S _ _ _ Hpic) in Hh1. apply holds_rest in Hh1 as [Hh1 _].
  assert (seated w h file (j1 <| currentFrame := x |>) c1 (replayed w h fr (take (n - k) (drop k l)))) as Hj2.
  { destruct Hj1 as [S1 S2 S3 S4]. split; [by apply showing_frame|exact S2|exact S3|exact S4]. }
  destruct (seated_decoded w h file fuel Hb Hlen Hfuel false _ c1 _ pic Hj2 Hc1 (Forall_lookup_1 _ _ _ _ Hall Hpic) Hh1)
    as (j' & E & _ & _ & _ & Hcan).
  exists j'. split; [exact E|]. specialize (Hcan eq_refl). rewrite <- replayed_app in Hcan.
  rewrite <- (take_S_r (drop k l) (n - k) pic) in Hcan by (by rewrite lookup_drop, Nat.add_comm, Nat.sub_add).
  by rewrite (replayed_from_key w h fr (new_frame (new_geometry w h)) l k key n) in Hcan.
Qed.

Lemma sought_exact w h file fuel p c0 fr l i n key c :
  Forall byte file -> Z.of_nat (length file) < 16777216 -> enough w h fuel -> sized_picture w h ->
  at_code w h file p c0 fr -> frameCount p = Z.of_nat (S (length l)) ->
  seek_target None (intraFrames p) (Z.of_nat n) = Some (IntraFrame (Z.of_nat i) (8 * (c + 4))) ->
  Forall (of_size w h) l -> l !! i = Some key -> s_kind key = Key -> (i <= n)%nat -> (n < length l)%nat -> 0 <= c ->
  holds_file file c (picture_code ++ concat (part <$> drop i l)) ->
  exists p', seekToFrame fuel (Z.of_nat n) true p = Sought p' /\
    on_canvas w h (canvas (film p')) (replayed w h (new_frame (new_geometry w h)) (take (S n) l)).
Proof.
  intros Hb Hlen Hfuel Hs Hat Hc Et Hall Hi Hkey Hin Hn H0 Hh. unfold seekToFrame. rewrite Hc, Et.
  destruct (Z.ltb_spec (Z.of_nat n) 0); [lia|]. destruct (Z.leb_spec (Z.of_nat (S (length l))) (Z.of_nat n)); [lia|].
  cbn [orb]. rewrite bool_decide_eq_false_2 by (intros E; by rewrite E in Et). cbn [frameNo frameIndex].
  replace (Z.to_nat (Z.of_nat n - Z.of_nat i)) with (n - i)%nat by lia.
  pose proof (seat_taken w h file p c0 fr c (Z.of_nat i - 1) Hat H0) as Hj.
  destruct (sought_shown w h file fuel Hb Hlen Hfuel l i n key _ c _ (Z.of_nat n - 1) Hj H0 Hs Hall Hh Hi Hkey Hin Hn)
    as (j' & -> & Hcan).
  exists (p <| film := j' |>). split; [reflexivity|exact Hcan].
Qed.

(** C15: seeking is exact.  A recording that begins with an intra picture is loaded
    by a new seekable player of a page that has not loaded another file, and played
    up to any picture.  Then [seekToFrame] to the exact picture [n] of the
    recording, before or after that one, returns, and the canvas shows what it
    shows when the recording is played from its beginning up to picture [n]. *)
Theorem exact_seek w h p key pics fuel k n :
  sized_picture w h /\ h <= 2800 /\ Z.even w = true /\ Z.even h = true -> w < 4096 ->
  fresh p -> seekable p = true -> intraFrames p = [] ->
  Forall (of_size w h) (key :: pics) -> s_kind key = Key -> (k <= length pics)%nat -> (n <= length pics)%nat ->
  Z.of_nat (length (recorded w h (key :: pics))) < 16777216 -> enough w h fuel ->
  exists p1 p2,
    loadCallback (S fuel) (recorded w h (key :: pics)) p ≫= next_frames k (S fuel) = Some p1 /\
    seekToFrame fuel (Z.of_nat n) true p1 = Sought p2 /\
    on_canvas w h (canvas (film p2))
      (planes_after w h DEFAULT_INTRA_QUANT_MATRIX DEFAULT_NON_INTRA_QUANT_MATRIX (new_frame (new_geometry w h))
        (take (S n) (key :: pics))).
Proof.
  intros Hs Hw Hfresh Hseek Hnone Hall Hkey Hk Hn Hlen Hfuel.
  pose proof (recorded_typed w h _ Hall) as Ht. pose proof (recorded_bytes w h _ Hall (proj1 Hs) ltac:(lia)) as Hb.
  destruct (recorded_plays w h p (key :: pics) fuel k) as (p1 & c1 & E1 & Hat & Hidx & _); [done..|cbn [length]; lia|done|done|done|].
  exists p1. unfold indexed in Hidx. rewrite Hseek, Hnone in Hidx. apply pair_equal_spec in Hidx as [Hi Hc].
  rewrite recorded_pictures, length_marks in Hc by exact Hall.
  destruct (recorded_target w h (key :: pics) key n) as (i & pic & c & Et & Hin & Hpic & Hkind & H0 & Hh);
    [done..|cbn [length]; lia|]. rewrite <- (app_nil_l (entries _ _ _)), <- Hi in Et.
  destruct (sought_exact w h _ fuel p1 c1 _ (key :: pics) i n pic c Hb Hlen Hfuel (proj1 Hs) Hat Hc Et Hall Hpic Hkind Hin)
    as (p2 & E2 & Hcan); [cbn [length]; lia|exact H0|exact Hh|].
  exists p2. split; [exact E1|]. split; [exact E2|exact Hcan].
Qed.

Definition seek_player : filePlayer := FilePlayer new_jsmpeg [] 0 0 false 0 true false false.

(** Back from the last picture to the one behind the first intra picture. *)
Lemma exact_seek_witness :
  exists p1 p2,
    loadCallback 66 (recorded 64 16 [demo_key; demo_shot; demo_key]) seek_player ≫= next_frames 2 66 = Some p1 /\
    seekToFrame 65 1 true p1 = Sought p2 /\
    on_canvas 64 16 (canvas (film p2))
      (planes_after 64 16 DEFAULT_INTRA_QUANT_MATRIX DEFAULT_NON_INTRA_QUANT_MATRIX (new_frame (new_geometry 64 16))
        [demo_key; demo_shot]).
Proof.
  apply (exact_seek 64 16 seek_player demo_key [demo_shot; demo_key] 65 2 1).
  - split; [unfold sized_picture; lia|]. split; [lia|]. split; reflexivity.
  - lia.
  - split; reflexivity.
  - reflexivity.
  - reflexivity.
  - pose proof demo_key_size. pose proof demo_shot_size. by repeat (apply Forall_cons; split).
  - reflexivity.
  - cbn [length]. lia.
  - cbn [length]. lia.
  - vm_compute. reflexivity.
  - split; [vm_compute; discriminate|split; [vm_compute; discriminate|lia]].
Defined.

(** Each part of a recording ends with the start code of the next picture, the last
    one too: a player counts one picture more than there are. *)
Lemma recording_counts_one_more w h pics :
  Forall (of_size w h) pics -> length (pictures_in (recorded w h pics)) = S (length pics).
Proof. intros Hall. by rewrite recorded_pictures, length_marks. Qed.
