(* ===== verification/Streaming.v ===== *)
(** * The streaming side of the emulator (vl.c, audio/alsaaudio.c, audio/audio.c)

    What the QEMU process does for its remote client outside the display:
    it reads the session parameters the VM manager left in [client_data.dat]
    ([IPC_getClientData]); its ALSA voice copies the sound ring buffer into
    numbered files ([alsa_write_pending]) that a second thread ships and
    removes ([thread_fb]); and it feeds the sound card ([alsa_run_out]). *)

From stdpp Require Import gmap.
From S2P Require Import Prelude CString VMManager.

(** ** Session parameters *)

Record session := mk_session {
  g_androidMode : bool;
  g_audio_domain : list Z;
  g_frame_domain : list Z;
  portnum : Z;
  g_img_width : Z;
  g_img_height : Z
}.

(** [%s] of a token. *)
Definition tok_str (buf : list Z) (t : option nat) : outcome (list Z) :=
  match t with None => Crash | Some p => cstr_at buf p end.

(** [sprintf(buf, "%s%s", "750", temp)] where [temp] is the string [s] at
    position [t] of [buf]: the text is written from the start of the array and
    must not run into the bytes it is copied from, which C leaves undefined. *)
Definition sprintf_over (cap : Z) (t : option nat) (prefix s : list Z) : outcome (list Z) :=
  match t with
  | None => Crash
  | Some p =>
      if Z.of_nat p <=? Z.of_nat (length (prefix ++ s)) then Crash else sprintf_to cap (prefix ++ s)
  end.

(** [text] is the content of [client_data.dat]; [garbage] is the initial
    content of the uninitialised [char buf[200]] that [read] fills partly.
    [mode0] is the value of [g_androidMode] before the call.  The last
    [sprintf] prints a token of [buf] into [buf] itself, to the left of the
    token: [sprintf_over]. *)
Definition IPC_getClientData (garbage text : list Z) (mode0 : bool) : outcome session :=
  let data := take 200 text in
  let buf := data ++ drop (length data) garbage in
  _ ← cstr_at buf 0;
  '(t0, buf, sv) ← strtok 32 buf 0;
  _ ← tok_str buf t0;
  os ← atoi_at buf t0;
  let mode := if os =? 0 then true else mode0 in
  '(t1, buf, sv) ← strtok 32 buf sv;
  s1 ← tok_str buf t1;
  audio ← sprintf_to 100 (bytes "http://211.189.20.76:850" ++ s1 ++ bytes "/1234");
  '(t2, buf, sv) ← strtok 32 buf sv;
  s2 ← tok_str buf t2;
  frame ← sprintf_to 100 (bytes "http://211.189.20.76:800" ++ s2 ++ bytes "/1234");
  '(t3, buf, sv) ← strtok 32 buf sv;
  s3 ← tok_str buf t3;
  port ← sprintf_over 200 t3 (bytes "750") s3;
  Ok (mk_session mode audio frame (atoi port) 1280 768).

(** ** The ring of sound files *)

Definition FINALPOS : Z := 100.
Definition FINALCNT : Z := 2.

Definition Next_cnt (n : Z) : Z := if n =? FINALCNT then 0 else n + 1.
Definition Next_pos (n : Z) : Z := if n =? FINALPOS then 1 else n + 1.

(** What [fwrite] on a fresh, fully buffered [FILE] passes on to the
    descriptor: whole blocks of the stdio buffer.  The rest stays in the
    buffer, which the code never flushes: it closes the descriptor and
    forgets the [FILE]. *)
Definition fwrite_out (blksize : nat) (data : list Z) : list Z :=
  take (length data - length data mod blksize) data.

Section Ring.
Context {A : Type}.

(** The shared variables, the files on disk (each the list of the pieces
    appended to it) and the files handed to ffmpeg so far.
    [temp_pos] is the local of [thread_fb], [None] outside its inner loop. *)
Record stream := mk_stream {
  file_pos : Z;
  pending_cnt : Z;
  work_pos : Z;
  temp_pos : option Z;
  files : gmap Z (list A);
  shipped : list (list A)
}.

Definition stream_init : stream := mk_stream 1 0 1 None ∅ [].

(** The piece [a] is appended to [./test%03d.raw] and counted; every second
    one moves to the next file. *)
Definition count_chunk (a : A) (s : stream) : stream :=
  let fs := <[file_pos s := default [] (files s !! file_pos s) ++ [a]]> (files s) in
  let cnt := pending_cnt s + 1 in
  if cnt =? FINALCNT
  then mk_stream (Next_pos (file_pos s)) 0 (work_pos s) (temp_pos s) fs (shipped s)
  else mk_stream (file_pos s) cnt (work_pos s) (temp_pos s) fs (shipped s).

(** [thread_fb]: [temp_pos = file_pos]. *)
Definition fb_begin (s : stream) : stream :=
  mk_stream (file_pos s) (pending_cnt s) (work_pos s) (Some (file_pos s)) (files s) (shipped s).

(** [thread_fb]: one turn of [while (work_pos != temp_pos)]. *)
Definition fb_ship (s : stream) : stream :=
  mk_stream (file_pos s) (pending_cnt s) (Next_pos (work_pos s)) (temp_pos s)
    (delete (work_pos s) (files s))
    (shipped s ++ [default [] (files s !! work_pos s)]).

Definition fb_end (s : stream) : stream :=
  mk_stream (file_pos s) (pending_cnt s) (work_pos s) None (files s) (shipped s).

End Ring.

(** The file part of [alsa_write_pending].  [opened] is the success of
    [qemu_open]: after a failure the code prints a message and goes on, so
    that [fdopen(-1)] returns NULL and [fwrite] is called on it. *)
Definition dump_chunk (blksize : nat) (opened : bool) (pcm : list Z) (s : @stream (list Z))
    : outcome (@stream (list Z)) :=
  if opened then Ok (count_chunk (fwrite_out blksize pcm) s) else Crash.

Section Threads.
Context (blksize : nat).

(** The two threads interleave at these steps; the label is the [pcm_buf] a
    step writes. *)
Inductive sstep : @stream (list Z) -> list (list Z) -> @stream (list Z) -> Prop :=
| st_dump pcm s s' : dump_chunk blksize true pcm s = Ok s' -> sstep s [pcm] s'
| st_begin s : temp_pos s = None -> sstep s [] (fb_begin s)
| st_ship s t : temp_pos s = Some t -> work_pos s <> t -> sstep s [] (fb_ship s)
| st_end s t : temp_pos s = Some t -> work_pos s = t -> sstep s [] (fb_end s).

(** The writer does not catch up with the shipper: it never completes the
    file before the one that is shipped next. *)
Definition paced (s : @stream (list Z)) (w : list (list Z)) : Prop :=
  w = [] \/ pending_cnt s + 1 <> FINALCNT \/ Next_pos (file_pos s) <> work_pos s.

Inductive paced_run : list (list Z) -> @stream (list Z) -> Prop :=
| run_init : paced_run [] stream_init
| run_step w s w' s' :
    paced_run w s -> paced s w' -> sstep s w' s' -> paced_run (w ++ w') s'.

End Threads.

(** ** Feeding the sound card *)

Definition EPIPE : Z := 32.
Definition ESTRPIPE : Z := 86.
Definition EAGAIN : Z := 11.

(** The result of one [snd_pcm_writei] and, when it is an error the code
    recovers from, whether [alsa_recover]/[alsa_resume] failed. *)
Record pcm_result := mk_pcm { written : Z; recover_failed : bool }.

(** [wpos] and [pending] of the voice, and the locals [src] (as a sample
    offset into [pcm_buf]) and [len] of the two loops. *)
Record voice := mk_voice { wpos : Z; pending : Z; src : Z; len : Z }.

Inductive loop_end :=
| Finished        (* pending reached 0 *)
| GaveUp          (* one of the returns on an error *)
| Spins           (* the outer loop makes no progress *)
| StillLooping.   (* the results are used up and the loop calls the card again *)

(** The head of the outer loop [while (alsa->pending)]. *)
Definition reload (samples : Z) (v : voice) : voice :=
  if (len v =? 0) && negb (pending v =? 0)
  then mk_voice (wpos v) (pending v) (wpos v) (Z.min (pending v) (samples - wpos v))
  else v.

(** The two loops of [alsa_write_pending]; one element of [rs] answers one
    [snd_pcm_writei].  The last component lists the calls: where the frames
    were taken from and how many. *)
Fixpoint alsa_write_loop (samples : Z) (rs : list pcm_result) (v : voice)
    : loop_end * voice * list (Z * Z) :=
  let v := reload samples v in
  if len v =? 0 then ((if pending v =? 0 then Finished else Spins), v, [])
  else match rs with
  | [] => (StillLooping, v, [])
  | r :: rs' =>
      let '(e, v', calls) :=
        if written r <=? 0 then
          if written r =? 0 then (GaveUp, v, [])
          else if written r =? - EPIPE then
            (if recover_failed r then (GaveUp, v, []) else alsa_write_loop samples rs' v)
          else if written r =? - ESTRPIPE then
            (if recover_failed r then (GaveUp, v, []) else alsa_write_loop samples rs' v)
          else if written r =? - EAGAIN then (GaveUp, v, [])
          else (GaveUp, v, [])
        else alsa_write_loop samples rs'
               (mk_voice ((wpos v + written r) mod samples) (pending v - written r)
                  (src v) (len v - written r)) in
      (e, v', (src v, len v) :: calls)
  end.

(** [alsa_write_pending]: the copy of [pcm_buf] (here [pcm]) to the current
    sound file when the voice is at the start or about to reach the end of the
    ring, then the two loops. *)
Definition alsa_write_pending (blksize : nat) (opened : bool) (play_test samples : Z)
    (pcm : list Z) (rs : list pcm_result) (v : voice) (s : @stream (list Z))
    : outcome (loop_end * voice * list (Z * Z) * @stream (list Z)) :=
  s' ← (if -1 <? play_test
        then if (wpos v =? 0) || (samples <=? wpos v + pending v)
             then dump_chunk blksize opened pcm s else Ok s
        else Ok s);
  Ok (alsa_write_loop samples rs v, s').

(** [audio_pcm_hw_clip_out]: the loop that converts [len] samples from the
    mixing ring at [rpos].  The calls of [hw->clip] are listed. *)
Fixpoint clip_loop (fuel : nat) (samples rpos len clipped : Z) : Z * Z * Z * list (Z * Z) :=
  match fuel with
  | O => (rpos, len, clipped, [])
  | S f =>
      if len =? 0 then (rpos, len, clipped, [])
      else
        let n := Z.min len (samples - rpos) in
        let '(r, l, c, calls) :=
          clip_loop f samples ((rpos + n) mod samples) (len - n) (clipped + n) in
        (r, l, c, (rpos, n) :: calls)
  end.

(** Two turns are enough (see [clip_loop_spec]). *)
Definition audio_pcm_hw_clip_out (samples rpos live pending : Z) : Z * Z * list (Z * Z) :=
  let left := samples - pending in
  let len := Z.min left live in
  let '(r, _, c, calls) := clip_loop 2 samples rpos len 0 in (r, c, calls).

(** [alsa_get_avail]: the two results of [snd_pcm_avail_update] and the result
    of [alsa_recover] between them. *)
Definition alsa_get_avail (avail1 : Z) (recover_failed : bool) (avail2 : Z) : Z :=
  let avail := if avail1 <? 0
               then (if avail1 =? - EPIPE then (if recover_failed then avail1 else avail2)
                     else avail1)
               else avail1 in
  if avail <? 0 then -1 else avail.

(** The playback state that survives a call: the ring of [samples] frames,
    [hw->rpos] (where the next frames are converted to), [wpos], [pending]. *)
Record playback := mk_playback { pb_rpos : Z; pb_wpos : Z; pb_pending : Z }.

(** [alsa_run_out].  [avail] is the value of [alsa_get_avail], [pcm] the
    content of [pcm_buf] after the conversion. *)
Definition alsa_run_out (blksize : nat) (opened : bool) (play_test samples avail live : Z)
    (pcm : list Z) (rs : list pcm_result) (p : playback) (s : @stream (list Z))
    : outcome (Z * loop_end * playback * list (Z * Z) * @stream (list Z)) :=
  if avail <? 0 then Ok (0, Finished, p, [], s)
  else
    let decr := Z.min live avail in
    let '(rpos, decr, _) := audio_pcm_hw_clip_out samples (pb_rpos p) decr (pb_pending p) in
    '(e, v, calls, s') ←
      alsa_write_pending blksize opened play_test samples pcm rs
        (mk_voice (pb_wpos p) (pb_pending p + decr) 0 0) s;
    Ok (decr, e, mk_playback rpos (wpos v) (pending v), calls, s').

(** ** Session parameters: properties *)

(** The addresses fit their arrays. *)
Lemma domain_fits prefix n :
  length prefix = 24%nat -> 0 <= n < 65536 ->
  sprintf_to 100 (prefix ++ dec n ++ bytes "/1234") = Ok (prefix ++ dec n ++ bytes "/1234").
Proof.
  intros Hp Hn. unfold sprintf_to. rewrite !length_app, Hp.
  pose proof (dec_length 5 n ltac:(lia) ltac:(simpl; lia)).
  change (length (bytes "/1234")) with 5%nat.
  match goal with |- (if ?a <=? ?b then _ else _) = _ => destruct (Z.leb_spec a b) end; [done|lia].
Qed.

Lemma port_fits n :
  0 <= n < 65536 -> sprintf_to 200 (bytes "750" ++ dec n) = Ok (bytes "750" ++ dec n).
Proof.
  intros Hn. unfold sprintf_to. rewrite length_app.
  pose proof (dec_length 5 n ltac:(lia) ltac:(simpl; lia)).
  change (length (bytes "750")) with 3%nat.
  match goal with |- (if ?a <=? ?b then _ else _) = _ => destruct (Z.leb_spec a b) end; [done|lia].
Qed.

(** The event port when the bytes behind the file do not go on with a digit. *)
Lemma port_value n rest :
  0 <= n < 65536 -> no_digit_first rest ->
  atoi (bytes "750" ++ dec n ++ rest) = 750 * 10 ^ Z.of_nat (length (dec n)) + n.
Proof.
  intros Hn Hr. pose proof (dec_length 5 n ltac:(lia) ltac:(simpl; lia)) as Hl.
  rewrite dec_nonneg in * by lia. pose proof (dec_digits_digit 20 n) as Hd.
  change (s32 (Z.max (-9223372036854775808) (Z.min 9223372036854775807
    (digits_val 750 (dec_digits 20 n ++ rest)))) =
    750 * 10 ^ Z.of_nat (length (dec_digits 20 n)) + n).
  rewrite digits_val_stop, digits_val_shift, dec_digits_val by (done || (simpl; lia)).
  assert (1 <= 10 ^ Z.of_nat (length (dec_digits 20 n)) <= 10 ^ 5).
  { split; [apply (Z.pow_le_mono_r 10 0); lia|apply Z.pow_le_mono_r; lia]. }
  change (10 ^ 5) with 100000 in *. rewrite Z.min_r, Z.max_r, s32_small by lia. done.
Qed.

(** The last [sprintf], from a token [s] that starts at [p]. *)
Lemma port_over p s :
  (p + length s <= 200)%nat ->
  sprintf_over 200 (Some p) (bytes "750") s =
  if decide (length s + 3 < p)%nat then Ok (bytes "750" ++ s) else Crash.
Proof.
  intros Hp. unfold sprintf_over, sprintf_to. rewrite length_app.
  change (length (bytes "750")) with 3%nat.
  destruct (decide _), (Z.leb_spec (Z.of_nat p) (Z.of_nat (3 + length s))); try lia; [|done].
  match goal with |- (if ?a <=? ?b then _ else _) = _ => destruct (Z.leb_spec a b) end; [done|lia].
Qed.

(** The fields of the file, whatever the token [t] that the last one is part
    of. *)
Lemma session_fields o i a t x post :
  0 <= o < 256 -> 0 <= i < 65536 -> 0 <= a < 65536 ->
  t <> [] -> Forall (tok_byte 32) t -> x = 32 \/ x = 0 -> 0 ∈ x :: post ->
  let data := dec o ++ 32 :: dec i ++ 32 :: dec a ++ [32] in
  (length data + length t <= 200)%nat ->
  forall garbage text, take 200 text ++ drop (length (take 200 text)) garbage = data ++ t ++ x :: post ->
  IPC_getClientData garbage text false =
  if decide (length t < length (dec o) + length (dec i) + length (dec a))%nat
  then Ok (mk_session (o =? 0)
        (bytes "http://211.189.20.76:850" ++ dec i ++ bytes "/1234")
        (bytes "http://211.189.20.76:800" ++ dec a ++ bytes "/1234")
        (atoi (bytes "750" ++ t)) 1280 768)
  else Crash.
Proof.
  intros Ho Hi Ha Ht Htok Hx Hin data Hlen garbage text Hbuf. unfold IPC_getClientData.
  rewrite Hbuf. unfold data. repeat (rewrite <- app_assoc; cbn [app]).
  destruct (cstr_total (dec o ++ 32 :: dec i ++ 32 :: dec a ++ 32 :: t ++ x :: post)) as [str Hs].
  { do 3 (apply elem_of_app; right; apply elem_of_cons; right). apply elem_of_app. by right. }
  unfold cstr_at at 1. rewrite drop_0, Hs. cbn [mbind outcome_bind].
  pose proof (strtok_field [] (dec o) (dec i ++ 32 :: dec a ++ 32 :: t ++ x :: post)
    (dec_nonempty o) (dec_tok_byte o)) as H1.
  cbn [app length] in H1. rewrite H1. cbn [mbind outcome_bind].
  pose proof (cstr_at_field [] (dec o) (dec i ++ 32 :: dec a ++ 32 :: t ++ x :: post) (dec_tok_byte o)) as H2.
  cbn [app length] in H2. unfold tok_str, atoi_at. rewrite H2. cbn [mbind outcome_bind].
  rewrite atoi_dec_nonneg by lia.
  do 2 (rewrite strtok_field by auto using dec_nonempty, dec_tok_byte; cbn [mbind outcome_bind];
    rewrite cstr_at_field by apply dec_tok_byte; cbn [mbind outcome_bind];
    rewrite domain_fits by done; cbn [mbind outcome_bind]).
  rewrite strtok_scan by done.
  destruct Hx as [-> | ->]; cbn [Z.eqb mbind outcome_bind];
    rewrite cstr_at_field_later by done; cbn [mbind outcome_bind];
    (rewrite port_over by (unfold data in Hlen; repeat (rewrite length_app in * || cbn [length] in * ); lia));
    (destruct (decide _) as [H|H], (decide _) as [H'|H']; repeat (rewrite length_app in * || cbn [length] in * );
      try lia; cbn [mbind outcome_bind]; [by destruct (o =? 0)|done]).
Qed.

(** [IPC_getClientData] on what [command] writes. *)
Lemma session_read_back garbage c :
  0 <= ci_os_type c < 256 -> 0 <= ci_port_i c < 65536 -> 0 <= ci_port_a c < 65536 ->
  0 <= ci_port_e c < 65536 -> length garbage = 200%nat ->
  let rest := drop (length (client_data c)) garbage in
  let port := dec (ci_port_e c) ++ stray rest in
  IPC_getClientData garbage (client_data c) false =
  if decide (0 ∈ rest /\ (length port <
             length (dec (ci_os_type c)) + length (dec (ci_port_i c)) + length (dec (ci_port_a c)))%nat)
  then Ok (mk_session (ci_os_type c =? 0)
        (bytes "http://211.189.20.76:850" ++ dec (ci_port_i c) ++ bytes "/1234")
        (bytes "http://211.189.20.76:800" ++ dec (ci_port_a c) ++ bytes "/1234")
        (atoi (bytes "750" ++ port)) 1280 768)
  else Crash.
Proof.
  intros Ho Hi Ha He Hg rest port.
  assert (take 200 (client_data c) = client_data c) as Htake.
  { apply take_ge. pose proof (client_data_short c Ho Hi Ha He). lia. }
  assert (client_data c = (dec (ci_os_type c) ++ 32 :: dec (ci_port_i c) ++ 32 :: dec (ci_port_a c) ++ [32])
    ++ dec (ci_port_e c)) as Hdata.
  { unfold client_data, sp. by repeat (rewrite <- app_assoc; cbn [app]). }
  destruct (decide (0 ∈ rest)) as [Hin|Hno].
  - destruct (stray_split rest Hin) as (x & post & Hsplit & Hst & Hx).
    rewrite (session_fields (ci_os_type c) (ci_port_i c) (ci_port_a c) port x post); try done.
    + destruct (decide _), (decide _); tauto || done.
    + unfold port. intros [H _]%app_nil. by apply (dec_nonempty (ci_port_e c)).
    + apply Forall_app. split; [apply dec_tok_byte|done].
    + rewrite Hsplit in Hin. apply elem_of_app in Hin as [H|H]; [|done].
      rewrite Forall_forall in Hst. by destruct (Hst 0 H).
    + assert (length (client_data c ++ rest) = 200%nat) as Htot.
      { unfold rest. pose proof (client_data_short c Ho Hi Ha He).
        rewrite length_app, length_drop. lia. }
      rewrite Hsplit, Hdata in Htot. unfold port.
      repeat (rewrite length_app in Htot || cbn [length] in Htot).
      repeat (rewrite length_app || cbn [length]). lia.
    + rewrite Htake. fold rest. rewrite Hsplit at 1. rewrite Hdata. unfold port. by rewrite <- !app_assoc.
  - rewrite decide_False by tauto. unfold IPC_getClientData. rewrite Htake. fold rest.
    unfold cstr_at at 1. rewrite drop_0, cstr_none; [done|].
    rewrite not_elem_of_app. split; [|done]. rewrite Hdata. unfold port.
    rewrite !not_elem_of_app, !not_elem_of_cons, !not_elem_of_app, !not_elem_of_cons, !not_elem_of_app.
    pose proof dec_no_nul as Hn. repeat split; try apply Hn; try lia. by rewrite list_elem_of_singleton.
Qed.

(** The common case: the byte behind the file is NUL, and no field is longer
    than the three before the last together. *)
Lemma session_read_clean garbage c :
  0 <= ci_os_type c < 256 -> 0 <= ci_port_i c < 65536 -> 0 <= ci_port_a c < 65536 ->
  0 <= ci_port_e c < 65536 -> length garbage = 200%nat ->
  garbage !! length (client_data c) = Some 0 ->
  (length (dec (ci_port_e c)) <
   length (dec (ci_os_type c)) + length (dec (ci_port_i c)) + length (dec (ci_port_a c)))%nat ->
  IPC_getClientData garbage (client_data c) false =
  Ok (mk_session (ci_os_type c =? 0)
        (bytes "http://211.189.20.76:850" ++ dec (ci_port_i c) ++ bytes "/1234")
        (bytes "http://211.189.20.76:800" ++ dec (ci_port_a c) ++ bytes "/1234")
        (750 * 10 ^ Z.of_nat (length (dec (ci_port_e c))) + ci_port_e c) 1280 768).
Proof.
  intros Ho Hi Ha He Hl Hg Hp. rewrite session_read_back by done.
  rewrite (drop_S garbage 0) by done. cbn [stray Z.eqb orb]. rewrite app_nil_r.
  rewrite decide_True by (split; [by left|done]).
  rewrite <- (app_nil_r (dec (ci_port_e c))) at 1. by rewrite port_value.
Qed.

(** C7: the session file between the two programs, for every content of the
    reader's uninitialised [char buf[200]].  What [command] of the VM manager
    writes, [IPC_getClientData] of the emulator reads back as Android mode
    exactly for system 0, and the audio and frame ports as decimal suffixes of
    fixed prefixes (in this order: the manager's image port becomes the
    emulator's audio address and its audio port the frame address).  The file
    has no terminator, so the event port is read together with the stray stack
    bytes up to the next space or NUL: it is 750 followed by the manager's
    event port exactly when those do not begin with a digit.  The read is
    undefined when no NUL follows the file in the array, or when the event
    port with the stray bytes is as long as the three numbers before it, so
    that the last [sprintf] overwrites the bytes it copies. *)
Theorem session_roundtrip garbage c :
  0 <= ci_os_type c < 256 -> 0 <= ci_port_i c < 65536 -> 0 <= ci_port_a c < 65536 ->
  0 <= ci_port_e c < 65536 -> length garbage = 200%nat ->
  let rest := drop (length (client_data c)) garbage in
  let port := dec (ci_port_e c) ++ stray rest in
  IPC_getClientData garbage (client_data c) false =
  (if decide (0 ∈ rest /\ (length port <
             length (dec (ci_os_type c)) + length (dec (ci_port_i c)) + length (dec (ci_port_a c)))%nat)
   then Ok (mk_session (ci_os_type c =? 0)
        (bytes "http://211.189.20.76:850" ++ dec (ci_port_i c) ++ bytes "/1234")
        (bytes "http://211.189.20.76:800" ++ dec (ci_port_a c) ++ bytes "/1234")
        (atoi (bytes "750" ++ port)) 1280 768)
   else Crash) /\
  (no_digit_first (stray rest) ->
   atoi (bytes "750" ++ port) = 750 * 10 ^ Z.of_nat (length (dec (ci_port_e c))) + ci_port_e c).
Proof.
  intros Ho Hi Ha He Hg. split; [by apply session_read_back|]. intros H. by apply port_value.
Qed.

(** Two stack bytes that are not digits, then a NUL, behind a file of
    two-digit ports: the session is read as intended. *)
Lemma session_roundtrip_witness :
  IPC_getClientData (replicate 10 7 ++ [33; 33; 0] ++ replicate 187 9)
    (client_data (mk_client 0 0 3 None None 1 41 52 63)) false =
  Ok (mk_session true (bytes "http://211.189.20.76:85041/1234")
        (bytes "http://211.189.20.76:80052/1234") 75063 1280 768).
Proof.
  pose proof (session_roundtrip (replicate 10 7 ++ [33; 33; 0] ++ replicate 187 9)
    (mk_client 0 0 3 None None 1 41 52 63) ltac:(simpl; lia) ltac:(simpl; lia) ltac:(simpl; lia)
    ltac:(simpl; lia) eq_refl) as [H _].
  rewrite H. vm_compute. reflexivity.
Defined.

(** The file has no terminator of its own: the event port that is read depends
    on the stack garbage behind it. *)
Lemma session_reads_garbage :
  exists g1 g2 s1 s2,
    IPC_getClientData g1 (bytes "2 1 1 1") false = Ok s1 /\
    IPC_getClientData g2 (bytes "2 1 1 1") false = Ok s2 /\
    portnum s1 = 7501 /\ portnum s2 = 75017.
Proof.
  exists (replicate 200 0), (replicate 7 0 ++ [55] ++ replicate 192 0).
  do 2 eexists. repeat split; vm_compute; reflexivity.
Qed.

(** ** The ring of sound files: invariant *)

(** The number of the ring's file that holds the [j]-th file ever started. *)
Definition slot_of (j : nat) : Z := 1 + Z.of_nat j mod 100.

Lemma Next_pos_slot j : Next_pos (slot_of j) = slot_of (S j).
Proof.
  unfold Next_pos, slot_of, FINALPOS. rewrite Nat2Z.inj_succ.
  pose proof (Z.mod_pos_bound (Z.of_nat j) 100 ltac:(lia)).
  pose proof (Z.div_mod (Z.of_nat j) 100 ltac:(lia)).
  destruct (Z.eqb_spec (1 + Z.of_nat j mod 100) 100).
  - replace (Z.succ (Z.of_nat j)) with ((Z.of_nat j / 100 + 1) * 100) by lia.
    by rewrite Z.mod_mul by lia.
  - replace (Z.succ (Z.of_nat j)) with ((Z.of_nat j mod 100 + 1) + Z.of_nat j / 100 * 100) by lia.
    rewrite Z.mod_add, (Z.mod_small (Z.of_nat j mod 100 + 1)) by lia. lia.
Qed.

Lemma slot_of_inj i j :
  (i < j + 100)%nat -> (j < i + 100)%nat -> slot_of i = slot_of j -> i = j.
Proof.
  intros Hij Hji Heq. unfold slot_of in Heq.
  pose proof (Z.div_mod (Z.of_nat i) 100 ltac:(lia)).
  pose proof (Z.div_mod (Z.of_nat j) 100 ltac:(lia)). lia.
Qed.

Section RingProofs.
Context {A : Type}.
Implicit Types (w : list A) (s : @stream A).

(** The content of the [j]-th file when the chunks [w] have been written. *)
Definition file_of w (j : nat) : list A := take 2 (drop (2 * j) w).

Definition opt_file (l : list A) : option (list A) :=
  match l with [] => None | _ => Some l end.

(** [n] files are complete, [m] are shipped, [w] are the chunks written. *)
Record ring_inv w s (m n : nat) : Prop := {
  ri_order : (m <= n < m + 100)%nat;
  ri_len : Z.of_nat (length w) = 2 * Z.of_nat n + pending_cnt s;
  ri_cnt : 0 <= pending_cnt s < 2;
  ri_file : file_pos s = slot_of n;
  ri_work : work_pos s = slot_of m;
  ri_temp : forall t, temp_pos s = Some t -> exists k, (m <= k <= n)%nat /\ t = slot_of k;
  ri_in : forall j, (m <= j <= n)%nat -> files s !! slot_of j = opt_file (file_of w j);
  ri_out : forall p, (forall j, (m <= j <= n)%nat -> p <> slot_of j) -> files s !! p = None;
  ri_shipped : concat (shipped s) = take (2 * m) w
}.

Lemma file_of_snoc_old w a j :
  (2 * j + 2 <= length w)%nat -> file_of (w ++ [a]) j = file_of w j.
Proof.
  intros Hj. unfold file_of. rewrite drop_app_le by lia.
  rewrite take_app_le; [done|]. rewrite length_drop. lia.
Qed.

Lemma file_of_snoc_cur w a j :
  (2 * j <= length w < 2 * j + 2)%nat -> file_of (w ++ [a]) j = file_of w j ++ [a].
Proof.
  intros Hj. unfold file_of. rewrite drop_app_le by lia.
  rewrite take_app_ge, (take_ge (drop (2 * j) w)) by (rewrite length_drop; lia).
  f_equal. apply take_ge. rewrite length_drop. simpl. lia.
Qed.

Lemma opt_file_default l : default [] (opt_file l) = l.
Proof. by destruct l. Qed.

Lemma file_of_past w j : (length w <= 2 * j)%nat -> file_of w j = [].
Proof. intros Hj. unfold file_of. by rewrite drop_ge. Qed.

Lemma ring_inv_init : ring_inv [] stream_init 0 0.
Proof.
  constructor; try done; try lia.
  intros j Hj. assert (j = O) as -> by lia. done.
Qed.

Lemma ring_inv_count w s m n a :
  ring_inv w s m n -> pending_cnt s + 1 <> FINALCNT \/ Next_pos (file_pos s) <> work_pos s ->
  exists n', ring_inv (w ++ [a]) (count_chunk a s) m n'.
Proof.
  intros [Ho Hl Hc Hf Hw Ht Hin Hout Hs] Hp.
  assert (forall j, (m <= j <= n)%nat ->
    <[file_pos s := default [] (files s !! file_pos s) ++ [a]]> (files s) !! slot_of j =
    opt_file (file_of (w ++ [a]) j)) as Hin'.
  { intros j Hj. rewrite Hf. destruct (decide (j = n)) as [->|Hne].
    - rewrite lookup_insert_eq, Hin, opt_file_default, file_of_snoc_cur by lia.
      by destruct (file_of w n).
    - rewrite lookup_insert_ne, Hin, file_of_snoc_old by (lia || intros E; apply slot_of_inj in E; lia).
      done. }
  assert (forall p, (forall j, (m <= j <= n)%nat -> p <> slot_of j) ->
    <[file_pos s := default [] (files s !! file_pos s) ++ [a]]> (files s) !! p = None) as Hout'.
  { intros p Hp'. rewrite lookup_insert_ne; [by apply Hout|]. rewrite Hf.
    intros E. by apply (Hp' n); [lia|]. }
  assert (concat (shipped s) = take (2 * m) (w ++ [a])) as Hs'.
  { rewrite Hs, take_app_le by lia. done. }
  unfold count_chunk. destruct (Z.eqb_spec (pending_cnt s + 1) FINALCNT) as [Hfull|Hnf].
  - destruct Hp as [?|Hp]; [done|]. unfold FINALCNT in *.
    rewrite Hf, Hw, Next_pos_slot in Hp.
    assert (S n < m + 100)%nat as Hlt.
    { destruct (decide (S n = m + 100)%nat) as [E|]; [|lia]. exfalso. apply Hp. rewrite E.
      unfold slot_of. rewrite Nat2Z.inj_add. change (Z.of_nat 100) with (1 * 100).
      by rewrite Z.mod_add by lia. }
    exists (S n). constructor; cbn [file_pos pending_cnt work_pos temp_pos files shipped]; try done.
    + lia.
    + rewrite length_app. simpl. lia.
    + by rewrite Hf, Next_pos_slot.
    + intros t (k & Hk & ->)%Ht. exists k. split; [lia|done].
    + intros j Hj. destruct (decide (j = S n)) as [->|]; [|apply Hin'; lia].
      rewrite file_of_past by (rewrite length_app; simpl; lia). apply Hout'.
      intros j' Hj' E. symmetry in E. apply slot_of_inj in E; lia.
    + intros p Hp'. apply Hout'. intros j Hj. apply Hp'. lia.
  - exists n. unfold FINALCNT in *.
    constructor; cbn [file_pos pending_cnt work_pos temp_pos files shipped]; try done; try lia.
    rewrite length_app. simpl. lia.
Qed.

Lemma ring_inv_ship w s m n t :
  ring_inv w s m n -> temp_pos s = Some t -> work_pos s <> t -> ring_inv w (fb_ship s) (S m) n.
Proof.
  intros [Ho Hl Hc Hf Hw Ht Hin Hout Hs] Htemp Hne.
  destruct (Ht t Htemp) as (k & Hk & ->). rewrite Hw in Hne.
  assert (m <> k) by (intros ->; done).
  constructor; unfold fb_ship; cbn [file_pos pending_cnt work_pos temp_pos files shipped]; try done.
  - lia.
  - by rewrite Hw, Next_pos_slot.
  - intros t' [= <-]%(eq_trans (eq_sym Htemp)). exists k. split; [lia|done].
  - intros j Hj. rewrite Hw, lookup_delete_ne by (intros E; apply slot_of_inj in E; lia).
    apply Hin. lia.
  - intros p Hp. rewrite Hw. destruct (decide (p = slot_of m)) as [->|Hpm].
    { apply lookup_delete_eq. }
    rewrite lookup_delete_ne by done. apply Hout. intros j Hj.
    destruct (decide (j = m)) as [->|]; [done|]. apply Hp. lia.
  - rewrite concat_app, Hs, Hw, Hin, opt_file_default by lia. cbn [concat]. rewrite app_nil_r.
    unfold file_of. rewrite take_take_drop. f_equal. lia.
Qed.

End RingProofs.

Lemma paced_run_inv blksize w s :
  paced_run blksize w s -> exists m n, ring_inv (fwrite_out blksize <$> w) s m n.
Proof.
  induction 1 as [|w s w' s' _ (m & n & IH) Hp Hst].
  { exists O, O. apply ring_inv_init. }
  rewrite fmap_app. destruct Hst as [a s s' Ha|s Ht|s t Ht Hne|s t Ht Heq]; cbn [fmap list_fmap];
    rewrite ?app_nil_r.
  - injection Ha as <-. exists m. apply ring_inv_count with n; [done|]. by destruct Hp as [?|?].
  - exists m, n. destruct IH. constructor; try done. intros t [= <-]. exists n. split; [lia|done].
  - exists (S m), n. by eapply ring_inv_ship.
  - exists m, n. destruct IH. by constructor.
Qed.

Lemma fwrite_out_whole blksize data :
  (length data mod blksize = 0)%nat -> fwrite_out blksize data = data.
Proof. intros H. unfold fwrite_out. rewrite H, Nat.sub_0_r. apply take_ge. lia. Qed.

(** C13: what happens to the sound between the emulator and ffmpeg.  In every
    interleaving of the writer with the shipping thread in which every sound
    file can be opened and the writer stays less than a full ring ahead, what
    has been handed to ffmpeg is, in order, a prefix of the pieces that
    reached the files: the whole stdio blocks of each [pcm_buf], whose
    unflushed tail is lost.  Whenever the shipper has caught up with
    [file_pos], at most one piece (the half-filled file) is outstanding.  So
    when the size of [pcm_buf] is a multiple of the stdio buffer, no sound is
    lost, repeated or reordered. *)
Theorem sound_files_fifo blksize (w : list (list Z)) s :
  paced_run blksize w s ->
  exists rest, fwrite_out blksize <$> w = concat (shipped s) ++ rest /\
    (work_pos s = file_pos s -> (length rest < 2)%nat) /\
    (Forall (fun pcm => (length pcm mod blksize = 0)%nat) w -> w = concat (shipped s) ++ rest).
Proof.
  intros (m & n & [Ho Hl Hc Hf Hw Ht Hin Hout Hs])%paced_run_inv.
  exists (drop (2 * m) (fwrite_out blksize <$> w)). rewrite Hs, take_drop. split; [done|]. split.
  - rewrite Hf, Hw. intros E. apply slot_of_inj in E; [|lia..]. rewrite length_drop. lia.
  - intros Hall. symmetry. rewrite <- (list_fmap_id w) at 2. apply list_fmap_ext.
    intros i pcm Hi. apply fwrite_out_whole. by eapply (Forall_lookup_1 _ _ _ _ Hall).
Qed.

Definition demo_sound (l : list (list Z)) : @stream (list Z) :=
  foldl (fun s pcm => count_chunk (fwrite_out 2 pcm) s) stream_init l.

Lemma sound_files_fifo_witness :
  exists rest, [[10; 11]; [20; 21]; [30; 31]] =
      concat (shipped (fb_ship (fb_begin (demo_sound [[10; 11]; [20; 21]; [30; 31; 32]])))) ++ rest /\
    (2 = 2 -> (length rest < 2)%nat) /\
    (Forall (fun pcm => (length pcm mod 2 = 0)%nat) [[10; 11]; [20; 21]; [30; 31; 32]] ->
     [[10; 11]; [20; 21]; [30; 31; 32]] =
      concat (shipped (fb_ship (fb_begin (demo_sound [[10; 11]; [20; 21]; [30; 31; 32]])))) ++ rest).
Proof.
  apply (sound_files_fifo 2 [[10; 11]; [20; 21]; [30; 31; 32]]
    (fb_ship (fb_begin (demo_sound [[10; 11]; [20; 21]; [30; 31; 32]])))).
  apply (run_step 2 [[10; 11]; [20; 21]; [30; 31; 32]] (fb_begin (demo_sound [[10; 11]; [20; 21]; [30; 31; 32]])) []);
    [| by left | by apply (st_ship _ _ 2) ].
  apply (run_step 2 [[10; 11]; [20; 21]; [30; 31; 32]]
    (demo_sound [[10; 11]; [20; 21]; [30; 31; 32]]) []);
    [| by left | by apply st_begin ].
  apply (run_step 2 [[10; 11]; [20; 21]] (demo_sound [[10; 11]; [20; 21]]) [[30; 31; 32]]);
    [| by right; left | by apply st_dump ].
  apply (run_step 2 [[10; 11]] (demo_sound [[10; 11]]) [[20; 21]]);
    [| by right; right | by apply st_dump ].
  apply (run_step 2 [] (demo_sound []) [[10; 11]]); [| by right; left | by apply st_dump ].
  apply run_init.
Defined.

(** The ring has no full/empty distinction.  If the shipping thread is
    delayed while a hundred files are completed, both positions coincide
    again: its next round ships nothing, and the following chunk is appended
    to the oldest file, which already holds its two. *)
Theorem full_ring_looks_empty {A} (a : A) :
  let s := Nat.iter 200 (count_chunk a) stream_init in
  work_pos s = file_pos s /\ shipped s = [] /\
  work_pos (fb_begin s) = default 0 (temp_pos (fb_begin s)) /\
  files s !! 1 = Some [a; a] /\ files (count_chunk a s) !! 1 = Some [a; a; a].
Proof. vm_compute. repeat split. Qed.

(** ** Feeding the sound card: properties *)

Section Playback.
Variable samples : Z.
Hypothesis samples_pos : 0 < samples.

(** The documented contract of [snd_pcm_writei]: it never accepts more frames
    than it was given. *)
Definition honest (n : Z) (r : pcm_result) : Prop := written r <= n.

(** The calls of a loop, each paired with its result, respect the contract. *)
Fixpoint honest_run (rs : list pcm_result) (v : voice) : Prop :=
  let v := reload samples v in
  if len v =? 0 then True
  else match rs with
  | [] => True
  | r :: rs' =>
      honest (len v) r /\
      (if written r <=? 0 then honest_run rs' v
       else honest_run rs' (mk_voice ((wpos v + written r) mod samples) (pending v - written r)
                              (src v) (len v - written r)))
  end.

Definition voice_ok (v : voice) : Prop :=
  0 <= wpos v < samples /\ 0 <= len v <= pending v /\ pending v <= samples /\
  0 <= src v /\ src v + len v <= samples.

Lemma reload_ok v : voice_ok v -> voice_ok (reload samples v) /\
  wpos (reload samples v) = wpos v /\ pending (reload samples v) = pending v /\
  (len (reload samples v) = 0 <-> pending v = 0).
Proof.
  intros (Hw & Hl & Hp & Hs & Hsl). unfold reload, voice_ok.
  destruct (Z.eqb_spec (len v) 0), (Z.eqb_spec (pending v) 0); simpl; lia.
Qed.

(** An error after which the code calls the card again at once. *)
Definition recovered (r : pcm_result) : bool :=
  ((written r =? - EPIPE) || (written r =? - ESTRPIPE)) && negb (recover_failed r).

(** Everything the loops do: the ring indices stay in range, every call reads
    inside [pcm_buf], frames leave [pending] exactly as they enter the card,
    the outer loop always has a call to make, and every result that is not a
    recovered error brings the end nearer. *)
Definition in_ring (c : Z * Z) : Prop := 0 <= fst c /\ 0 < snd c /\ fst c + snd c <= samples.

Definition recoveries (rs : list pcm_result) : Z := Z.of_nat (length (filter recovered rs)).

Definition loop_post (rs : list pcm_result) (v : voice) (res : loop_end * voice * list (Z * Z)) : Prop :=
  let '(e, v', calls) := res in
  voice_ok v' /\ e <> Spins /\
  (wpos v' + pending v') mod samples = (wpos v + pending v) mod samples /\
  pending v' <= pending v /\ (e = Finished -> pending v' = 0) /\ Forall in_ring calls /\
  (e = StillLooping -> Z.of_nat (length rs) + pending v' <= pending v + recoveries rs /\ 0 < pending v').

(** Putting one more call in front of a finished run. *)
Lemma loop_post_call r rs v u res c :
  loop_post rs u res -> in_ring c ->
  (wpos u + pending u) mod samples = (wpos v + pending v) mod samples ->
  pending u <= pending v -> pending u < pending v \/ recovered r = true ->
  loop_post (r :: rs) v (let '(e, v', calls) := res in (e, v', c :: calls)).
Proof.
  destruct res as [[e v'] calls]. intros (H1 & H2 & H3 & H4 & H5 & H6 & H7) Hc Hm Hp Hr.
  repeat split; try apply H1; try done; try congruence; try lia; auto.
  - destruct (H7 H) as [H8 H9]. unfold recoveries in *. rewrite filter_cons.
    destruct (decide (recovered r)); cbn [length]; [lia|]. destruct Hr as [?|Hr]; [lia|].
    by rewrite Hr in n.
  - by apply H7.
Qed.

Lemma loop_post_quit rs v u c :
  voice_ok u -> wpos u = wpos v -> pending u = pending v -> in_ring c ->
  loop_post rs v (GaveUp, u, [c]).
Proof.
  intros Hu Hw Hp Hc. unfold loop_post. rewrite Hw, Hp.
  repeat split; try apply Hu; try done; try lia; auto.
Qed.

Lemma loop_post_stop v u :
  voice_ok u -> wpos u = wpos v -> pending u = pending v -> 0 < pending u ->
  loop_post [] v (StillLooping, u, []).
Proof.
  intros Hu Hw Hp Hpos. unfold loop_post, recoveries. rewrite Hw, Hp. rewrite Hp in Hpos. cbn [length filter list_filter].
  repeat split; try apply Hu; try done; lia.
Qed.

Lemma loop_post_done rs v u :
  voice_ok u -> wpos u = wpos v -> pending u = pending v -> pending v = 0 ->
  loop_post rs v ((if pending u =? 0 then Finished else Spins), u, []).
Proof.
  intros Hu Hw Hp Hz. rewrite Hp, Hz. unfold loop_post. rewrite Hw, Hp.
  repeat split; try apply Hu; try done; lia.
Qed.

Lemma alsa_write_loop_spec rs v :
  voice_ok v -> honest_run rs v -> loop_post rs v (alsa_write_loop samples rs v).
Proof.
  revert v. induction rs as [|r rs IH]; intros v Hok Hh; simpl in *;
    destruct (reload_ok v Hok) as (Hok' & Hw & Hp & Hz);
    set (u := reload samples v) in *; clearbody u;
    (destruct (Z.eqb_spec (len u) 0) as [E|E]; [apply loop_post_done; auto; by apply Hz|]).
  { apply loop_post_stop; auto. destruct Hok' as (?&?&?&?&?). lia. }
  destruct Hh as [Hhon Hh].
  assert (in_ring (src u, len u)) as Hcall.
  { destruct Hok' as (?&?&?&?&?). unfold in_ring. simpl. lia. }
  destruct (Z.leb_spec (written r) 0) as [Hle|Hgt].
  - assert (recovered r = true -> loop_post (r :: rs) v
      (let '(e, v', calls) := alsa_write_loop samples rs u in (e, v', (src u, len u) :: calls))) as Hagain.
    { intros Hr. apply (loop_post_call r rs v u); [by apply IH|done|by rewrite Hw, Hp|lia|by right]. }
    unfold recovered in Hagain.
    destruct (written r =? 0); [by apply loop_post_quit|].
    destruct (written r =? - EPIPE), (written r =? - ESTRPIPE), (recover_failed r), (written r =? - EAGAIN);
      simpl in Hagain; auto using loop_post_quit.
  - set (u' := mk_voice _ _ _ _) in *.
    apply (loop_post_call r rs v u'); simpl; try done; try lia.
    + apply IH; [|done]. unfold honest in Hhon. destruct Hok' as (?&?&?&?&?).
      unfold voice_ok. simpl.
      pose proof (Z.mod_pos_bound (wpos u + written r) samples samples_pos). lia.
    + rewrite Z.add_mod_idemp_l by lia. f_equal. lia.
Qed.

(** The conversion loop: it converts all it was asked to, in at most two
    pieces that lie inside the ring and follow one another. *)
Lemma clip_loop_spec rpos len :
  0 <= rpos < samples -> 0 <= len <= samples ->
  exists calls,
    clip_loop 2 samples rpos len 0 = ((rpos + len) mod samples, 0, len, calls) /\
    Forall in_ring calls.
Proof.
  intros Hr Hl. simpl. destruct (Z.eqb_spec len 0) as [->|Hne].
  { exists []. rewrite Z.add_0_r, Z.mod_small by lia. done. }
  destruct (Z.min_spec len (samples - rpos)) as [[Hlt ->]|[Hge ->]].
  - replace (len - len) with 0 by lia. simpl. eexists. split; [reflexivity|].
    repeat constructor; unfold in_ring; simpl; lia.
  - replace (rpos + (samples - rpos)) with samples by lia. rewrite Z.mod_same by lia.
    destruct (Z.eqb_spec (len - (samples - rpos)) 0) as [E|E].
    + assert (len = samples - rpos) as -> by lia. rewrite Z.sub_diag. eexists.
      replace (rpos + (samples - rpos)) with samples by lia. rewrite Z.mod_same by lia.
      split; [reflexivity|]. repeat constructor; unfold in_ring; simpl; lia.
    + rewrite (Z.min_l (len - (samples - rpos)) (samples - 0)) by lia.
      replace ((rpos + len) mod samples) with (len - (samples - rpos)).
      2: { replace (rpos + len) with (len - (samples - rpos) + 1 * samples) by lia.
           by rewrite Z.mod_add, Z.mod_small by lia. }
      rewrite !Z.add_0_l, (Z.mod_small (len - (samples - rpos))), Z.sub_diag by lia.
      replace (samples - rpos + (len - (samples - rpos))) with len by lia.
      eexists. split; [reflexivity|]. repeat constructor; unfold in_ring; simpl; lia.
Qed.

(** The playback state between two calls: indices inside the ring, and the
    frames that wait for the card are exactly those between [wpos] and
    [rpos]. *)
Definition playback_ok (p : playback) : Prop :=
  0 <= pb_rpos p < samples /\ 0 <= pb_wpos p < samples /\ 0 <= pb_pending p <= samples /\
  (pb_wpos p + pb_pending p) mod samples = pb_rpos p.

End Playback.

(** C37: the sound ring is never overrun.  For any results of the ALSA calls
    (short writes, recovered and unrecovered errors) that never accept more
    frames than were offered, and if the sound file can be opened,
    [alsa_run_out] keeps the indices in range and the invariant that [pending]
    frames starting at [wpos] end at [rpos]; every [snd_pcm_writei] reads
    inside the buffer; it never reports more frames consumed than were
    available or could be buffered; the outer loop never turns without a call
    of the card.  It ends within as many calls as frames are pending plus the
    recovered errors: after that many results it is not still looping.  Nothing
    bounds the number of recovered errors ([recovered_errors_loop]). *)
Theorem run_out_keeps_ring blksize play_test samples avail live pcm rs p s :
  0 < samples -> playback_ok samples p -> 0 <= live <= samples ->
  let total := pb_pending p + Z.min (samples - pb_pending p) (Z.min live avail) in
  honest_run samples rs (mk_voice (pb_wpos p) total 0 0) ->
  exists decr e p' calls s',
    alsa_run_out blksize true play_test samples avail live pcm rs p s = Ok (decr, e, p', calls, s') /\
    playback_ok samples p' /\ e <> Spins /\ 0 <= decr <= live /\
    decr <= samples - pb_pending p /\ Forall (in_ring samples) calls /\
    (e = Finished -> pb_pending p' = 0 \/ avail < 0) /\
    (e = StillLooping -> Z.of_nat (length rs) < total + recoveries rs).
Proof.
  intros Hpos (Hr & Hw & Hp & Hm) Hlive total Hh. unfold alsa_run_out.
  destruct (Z.ltb_spec avail 0).
  { do 5 eexists. split; [reflexivity|]. unfold playback_ok. repeat split; try done; try lia. }
  unfold audio_pcm_hw_clip_out.
  set (n := Z.min (samples - pb_pending p) (Z.min live avail)) in *.
  assert (0 <= n <= samples) by lia.
  destruct (clip_loop_spec samples Hpos (pb_rpos p) n Hr ltac:(lia)) as (cc & -> & _).
  unfold alsa_write_pending. fold total. set (v := mk_voice (pb_wpos p) total 0 0) in *.
  assert (exists s', (if -1 <? play_test
    then if (wpos v =? 0) || (samples <=? wpos v + pending v) then dump_chunk blksize true pcm s else Ok s
    else Ok s) = Ok s') as [s' ->] by (unfold dump_chunk; cases; eauto).
  pose proof (alsa_write_loop_spec samples Hpos rs v) as Hspec.
  destruct (alsa_write_loop samples rs v) as [[e1 v1] c1]. cbn [mbind outcome_bind].
  destruct Hspec as (Hok & He & Hmod & Hle & Hfin & Hcalls & Hstill); [|done|].
  { unfold voice_ok, v, total. simpl. lia. }
  do 5 eexists. split; [reflexivity|]. destruct Hok as (?&?&?&?&?).
  unfold playback_ok. cbn [pb_rpos pb_wpos pb_pending]. repeat split; try done; try lia.
  - apply Z.mod_pos_bound. lia.
  - apply Z.mod_pos_bound. lia.
  - rewrite Hmod. unfold v, total. simpl. rewrite Z.add_assoc, <- Z.add_mod_idemp_l, Hm by lia. done.
  - intros E. left. auto.
  - intros E. destruct (Hstill E). unfold v in *. cbn [pending] in *. lia.
Qed.

Lemma run_out_keeps_ring_witness :
  exists decr e p' calls s',
    alsa_run_out 4 true 0 8 6 5 [1; 2; 3; 4] [mk_pcm 2 false; mk_pcm (-32) false; mk_pcm 2 false; mk_pcm (-11) false]
      (mk_playback 6 4 2) stream_init = Ok (decr, e, p', calls, s') /\
    playback_ok 8 p' /\ e <> Spins /\ 0 <= decr <= 5 /\
    decr <= 8 - 2 /\ Forall (in_ring 8) calls /\
    (e = Finished -> pb_pending p' = 0 \/ 6 < 0) /\
    (e = StillLooping -> 4 < 7 + 1).
Proof.
  apply (run_out_keeps_ring 4 0 8 6 5 [1; 2; 3; 4]
    [mk_pcm 2 false; mk_pcm (-32) false; mk_pcm 2 false; mk_pcm (-11) false] (mk_playback 6 4 2) stream_init);
    [lia | | lia | ].
  - unfold playback_ok. simpl. repeat split; lia || reflexivity.
  - vm_compute. intuition congruence.
Defined.

(** As long as the card reports errors that can be recovered from, the inner
    loop calls it again. *)
Lemma recovered_errors_loop samples n v :
  0 < len v ->
  alsa_write_loop samples (replicate n (mk_pcm (- EPIPE) false)) v =
  (StillLooping, v, replicate n (src v, len v)).
Proof.
  intros Hl. assert (reload samples v = v) as Hre.
  { unfold reload. by destruct (Z.eqb_spec (len v) 0); [lia|]. }
  induction n as [|n IH]; cbn [replicate alsa_write_loop written recover_failed]; rewrite Hre;
    (destruct (Z.eqb_spec (len v) 0); [lia|]); [done|]. rewrite IH. reflexivity.
Qed.

(** A short write plays the same frames twice.  After the card accepts only
    [n] of the [len] frames starting at [src], the next call offers the
    remaining number of frames from the same start, because [src] is not
    advanced, while [wpos] and [pending] move on. *)
Theorem short_write_repeats_frames samples rs n v r :
  0 < samples -> voice_ok samples v -> 0 < len v -> 0 < n < len v ->
  exists e v' calls,
    alsa_write_loop samples (mk_pcm n false :: r :: rs) v =
      (e, v', (src v, len v) :: (src v, len v - n) :: calls).
Proof.
  intros Hpos Hok Hl Hn. cbn [alsa_write_loop written].
  assert (forall u, 0 < len u -> reload samples u = u) as Hre.
  { intros u Hu. unfold reload. by destruct (Z.eqb_spec (len u) 0); [lia|]. }
  rewrite (Hre v Hl). destruct (Z.eqb_spec (len v) 0); [lia|].
  destruct (Z.leb_spec n 0); [lia|].
  rewrite Hre by (simpl; lia). cbn [len src wpos pending].
  destruct (Z.eqb_spec (len v - n) 0); [lia|].
  destruct (if written r <=? 0 then _ else _) as [[e1 v1] c1]. eauto.
Qed.

Lemma short_write_repeats_frames_witness :
  exists e v' calls,
    alsa_write_loop 8 [mk_pcm 1 false; mk_pcm 2 false] (mk_voice 2 3 2 3) =
      (e, v', (2, 3) :: (2, 3 - 1) :: calls).
Proof.
  apply (short_write_repeats_frames 8 [] 1 (mk_voice 2 3 2 3) (mk_pcm 2 false)); simpl;
    unfold voice_ok; simpl; lia.
Defined.
