(* ===== verification/Session.v ===== *)
(** * A session from end to end

    The page of the load balancer (public/js/common.select.js) and the script
    the VM manager runs (command.sh), and the path of a start request through
    the whole system: load balancer, VM manager, script, emulator, web server
    worker and browser page agree on user, disk image and ports. *)

From S2P Require Import Prelude CString Js VMManager LoadBalancer Accounts WebServer Streaming.

(** ** The page (common.select.js) *)

(** [data.split(" ")]. *)
Fixpoint split_space (s : list Z) : list (list Z) :=
  match s with
  | [] => [[]]
  | c :: s' =>
      if c =? 32 then [] :: split_space s'
      else match split_space s' with w :: ws => (c :: w) :: ws | [] => [[c]] end
  end.

Inductive page_action := Alert | Redirect (url : list Z) (port : jsval).

(** The [success] callback of [requestStartOS] and [requestInstallOS]. *)
Definition start_success (data : list Z) : page_action :=
  if bool_decide (data = bytes "dup") || bool_decide (data = bytes "full") then Alert
  else
    let res := split_space data in
    Redirect (default [] (res !! 0%nat)) (match res !! 1%nat with Some p => JStr p | None => JUndefined end).

(** ** The script (command.sh) *)

Inductive action :=
| Cd (dir : list Z) | Mkdir (dir : list Z) | Qemu (vga sound : list Z) (hda : list Z) (cdrom : option (list Z))
| Tizen | QemuImg (file : list Z) | Mv (from to : list Z) | Rm (file : list Z).

Definition image_file (OS INDEX : list Z) : list Z := OS ++ bytes "_" ++ INDEX ++ bytes ".img".
Definition in_dir (ID file : list Z) : list Z := bytes "./" ++ ID ++ bytes "/" ++ file.

(** [COMMAND] is compared as a number. *)
Definition command_sh (COMMAND ID OS INDEX ANDROID : list Z) : list action :=
  let is_os name := bool_decide (OS = bytes name) in
  let n := atoi COMMAND in
  if n =? 0 then
    Cd (bytes "./" ++ ID) ::
    (if is_os "windows7" || is_os "ubuntu" then [Qemu (bytes "cirrus") (bytes "es1370") (image_file OS INDEX) None]
     else if is_os "tizen" then [Tizen]
     else if is_os "android" then [Qemu (bytes "std") (bytes "es1370") (image_file OS INDEX) None]
     else [])
  else if n =? 1 then
    Mkdir ID ::
    (if is_os "windows7" || is_os "ubuntu" then [QemuImg (in_dir ID (image_file OS INDEX))]
     else if is_os "android" then
       [Mv (in_dir (bytes "baseImage") (image_file OS ANDROID)) (in_dir ID (image_file OS INDEX))]
     else [])
  else if n =? 2 then [Rm (in_dir ID (image_file OS INDEX))]
  else [Cd (bytes "./" ++ ID);
        Qemu (bytes "cirrus") (bytes "ac97") (image_file OS INDEX) (Some (bytes "../baseImage/" ++ OS ++ bytes ".iso"))].

(** The programs a run of the script starts, each with the directory it is
    started in.  A [cd] that fails prints an error and the script goes on. *)
Fixpoint started {dir} (chdir : dir -> list Z -> option dir) (cwd : dir) (acts : list action) : list (dir * action) :=
  match acts with
  | [] => []
  | Cd d :: acts => started chdir (chdir_ign chdir cwd d) acts
  | a :: acts => (cwd, a) :: started chdir cwd acts
  end.

(** The emulator for system [o] and image [idx].  Tizen has one of its own,
    which is not part of this program. *)
Definition emulator (o idx : Z) : action :=
  if o =? 1 then Tizen
  else Qemu (if o =? 0 then bytes "std" else bytes "cirrus") (bytes "es1370") (image_file (os_text o) (dec idx)) None.

(** Characters without a meaning to the shell. *)
Definition plain (c : Z) : bool :=
  (48 <=? c) && (c <=? 57) || (65 <=? c) && (c <=? 90) || (97 <=? c) && (c <=? 122) ||
  existsb (Z.eqb c) (bytes "@._-+/:,%").

(** [system] on a line of plain words: the words after the script's name. *)
Definition run_system (line : list Z) : option (list action) :=
  if forallb (fun c => plain c || (c =? 32)) line then
    match filter (fun w => w <> []) (split_space line) with
    | [script; c; i; o; n; a] => if bool_decide (script = bytes "./command.sh") then Some (command_sh c i o n a) else None
    | _ => None
    end
  else None.

(** ** Ports *)

(** For one-digit ports, the texts the programs put together are the numbers
    the worker listens on. *)
Lemma port_texts p :
  1 <= p <= 9 ->
  bytes "850" ++ dec p = dec (Worker.AUDIO_STREAM_PORT p) /\
  bytes "800" ++ dec p = dec (Worker.IMAGE_STREAM_PORT p) /\
  atoi (bytes "750" ++ dec p) = Worker.NET_SOCKET_PORT p /\
  concat_js (JNum 900) (JStr (dec p)) = dec (Worker.IMAGE_WEBSOCKET_PORT p) /\
  concat_js (JNum 950) (JStr (dec p)) = dec (Worker.AUDIO_WEBSOCKET_PORT p) /\
  concat_js (JNum 700) (JStr (dec p)) = dec (Worker.EVENT_WEBSOCKET_PORT p).
Proof.
  intros Hp. assert (p = 1 \/ p = 2 \/ p = 3 \/ p = 4 \/ p = 5 \/ p = 6 \/ p = 7 \/ p = 8 \/ p = 9) as H by lia.
  repeat (destruct H as [-> | H]; [vm_compute; tauto|]). subst. vm_compute. tauto.
Qed.

(** From ten on they are not. *)
Lemma port_ten : atoi (bytes "750" ++ dec 10) <> Worker.NET_SOCKET_PORT 10.
Proof. vm_compute. discriminate. Qed.

(** ** Words *)

Definition word (w : list Z) : Prop := w <> [] /\ Forall (fun c => plain c = true) w.

Lemma plain_not_space c : plain c = true -> c <> 32.
Proof. by intros H ->. Qed.

Lemma split_space_word w rest :
  Forall (fun c => plain c = true) w -> split_space (w ++ 32 :: rest) = w :: split_space rest.
Proof.
  induction 1 as [|c w Hc _ IH]; [done|]. cbn [app split_space].
  destruct (Z.eqb_spec c 32); [by apply plain_not_space in Hc|]. by rewrite IH.
Qed.

Lemma split_space_last w : Forall (fun c => plain c = true) w -> split_space w = [w].
Proof.
  induction 1 as [|c w Hc _ IH]; [done|]. cbn [split_space].
  destruct (Z.eqb_spec c 32); [by apply plain_not_space in Hc|]. by rewrite IH.
Qed.

Definition spaced (ws : list (list Z)) (last : list Z) : list Z := foldr (fun w l => w ++ 32 :: l) last ws.

Lemma split_spaced ws last :
  Forall word ws -> word last -> filter (fun w => w <> []) (split_space (spaced ws last)) = ws ++ [last].
Proof.
  intros Hws [Hl Hlp]. induction Hws as [|w ws [Hne Hp] _ IH]; cbn [spaced foldr].
  - by rewrite split_space_last, filter_cons_True by done.
  - rewrite split_space_word, filter_cons_True by done. fold (spaced ws last). by rewrite IH.
Qed.

Lemma spaced_plain ws last :
  Forall word ws -> word last -> forallb (fun c => plain c || (c =? 32)) (spaced ws last) = true.
Proof.
  assert (forall w, word w -> forallb (fun c => plain c || (c =? 32)) w = true) as Hw.
  { intros w [_ Hp]. induction Hp as [|c w Hc _ IH]; [done|]. cbn [forallb]. by rewrite Hc, IH. }
  intros Hws Hl. induction Hws as [|w ws H _ IH]; cbn [spaced foldr]; [by apply Hw|].
  rewrite forallb_app, Hw by done. done.
Qed.

Lemma digit_plain c : is_digit c = true -> plain c = true.
Proof. unfold is_digit, plain. intros ->. done. Qed.

Lemma dec_word n : 0 <= n -> word (dec n).
Proof.
  intros Hn. split; [apply dec_nonempty|]. rewrite dec_nonneg by done.
  eapply Forall_impl; [apply dec_digits_digit|]. apply digit_plain.
Qed.

Lemma os_text_word o : word (os_text o).
Proof.
  unfold os_text. split; [by repeat case_match|].
  apply Forall_forall. intros c Hc. repeat case_match;
    match goal with H : c ∈ ?l |- _ => let l' := eval vm_compute in l in change (c ∈ l') in H end;
    repeat (apply elem_of_cons in Hc as [-> | Hc]; [reflexivity|]); by apply elem_of_nil in Hc.
Qed.

(** The script gets the arguments the VM manager meant. *)
Lemma run_command_line c id index :
  0 <= ci_command c -> 0 <= ci_index c -> 0 <= index -> word id ->
  run_system (command_line c id (os_text (ci_os_type c)) index) =
  Some (command_sh (dec (ci_command c)) id (os_text (ci_os_type c)) (dec (ci_index c)) (dec index)).
Proof.
  intros Hc Hi Hx Hid.
  replace (command_line c id (os_text (ci_os_type c)) index)
    with (spaced [bytes "./command.sh"; dec (ci_command c); id; os_text (ci_os_type c); dec (ci_index c)] (dec index)).
  2: { unfold command_line, spaced, sp. cbn [foldr].
       change (bytes "./command.sh ") with (bytes "./command.sh" ++ [32]).
       repeat (rewrite <- app_assoc; cbn [app]). done. }
  assert (Forall word [bytes "./command.sh"; dec (ci_command c); id; os_text (ci_os_type c); dec (ci_index c)]) as Hws.
  { repeat (apply Forall_cons; split); auto using dec_word, os_text_word.
    split; [done|]. apply Forall_forall. intros x Hx'.
    let l' := eval vm_compute in (bytes "./command.sh") in change (x ∈ l') in Hx'.
    repeat (apply elem_of_cons in Hx' as [-> | Hx']; [reflexivity|]). by apply elem_of_nil in Hx'. }
  unfold run_system. rewrite spaced_plain, split_spaced by auto using dec_word.
  cbn [app]. by rewrite bool_decide_true.
Qed.

(** ** The load balancer's lines are the VM manager's requests *)

(** A request of a logged-in user for system [o] and image [idx]. *)
Record wants (r : request) (o idx : Z) (e ip : list Z) : Prop := mk_wants {
  w_email : rq_email r = JStr e;
  w_ip : rq_ip r = JStr ip;
  w_index : rq_index r = JStr (dec idx);
  w_image : getImageIndex (rq_image r) = JNum o
}.

Lemma grant_line r o idx e ip p :
  wants r o idx e ip ->
  grant_effects r p =
  [Connect another_Ip (Ok (start_request (if rq_install r then 3 else 0) o idx e ip
     (if rq_install r then 0 else 1) p p p));
   Respond (rq_id r) (bytes "http://211.189.20.76:3000" ++ bytes " " ++ dec p)].
Proof.
  intros [He Hip Hi Ho]. unfold grant_effects. cbv zeta. rewrite He, Hip, Hi, Ho.
  destruct (rq_install r); unfold getSocketInstall, getSocketStart, start_request;
    cbn [socket_line toString show mbind outcome_bind]; change (bytes " ") with [32];
    repeat (rewrite <- app_assoc; cbn [app]); done.
Qed.

Lemma wants_os r o idx e ip : wants r o idx e ip -> 0 <= o <= 3.
Proof.
  intros [_ _ _ H]. unfold getImageIndex in H. repeat case_bool_decide; simplify_eq; lia.
Qed.

Lemma page_redirect p :
  1 <= p <= 9 ->
  start_success (bytes "http://211.189.20.76:3000" ++ bytes " " ++ dec p) =
  Redirect (bytes "http://211.189.20.76:3000") (JStr (dec p)).
Proof.
  intros Hp. assert (p = 1 \/ p = 2 \/ p = 3 \/ p = 4 \/ p = 5 \/ p = 6 \/ p = 7 \/ p = 8 \/ p = 9)
    as [-> | [-> | [-> | [-> | [-> | [-> | [-> | [-> | ->]]]]]]]] by lia; vm_compute; reflexivity.
Qed.

Lemma word_token w : word w -> token w.
Proof.
  intros [Hne Hp]. split; [done|]. eapply Forall_impl; [exact Hp|]. intros c Hc.
  split; [by intros ->|by apply plain_not_space].
Qed.

Lemma request_short o idx e ip ct p :
  0 <= o <= 3 -> 0 <= idx < 256 -> 1 <= p <= 9 -> 0 <= ct < 10 -> (length e <= 66)%nat -> (length ip <= 100)%nat ->
  forall cmd, 0 <= cmd < 10 -> (length (start_request cmd o idx e ip ct p p p) < 500)%nat.
Proof.
  intros Ho Hi Hp Hct He Hip cmd Hc. unfold start_request. repeat (rewrite length_app || cbn [length]).
  pose proof (dec_length 3 o ltac:(lia) ltac:(simpl; lia)). pose proof (dec_length 3 idx ltac:(lia) ltac:(simpl; lia)).
  pose proof (dec_length 3 p ltac:(lia) ltac:(simpl; lia)). pose proof (dec_length 3 cmd ltac:(lia) ltac:(simpl; lia)).
  pose proof (dec_length 3 ct ltac:(lia) ltac:(simpl; lia)). lia.
Qed.

(** The start script runs one program, the emulator, in the user's directory. *)
Lemma started_emulator {dir} (chdir : dir -> list Z -> option dir) cwd d e o idx :
  0 <= o <= 3 -> chdir cwd (bytes "./" ++ e) = Some d ->
  started chdir cwd (command_sh (dec 0) e (os_text o) (dec idx) (dec 0)) = [(d, emulator o idx)].
Proof.
  intros Ho Hd. assert (o = 0 \/ o = 1 \/ o = 2 \/ o = 3) as [-> | [-> | [-> | ->]]] by lia;
    unfold command_sh; change (atoi (dec 0) =? 0) with true;
    cbn [started]; unfold chdir_ign; rewrite Hd; reflexivity.
Qed.

(** [http://211.189.20.76:<port>/1234]. *)
Definition stream_url (port : Z) : list Z := bytes "http://211.189.20.76:" ++ dec port ++ bytes "/1234".

(** C1: a granted start request brings all parts of the system together.  The
    load balancer sends one line and one answer.  The VM manager takes the line
    apart, writes the session file into the user's directory [d1] and runs the
    script, which starts one program: the emulator, on the user's image and in
    [d1].  [IPC_getClientData] of the emulator (Tizen's own one is not part of
    this program) reads the file back: it streams pictures and sound to, and
    takes input from, the ports on which worker [p] of the web server listens,
    with the secret the worker wants.  The page is sent to the web server with
    port [p], and there connects to the three WebSocket ports of the same
    worker.  Hypotheses: user id and address are single words of at most 66 and
    100 bytes, the image number fits a byte, the user's directory exists and
    the operating system's calls succeed, and the stack byte of the emulator's
    uninitialised array behind the seven bytes of the session file is NUL
    ([session_read_back] covers the other bytes). *)
Theorem session_connects {dir} (chdir : dir -> list Z -> option dir) res g os0 s d1 r o idx e ip p garbage :
  wants r o idx e ip -> rq_install r = false -> 1 <= p <= 3 -> 0 <= idx < 256 ->
  word e -> token ip -> (length e <= 66)%nat -> (length ip <= 100)%nat ->
  buffer_ok (sv_buffer s) -> chdir (sv_cwd s) e = Some d1 -> chdir d1 (bytes "..") = Some (sv_cwd s) ->
  chdir (sv_cwd s) (bytes "./" ++ e) = Some d1 ->
  fopen_ok res = true -> fclose_ok res = true -> 0 < fork_pid res ->
  length garbage = 200%nat -> garbage !! 7%nat = Some 0 ->
  exists line answer file cmd script s',
    grant_effects r p = [Connect another_Ip (Ok line); Respond (rq_id r) answer] /\
    start_server_iter chdir res g os0 (Some line) s =
      Ok (s', [EWriteFile d1 (bytes "client_data.dat") file; ESystem (sv_cwd s) cmd]) /\
    run_system cmd = Some script /\ started chdir (sv_cwd s) script = [(d1, emulator o idx)] /\
    IPC_getClientData garbage file false =
      Ok (mk_session (o =? 0) (stream_url (Worker.AUDIO_STREAM_PORT p)) (stream_url (Worker.IMAGE_STREAM_PORT p))
            (Worker.NET_SOCKET_PORT p) 1280 768) /\
    loose_eq (JStr (Worker.param0 (bytes "/1234"))) (JNum Worker.IMAGE_STREAM_SECRET) = true /\
    start_success answer = Redirect (bytes "http://211.189.20.76:3000") (JStr (dec p)) /\
    Routes.requestPort (JStr (dec p)) = Ok (dec p) /\
    Browser.image_init Browser.target_ip (JStr (dec p)) = Browser.target_ip ++ dec (Worker.IMAGE_WEBSOCKET_PORT p) /\
    Browser.audio_init Browser.target_ip (JStr (dec p)) = Browser.target_ip ++ dec (Worker.AUDIO_WEBSOCKET_PORT p) /\
    Browser.event_init Browser.target_ip (JStr (dec p)) = Browser.target_ip ++ dec (Worker.EVENT_WEBSOCKET_PORT p).
Proof.
  intros Hw Hin Hp Hidx He Hip Hle Hlip Hbuf Hd1 Hd2 Hcd Hfo Hfc Hpid Hgl0 Hg.
  pose proof (wants_os _ _ _ _ _ Hw) as Ho. pose proof (grant_line r o idx e ip p Hw) as Hgl. rewrite Hin in Hgl.
  destruct (start_served chdir res g os0 s d1 0 o idx e ip 1 p p p) as (s' & Hsv & _);
    try (done || lia || by left); [by apply word_token|apply request_short; lia|].
  set (c := mk_client 0 o idx None None 1 p p p).
  destruct (port_texts p) as (Pa & Pi & Pn & Wi & Wa & We); [lia|].
  exists (start_request 0 o idx e ip 1 p p p), (bytes "http://211.189.20.76:3000" ++ bytes " " ++ dec p),
    (client_data c), (command_line c e (os_text o) 0), (command_sh (dec 0) e (os_text o) (dec idx) (dec 0)), s'.
  split; [done|]. split; [exact Hsv|]. split; [apply (run_command_line c e 0); simpl; (done || lia)|].
  split; [by apply started_emulator|].
  split; [|split; [vm_compute; reflexivity|split; [apply page_redirect; lia|]]].
  - assert (length (client_data c) = 7%nat) as Hlen.
    { unfold client_data, sp. cbn [c ci_os_type ci_port_i ci_port_a ci_port_e].
      rewrite !dec_one_digit by lia. done. }
    rewrite session_read_clean; cbn [c ci_os_type ci_port_i ci_port_a ci_port_e];
      try (lia || by rewrite Hlen); [|rewrite !dec_one_digit by lia; simpl; lia].
    unfold stream_url. rewrite <- Pn, <- Pa, <- Pi.
    rewrite <- (app_nil_r (dec p)) at 6. rewrite port_value by (lia || done). do 2 f_equal.
  - unfold Browser.image_init, Browser.audio_init, Browser.event_init. by rewrite Wi, Wa, We.
Qed.

Definition demo_request : request :=
  mk_request 1 false (JStr (bytes "ann@x.kr")) (JStr (bytes "5")) (JStr (bytes "linux")) (JStr (bytes "10.0.0.9")) JUndefined.

Lemma demo_wants : wants demo_request 2 5 (bytes "ann@x.kr") (bytes "10.0.0.9").
Proof. by constructor. Qed.

Lemma session_connects_witness :
  exists line answer file cmd script s',
    grant_effects demo_request 2 = [Connect another_Ip (Ok line); Respond 1 answer] /\
    start_server_iter demo_chdir demo_os demo_client [] (Some line) (server_init O) =
      Ok (s', [EWriteFile 1%nat (bytes "client_data.dat") file; ESystem O cmd]) /\
    run_system cmd = Some script /\
    started demo_chdir O script =
      [(1%nat, Qemu (bytes "cirrus") (bytes "es1370") (bytes "ubuntu_5.img") None)] /\
    IPC_getClientData (replicate 200 0) file false =
      Ok (mk_session false (stream_url (Worker.AUDIO_STREAM_PORT 2)) (stream_url (Worker.IMAGE_STREAM_PORT 2))
            (Worker.NET_SOCKET_PORT 2) 1280 768) /\
    loose_eq (JStr (Worker.param0 (bytes "/1234"))) (JNum Worker.IMAGE_STREAM_SECRET) = true /\
    start_success answer = Redirect (bytes "http://211.189.20.76:3000") (JStr (dec 2)) /\
    Routes.requestPort (JStr (dec 2)) = Ok (dec 2) /\
    Browser.image_init Browser.target_ip (JStr (dec 2)) = Browser.target_ip ++ dec (Worker.IMAGE_WEBSOCKET_PORT 2) /\
    Browser.audio_init Browser.target_ip (JStr (dec 2)) = Browser.target_ip ++ dec (Worker.AUDIO_WEBSOCKET_PORT 2) /\
    Browser.event_init Browser.target_ip (JStr (dec 2)) = Browser.target_ip ++ dec (Worker.EVENT_WEBSOCKET_PORT 2).
Proof.
  apply (session_connects demo_chdir demo_os demo_client [] (server_init O) 1%nat demo_request 2 5
    (bytes "ann@x.kr") (bytes "10.0.0.9") 2 (replicate 200 0)); try reflexivity; try lia; try (vm_compute; lia).
  - apply demo_wants.
  - split; [done|]. repeat (apply Forall_cons; split; [reflexivity|]). by apply Forall_nil.
  - solve_token.
  - apply server_init_buffer_ok.
Defined.

(** ** Where the parts do not fit *)

Lemma create_line v o n e :
  getImageIndex (JStr v) = JNum o ->
  getSocketCreate (JNum 1) (getImageIndex (JStr v)) (JNum n) (JStr e) = Ok (image_request 1 o n e).
Proof.
  intros ->. unfold getSocketCreate, image_request.
  cbn [socket_line toString show mbind outcome_bind]. change (bytes " ") with [32].
  repeat (rewrite <- app_assoc; cbn [app]). done.
Qed.

(** Image numbers wrap at the VM manager.  The load balancer counts images
    without bound and keeps the numbers unique; the VM manager stores the number
    in a byte.  The create requests of one user for images [n] and [n + 256]
    run the same script call: the new disk is created over the old one. *)
Theorem image_number_wraps {dir} (chdir : dir -> list Z -> option dir) res g os0 s v o n e :
  getImageIndex (JStr v) = JNum o -> o <> 0 -> 0 <= n < 2000000000 -> word e -> (length e <= 66)%nat ->
  buffer_ok (sv_buffer s) -> (length (sv_android s) <= 100)%nat -> 0 < fork_pid res ->
  exists l1 l2 s1 s2 cmd,
    getSocketCreate (JNum 1) (getImageIndex (JStr v)) (JNum n) (JStr e) = Ok l1 /\
    getSocketCreate (JNum 1) (getImageIndex (JStr v)) (JNum (n + 256)) (JStr e) = Ok l2 /\
    start_server_iter chdir res g os0 (Some l1) s = Ok (s1, [ESystem (sv_cwd s) cmd]) /\
    start_server_iter chdir res g os0 (Some l2) s = Ok (s2, [ESystem (sv_cwd s) cmd]) /\
    run_system cmd = Some (command_sh (dec 1) e (os_text o) (dec (u8 n)) (dec 0)).
Proof.
  intros Hv Ho Hn He Hl Hb Ha Hp. exists (image_request 1 o n e), (image_request 1 o (n + 256) e).
  assert (0 <= o <= 3) as Hr.
  { clear - Hv. unfold getImageIndex in Hv. repeat case_bool_decide; simplify_eq; lia. }
  assert (forall m, 0 <= m < 2147483648 -> exists s', start_server_iter chdir res g os0 (Some (image_request 1 o m e)) s =
    Ok (s', [ESystem (sv_cwd s) (command_line (mk_client 1 o (u8 m) None None 0 0 0 0) e (os_text o) 0)])) as Hserve.
  { intros m Hm. rewrite serve_image by (done || lia || (by apply word_token) ||
      (unfold image_request; repeat (rewrite length_app || cbn [length]);
       pose proof (dec_length 10 m ltac:(lia) ltac:(simpl; lia)); pose proof (dec_length 3 o ltac:(lia) ltac:(simpl; lia));
       rewrite (dec_one_digit 1) by lia; cbn [length]; lia)).
    unfold select_image. cbn [Z.eqb]. destruct (Z.eqb_spec o 0); [done|].
    destruct (Z.ltb_spec 0 (fork_pid res)); [|lia]. eexists. done. }
  destruct (Hserve n) as [s1 E1]; [lia|]. destruct (Hserve (n + 256)) as [s2 E2]; [lia|].
  assert (u8 (n + 256) = u8 n) as Hw.
  { unfold u8. by rewrite <- (Z.mul_1_l 256) at 1; rewrite Z.mod_add by lia. }
  rewrite Hw in E2. eexists s1, s2, _. split; [by apply create_line|]. split; [by apply create_line|].
  split; [exact E1|]. split; [exact E2|].
  apply (run_command_line (mk_client 1 o (u8 n) None None 0 0 0 0)); simpl; try (done || lia). apply u8_range.
Qed.

Lemma image_number_wraps_witness :
  exists l1 l2 s1 s2 cmd,
    getSocketCreate (JNum 1) (getImageIndex (JStr (bytes "linux"))) (JNum 7) (JStr (bytes "ann")) = Ok l1 /\
    getSocketCreate (JNum 1) (getImageIndex (JStr (bytes "linux"))) (JNum (7 + 256)) (JStr (bytes "ann")) = Ok l2 /\
    start_server_iter demo_chdir demo_os demo_client [] (Some l1) (server_init O) = Ok (s1, [ESystem O cmd]) /\
    start_server_iter demo_chdir demo_os demo_client [] (Some l2) (server_init O) = Ok (s2, [ESystem O cmd]) /\
    run_system cmd = Some (command_sh (dec 1) (bytes "ann") (os_text 2) (dec (u8 7)) (dec 0)).
Proof.
  apply (image_number_wraps demo_chdir demo_os demo_client [] (server_init O) (bytes "linux") 2 7 (bytes "ann"));
    try reflexivity; try lia; try (vm_compute; lia).
  - split; [done|]. repeat (apply Forall_cons; split; [reflexivity|]). by apply Forall_nil.
  - apply server_init_buffer_ok.
Defined.

(** A started and an installing session share a worker.  Ports are handed
    out from two lists, but a port number names the same worker in both.  After
    one user starts a session and another installs a system, both have port 1;
    the emulator that connects last gets the input of both pages, and when one
    page is closed the port of the installing user becomes free while in use. *)
Theorem start_and_install_share_worker sa sb d c :
  let a := demo_user 1 "ann" false in
  let b := demo_user 2 "bob" true in
  exists s, lrun (serve a ++ serve b) lb_start = Ok s /\
    effects s = grant_effects a 1 ++ grant_effects b 1 /\
    (sa <> sb ->
     let cs := (Worker.run (Worker.worker_init 1)
                  [Worker.NetConnect sa; Worker.NetConnect sb; Worker.EventMessage d]).2 in
     Worker.to_emulator sa cs = [] /\ Worker.to_emulator sb cs = [d ++ [10]]) /\
    (Worker.handle (Worker.worker_init 1) (Worker.ImageClose c)).2 =
      [Worker.RedisSet sessionList2 (port_key 1) JNull] /\
    (exists h2, redis s !! sessionList2 = Some h2 /\ holds h2 1 (bytes "bob")) /\
    exists s' h2', lstep (LOther sessionList2 (port_key 1) (show JNull)) s = Ok s' /\
      redis s' !! sessionList2 = Some h2' /\ holds h2' 1 (bytes "null").
Proof.
  cbv zeta. eexists. split; [vm_compute; reflexivity|]. split; [vm_compute; reflexivity|]. split.
  { intros Hne. cbn. apply Nat.eqb_neq in Hne. rewrite Nat.eqb_sym in Hne. by rewrite Hne, Nat.eqb_refl. }
  split; [vm_compute; reflexivity|].
  split; [eexists; split; [vm_compute; reflexivity|vm_compute; reflexivity]|].
  eexists _, _. split; [vm_compute; reflexivity|]. split; vm_compute; reflexivity.
Qed.
