(* ===== verification/FrameBuffer.v ===== *)
(** * The shared frame buffer (ui/sdl.c)

    The display thread mirrors the SDL screen into the memory-mapped file
    [./fb_data.ppm], a binary PPM image that ffmpeg streams to the client.
    [mmap_fb] creates the file and its header, [make_frameData] fills it,
    [Update_frameData] refreshes a rectangle.  In Android mode the picture is
    turned by a quarter. *)

From S2P Require Import Prelude CString.

(** ** Data *)

(** The fields of [SDL_Surface] the code uses; [pixels] are bytes. *)
Record surface := mk_surface { sw : Z; sh : Z; pitch : Z; pixels : list Z }.

(** The globals of the frame buffer.  [fb_data] is NULL or the mapping;
    [fb_size] is the file-scope variable, which the local of the same name in
    [mmap_fb] hides; [unmaps] records the sizes passed to [munmap]. *)
Record frame := mk_frame {
  fb_data : option (list Z);
  header_len : Z;
  fb_size : Z;
  unmaps : list Z
}.

Definition frame_init : frame := mk_frame None 0 0 [].

(** [((unsigned short * ) pixels)[i]] on a little-endian host. *)
Definition tmp16 (s : surface) (i : Z) : outcome Z :=
  lo ← aget_chk (pixels s) (2 * i);
  hi ← aget_chk (pixels s) (2 * i + 1);
  Ok (lo + 256 * hi).

(** The conversion of a 16-bit (5-6-5) pixel. *)
Definition rgb565 (v : Z) : Z * Z * Z :=
  let r := u8 (Z.land (Z.shiftr v 11) 31) in
  let g := u8 (Z.land (Z.shiftr v 5) 63) in
  let b := u8 (Z.land v 31) in
  (u8 (r * 255 / 31), u8 (g * 255 / 63), u8 (b * 255 / 31)).

(** The three stores of one pixel: index [k] of the image behind a header of
    [hl] bytes. *)
Definition put3 (hl k : Z) (c : Z * Z * Z) (fb : list Z) : outcome (list Z) :=
  let '(r, g, b) := c in
  fb ← aset_chk fb (k * 3 + 2 + hl) b;
  fb ← aset_chk fb (k * 3 + 1 + hl) g;
  aset_chk fb (k * 3 + hl) r.

(** ** mmap_fb *)

Definition ppm_header (w_char h_char : list Z) : list Z :=
  bytes "P6" ++ [10] ++ w_char ++ [32] ++ h_char ++ [10] ++ bytes "255" ++ [10].

(** The file is created empty and extended, so the mapping starts as zeros.
    [open] and [mmap] are taken to succeed (the code exits otherwise). *)
Definition mmap_fb (w h : Z) (f : frame) : outcome frame :=
  w_char ← sprintf_to 5 (dec w);
  h_char ← sprintf_to 5 (dec h);
  let hlen := 9 + Z.of_nat (length w_char) + Z.of_nat (length h_char) in
  let size := w * h * 3 + hlen in
  let header := ppm_header w_char h_char in
  if negb (hlen =? Z.of_nat (length header)) then Crash   (* exit(1) *)
  else Ok (mk_frame (Some (header ++ replicate (Z.to_nat size - length header) 0))
             hlen (fb_size f) (unmaps f)).

(** ** make_frameData *)

(** The loop of the Android branch. *)
Definition fill_android (s : surface) (w h hl : Z) (fb : list Z) : outcome (list Z) :=
  for_up (Z.to_nat (w * h)) 0 (fun i fb =>
    let x1 := i mod h in
    let y1 := i / h in
    let x2 := (w - 1) - y1 in
    let y2 := x1 in
    let i2 := w * y2 + x2 in
    v ← tmp16 s i;
    if 0 <? i2 then put3 hl i2 (rgb565 v) fb else Ok fb) fb.

(** The byte loop for 32-bit screens; the state is [fb] and the counter [j]. *)
Definition fill32_step (s : surface) (hl i : Z) (st : list Z * Z) : outcome (list Z * Z) :=
  let '(fb, j) := st in
  if i mod 4 =? 0 then
    b ← aget_chk (pixels s) i; fb ← aset_chk fb (j * 3 + 2 + hl) b; Ok (fb, j)
  else if i mod 4 =? 1 then
    b ← aget_chk (pixels s) i; fb ← aset_chk fb (j * 3 + 1 + hl) b; Ok (fb, j)
  else if i mod 4 =? 2 then
    b ← aget_chk (pixels s) i; fb ← aset_chk fb (j * 3 + hl) b; Ok (fb, j + 1)
  else Ok (fb, j).

Definition fill32 (s : surface) (w h hl : Z) (fb : list Z) : outcome (list Z) :=
  '(fb, _) ← for_up (Z.to_nat (w * h * 4)) 0 (fill32_step s hl) (fb, 0); Ok fb.

Definition fill16 (s : surface) (w h hl : Z) (fb : list Z) : outcome (list Z) :=
  for_up (Z.to_nat (w * h)) 0 (fun i fb => v ← tmp16 s i; put3 hl i (rgb565 v) fb) fb.

(** Run [k] on the mapping; a NULL mapping has no index that can be stored to. *)
Definition with_fb (f : frame) (k : list Z -> outcome (list Z)) : outcome frame :=
  match fb_data f with
  | None => _ ← k []; Ok f
  | Some fb => fb' ← k fb; Ok (mk_frame (Some fb') (header_len f) (fb_size f) (unmaps f))
  end.

Definition make_frameData (g_androidMode : bool) (s : surface) (w h : Z) (f : frame)
    : outcome frame :=
  if w =? 0 then Crash                      (* real_screen->pitch / w *)
  else
    let f := match fb_data f with
             | Some _ => mk_frame None (header_len f) (fb_size f) (unmaps f ++ [fb_size f])
             | None => f
             end in
    f ← mmap_fb w h f;
    if g_androidMode then with_fb f (fill_android s w h (header_len f))
    else if pitch s / w =? 4 then with_fb f (fill32 s w h (header_len f))
    else if pitch s / w =? 2 then with_fb f (fill16 s w h (header_len f))
    else Ok f.

(** ** Update_frameData *)

Definition get_pixel_index (w x y : Z) : Z := w * y + x.

(** [for (y = recy; y < recy + rech; y++) for (x = recx; x < recx + recw; x++)]. *)
Definition for_rect {T} (recx recy recw rech : Z) (body : Z -> Z -> T -> outcome T) (t : T)
    : outcome T :=
  for_up (Z.to_nat rech) recy (fun y t =>
    for_up (Z.to_nat recw) recx (fun x t => body x y t) t) t.

Definition update_android (s : surface) (recx recy recw rech hl : Z) : list Z -> outcome (list Z) :=
  for_rect recx recy recw rech (fun x y fb =>
    let i := y * sw s + x in
    let x2 := (sh s - 1) - y in
    let y2 := x in
    let i2 := rech * y2 + x2 in
    v ← tmp16 s i; put3 hl i2 (rgb565 v) fb).

Definition update32 (s : surface) (recx recy recw rech hl : Z) : list Z -> outcome (list Z) :=
  for_rect recx recy recw rech (fun x y fb =>
    let pixel_index := get_pixel_index recw x y in
    b0 ← aget_chk (pixels s) (pixel_index * 4);
    b1 ← aget_chk (pixels s) (pixel_index * 4 + 1);
    b2 ← aget_chk (pixels s) (pixel_index * 4 + 2);
    put3 hl pixel_index (b2, b1, b0) fb).

Definition update16 (s : surface) (recx recy recw rech hl : Z) : list Z -> outcome (list Z) :=
  for_rect recx recy recw rech (fun x y fb =>
    let pixel_index := get_pixel_index recw x y in
    v ← tmp16 s pixel_index; put3 hl pixel_index (rgb565 v) fb).

Definition Update_frameData (g_androidMode : bool) (s : surface) (recx recy recw rech : Z)
    (f : frame) : outcome frame :=
  if sw s =? 0 then Crash                   (* real_screen->pitch / real_screen->w *)
  else if g_androidMode then with_fb f (update_android s recx recy recw rech (header_len f))
  else if recw =? 0 then Crash              (* real_screen->pitch / recw *)
  else if pitch s / recw =? 4 then with_fb f (update32 s recx recy recw rech (header_len f))
  else if pitch s / recw =? 2 then with_fb f (update16 s recx recy recw rech (header_len f))
  else Ok f.

(** ** Pixels of a mapping *)

Definition get_pixel (hl : Z) (fb : list Z) (k : Z) : Z * Z * Z :=
  (aget fb (k * 3 + hl), aget fb (k * 3 + 1 + hl), aget fb (k * 3 + 2 + hl)).

Lemma aget_chk_ok l i : 0 <= i < Z.of_nat (length l) -> aget_chk l i = Ok (aget l i).
Proof.
  intros Hi. unfold aget_chk.
  destruct (Z.leb_spec 0 i), (Z.ltb_spec i (Z.of_nat (length l))); try lia. done.
Qed.

Lemma aset_chk_ok l i v : 0 <= i < Z.of_nat (length l) -> aset_chk l i v = Ok (aset l i v).
Proof.
  intros Hi. unfold aset_chk.
  destruct (Z.leb_spec 0 i), (Z.ltb_spec i (Z.of_nat (length l))); try lia. done.
Qed.

(** [fb'] differs from [fb] only in its pixels: same size, same header. *)
Definition same_shape (hl : Z) (fb fb' : list Z) : Prop :=
  length fb' = length fb /\ forall j, 0 <= j < hl -> aget fb' j = aget fb j.

#[export] Instance same_shape_preorder hl : PreOrder (same_shape hl).
Proof.
  split.
  - intros fb. by split.
  - intros a b c [H1 H2] [H3 H4]. split; [congruence|]. intros j Hj. rewrite H4, H2 by lia. done.
Qed.

Lemma put3_spec hl k c fb :
  0 <= hl -> 0 <= k -> k * 3 + 2 + hl < Z.of_nat (length fb) ->
  exists fb', put3 hl k c fb = Ok fb' /\ same_shape hl fb fb' /\
    get_pixel hl fb' k = c /\
    (forall k', 0 <= k' -> k' <> k -> get_pixel hl fb' k' = get_pixel hl fb k').
Proof.
  intros Hhl Hk Hlen. destruct c as [[r g] b]. unfold put3.
  rewrite aset_chk_ok by lia. cbn [mbind outcome_bind].
  rewrite aset_chk_ok by (rewrite length_aset; lia). cbn [mbind outcome_bind].
  rewrite aset_chk_ok by (rewrite !length_aset; lia).
  eexists. split; [reflexivity|]. split; [|split].
  - split; [by rewrite !length_aset|]. intros j Hj. by rewrite !aget_aset_ne by lia.
  - unfold get_pixel. f_equal; [f_equal|].
    + by rewrite aget_aset_eq by (rewrite !length_aset; lia).
    + rewrite aget_aset_ne by lia. by rewrite aget_aset_eq by (rewrite length_aset; lia).
    + rewrite !aget_aset_ne by lia. by rewrite aget_aset_eq by lia.
  - intros k' Hk' Hne. unfold get_pixel. by rewrite !aget_aset_ne by lia.
Qed.

(** A loop of pixel stores at pairwise different places inside the image. *)
Lemma pixel_loop hl N n i0 (body : Z -> list Z -> outcome (list Z)) (g : Z -> Z)
    (v : Z -> Z * Z * Z) (c : Z -> bool) fb :
  0 <= hl -> Z.of_nat (length fb) = hl + 3 * N ->
  (forall i fb, i0 <= i < i0 + Z.of_nat n -> length fb = Z.to_nat (hl + 3 * N) ->
     body i fb = if c i then put3 hl (g i) (v i) fb else Ok fb) ->
  (forall i, i0 <= i < i0 + Z.of_nat n -> c i = true -> 0 <= g i < N) ->
  (forall i j, i0 <= i < i0 + Z.of_nat n -> i0 <= j < i0 + Z.of_nat n -> g i = g j -> i = j) ->
  exists fb', for_up n i0 body fb = Ok fb' /\ same_shape hl fb fb' /\
    (forall i, i0 <= i < i0 + Z.of_nat n -> c i = true -> get_pixel hl fb' (g i) = v i) /\
    (forall k, 0 <= k -> (forall i, i0 <= i < i0 + Z.of_nat n -> c i = true -> k <> g i) ->
       get_pixel hl fb' k = get_pixel hl fb k).
Proof.
  intros Hhl Hlen Hbody Hrange Hinj.
  destruct (for_up_inv (fun i fb' => same_shape hl fb fb' /\
    (forall j, i0 <= j < i -> c j = true -> get_pixel hl fb' (g j) = v j) /\
    (forall k, 0 <= k -> (forall j, i0 <= j < i -> c j = true -> k <> g j) ->
       get_pixel hl fb' k = get_pixel hl fb k)) n i0 body fb)
    as (fb' & Hfb' & Hshape & Hin & Hout).
  - split; [done|]. split; [lia|]. done.
  - intros i fb1 Hi (Hshape & Hin & Hout).
    pose proof (proj1 Hshape) as Hlen1. rewrite Hbody by lia.
    destruct (c i) eqn:Eci.
    + pose proof (Hrange i Hi Eci) as Hgi.
      destruct (put3_spec hl (g i) (v i) fb1) as (fb2 & -> & Hs & Hg & Ho); [lia..|].
      exists fb2. split; [done|]. split; [by etrans|]. split.
      * intros j Hj Hcj. destruct (decide (j = i)) as [->|Hji]; [done|].
        pose proof (Hrange j ltac:(lia) Hcj).
        rewrite Ho; [apply Hin; [lia|done] | lia | ]. intros E. apply Hinj in E; lia.
      * intros k Hk Hne. rewrite Ho; [|done|apply Hne; [lia|done]].
        apply Hout; [done|]. intros j Hj. apply Hne. lia.
    + exists fb1. split; [done|]. split; [done|]. split.
      * intros j Hj Hcj. destruct (decide (j = i)) as [->|Hji]; [congruence|].
        apply Hin; [lia|done].
      * intros k Hk Hne. apply Hout; [done|]. intros j Hj. apply Hne. lia.
  - exists fb'. split; [done|]. split; [done|]. split; [|done].
    intros i Hi. apply Hin. lia.
Qed.

(** ** mmap_fb *)

Lemma ppm_header_length wc hc :
  Z.of_nat (length (ppm_header wc hc)) = 9 + Z.of_nat (length wc) + Z.of_nat (length hc).
Proof. unfold ppm_header. rewrite !length_app. simpl. lia. Qed.

(** The length of the header for a picture of this size. *)
Definition hlen_of (w h : Z) : Z := 9 + Z.of_nat (length (dec w)) + Z.of_nat (length (dec h)).

Lemma sprintf5 n : 0 <= n < 10000 -> sprintf_to 5 (dec n) = Ok (dec n).
Proof.
  intros Hn. unfold sprintf_to. pose proof (dec_length 4 n ltac:(lia) ltac:(simpl; lia)).
  destruct (Z.leb_spec (Z.of_nat (length (dec n)) + 1) 5); [done|lia].
Qed.

Lemma mmap_fb_ok w h f :
  0 <= w < 10000 -> 0 <= h < 10000 ->
  mmap_fb w h f =
  Ok (mk_frame (Some (ppm_header (dec w) (dec h) ++ replicate (Z.to_nat (3 * (w * h))) 0))
        (hlen_of w h) (fb_size f) (unmaps f)).
Proof.
  intros Hw Hh. unfold mmap_fb. rewrite !sprintf5 by lia. cbn [mbind outcome_bind].
  rewrite ppm_header_length, Z.eqb_refl. cbn [negb]. unfold hlen_of. do 5 f_equal.
  pose proof (ppm_header_length (dec w) (dec h)). nia.
Qed.

(** ** Filling the image *)

Definition color32 (s : surface) (k : Z) : Z * Z * Z :=
  (aget (pixels s) (k * 4 + 2), aget (pixels s) (k * 4 + 1), aget (pixels s) (k * 4)).
Definition color16 (s : surface) (k : Z) : Z * Z * Z :=
  rgb565 (aget (pixels s) (2 * k) + 256 * aget (pixels s) (2 * k + 1)).

Lemma tmp16_ok s k :
  0 <= k -> 2 * k + 1 < Z.of_nat (length (pixels s)) ->
  tmp16 s k = Ok (aget (pixels s) (2 * k) + 256 * aget (pixels s) (2 * k + 1)).
Proof. intros Hk Hl. unfold tmp16. by rewrite !aget_chk_ok by lia. Qed.

(** All pixels of [fb'] are the colours [v]; same header as [fb]. *)
Definition painted (hl N : Z) (v : Z -> Z * Z * Z) (fb fb' : list Z) : Prop :=
  same_shape hl fb fb' /\ forall k, 0 <= k < N -> get_pixel hl fb' k = v k.

Lemma fill16_spec s w h hl fb :
  0 <= w -> 0 <= h -> 0 <= hl -> Z.of_nat (length fb) = hl + 3 * (w * h) ->
  2 * (w * h) <= Z.of_nat (length (pixels s)) ->
  exists fb', fill16 s w h hl fb = Ok fb' /\ painted hl (w * h) (color16 s) fb fb'.
Proof.
  intros Hw Hh Hhl Hlen Hpx. assert (0 <= w * h) by nia.
  destruct (pixel_loop hl (w * h) (Z.to_nat (w * h)) 0
    (fun i fb => v ← tmp16 s i; put3 hl i (rgb565 v) fb) id (color16 s) (fun _ => true) fb)
    as (fb' & Hfb' & Hs & Hin & _); try done.
  - intros i fb1 Hi _. rewrite tmp16_ok by lia. done.
  - intros i Hi _. unfold id. lia.
  - exists fb'. split; [done|]. split; [done|]. intros k Hk. apply Hin; [lia|done].
Qed.

Lemma div_mod_eq w a b r s :
  0 <= r < w -> 0 <= s < w -> w * a + r = w * b + s -> a = b /\ r = s.
Proof. intros. assert (a = b) by nia. subst. lia. Qed.

(** Where the Android loop puts screen pixel [i]. *)
Definition turned (w h i : Z) : Z := w * (i mod h) + (w - 1 - i / h).

Lemma turned_range w h i : 0 <= i < w * h -> 0 < h -> 0 <= turned w h i < w * h.
Proof.
  intros Hi Hh. unfold turned.
  pose proof (Z.mod_pos_bound i h Hh). pose proof (Z.div_mod i h ltac:(lia)).
  assert (0 <= i / h < w) by nia. nia.
Qed.

Lemma turned_inj w h i j :
  0 <= i < w * h -> 0 <= j < w * h -> 0 < h -> turned w h i = turned w h j -> i = j.
Proof.
  intros Hi Hj Hh E. unfold turned in E.
  pose proof (Z.div_mod i h ltac:(lia)). pose proof (Z.div_mod j h ltac:(lia)).
  pose proof (Z.mod_pos_bound i h Hh). pose proof (Z.mod_pos_bound j h Hh).
  assert (0 <= i / h < w) by nia. assert (0 <= j / h < w) by nia.
  apply div_mod_eq in E; [|lia..]. lia.
Qed.

Lemma fill_android_spec s w h hl fb :
  0 <= w -> 0 < h -> 0 <= hl -> Z.of_nat (length fb) = hl + 3 * (w * h) ->
  2 * (w * h) <= Z.of_nat (length (pixels s)) ->
  exists fb', fill_android s w h hl fb = Ok fb' /\ same_shape hl fb fb' /\
    (forall i, 0 <= i < w * h -> 0 < turned w h i ->
       get_pixel hl fb' (turned w h i) = color16 s i) /\
    get_pixel hl fb' 0 = get_pixel hl fb 0.
Proof.
  intros Hw Hh Hhl Hlen Hpx. assert (0 <= w * h) by nia.
  destruct (pixel_loop hl (w * h) (Z.to_nat (w * h)) 0 (fun i fb =>
    v ← tmp16 s i; if 0 <? turned w h i then put3 hl (turned w h i) (rgb565 v) fb else Ok fb)
    (turned w h) (color16 s) (fun i => 0 <? turned w h i) fb)
    as (fb' & Hfb' & Hs & Hin & Hout); try done.
  - intros i fb1 Hi _. rewrite tmp16_ok by lia. done.
  - intros i Hi _. apply turned_range; lia.
  - intros i j Hi Hj. apply turned_inj; lia.
  - exists fb'. split; [exact Hfb'|]. split; [done|]. split.
    + intros i Hi Ht. apply Hin; [lia|]. by apply Z.ltb_lt.
    + apply Hout; [done|]. intros i Hi Ht%Z.ltb_lt. lia.
Qed.

(** Four turns of the byte loop store one pixel and advance [j]. *)
Lemma fill32_group s hl k fb :
  0 <= k -> 4 * k + 3 < Z.of_nat (length (pixels s)) ->
  for_up 4 (4 * k) (fill32_step s hl) (fb, k) =
  (fb' ← put3 hl k (color32 s k) fb; Ok (fb', k + 1)).
Proof.
  intros Hk Hpx. cbn [for_up]. unfold fill32_step, color32, put3.
  replace ((4 * k) mod 4) with 0 by (rewrite Z.mul_comm, Z.mod_mul; lia).
  replace ((4 * k + 1) mod 4) with 1
    by (rewrite Z.add_comm, Z.mul_comm, Z.mod_add, Z.mod_small; lia).
  replace ((4 * k + 1 + 1) mod 4) with 2
    by (replace (4 * k + 1 + 1) with (2 + k * 4) by lia; rewrite Z.mod_add, Z.mod_small; lia).
  replace ((4 * k + 1 + 1 + 1) mod 4) with 3
    by (replace (4 * k + 1 + 1 + 1) with (3 + k * 4) by lia; rewrite Z.mod_add, Z.mod_small; lia).
  rewrite !aget_chk_ok by lia. simpl (_ =? _). cbn [mbind outcome_bind].
  rewrite (Z.mul_comm k 4). replace (4 * k + 1 + 1) with (4 * k + 2) by lia.
  destruct (aset_chk fb _ _) as [fb1|]; cbn [mbind outcome_bind]; [|done].
  destruct (aset_chk fb1 _ _) as [fb2|]; cbn [mbind outcome_bind]; [|done].
  by destruct (aset_chk fb2 _ _).
Qed.

Lemma fill32_loop s hl n k fb :
  0 <= k -> 4 * (k + Z.of_nat n) <= Z.of_nat (length (pixels s)) ->
  for_up (4 * n) (4 * k) (fill32_step s hl) (fb, k) =
  (fb' ← for_up n k (fun i fb => put3 hl i (color32 s i) fb) fb; Ok (fb', k + Z.of_nat n)).
Proof.
  revert k fb. induction n as [|n IH]; intros k fb Hk Hpx.
  { simpl. by rewrite Z.add_0_r. }
  replace (4 * S n)%nat with (4 + 4 * n)%nat by lia.
  rewrite for_up_app, fill32_group by lia.
  cbn [for_up]. destruct (put3 hl k (color32 s k) fb) as [fb1|]; cbn [mbind outcome_bind]; [|done].
  change (Z.of_nat 4) with 4. replace (4 * k + 4) with (4 * (k + 1)) by lia.
  rewrite IH by lia. by replace (k + 1 + Z.of_nat n) with (k + Z.of_nat (S n)) by lia.
Qed.

Lemma fill32_spec s w h hl fb :
  0 <= w -> 0 <= h -> 0 <= hl -> Z.of_nat (length fb) = hl + 3 * (w * h) ->
  4 * (w * h) <= Z.of_nat (length (pixels s)) ->
  exists fb', fill32 s w h hl fb = Ok fb' /\ painted hl (w * h) (color32 s) fb fb'.
Proof.
  intros Hw Hh Hhl Hlen Hpx. assert (0 <= w * h) by nia.
  destruct (pixel_loop hl (w * h) (Z.to_nat (w * h)) 0
    (fun i fb => put3 hl i (color32 s i) fb) id (color32 s) (fun _ => true) fb)
    as (fb' & Hfb' & Hs & Hin & _); try done.
  - intros i Hi _. unfold id. lia.
  - exists fb'. split.
    + unfold fill32. replace (Z.to_nat (w * h * 4)) with (4 * Z.to_nat (w * h))%nat by lia.
      change 0 with (4 * 0) at 1. rewrite fill32_loop by lia. rewrite Hfb'. done.
    + split; [done|]. intros k Hk. apply Hin; [lia|done].
Qed.

(** ** Properties *)

Lemma same_shape_take hl fb fb' :
  0 <= hl <= Z.of_nat (length fb) -> same_shape hl fb fb' ->
  take (Z.to_nat hl) fb' = take (Z.to_nat hl) fb.
Proof.
  intros Hhl [Hlen Hget]. apply aget_ext; [rewrite !length_take; lia|].
  intros i Hi. rewrite length_take in Hi. unfold aget. rewrite !lookup_take_lt by lia.
  apply Hget. lia.
Qed.

(** [fb] is the mapping of [f] and a well-formed PPM image of [w] by [h]
    pixels: header, then three bytes per pixel. *)
Definition is_image (w h : Z) (f : frame) (fb : list Z) : Prop :=
  fb_data f = Some fb /\ header_len f = hlen_of w h /\
  Z.of_nat (length fb) = hlen_of w h + 3 * (w * h) /\
  take (Z.to_nat (hlen_of w h)) fb = ppm_header (dec w) (dec h).

Lemma is_image_shape w h f fb fb' sz um :
  0 <= w -> 0 <= h -> is_image w h f fb -> same_shape (hlen_of w h) fb fb' ->
  is_image w h (mk_frame (Some fb') (header_len f) sz um) fb'.
Proof.
  intros Hw Hh (H1 & H2 & H3 & H4) Hs. pose proof (proj1 Hs) as Hl.
  split; [done|]. split; [done|]. split; [lia|].
  rewrite (same_shape_take _ fb) by (done || (unfold hlen_of in *; nia)). done.
Qed.

Lemma mmap_fb_image w h f :
  0 <= w < 10000 -> 0 <= h < 10000 ->
  exists fb f', mmap_fb w h f = Ok f' /\ is_image w h f' fb /\
    (forall k, 0 <= k < w * h -> get_pixel (hlen_of w h) fb k = (0, 0, 0)).
Proof.
  intros Hw Hh. rewrite mmap_fb_ok by lia. do 2 eexists. split; [reflexivity|].
  pose proof (ppm_header_length (dec w) (dec h)) as Hl. change (9 + _ + _) with (hlen_of w h) in Hl.
  split; [split; [done|split; [done|split]]|].
  - rewrite length_app, length_replicate. nia.
  - rewrite <- Hl, Nat2Z.id. by rewrite take_app_length.
  - intros k Hk. unfold get_pixel, aget.
    assert (forall j, hlen_of w h <= j -> default 0
      ((ppm_header (dec w) (dec h) ++ replicate (Z.to_nat (3 * (w * h))) 0) !! Z.to_nat j) = 0) as H0.
    { intros j Hj. rewrite lookup_app_r by lia.
      destruct (replicate _ 0 !! _) eqn:E; [|done]. by apply lookup_replicate in E as [-> _]. }
    by rewrite !H0 by lia.
Qed.

(** The frame file is a well-formed PPM image of the screen's size, black
    at first, for all sizes below ten thousand; from ten thousand on the
    decimal width or height overflows its five-byte array. *)
Theorem mmap_fb_image_or_overflow w h f :
  0 <= w < 2147483648 -> 0 <= h < 2147483648 ->
  (w < 10000 /\ h < 10000 ->
     exists fb f', mmap_fb w h f = Ok f' /\ is_image w h f' fb /\
       (forall k, 0 <= k < w * h -> get_pixel (hlen_of w h) fb k = (0, 0, 0))) /\
  (10000 <= w \/ 10000 <= h -> mmap_fb w h f = Crash).
Proof.
  intros Hw Hh. split; [intros [??]; apply mmap_fb_image; lia|].
  assert (forall n, 10000 <= n < 2147483648 -> sprintf_to 5 (dec n) = Crash) as Hbig.
  { intros n Hn. unfold sprintf_to. pose proof (dec_length_lower 4 n ltac:(lia) ltac:(simpl; lia)).
    destruct (Z.leb_spec (Z.of_nat (length (dec n)) + 1) 5); [lia|done]. }
  unfold mmap_fb. destruct (decide (10000 <= w)) as [Hbw|Hbw].
  { intros _. by rewrite (Hbig w) by lia. }
  intros [?|Hbh]; [lia|]. rewrite (sprintf5 w), (Hbig h) by lia. done.
Qed.

Lemma mmap_fb_image_or_overflow_witness :
  (640 < 10000 /\ 480 < 10000 ->
     exists fb f', mmap_fb 640 480 frame_init = Ok f' /\ is_image 640 480 f' fb /\
       (forall k, 0 <= k < 640 * 480 -> get_pixel (hlen_of 640 480) fb k = (0, 0, 0))) /\
  (10000 <= 640 \/ 10000 <= 480 -> mmap_fb 640 480 frame_init = Crash).
Proof. apply (mmap_fb_image_or_overflow 640 480 frame_init); lia. Defined.

(** The colours of a screen with [bpp] bytes per pixel. *)
Definition color_of (bpp : Z) (s : surface) (k : Z) : Z * Z * Z :=
  if bpp =? 4 then color32 s k else color16 s k.

Lemma frame_copy s w h f bpp :
  0 < w < 10000 -> 0 <= h < 10000 -> bpp = 2 \/ bpp = 4 ->
  pitch s = bpp * w -> Z.of_nat (length (pixels s)) = bpp * (w * h) ->
  exists fb f', make_frameData false s w h f = Ok f' /\ is_image w h f' fb /\
    forall k, 0 <= k < w * h -> get_pixel (hlen_of w h) fb k = color_of bpp s k.
Proof.
  intros Hw Hh Hb Hp Hl. unfold make_frameData. destruct (Z.eqb_spec w 0); [lia|].
  set (f0 := match fb_data f with Some _ => _ | None => f end). clearbody f0.
  destruct (mmap_fb_image w h f0) as (fb & f1 & -> & Himg & _); [lia..|]. cbn [mbind outcome_bind].
  pose proof Himg as (Hd & Hhl & Hlen & _).
  replace (pitch s / w) with bpp by (rewrite Hp, Z.div_mul by lia; done).
  assert (0 <= hlen_of w h) by (unfold hlen_of; lia).
  assert (exists fb', painted (hlen_of w h) (w * h) (color_of bpp s) fb fb' /\
    (if bpp =? 4 then fill32 s w h (hlen_of w h) fb else fill16 s w h (hlen_of w h) fb) = Ok fb')
    as (fb' & [Hs Hpx] & Hfill).
  { destruct Hb as [-> | ->]; cbn [Z.eqb Pos.eqb].
    - destruct (fill16_spec s w h (hlen_of w h) fb) as (fb' & ? & ?); [lia..|]. eauto.
    - destruct (fill32_spec s w h (hlen_of w h) fb) as (fb' & ? & ?); [lia..|]. eauto. }
  exists fb'. eexists. split.
  - destruct Hb as [-> | ->]; cbn [Z.eqb Pos.eqb] in *; unfold with_fb;
      rewrite Hd, Hhl, Hfill; reflexivity.
  - rewrite <- Hhl at 1. split; [by eapply is_image_shape; eauto; lia|].
    done.
Qed.

(** C16: in desktop mode ([g_androidMode] false) [make_frameData] copies the screen.  For a screen of
    [w] by [h] pixels with two or four bytes per pixel, whatever was mapped
    before, the result is a well-formed image whose pixel [(x, y)] is the
    screen's pixel [(x, y)] converted to red, green, blue; no access leaves the
    screen or the mapping. *)
Theorem make_frameData_copies_screen s w h f bpp :
  0 < w < 10000 -> 0 <= h < 10000 -> bpp = 2 \/ bpp = 4 ->
  pitch s = bpp * w -> Z.of_nat (length (pixels s)) = bpp * (w * h) ->
  exists fb f', make_frameData false s w h f = Ok f' /\ is_image w h f' fb /\
    forall x y, 0 <= x < w -> 0 <= y < h ->
      get_pixel (hlen_of w h) fb (w * y + x) = color_of bpp s (w * y + x).
Proof.
  intros Hw Hh Hb Hp Hl. destruct (frame_copy s w h f bpp) as (fb & f' & ? & ? & Hpx); [done..|].
  exists fb, f'. split; [done|]. split; [done|]. intros x y Hx Hy. apply Hpx. nia.
Qed.

(** A desktop screen of two by two pixels, five-six-five. *)
Definition demo_screen : surface := mk_surface 2 2 4 [0; 248; 224; 7; 31; 0; 255; 255].

Lemma make_frameData_copies_screen_witness :
  exists fb f', make_frameData false demo_screen 2 2 frame_init = Ok f' /\ is_image 2 2 f' fb /\
    forall x y, 0 <= x < 2 -> 0 <= y < 2 ->
      get_pixel (hlen_of 2 2) fb (2 * y + x) = color_of 2 demo_screen (2 * y + x).
Proof.
  apply (make_frameData_copies_screen demo_screen 2 2 frame_init 2); try (simpl; lia); done.
Defined.

(** In Android mode [make_frameData], called with the height of the screen
    as width and its width as height, turns the picture by a quarter: screen
    pixel [(x, y)] goes to image pixel [(sh - 1 - y, x)].  The image pixel with
    index 0 is never written (the test is [i2 > 0]) and stays black, whatever
    the screen shows there. *)
Theorem make_frameData_turns_android s f :
  0 < sw s < 10000 -> 0 < sh s < 10000 -> Z.of_nat (length (pixels s)) = 2 * (sw s * sh s) ->
  exists fb f', make_frameData true s (sh s) (sw s) f = Ok f' /\ is_image (sh s) (sw s) f' fb /\
    get_pixel (hlen_of (sh s) (sw s)) fb 0 = (0, 0, 0) /\
    forall x y, 0 <= x < sw s -> 0 <= y < sh s -> (x, y) <> (0, sh s - 1) ->
      get_pixel (hlen_of (sh s) (sw s)) fb (sh s * x + (sh s - 1 - y)) = color16 s (sw s * y + x).
Proof.
  intros Hw Hh Hl. unfold make_frameData. destruct (Z.eqb_spec (sh s) 0); [lia|].
  set (f0 := match fb_data f with Some _ => _ | None => f end). clearbody f0.
  destruct (mmap_fb_image (sh s) (sw s) f0) as (fb & f1 & -> & Himg & Hblack); [lia..|].
  cbn [mbind outcome_bind]. pose proof Himg as (Hd & Hhl & Hlen & _).
  set (hl := hlen_of (sh s) (sw s)) in *. assert (0 <= hl) by (unfold hl, hlen_of; lia).
  destruct (fill_android_spec s (sh s) (sw s) hl fb) as (fb' & Hfill & Hs & Hin & H0); [lia..|].
  exists fb'. eexists. split; [unfold with_fb; rewrite Hd, Hhl, Hfill; reflexivity|].
  rewrite <- Hhl at 1. split; [by eapply is_image_shape; eauto; lia|].
  split; [rewrite H0; apply Hblack; nia|]. intros x y Hx Hy Hxy.
  assert (turned (sh s) (sw s) (sw s * y + x) = sh s * x + (sh s - 1 - y)) as Ht.
  { unfold turned. replace (sw s * y + x) with (x + y * sw s) by lia.
    rewrite Z.mod_add, Z.div_add, Z.mod_small, Z.div_small by lia. lia. }
  rewrite <- Ht. apply Hin; [nia|]. rewrite Ht.
  destruct (decide (x = 0)) as [->|]; [|nia].
  assert (y <> sh s - 1) by congruence. lia.
Qed.

Lemma make_frameData_turns_android_witness :
  exists fb f', make_frameData true demo_screen 2 2 frame_init = Ok f' /\ is_image 2 2 f' fb /\
    get_pixel (hlen_of 2 2) fb 0 = (0, 0, 0) /\
    forall x y, 0 <= x < 2 -> 0 <= y < 2 -> (x, y) <> (0, 2 - 1) ->
      get_pixel (hlen_of 2 2) fb (2 * x + (2 - 1 - y)) = color16 demo_screen (2 * y + x).
Proof. apply (make_frameData_turns_android demo_screen frame_init); simpl; lia. Defined.

(** *** Updates *)

Lemma for_up_shift {T} n i d (g : Z -> T -> outcome T) t :
  for_up n i (fun x => g (d + x)) t = for_up n (d + i) g t.
Proof.
  revert i t. induction n as [|n IH]; intros i t; simpl; [done|].
  destruct (g (d + i) t) as [t1|]; [|done]. cbn [mbind outcome_bind].
  rewrite IH. by rewrite Z.add_assoc.
Qed.

(** A band of full rows is a range of pixel indices. *)
Lemma for_rect_band {T} w y0 n (g : Z -> T -> outcome T) t :
  0 <= w -> 0 <= n ->
  for_rect 0 y0 w n (fun x y => g (get_pixel_index w x y)) t
  = for_up (Z.to_nat (w * n)) (w * y0) g t.
Proof.
  intros Hw Hn. unfold for_rect, get_pixel_index. rewrite <- (Z2Nat.id n) at 2 by lia.
  generalize (Z.to_nat n). clear n Hn. intros n. revert y0 t.
  induction n as [|n IH]; intros y0 t.
  { by rewrite Z.mul_0_r. }
  cbn [for_up]. rewrite (for_up_shift _ 0 (w * y0) g), Z.add_0_r.
  replace (Z.to_nat (w * Z.of_nat (S n))) with (Z.to_nat w + Z.to_nat (w * Z.of_nat n))%nat by nia.
  rewrite for_up_app. destruct (for_up (Z.to_nat w) (w * y0) g t) as [t1|]; [|done].
  cbn [mbind outcome_bind]. rewrite IH. by replace (w * (y0 + 1)) with (w * y0 + Z.of_nat (Z.to_nat w)) by lia.
Qed.

(** The pixel store of both update loops. *)
Lemma update_body bpp s w h recy rech hl fb (body : Z -> list Z -> outcome (list Z)) :
  0 <= w -> 0 <= recy -> 0 <= rech -> recy + rech <= h -> 0 <= hl ->
  Z.of_nat (length fb) = hl + 3 * (w * h) ->
  (forall i fb, 0 <= i < w * h -> body i fb = put3 hl i (color_of bpp s i) fb) ->
  exists fb', for_up (Z.to_nat (w * rech)) (w * recy) body fb = Ok fb' /\ same_shape hl fb fb' /\
    forall k, 0 <= k < w * h -> get_pixel hl fb' k =
      if decide (w * recy <= k < w * (recy + rech)) then color_of bpp s k else get_pixel hl fb k.
Proof.
  intros Hw Hy Hr Hyr Hhl Hlen Hbody.
  destruct (pixel_loop hl (w * h) (Z.to_nat (w * rech)) (w * recy) body id (color_of bpp s)
    (fun _ => true) fb) as (fb' & Hfb' & Hs & Hin & Hout); try done.
  - intros i fb1 Hi _. apply Hbody. nia.
  - intros i Hi _. unfold id. nia.
  - exists fb'. split; [done|]. split; [done|]. intros k Hk. case_decide.
    + apply Hin; [nia|done].
    + apply Hout; [lia|]. unfold id. intros i Hi _. nia.
Qed.

Lemma Update_frameData_band s w h f fb bpp recy rech :
  0 < w -> 0 <= recy -> 0 <= rech -> recy + rech <= h -> bpp = 2 \/ bpp = 4 ->
  sw s = w -> pitch s = bpp * w -> Z.of_nat (length (pixels s)) = bpp * (w * h) ->
  is_image w h f fb ->
  exists fb' f', Update_frameData false s 0 recy w rech f = Ok f' /\ is_image w h f' fb' /\
    forall k, 0 <= k < w * h -> get_pixel (hlen_of w h) fb' k =
      if decide (w * recy <= k < w * (recy + rech)) then color_of bpp s k
      else get_pixel (hlen_of w h) fb k.
Proof.
  intros Hw Hy Hr Hyr Hb Hsw Hp Hl Himg. pose proof Himg as (Hd & Hhl & Hlen & _).
  unfold Update_frameData. destruct (Z.eqb_spec (sw s) 0), (Z.eqb_spec w 0); try lia.
  replace (pitch s / w) with bpp by (rewrite Hp, Z.div_mul by lia; done).
  set (hl := hlen_of w h) in *. assert (0 <= hl) by (unfold hl, hlen_of; lia).
  assert (exists fb', (if bpp =? 4 then update32 s 0 recy w rech hl fb
                       else update16 s 0 recy w rech hl fb) = Ok fb' /\ same_shape hl fb fb' /\
    forall k, 0 <= k < w * h -> get_pixel hl fb' k =
      if decide (w * recy <= k < w * (recy + rech)) then color_of bpp s k else get_pixel hl fb k)
    as (fb' & Hfill & Hs & Hpx).
  { destruct Hb as [-> | ->]; cbn [Z.eqb Pos.eqb]; unfold update16, update32.
    - rewrite (for_rect_band w recy rech (fun i fb => v ← tmp16 s i; put3 hl i (rgb565 v) fb)) by lia.
      apply (update_body 2 s w h); [lia..|]. intros i fb1 Hi. by rewrite tmp16_ok by lia.
    - rewrite (for_rect_band w recy rech (fun i fb => b0 ← aget_chk (pixels s) (i * 4);
        b1 ← aget_chk (pixels s) (i * 4 + 1); b2 ← aget_chk (pixels s) (i * 4 + 2);
        put3 hl i (b2, b1, b0) fb)) by lia.
      apply (update_body 4 s w h); [lia..|]. intros i fb1 Hi. by rewrite !aget_chk_ok by lia. }
  exists fb'. eexists. split.
  - destruct Hb as [-> | ->]; cbn [Z.eqb Pos.eqb] in *; unfold with_fb;
      rewrite Hd, Hhl, Hfill; reflexivity.
  - rewrite <- Hhl at 1. split; [|done]. eapply is_image_shape; eauto; lia.
Qed.

(** An image is determined by its header and its pixels. *)
Lemma image_ext w h f1 f2 fb1 fb2 :
  0 <= w -> 0 <= h -> is_image w h f1 fb1 -> is_image w h f2 fb2 ->
  (forall k, 0 <= k < w * h -> get_pixel (hlen_of w h) fb1 k = get_pixel (hlen_of w h) fb2 k) ->
  fb1 = fb2.
Proof.
  intros Hw Hh (_ & _ & Hl1 & Ht1) (_ & _ & Hl2 & Ht2) Hpx.
  assert (0 <= hlen_of w h) by (unfold hlen_of; lia). set (hl := hlen_of w h) in *.
  apply aget_ext; [lia|]. intros i Hi. destruct (decide (i < hl)) as [Hlt|Hge].
  - unfold aget. rewrite <- (lookup_take_lt fb1 (Z.to_nat hl)), <- (lookup_take_lt fb2 (Z.to_nat hl)) by lia.
    by rewrite Ht1, Ht2.
  - pose proof (Z.div_mod (i - hl) 3 ltac:(lia)) as Hdm.
    pose proof (Z.mod_pos_bound (i - hl) 3 ltac:(lia)).
    specialize (Hpx ((i - hl) / 3)). unfold get_pixel in Hpx.
    assert (0 <= (i - hl) / 3 < w * h) as Hk by nia. injection (Hpx Hk) as P0 P1 P2.
    assert (i = (i - hl) / 3 * 3 + hl \/ i = (i - hl) / 3 * 3 + 1 + hl
            \/ i = (i - hl) / 3 * 3 + 2 + hl) as [E|[E|E]] by lia; by rewrite E at 1 2.
Qed.

(** C22: in desktop mode ([g_androidMode] false), on full-width bands of a screen
    with two or four bytes per pixel and sides below 10000, [Update_frameData] is
    equivalent to a new full copy.  If the file holds a copy of screen [s0] and [s]
    differs from [s0] only in rows [recy .. recy + rech - 1], then updating those
    rows gives byte for byte the file that [make_frameData] builds from [s]. *)
Theorem Update_frameData_band_equiv s0 s w h f f0 bpp recy rech :
  0 < w < 10000 -> 0 <= h < 10000 -> bpp = 2 \/ bpp = 4 ->
  0 <= recy -> 0 <= rech -> recy + rech <= h -> sw s = w ->
  pitch s0 = bpp * w -> Z.of_nat (length (pixels s0)) = bpp * (w * h) ->
  pitch s = bpp * w -> Z.of_nat (length (pixels s)) = bpp * (w * h) ->
  (forall j, ~ (bpp * w * recy <= j < bpp * w * (recy + rech)) ->
     aget (pixels s) j = aget (pixels s0) j) ->
  make_frameData false s0 w h f = Ok f0 ->
  exists fb f1 f2, Update_frameData false s 0 recy w rech f0 = Ok f1 /\
    make_frameData false s w h f = Ok f2 /\ fb_data f1 = Some fb /\ fb_data f2 = Some fb.
Proof.
  intros Hw Hh Hb Hy Hr Hyr Hsw Hp0 Hl0 Hp Hl Heq Hmake.
  destruct (frame_copy s0 w h f bpp) as (fb0 & f0' & Hm0 & Himg0 & Hpx0); [done..|].
  rewrite Hmake in Hm0. injection Hm0 as <-.
  destruct (frame_copy s w h f bpp) as (fb2 & f2 & Hm2 & Himg2 & Hpx2); [done..|].
  destruct (Update_frameData_band s w h f0 fb0 bpp recy rech) as (fb1 & f1 & Hu & Himg1 & Hpx1);
    [lia..|done|].
  assert (fb1 = fb2) as ->.
  { eapply (image_ext w h); [lia|lia|done|done|]. intros k Hk. rewrite Hpx1, Hpx2 by done.
    case_decide; [done|]. rewrite Hpx0 by done. unfold color_of, color32, color16.
    destruct Hb as [-> | ->]; cbn [Z.eqb Pos.eqb]; rewrite !Heq by nia; done. }
  exists fb2, f1, f2. split; [done|]. split; [done|]. split; [apply Himg1|apply Himg2].
Qed.

Lemma Update_frameData_band_equiv_witness :
  exists fb f1 f2,
    Update_frameData false (mk_surface 2 2 4 [0; 248; 224; 7; 1; 2; 3; 4]) 0 1 2 1
      (mk_frame (Some (ppm_header (dec 2) (dec 2) ++ [255; 0; 0; 0; 255; 0; 0; 0; 255; 255; 255; 255]))
         11 0 []) = Ok f1 /\
    make_frameData false (mk_surface 2 2 4 [0; 248; 224; 7; 1; 2; 3; 4]) 2 2 frame_init = Ok f2 /\
    fb_data f1 = Some fb /\ fb_data f2 = Some fb.
Proof.
  apply (Update_frameData_band_equiv demo_screen _ 2 2 frame_init _ 2 1 1);
    try (simpl; lia); try (vm_compute; reflexivity).
  intros j Hj. unfold aget, demo_screen; simpl.
  destruct (Z.to_nat j) as [|[|[|[|[|[|[|[|n]]]]]]]] eqn:E; try done; lia.
Defined.

(** Rectangles much narrower than the screen are never copied.  The
    pixel size is computed as [pitch / recw] with the width of the rectangle,
    so on a 32-bit screen an update of at most four fifths of the width matches
    neither pixel size: the file keeps the old picture. *)
Theorem narrow_update_dropped s recx recy recw rech f :
  0 < sw s -> 0 < recw -> 5 * recw <= pitch s ->
  Update_frameData false s recx recy recw rech f = Ok f.
Proof.
  intros Hs Hr Hp. unfold Update_frameData.
  assert (5 <= pitch s / recw) by (apply Z.div_le_lower_bound; lia).
  zdecide; try lia. done.
Qed.

Lemma narrow_update_dropped_witness :
  Update_frameData false (mk_surface 4 1 16 (replicate 16 7)) 0 0 2 1 frame_init = Ok frame_init.
Proof. apply (narrow_update_dropped _ 0 0 2 1 frame_init); simpl; lia. Defined.
