(* ===== verification/InputCore.v ===== *)
(** * The input core (ui/input.c, ui/input-keymap.c, ui/input-legacy.c)

    The display front ends and the network thread hand key, button and motion
    events to this layer, which keeps the list of registered input devices,
    picks the device for an event, and delays key events that follow a
    [send-key] with a hold time.  The devices themselves are a parameter: an
    instance of [InputDevices], as PS2.v gives one. *)

From S2P Require Import Prelude.

(** ** Events (qapi types) *)

(** Key numbers are PC scancodes with [0x80] marking the grey keys; qcodes are
    the positions in the enumeration QKeyCode. *)
Inductive KeyValue := KEY_NUMBER (number : Z) | KEY_QCODE (qcode : Z).
Inductive InputAxis := INPUT_AXIS_X | INPUT_AXIS_Y.
Inductive InputButton :=
  INPUT_BUTTON_LEFT | INPUT_BUTTON_MIDDLE | INPUT_BUTTON_RIGHT
| INPUT_BUTTON_WHEEL_UP | INPUT_BUTTON_WHEEL_DOWN.

Inductive InputEvent :=
| EvKey (key : KeyValue) (down : bool)
| EvBtn (button : InputButton) (down : bool)
| EvRel (axis : InputAxis) (value : Z)
| EvAbs (axis : InputAxis) (value : Z).

#[export] Instance KeyValue_eq_dec : EqDecision KeyValue.
Proof. solve_decision. Defined.
#[export] Instance InputAxis_eq_dec : EqDecision InputAxis.
Proof. solve_decision. Defined.
#[export] Instance InputButton_eq_dec : EqDecision InputButton.
Proof. solve_decision. Defined.
#[export] Instance InputEvent_eq_dec : EqDecision InputEvent.
Proof. solve_decision. Defined.

(** [evt->kind]. *)
Definition event_kind (e : InputEvent) : Z :=
  match e with EvKey _ _ => 0 | EvBtn _ _ => 1 | EvRel _ _ => 2 | EvAbs _ _ => 3 end.

Definition INPUT_EVENT_MASK_KEY : Z := 1.
Definition INPUT_EVENT_MASK_BTN : Z := 2.
Definition INPUT_EVENT_MASK_REL : Z := 4.
Definition INPUT_EVENT_MASK_ABS : Z := 8.
Definition INPUT_EVENT_ABS_SIZE : Z := 32768.

(** ** Key codes (ui/input-keymap.c) *)

(** Positions in QKeyCode used below. *)
Definition Q_KEY_CODE_PAUSE : Z := 122.
Definition Q_KEY_CODE_MAX : Z := 125.

(** Designated initialisers: codes without an entry are 0. *)
Definition qcode_to_number : list Z :=
  [0; 42; 54; 56; 184; 100; 228; 29; 157; 221; 1; 2;
   3; 4; 5; 6; 7; 8; 9; 10; 11; 12; 13; 14;
   15; 16; 17; 18; 19; 20; 21; 22; 23; 24; 25; 26;
   27; 28; 30; 31; 32; 33; 34; 35; 36; 37; 38; 39;
   40; 41; 43; 44; 45; 46; 47; 48; 49; 50; 51; 52;
   53; 55; 57; 58; 59; 60; 61; 62; 63; 64; 65; 66;
   67; 68; 69; 70; 181; 55; 74; 78; 156; 83; 84; 82;
   79; 80; 81; 75; 76; 77; 71; 72; 73; 86; 87; 88;
   183; 199; 201; 209; 207; 203; 200; 208; 205; 210; 211; 0;
   0; 0; 0; 0; 0; 0; 0; 0; 0; 0; 0; 219;
   220; 0; 0; 115; 126; 0].

Definition qemu_input_key_value_to_number (value : KeyValue) : Z :=
  match value with
  | KEY_QCODE q => aget qcode_to_number q
  | KEY_NUMBER n => n
  end.

(** The table built on the first call: for each qcode in order,
    [number_to_qcode[qcode_to_number[qcode]] = qcode]. *)
Definition number_to_qcode : list Z :=
  fold_left (fun tab qcode => aset tab (aget qcode_to_number (Z.of_nat qcode)) (Z.of_nat qcode))
    (seq 0 (Z.to_nat Q_KEY_CODE_MAX)) (replicate 256 0).

Definition qemu_input_key_number_to_qcode (nr : Z) : Z := aget number_to_qcode (u8 nr).

Definition qemu_input_key_value_to_qcode (value : KeyValue) : Z :=
  match value with
  | KEY_QCODE q => q
  | KEY_NUMBER n => qemu_input_key_number_to_qcode n
  end.

Definition SCANCODE_GREY : Z := 128.
Definition SCANCODE_EMUL0 : Z := 224.
Definition SCANCODE_UP : Z := 128.

(** The scancodes of a key event; the length of the list is the result. *)
Definition qemu_input_key_value_to_scancode (value : KeyValue) (down : bool) : list Z :=
  let keycode := qemu_input_key_value_to_number value in
  if match value with KEY_QCODE q => q =? Q_KEY_CODE_PAUSE | KEY_NUMBER _ => false end then
    let v := if down then 0 else 128 in
    [225; Z.lor 29 v; Z.lor 69 v]
  else
    let '(prefix, keycode) :=
      if nz (Z.land keycode SCANCODE_GREY)
      then ([SCANCODE_EMUL0], Z.land keycode (Z.lnot SCANCODE_GREY)) else ([], keycode) in
    let keycode := if down then keycode else Z.lor keycode SCANCODE_UP in
    prefix ++ [keycode].

(** ** Handlers (ui/input.c) *)

(** What the core needs of the devices: their joint state, and the [event] and
    [sync] callbacks of each.  [sync] is [None] for a handler without one. *)
Class InputDevices (D : Type) := {
  dev_event : Z -> InputEvent -> D -> D;
  dev_sync : Z -> option (D -> D)
}.

Record QemuInputHandlerState := mk_handler {
  h_dev : Z;             (* the device, for the callbacks *)
  h_mask : Z;            (* handler->mask *)
  h_id : Z;
  h_events : Z;
  h_con : option Z       (* bound console *)
}.

Inductive QemuInputEventQueue :=
| QUEUE_DELAY (delay_ms : Z)
| QUEUE_EVENT (src : option Z) (evt : InputEvent)
| QUEUE_SYNC.

(** The file-scope variables, the devices, the runstate and [graphic_rotate].
    [kbd_timer] is the deadline of the armed timer; [notified] counts the calls
    of the mouse mode notifiers. *)
Record icore (D : Type) := mk_icore {
  handlers : list QemuInputHandlerState;
  next_id : Z;
  kbd_queue : list QemuInputEventQueue;
  kbd_timer : option Z;
  current_is_absolute : bool;
  notified : nat;
  running : bool;
  graphic_rotate : Z;
  devs : D
}.
Arguments mk_icore {D}.
Arguments handlers {D}. Arguments next_id {D}. Arguments kbd_queue {D}. Arguments kbd_timer {D}.
Arguments current_is_absolute {D}. Arguments notified {D}. Arguments running {D}.
Arguments graphic_rotate {D}. Arguments devs {D}.

Definition kbd_default_delay_ms : Z := 10.

Section Setters.
Context {D : Type}.
Definition set_handlers (l : list QemuInputHandlerState) (s : icore D) : icore D :=
  mk_icore l (next_id s) (kbd_queue s) (kbd_timer s) (current_is_absolute s) (notified s)
    (running s) (graphic_rotate s) (devs s).
Definition set_queue (q : list QemuInputEventQueue) (s : icore D) : icore D :=
  mk_icore (handlers s) (next_id s) q (kbd_timer s) (current_is_absolute s) (notified s)
    (running s) (graphic_rotate s) (devs s).
Definition set_timer (t : option Z) (s : icore D) : icore D :=
  mk_icore (handlers s) (next_id s) (kbd_queue s) t (current_is_absolute s) (notified s)
    (running s) (graphic_rotate s) (devs s).
Definition set_devs (d : D) (s : icore D) : icore D :=
  mk_icore (handlers s) (next_id s) (kbd_queue s) (kbd_timer s) (current_is_absolute s)
    (notified s) (running s) (graphic_rotate s) d.
End Setters.

Section Core.
Context {D : Type} `{InputDevices D}.

(** The position of the first element that satisfies [p]. *)
Fixpoint first_index {A} (p : A -> bool) (l : list A) : option nat :=
  match l with
  | [] => None
  | x :: l => if p x then Some O else S <$> first_index p l
  end.

Definition bound_to (con h_con : option Z) : bool :=
  match h_con, con with Some c, Some c' => c =? c' | _, _ => false end.

(** First a handler bound to the console, then one bound to none. *)
Definition qemu_input_find_handler (mask : Z) (con : option Z) (s : icore D) : option nat :=
  match first_index (fun h => bound_to con (h_con h) && nz (Z.land mask (h_mask h))) (handlers s) with
  | Some i => Some i
  | None => first_index (fun h => bool_decide (h_con h = None) && nz (Z.land mask (h_mask h)))
              (handlers s)
  end.

Definition qemu_input_is_absolute (s : icore D) : bool :=
  match qemu_input_find_handler (Z.lor INPUT_EVENT_MASK_REL INPUT_EVENT_MASK_ABS) None s with
  | None => false
  | Some i => match handlers s !! i with
              | Some h => nz (Z.land (h_mask h) INPUT_EVENT_MASK_ABS)
              | None => false
              end
  end.

Definition qemu_input_check_mode_change (s : icore D) : icore D :=
  let is_absolute := qemu_input_is_absolute s in
  let n := if Bool.eqb is_absolute (current_is_absolute s) then notified s else S (notified s) in
  mk_icore (handlers s) (next_id s) (kbd_queue s) (kbd_timer s) is_absolute n
    (running s) (graphic_rotate s) (devs s).

Definition qemu_input_handler_register (dev mask : Z) (s : icore D) : icore D :=
  let h := mk_handler dev mask (next_id s) 0 None in
  qemu_input_check_mode_change
    (mk_icore (handlers s ++ [h]) (next_id s + 1) (kbd_queue s) (kbd_timer s)
       (current_is_absolute s) (notified s) (running s) (graphic_rotate s) (devs s)).

(** [QTAILQ_REMOVE] then insertion at the head, at the tail, or nothing; the
    handler is given by its id. *)
Definition remove_handler (id : Z) (l : list QemuInputHandlerState) : list QemuInputHandlerState :=
  filter (fun h => h_id h <> id) l.
Definition the_handler (id : Z) (l : list QemuInputHandlerState) : list QemuInputHandlerState :=
  filter (fun h => h_id h = id) l.

Definition qemu_input_handler_activate (id : Z) (s : icore D) : icore D :=
  qemu_input_check_mode_change
    (set_handlers (the_handler id (handlers s) ++ remove_handler id (handlers s)) s).
Definition qemu_input_handler_deactivate (id : Z) (s : icore D) : icore D :=
  qemu_input_check_mode_change
    (set_handlers (remove_handler id (handlers s) ++ the_handler id (handlers s)) s).
Definition qemu_input_handler_unregister (id : Z) (s : icore D) : icore D :=
  qemu_input_check_mode_change (set_handlers (remove_handler id (handlers s)) s).

(** ** Events *)

Definition qemu_input_transform_abs_rotate (rotate : Z) (evt : InputEvent) : InputEvent :=
  let mirror v := INPUT_EVENT_ABS_SIZE - 1 - v in
  match evt with
  | EvAbs axis v =>
      if rotate =? 90 then
        match axis with
        | INPUT_AXIS_X => EvAbs INPUT_AXIS_Y v
        | INPUT_AXIS_Y => EvAbs INPUT_AXIS_X (mirror v)
        end
      else if rotate =? 180 then EvAbs axis (mirror v)
      else if rotate =? 270 then
        match axis with
        | INPUT_AXIS_X => EvAbs INPUT_AXIS_Y (mirror v)
        | INPUT_AXIS_Y => EvAbs INPUT_AXIS_X v
        end
      else evt
  | _ => evt
  end.

Definition bump (h : QemuInputHandlerState) : QemuInputHandlerState :=
  mk_handler (h_dev h) (h_mask h) (h_id h) (h_events h + 1) (h_con h).
Definition clear_events (h : QemuInputHandlerState) : QemuInputHandlerState :=
  mk_handler (h_dev h) (h_mask h) (h_id h) 0 (h_con h).

Definition qemu_input_event_send (src : option Z) (evt : InputEvent) (s : icore D) : icore D :=
  if negb (running s) then s
  else
    let evt := if nz (graphic_rotate s) then qemu_input_transform_abs_rotate (graphic_rotate s) evt
               else evt in
    match qemu_input_find_handler (Z.shiftl 1 (event_kind evt)) src s with
    | None => s
    | Some i =>
        match handlers s !! i with
        | None => s
        | Some h =>
            set_handlers (<[i := bump h]> (handlers s)) (set_devs (dev_event (h_dev h) evt (devs s)) s)
        end
    end.

(** The sync loop over the handlers with events. *)
Definition sync_one (h : QemuInputHandlerState) (d : D) : D :=
  if h_events h =? 0 then d
  else match dev_sync (h_dev h) with Some f => f d | None => d end.

Definition qemu_input_event_sync (s : icore D) : icore D :=
  if negb (running s) then s
  else set_handlers (clear_events <$> handlers s)
         (set_devs (fold_left (fun d h => sync_one h d) (handlers s) (devs s)) s).

(** ** The keyboard queue *)

Definition qemu_input_queue_delay (now delay_ms : Z) (s : icore D) : icore D :=
  let start_timer := bool_decide (kbd_queue s = []) in
  let s := set_queue (kbd_queue s ++ [QUEUE_DELAY delay_ms]) s in
  if start_timer then set_timer (Some (now + delay_ms)) s else s.

Definition qemu_input_queue_event (src : option Z) (evt : InputEvent) (s : icore D) : icore D :=
  set_queue (kbd_queue s ++ [QUEUE_EVENT src evt]) s.
Definition qemu_input_queue_sync (s : icore D) : icore D :=
  set_queue (kbd_queue s ++ [QUEUE_SYNC]) s.

(** The loop of [qemu_input_queue_process]: deliver up to the next delay. *)
Fixpoint queue_loop (now : Z) (q : list QemuInputEventQueue) (s : icore D) : icore D :=
  match q with
  | [] => set_queue [] s
  | QUEUE_DELAY ms :: _ => set_timer (Some (now + ms)) (set_queue q s)
  | QUEUE_EVENT src evt :: q' => queue_loop now q' (qemu_input_event_send src evt s)
  | QUEUE_SYNC :: q' => queue_loop now q' (qemu_input_event_sync s)
  end.

(** The timer callback; the two [g_assert]s are [Crash]. *)
Definition qemu_input_queue_process (now : Z) (s : icore D) : outcome (icore D) :=
  match kbd_queue s with
  | QUEUE_DELAY _ :: q => Ok (queue_loop now q (set_timer None s))
  | _ => Crash
  end.

Definition qemu_input_event_send_key (src : option Z) (key : KeyValue) (down : bool)
    (s : icore D) : icore D :=
  let evt := EvKey key down in
  match kbd_queue s with
  | [] => qemu_input_event_sync (qemu_input_event_send src evt s)
  | _ => qemu_input_queue_sync (qemu_input_queue_event src evt s)
  end.

Definition qemu_input_event_send_key_number (src : option Z) (num : Z) (down : bool) : icore D -> icore D :=
  qemu_input_event_send_key src (KEY_NUMBER num) down.
Definition qemu_input_event_send_key_qcode (src : option Z) (q : Z) (down : bool) : icore D -> icore D :=
  qemu_input_event_send_key src (KEY_QCODE q) down.

Definition qemu_input_event_send_key_delay (now delay_ms : Z) (s : icore D) : icore D :=
  qemu_input_queue_delay now (if nz delay_ms then delay_ms else kbd_default_delay_ms) s.

(** ** Buttons and motion *)

Definition all_buttons : list InputButton :=
  [INPUT_BUTTON_LEFT; INPUT_BUTTON_MIDDLE; INPUT_BUTTON_RIGHT;
   INPUT_BUTTON_WHEEL_UP; INPUT_BUTTON_WHEEL_DOWN].

Definition qemu_input_queue_btn (src : option Z) (btn : InputButton) (down : bool) : icore D -> icore D :=
  qemu_input_event_send src (EvBtn btn down).

Definition qemu_input_update_buttons (src : option Z) (button_map : InputButton -> Z)
    (button_old button_new : Z) (s : icore D) : icore D :=
  fold_left (fun s btn =>
    let mask := button_map btn in
    if Z.land button_old mask =? Z.land button_new mask then s
    else qemu_input_queue_btn src btn (nz (Z.land button_new mask)) s) all_buttons s.

(** C division truncates towards zero. *)
Definition qemu_input_scale_axis (value size_in size_out : Z) : Z :=
  if size_in <? 2 then Z.quot size_out 2
  else s32 (Z.quot (value * (size_out - 1)) (size_in - 1)).

Definition qemu_input_queue_rel (src : option Z) (axis : InputAxis) (value : Z) : icore D -> icore D :=
  qemu_input_event_send src (EvRel axis value).
Definition qemu_input_queue_abs (src : option Z) (axis : InputAxis) (value size : Z) : icore D -> icore D :=
  qemu_input_event_send src
    (EvAbs axis (qemu_input_scale_axis value size INPUT_EVENT_ABS_SIZE)).

(** ** Monitor commands *)

(** [send-key]: press all keys, a delay after each, then release them in
    reverse order. *)
Definition qmp_send_key (now : Z) (keys : list KeyValue) (hold_time : option Z) (s : icore D) : icore D :=
  let hold := default 0 hold_time in
  let press down s key :=
    qemu_input_event_send_key_delay now hold (qemu_input_event_send_key None key down s) in
  fold_left (press false) (rev keys) (fold_left (press true) keys s).

Inductive input_error := ConsoleNotFound | VMNotRunning | HandlerNotFound (kind : Z).

(** [x-input-send-event]; [lookup] is [qemu_console_lookup_by_index]. *)
Definition qmp_x_input_send_event (lookup : Z -> option Z) (console : option Z)
    (events : list InputEvent) (s : icore D) : icore D + input_error :=
  match (match console with
         | None => Some None
         | Some i => match lookup i with Some c => Some (Some c) | None => None end
         end) with
  | None => inr ConsoleNotFound
  | Some con =>
      if negb (running s) then inr VMNotRunning
      else match first_index (fun e =>
             bool_decide (qemu_input_find_handler (Z.shiftl 1 (event_kind e)) con s = None)) events with
           | Some i => inr (HandlerNotFound (default 0 (event_kind <$> events !! i)))
           | None => inl (qemu_input_event_sync
                       (fold_left (fun s e => qemu_input_event_send con e s) events s))
           end
  end.

(** [query-mice]: id, absolute, current, in the order of the reply. *)
Definition is_mouse (h : QemuInputHandlerState) : bool :=
  nz (Z.land (h_mask h) (Z.lor INPUT_EVENT_MASK_REL INPUT_EVENT_MASK_ABS)).

Definition qmp_query_mice (s : icore D) : list (Z * bool * bool) :=
  let '(mice, _) := fold_left (fun '(l, current) h =>
    if is_mouse h
    then ((h_id h, nz (Z.land (h_mask h) INPUT_EVENT_MASK_ABS), current) :: l, false)
    else (l, current)) (handlers s) ([], true) in mice.

Inductive mouse_set_result := MouseSet | NotAMouse | MouseNotFound.

Definition hmp_mouse_set (index : Z) (s : icore D) : icore D * mouse_set_result :=
  match the_handler index (handlers s) with
  | [] => (qemu_input_check_mode_change s, MouseNotFound)
  | h :: _ =>
      if negb (is_mouse h) then (s, NotAMouse)
      else (qemu_input_check_mode_change (qemu_input_handler_activate index s), MouseSet)
  end.

End Core.

(** ** Legacy handlers (ui/input-legacy.c) *)

(** [put_kbd] is called once per scancode. *)
Definition legacy_kbd_event {W} (put_kbd : option (Z -> W -> W)) (evt : InputEvent) (w : W) : W :=
  match put_kbd, evt with
  | Some put, EvKey key down => fold_left (fun w c => put c w) (qemu_input_key_value_to_scancode key down) w
  | _, _ => w
  end.

Definition MOUSE_EVENT_LBUTTON : Z := 1.
Definition MOUSE_EVENT_RBUTTON : Z := 2.
Definition MOUSE_EVENT_MBUTTON : Z := 4.

(** The static [bmap] of the legacy and of the PS/2 mouse. *)
Definition mouse_bmap (b : InputButton) : Z :=
  match b with
  | INPUT_BUTTON_LEFT => MOUSE_EVENT_LBUTTON
  | INPUT_BUTTON_MIDDLE => MOUSE_EVENT_MBUTTON
  | INPUT_BUTTON_RIGHT => MOUSE_EVENT_RBUTTON
  | _ => 0
  end.

(** A legacy mouse; [puts] records the calls of [qemu_put_mouse_event] as
    (x, y, z, buttons). *)
Record QEMUPutMouseEntry := mk_legacy_mouse {
  lm_absolute : bool;
  lm_axis_x : Z; lm_axis_y : Z;
  lm_buttons : Z;
  puts : list (Z * Z * Z * Z)
}.

Definition put_mouse (dz : Z) (s : QEMUPutMouseEntry) : QEMUPutMouseEntry :=
  mk_legacy_mouse (lm_absolute s) (lm_axis_x s) (lm_axis_y s) (lm_buttons s)
    (puts s ++ [(lm_axis_x s, lm_axis_y s, dz, lm_buttons s)]).

Definition legacy_mouse_event (evt : InputEvent) (s : QEMUPutMouseEntry) : QEMUPutMouseEntry :=
  match evt with
  | EvBtn b down =>
      let buttons := if down then Z.lor (lm_buttons s) (mouse_bmap b)
                     else Z.land (lm_buttons s) (Z.lnot (mouse_bmap b)) in
      let s := mk_legacy_mouse (lm_absolute s) (lm_axis_x s) (lm_axis_y s) buttons (puts s) in
      let s := if down && bool_decide (b = INPUT_BUTTON_WHEEL_UP) then put_mouse (-1) s else s in
      if down && bool_decide (b = INPUT_BUTTON_WHEEL_DOWN) then put_mouse 1 s else s
  | EvAbs INPUT_AXIS_X v => mk_legacy_mouse (lm_absolute s) v (lm_axis_y s) (lm_buttons s) (puts s)
  | EvAbs INPUT_AXIS_Y v => mk_legacy_mouse (lm_absolute s) (lm_axis_x s) v (lm_buttons s) (puts s)
  | EvRel INPUT_AXIS_X v =>
      mk_legacy_mouse (lm_absolute s) (lm_axis_x s + v) (lm_axis_y s) (lm_buttons s) (puts s)
  | EvRel INPUT_AXIS_Y v =>
      mk_legacy_mouse (lm_absolute s) (lm_axis_x s) (lm_axis_y s + v) (lm_buttons s) (puts s)
  | EvKey _ _ => s
  end.

Definition legacy_mouse_sync (s : QEMUPutMouseEntry) : QEMUPutMouseEntry :=
  let s := put_mouse 0 s in
  if lm_absolute s then s
  else mk_legacy_mouse (lm_absolute s) 0 0 (lm_buttons s) (puts s).

(** ** The keyboard queue is a delayed FIFO *)

Section Queue.
Context {D : Type} `{InputDevices D}.
Implicit Types s : icore D.

(** A key event as submitted: source console, key, pressed or released. *)
Definition submission : Type := option Z * KeyValue * bool.

Definition deliver s (k : submission) : icore D :=
  let '(src, key, down) := k in qemu_input_event_sync (qemu_input_event_send src (EvKey key down) s).

(** Calls of the keyboard interface and expiries of the timer. *)
Inductive kop := KSend (k : submission) | KDelay (now ms : Z) | KFire (now : Z).

Definition kexec (s : icore D) (op : kop) : outcome (icore D) :=
  match op with
  | KSend (src, key, down) => Ok (qemu_input_event_send_key src key down s)
  | KDelay now ms => Ok (qemu_input_event_send_key_delay now ms s)
  | KFire now => match kbd_timer s with None => Ok s | Some _ => qemu_input_queue_process now s end
  end.

Fixpoint krun (ops : list kop) s : outcome (icore D) :=
  match ops with
  | [] => Ok s
  | op :: ops => s' ← kexec s op; krun ops s'
  end.

Definition submitted (ops : list kop) : list submission :=
  omap (fun op => match op with KSend k => Some k | _ => None end) ops.

(** The state without its keyboard queue. *)
Definition forget s : icore D := set_queue [] (set_timer None s).

(** The queue as a list of delays and key events. *)
Definition enc (i : Z + submission) : list QemuInputEventQueue :=
  match i with
  | inl ms => [QUEUE_DELAY ms]
  | inr (src, key, down) => [QUEUE_EVENT src (EvKey key down); QUEUE_SYNC]
  end.
Definition enc_all (l : list (Z + submission)) : list QemuInputEventQueue := mjoin (enc <$> l).
Definition events_of (l : list (Z + submission)) : list submission :=
  omap (fun i => match i with inr k => Some k | inl _ => None end) l.
Definition delays_of (l : list (Z + submission)) : nat :=
  length (omap (fun i => match i with inl ms => Some ms | inr _ => None end) l).

(** The queue is empty and the timer off, or its head is the delay the timer
    waits for. *)
Definition queue_ok s (l : list (Z + submission)) : Prop :=
  kbd_queue s = enc_all l /\
  match l with
  | [] => kbd_timer s = None
  | inl _ :: _ => is_Some (kbd_timer s)
  | inr _ :: _ => False
  end.

Lemma forget_send src e s :
  forget (qemu_input_event_send src e s) = qemu_input_event_send src e (forget s).
Proof.
  destruct s as [hs id q t a n r g d]. unfold qemu_input_event_send. simpl.
  destruct r; simpl; [|done].
  unfold qemu_input_find_handler; simpl. cases; done.
Qed.

Lemma forget_sync s : forget (qemu_input_event_sync s) = qemu_input_event_sync (forget s).
Proof. destruct s. unfold qemu_input_event_sync. simpl. by destruct running0. Qed.

Lemma forget_deliver s k : forget (deliver s k) = deliver (forget s) k.
Proof. destruct k as [[src key] down]. simpl. by rewrite forget_sync, forget_send. Qed.

Lemma queue_send src e s : kbd_queue (qemu_input_event_send src e s) = kbd_queue s /\
  kbd_timer (qemu_input_event_send src e s) = kbd_timer s.
Proof. unfold qemu_input_event_send. cases; done. Qed.

Lemma queue_sync s : kbd_queue (qemu_input_event_sync s) = kbd_queue s /\
  kbd_timer (qemu_input_event_sync s) = kbd_timer s.
Proof. unfold qemu_input_event_sync. cases; done. Qed.

Lemma queue_deliver s k :
  kbd_queue (deliver s k) = kbd_queue s /\ kbd_timer (deliver s k) = kbd_timer s.
Proof.
  destruct k as [[src key] down]. simpl.
  destruct (queue_sync (qemu_input_event_send src (EvKey key down) s)) as [-> ->].
  apply queue_send.
Qed.

Lemma enc_all_app l1 l2 : enc_all (l1 ++ l2) = enc_all l1 ++ enc_all l2.
Proof. unfold enc_all. by rewrite fmap_app, join_app. Qed.

Lemma enc_all_nil l : enc_all l = [] -> l = [].
Proof. destruct l as [|[ms|[[? ?] ?]] l]; done. Qed.

(** The loop delivers the events before the next delay. *)
Lemma queue_loop_spec now l s :
  kbd_timer s = None ->
  exists done rest, events_of l = done ++ events_of rest /\ delays_of rest = delays_of l /\
    queue_ok (queue_loop now (enc_all l) s) rest /\
    forget (queue_loop now (enc_all l) s) = fold_left deliver done (forget s).
Proof.
  revert s. induction l as [|[ms|k] l IH]; intros s Ht.
  - exists [], []. split; [done|]. split; [done|]. split; [|by destruct s].
    split; [done|]. exact Ht.
  - exists [], (inl ms :: l). split; [done|]. split; [done|]. split; [|by destruct s].
    split; [done|]. simpl. eauto.
  - destruct (IH (deliver s k)) as (dn & rest & He & Hd & Hq & Hf).
    { by rewrite (proj2 (queue_deliver s k)). }
    exists (k :: dn), rest. destruct k as [[src key] down].
    split; [cbn [events_of omap list_omap app]; by f_equal|].
    split; [done|]. split; [exact Hq|].
    cbn [fold_left]. rewrite <- forget_deliver. exact Hf.
Qed.

Lemma kexec_spec s l op :
  queue_ok s l ->
  exists s' l' done, kexec s op = Ok s' /\ queue_ok s' l' /\
    events_of l ++ submitted [op] = done ++ events_of l' /\
    forget s' = fold_left deliver done (forget s) /\
    (forall now, op = KFire now -> delays_of l' = Nat.pred (delays_of l)).
Proof.
  intros [Hq Ht]. destruct op as [[[src key] down]|now ms|now]; cbn [kexec].
  - destruct l as [|i l].
    + exists (deliver s (src, key, down)), [], [(src, key, down)].
      unfold qemu_input_event_send_key. rewrite Hq. split; [done|].
      split; [|split; [done|split; [by rewrite forget_deliver|done]]].
      destruct (queue_deliver s (src, key, down)) as [E1 E2]. split; [by rewrite E1|].
      by rewrite E2.
    + exists (qemu_input_event_send_key src key down s), ((i :: l) ++ [inr (src, key, down)]), [].
      unfold qemu_input_event_send_key. split; [done|].
      destruct (kbd_queue s) as [|it q] eqn:E; [by destruct i as [?|[[? ?] ?]]|].
      split; [|split; [|split; [by destruct s|done]]].
      * split; [|by destruct i].
        unfold qemu_input_queue_sync, qemu_input_queue_event.
        rewrite enc_all_app, <- Hq, <- E. simpl. by rewrite <- app_assoc.
      * unfold events_of. by rewrite omap_app.
  - exists (qemu_input_event_send_key_delay now ms s),
      (l ++ [inl (if nz ms then ms else kbd_default_delay_ms)]), [].
    split; [done|]. unfold qemu_input_event_send_key_delay, qemu_input_queue_delay.
    set (m := if nz ms then ms else kbd_default_delay_ms).
    split; [|split; [|split; [|done]]].
    + case_bool_decide as E; (split; [by rewrite enc_all_app, <- Hq|]).
      * rewrite Hq in E. apply enc_all_nil in E as ->. simpl. eauto.
      * destruct l as [|[?|?] l]; [by rewrite Hq in E | done | done].
    + simpl. unfold events_of. by rewrite omap_app, !app_nil_r.
    + case_bool_decide; by destruct s.
  - destruct l as [|[ms|k] l].
    + exists s, [], []. rewrite Ht. done.
    + destruct Ht as [t Ht]. rewrite Ht. unfold qemu_input_queue_process. rewrite Hq. simpl.
      destruct (queue_loop_spec now l (set_timer None s)) as (dn & rest & He & Hd & Hqo & Hf); [done|].
      eexists _, rest, dn. split; [done|]. split; [exact Hqo|]. rewrite app_nil_r.
      split; [exact He|]. split; [exact Hf|]. intros ? _. by rewrite Hd.
    + done.
Qed.

Lemma krun_spec ops s l :
  queue_ok s l ->
  exists s' l' done, krun ops s = Ok s' /\ queue_ok s' l' /\
    events_of l ++ submitted ops = done ++ events_of l' /\
    forget s' = fold_left deliver done (forget s).
Proof.
  revert s l. induction ops as [|op ops IH]; intros s l Hok.
  { exists s, l, []. simpl. by rewrite app_nil_r. }
  destruct (kexec_spec s l op Hok) as (s1 & l1 & d1 & He & Hok1 & Hev & Hf & _).
  destruct (IH s1 l1 Hok1) as (s2 & l2 & d2 & Hr & Hok2 & Hev2 & Hf2).
  exists s2, l2, (d1 ++ d2). cbn [krun]. rewrite He. cbn [mbind outcome_bind].
  split; [done|]. split; [done|]. split.
  - change (op :: ops) with ([op] ++ ops). unfold submitted in *. rewrite omap_app, app_assoc, Hev.
    by rewrite <- app_assoc, Hev2, app_assoc.
  - rewrite fold_left_app, <- Hf. exact Hf2.
Qed.

Lemma krun_app ops1 ops2 s : krun (ops1 ++ ops2) s = (s' ← krun ops1 s; krun ops2 s').
Proof.
  revert s. induction ops1 as [|op ops IH]; intros s; [done|]. cbn [krun app].
  destruct (kexec s op); cbn [mbind outcome_bind]; [apply IH|done].
Qed.

Lemma krun_drain now n s l :
  queue_ok s l -> (delays_of l <= n)%nat ->
  exists s', krun (replicate n (KFire now)) s = Ok s' /\ kbd_queue s' = [] /\
    forget s' = fold_left deliver (events_of l) (forget s).
Proof.
  revert s l. induction n as [|n IH]; intros s l Hok Hn.
  - exists s. split; [done|]. destruct Hok as [Hq Ht].
    destruct l as [|[?|?] l]; [by rewrite Hq | simpl in Hn; unfold delays_of in Hn; simpl in Hn; lia | done].
  - destruct (kexec_spec s l (KFire now) Hok) as (s1 & l1 & d1 & He & Hok1 & Hev & Hf & Hdel).
    destruct (IH s1 l1 Hok1) as (s2 & Hr & Hq & Hf2); [rewrite (Hdel now) by done; lia|].
    exists s2. cbn [replicate krun]. rewrite He. cbn [mbind outcome_bind]. split; [done|].
    split; [done|]. simpl in Hev. rewrite app_nil_r in Hev. rewrite Hev, fold_left_app, <- Hf.
    exact Hf2.
Qed.

End Queue.

(** ** Properties *)

(** C27: the keyboard queue delivers every key event exactly once and in order.
    For every sequence of key events, delays and timer expiries from an empty
    queue no assertion fails, the events delivered so far are a prefix of the
    submitted ones and the rest waits in the queue; once the timer has fired
    once per queued delay, the state is the one of delivering all submitted
    events directly. *)
Theorem keyboard_queue_fifo {D} `{InputDevices D} (s : icore D) ops now :
  kbd_queue s = [] -> kbd_timer s = None ->
  exists s1 waiting done, krun ops s = Ok s1 /\ queue_ok s1 waiting /\
    submitted ops = done ++ events_of waiting /\
    forget s1 = fold_left deliver done (forget s) /\
    exists s2, krun (ops ++ replicate (delays_of waiting) (KFire now)) s = Ok s2 /\
      kbd_queue s2 = [] /\ forget s2 = fold_left deliver (submitted ops) (forget s).
Proof.
  intros Hq Ht. destruct (krun_spec ops s []) as (s1 & l & dn & Hr & Hok & Hev & Hf); [done|].
  exists s1, l, dn. split; [done|]. split; [done|]. split; [done|]. split; [done|].
  destruct (krun_drain now (delays_of l) s1 l Hok) as (s2 & Hr2 & Hq2 & Hf2); [done|].
  exists s2. rewrite krun_app, Hr. split; [done|]. split; [done|].
  simpl in Hev. rewrite Hev, fold_left_app, <- Hf. exact Hf2.
Qed.

(** A device that records its events. *)
#[export] Instance log_devices : InputDevices (list InputEvent) := {
  dev_event := fun _ e l => l ++ [e];
  dev_sync := fun _ => None
}.

Definition demo_core : icore (list InputEvent) :=
  mk_icore [mk_handler 0 INPUT_EVENT_MASK_KEY 1 0 None] 2 [] None false 0 true 0 [].

Lemma keyboard_queue_fifo_witness :
  let ops := [KSend (None, KEY_NUMBER 30, true); KDelay 0 100; KSend (None, KEY_NUMBER 30, false)] in
  exists s1 waiting done, krun ops demo_core = Ok s1 /\ queue_ok s1 waiting /\
    submitted ops = done ++ events_of waiting /\
    forget s1 = fold_left deliver done (forget demo_core) /\
    exists s2, krun (ops ++ replicate (delays_of waiting) (KFire 100)) demo_core = Ok s2 /\
      kbd_queue s2 = [] /\ forget s2 = fold_left deliver (submitted ops) (forget demo_core).
Proof. intros ops. apply (keyboard_queue_fifo demo_core ops 100); reflexivity. Defined.

(** What a scancode stream means: [0xe1] starts the three-byte code of Pause,
    [0xe0] marks a grey key, bit 7 a release. *)
Fixpoint decode_scancodes (l : list Z) : list (KeyValue * bool) :=
  match l with
  | [] => []
  | c :: l1 =>
      if c =? 225 then
        match l1 with
        | a :: _ :: l2 => (KEY_QCODE Q_KEY_CODE_PAUSE, a <? 128) :: decode_scancodes l2
        | _ => []
        end
      else if c =? 224 then
        match l1 with
        | d :: l2 => (KEY_NUMBER (Z.lor 128 (Z.land d 127)), d <? 128) :: decode_scancodes l2
        | [] => []
        end
      else (KEY_NUMBER (Z.land c 127), c <? 128) :: decode_scancodes l1
  end.

(** The key a code stands for: Pause, or a number.  Numbers are bytes whose
    low bits are not those of the prefixes. *)
Definition key_meaning (k : KeyValue) : KeyValue :=
  if decide (k = KEY_QCODE Q_KEY_CODE_PAUSE) then k
  else KEY_NUMBER (qemu_input_key_value_to_number k).
Definition key_ok (k : KeyValue) : bool :=
  let n := qemu_input_key_value_to_number k in
  (0 <=? n) && (n <? 256) && negb (Z.land n 127 =? 96) && negb (Z.land n 127 =? 97).

Definition code_of (n : Z) (down : bool) : Z := Z.land n 127 + if down then 0 else 128.

Lemma scancode_number n down :
  0 <= n < 256 ->
  qemu_input_key_value_to_scancode (KEY_NUMBER n) down =
  (if n <? 128 then [] else [224]) ++ [code_of n down].
Proof.
  destruct down; revert n; intros n; apply (byte_ind (fun n => _ = _) n); vm_compute; reflexivity.
Qed.

(** The key byte tells the direction, and its low bits the key. *)
Lemma code_of_byte n down :
  0 <= n < 256 ->
  (code_of n down <? 128) = down /\ Z.land (code_of n down) 127 = Z.land n 127 /\
  Z.lor (if n <? 128 then 0 else 128) (Z.land n 127) = n.
Proof.
  destruct down; revert n; intros n; apply (byte_ind (fun n => _ /\ _ /\ _) n);
    vm_compute; reflexivity.
Qed.

Lemma code_of_prefix n down :
  0 <= n < 256 -> Z.land n 127 <> 96 -> Z.land n 127 <> 97 ->
  code_of n down <> 224 /\ code_of n down <> 225.
Proof.
  intros Hn H96 H97. pose proof (land_range_r n 127 7 ltac:(lia) ltac:(lia)).
  unfold code_of. destruct down; lia.
Qed.

(** A qcode other than Pause gives the codes of its number. *)
Lemma scancode_meaning k down :
  k <> KEY_QCODE Q_KEY_CODE_PAUSE ->
  qemu_input_key_value_to_scancode k down =
  qemu_input_key_value_to_scancode (KEY_NUMBER (qemu_input_key_value_to_number k)) down.
Proof.
  intros Hk. destruct k as [n|q]; [done|]. unfold qemu_input_key_value_to_scancode.
  destruct (Z.eqb_spec q Q_KEY_CODE_PAUSE) as [->|_]; [done|]. reflexivity.
Qed.

Lemma decode_one n down l :
  key_ok (KEY_NUMBER n) = true ->
  decode_scancodes (qemu_input_key_value_to_scancode (KEY_NUMBER n) down ++ l) =
  (KEY_NUMBER n, down) :: decode_scancodes l.
Proof.
  unfold key_ok. cbn [qemu_input_key_value_to_number].
  rewrite !andb_true_iff, !negb_true_iff, !Z.eqb_neq, Z.leb_le, Z.ltb_lt.
  intros [[Hn H96] H97]. rewrite scancode_number by lia.
  destruct (code_of_byte n down) as (E1 & E2 & E3); [lia|].
  destruct (code_of_prefix n down) as [N1 N2]; [lia|done|done|].
  destruct (n <? 128); cbn [app decode_scancodes].
  - destruct (Z.eqb_spec (code_of n down) 225), (Z.eqb_spec (code_of n down) 224); try done.
    rewrite Z.lor_0_l in E3. by rewrite E1, E2, E3.
  - cbn [Z.eqb Pos.eqb]. by rewrite E1, E2, E3.
Qed.

(** C38: the scancode stream of any sequence of key events decodes to exactly
    these events, up to the number that a key's name stands for: no two sequences of
    different keys look alike to the guest.  Excluded are only the key numbers whose
    low seven bits are those of the prefixes 0xe0 and 0xe1 (0x60 and 0x61). *)
Theorem scancodes_decode (evs : list (KeyValue * bool)) :
  Forall (fun '(k, _) => key_ok k = true) evs ->
  decode_scancodes (evs ≫= fun '(k, down) => qemu_input_key_value_to_scancode k down) =
  (fun '(k, down) => (key_meaning k, down)) <$> evs.
Proof.
  induction 1 as [|[k down] evs Hk _ IH]; [done|].
  rewrite bind_cons, fmap_cons. unfold key_meaning at 1.
  destruct (decide (k = KEY_QCODE Q_KEY_CODE_PAUSE)) as [->|Hne].
  - cbn -[Z.lor] in *. rewrite IH. by destruct down.
  - rewrite scancode_meaning, decode_one by done. by f_equal.
Qed.

Lemma scancodes_decode_witness :
  decode_scancodes [30; 224; 77; 224; 205; 158] =
  [(KEY_NUMBER 30, true); (KEY_NUMBER 205, true); (KEY_NUMBER 205, false); (KEY_NUMBER 30, false)].
Proof.
  apply (scancodes_decode [(KEY_NUMBER 30, true); (KEY_NUMBER 205, true); (KEY_NUMBER 205, false);
    (KEY_NUMBER 30, false)]).
  repeat constructor.
Defined.

(** [qemu_input_scale_axis] maps the screen range onto the device range:
    it stays inside, hits both ends, and keeps the order. *)
Theorem scale_axis_spec v v' size_in size_out :
  2 <= size_in <= 2147483647 -> 1 <= size_out <= 2147483647 -> 0 <= v <= v' -> v' < size_in ->
  let scale x := qemu_input_scale_axis x size_in size_out in
  0 <= scale v <= scale v' /\ scale v' <= size_out - 1 /\
  scale 0 = 0 /\ scale (size_in - 1) = size_out - 1.
Proof.
  intros Hin Hout Hv Hv'. unfold qemu_input_scale_axis.
  destruct (Z.ltb_spec size_in 2); [lia|]. cbv zeta.
  assert (forall x, 0 <= x < size_in -> Z.quot (x * (size_out - 1)) (size_in - 1)
            = x * (size_out - 1) / (size_in - 1)) as Hq by (intros; apply Z.quot_div_nonneg; nia).
  assert (forall x, 0 <= x < size_in -> 0 <= x * (size_out - 1) / (size_in - 1) <= size_out - 1) as Hr.
  { intros x Hx. split; [apply Z.div_pos; nia|]. apply Z.div_le_upper_bound; nia. }
  rewrite !Hq by lia. pose proof (Hr v). pose proof (Hr v').
  rewrite Z.mul_0_l, Z.div_0_l, (Z.mul_comm (size_in - 1)), Z.div_mul by lia.
  rewrite !s32_small by lia.
  assert (v * (size_out - 1) / (size_in - 1) <= v' * (size_out - 1) / (size_in - 1))
    by (apply Z.div_le_mono; nia). lia.
Qed.

Lemma scale_axis_spec_witness :
  let scale x := qemu_input_scale_axis x 1280 INPUT_EVENT_ABS_SIZE in
  0 <= scale 3 <= scale 640 /\ scale 640 <= INPUT_EVENT_ABS_SIZE - 1 /\
  scale 0 = 0 /\ scale (1280 - 1) = INPUT_EVENT_ABS_SIZE - 1.
Proof. apply (scale_axis_spec 3 640 1280 INPUT_EVENT_ABS_SIZE); unfold INPUT_EVENT_ABS_SIZE; lia. Defined.
