(* ===== verification/PS2.v ===== *)
(** * PS/2 keyboard and mouse (hw/input/ps2.c)

    Both devices have an output queue that the guest reads through the
    keyboard controller (PCKbd.v).  The keyboard turns key events into
    scancodes and answers commands; the mouse accumulates motion and buttons
    and sends packets.  [update_irq] of the controller is recorded: [irq_calls]
    lists the levels passed to it, and the controller consumes them. *)

From S2P Require Import Prelude InputCore.

(** ** Data *)

Record PS2Queue := mk_queue { data : list Z; rptr : Z; wptr : Z; count : Z }.

Record PS2State := mk_ps2 { queue : PS2Queue; write_cmd : Z; irq_calls : list bool }.

(** [led_calls] records the calls of [kbd_put_ledstate]. *)
Record PS2KbdState := mk_kbd {
  kcommon : PS2State;
  scan_enabled : Z;
  translate : Z;
  scancode_set : Z;
  ledstate : Z;
  led_calls : list Z
}.

Record PS2MouseState := mk_mouse {
  mcommon : PS2State;
  mouse_status : Z;
  mouse_resolution : Z;
  mouse_sample_rate : Z;
  mouse_wrap : Z;
  mouse_type : Z;
  mouse_detect_state : Z;
  mouse_dx : Z;
  mouse_dy : Z;
  mouse_dz : Z;
  mouse_buttons : Z
}.

Definition PS2_QUEUE_SIZE : Z := 16.
Definition MOUSE_STATUS_REMOTE : Z := 64.
Definition MOUSE_STATUS_ENABLED : Z := 32.
Definition MOUSE_STATUS_SCALE21 : Z := 16.

Definition ps2_raw_keycode : list Z :=
  [0; 118; 22; 30; 38; 37; 46; 54; 61; 62; 70; 69; 78; 85; 102; 13;
   21; 29; 36; 45; 44; 53; 60; 67; 68; 77; 84; 91; 90; 20; 28; 27;
   35; 43; 52; 51; 59; 66; 75; 76; 82; 14; 18; 93; 26; 34; 33; 42;
   50; 49; 58; 65; 73; 74; 89; 124; 17; 41; 88; 5; 6; 4; 12; 3;
   11; 2; 10; 1; 9; 119; 126; 108; 117; 125; 123; 107; 115; 116; 121; 105;
   114; 122; 112; 113; 127; 96; 97; 120; 7; 15; 23; 31; 39; 47; 55; 63;
   71; 79; 86; 94; 8; 16; 24; 32; 40; 48; 56; 64; 72; 80; 87; 111;
   19; 25; 57; 81; 83; 92; 95; 98; 99; 100; 101; 103; 104; 106; 109; 110].

Definition ps2_raw_keycode_set3 : list Z :=
  [0; 8; 22; 30; 38; 37; 46; 54; 61; 62; 70; 69; 78; 85; 102; 13;
   21; 29; 36; 45; 44; 53; 60; 67; 68; 77; 84; 91; 90; 17; 28; 27;
   35; 43; 52; 51; 59; 66; 75; 76; 82; 14; 18; 92; 26; 34; 33; 42;
   50; 49; 58; 65; 73; 74; 89; 126; 25; 41; 20; 7; 15; 23; 31; 39;
   47; 2; 63; 71; 79; 118; 95; 108; 117; 125; 132; 107; 115; 116; 124; 105;
   114; 122; 112; 113; 127; 96; 97; 86; 94; 15; 23; 31; 39; 47; 55; 63;
   71; 79; 86; 94; 8; 16; 24; 32; 40; 48; 56; 64; 72; 80; 87; 111;
   19; 25; 57; 81; 83; 92; 95; 98; 99; 100; 101; 103; 104; 106; 109; 110].

(** Field updates. *)
Definition set_kcommon (c : PS2State) (s : PS2KbdState) : PS2KbdState :=
  mk_kbd c (scan_enabled s) (translate s) (scancode_set s) (ledstate s) (led_calls s).
Definition set_scan_enabled (v : Z) (s : PS2KbdState) : PS2KbdState :=
  mk_kbd (kcommon s) v (translate s) (scancode_set s) (ledstate s) (led_calls s).
Definition set_scancode_set (v : Z) (s : PS2KbdState) : PS2KbdState :=
  mk_kbd (kcommon s) (scan_enabled s) (translate s) v (ledstate s) (led_calls s).
Definition set_write_cmd (v : Z) (c : PS2State) : PS2State := mk_ps2 (queue c) v (irq_calls c).
Definition set_mcommon (c : PS2State) (s : PS2MouseState) : PS2MouseState :=
  mk_mouse c (mouse_status s) (mouse_resolution s) (mouse_sample_rate s) (mouse_wrap s)
    (mouse_type s) (mouse_detect_state s) (mouse_dx s) (mouse_dy s) (mouse_dz s) (mouse_buttons s).
Definition set_status (v : Z) (s : PS2MouseState) : PS2MouseState :=
  mk_mouse (mcommon s) v (mouse_resolution s) (mouse_sample_rate s) (mouse_wrap s)
    (mouse_type s) (mouse_detect_state s) (mouse_dx s) (mouse_dy s) (mouse_dz s) (mouse_buttons s).
Definition set_resolution (v : Z) (s : PS2MouseState) : PS2MouseState :=
  mk_mouse (mcommon s) (mouse_status s) v (mouse_sample_rate s) (mouse_wrap s)
    (mouse_type s) (mouse_detect_state s) (mouse_dx s) (mouse_dy s) (mouse_dz s) (mouse_buttons s).
Definition set_sample_rate (v : Z) (s : PS2MouseState) : PS2MouseState :=
  mk_mouse (mcommon s) (mouse_status s) (mouse_resolution s) v (mouse_wrap s)
    (mouse_type s) (mouse_detect_state s) (mouse_dx s) (mouse_dy s) (mouse_dz s) (mouse_buttons s).
Definition set_wrap (v : Z) (s : PS2MouseState) : PS2MouseState :=
  mk_mouse (mcommon s) (mouse_status s) (mouse_resolution s) (mouse_sample_rate s) v
    (mouse_type s) (mouse_detect_state s) (mouse_dx s) (mouse_dy s) (mouse_dz s) (mouse_buttons s).
Definition set_type (v : Z) (s : PS2MouseState) : PS2MouseState :=
  mk_mouse (mcommon s) (mouse_status s) (mouse_resolution s) (mouse_sample_rate s) (mouse_wrap s)
    v (mouse_detect_state s) (mouse_dx s) (mouse_dy s) (mouse_dz s) (mouse_buttons s).
Definition set_detect (v : Z) (s : PS2MouseState) : PS2MouseState :=
  mk_mouse (mcommon s) (mouse_status s) (mouse_resolution s) (mouse_sample_rate s) (mouse_wrap s)
    (mouse_type s) v (mouse_dx s) (mouse_dy s) (mouse_dz s) (mouse_buttons s).
Definition set_deltas (dx dy dz : Z) (s : PS2MouseState) : PS2MouseState :=
  mk_mouse (mcommon s) (mouse_status s) (mouse_resolution s) (mouse_sample_rate s) (mouse_wrap s)
    (mouse_type s) (mouse_detect_state s) dx dy dz (mouse_buttons s).
Definition set_buttons (v : Z) (s : PS2MouseState) : PS2MouseState :=
  mk_mouse (mcommon s) (mouse_status s) (mouse_resolution s) (mouse_sample_rate s) (mouse_wrap s)
    (mouse_type s) (mouse_detect_state s) (mouse_dx s) (mouse_dy s) (mouse_dz s) v.

(** ** The queue *)

Definition next_ptr (p : Z) : Z := if p + 1 =? PS2_QUEUE_SIZE then 0 else p + 1.

Definition ps2_queue (b : Z) (s : PS2State) : PS2State :=
  let q := queue s in
  if PS2_QUEUE_SIZE - 1 <=? count q then s
  else mk_ps2 (mk_queue (aset (data q) (wptr q) (u8 b)) (rptr q) (next_ptr (wptr q)) (count q + 1))
         (write_cmd s) (irq_calls s ++ [true]).

(** The value read and the new state. *)
Definition ps2_read_data (s : PS2State) : Z * PS2State :=
  let q := queue s in
  if count q =? 0 then
    let index := if rptr q - 1 <? 0 then PS2_QUEUE_SIZE - 1 else rptr q - 1 in
    (aget (data q) index, s)
  else
    (aget (data q) (rptr q),
     mk_ps2 (mk_queue (data q) (next_ptr (rptr q)) (wptr q) (count q - 1)) (write_cmd s)
       (irq_calls s ++ [false; nz (count q - 1)])).

(** ** Keyboard *)

Definition kqueue (b : Z) (s : PS2KbdState) : PS2KbdState := set_kcommon (ps2_queue b (kcommon s)) s.

Definition ps2_put_keycode (s : PS2KbdState) (keycode : Z) : PS2KbdState :=
  if (translate s =? 0) && (keycode <? 224) && (1 <? scancode_set s) then
    let s := if nz (Z.land keycode 128) then kqueue 240 s else s in
    let keycode := if scancode_set s =? 2 then aget ps2_raw_keycode (Z.land keycode 127)
                   else if scancode_set s =? 3 then aget ps2_raw_keycode_set3 (Z.land keycode 127)
                   else keycode in
    kqueue keycode s
  else kqueue keycode s.

Definition ps2_keyboard_event (evt : InputEvent) (s : PS2KbdState) : PS2KbdState :=
  match evt with
  | EvKey key down => fold_left ps2_put_keycode (qemu_input_key_value_to_scancode key down) s
  | _ => s
  end.

Definition ps2_set_ledstate (led : Z) (s : PS2KbdState) : PS2KbdState :=
  mk_kbd (kcommon s) (scan_enabled s) (translate s) (scancode_set s) led (led_calls s ++ [led]).

Definition ps2_reset_keyboard (s : PS2KbdState) : PS2KbdState :=
  ps2_set_ledstate 0 (set_scancode_set 2 (set_scan_enabled 1 s)).

Definition set_kcmd (v : Z) (s : PS2KbdState) : PS2KbdState := set_kcommon (set_write_cmd v (kcommon s)) s.

(** Keyboard commands and replies. *)
Definition KBD_CMD_SET_LEDS : Z := 237.
Definition KBD_CMD_ECHO : Z := 238.
Definition KBD_CMD_SCANCODE : Z := 240.
Definition KBD_CMD_GET_ID : Z := 242.
Definition KBD_CMD_SET_RATE : Z := 243.
Definition KBD_CMD_ENABLE : Z := 244.
Definition KBD_CMD_RESET_DISABLE : Z := 245.
Definition KBD_CMD_RESET_ENABLE : Z := 246.
Definition KBD_CMD_RESET : Z := 255.
Definition KBD_REPLY_POR : Z := 170.
Definition KBD_REPLY_ID : Z := 171.
Definition KBD_REPLY_ACK : Z := 250.
Definition KBD_REPLY_RESEND : Z := 254.

(** The inner switch: a command byte. *)
Definition kbd_command (val : Z) (s : PS2KbdState) : PS2KbdState :=
  if val =? 0 then kqueue KBD_REPLY_ACK s
  else if val =? 5 then kqueue KBD_REPLY_RESEND s
  else if val =? KBD_CMD_GET_ID then
    kqueue (if nz (translate s) then 65 else 131) (kqueue KBD_REPLY_ID (kqueue KBD_REPLY_ACK s))
  else if val =? KBD_CMD_ECHO then kqueue KBD_CMD_ECHO s
  else if val =? KBD_CMD_ENABLE then kqueue KBD_REPLY_ACK (set_scan_enabled 1 s)
  else if (val =? KBD_CMD_SCANCODE) || (val =? KBD_CMD_SET_LEDS) || (val =? KBD_CMD_SET_RATE) then
    kqueue KBD_REPLY_ACK (set_kcmd val s)
  else if val =? KBD_CMD_RESET_DISABLE then
    kqueue KBD_REPLY_ACK (set_scan_enabled 0 (ps2_reset_keyboard s))
  else if val =? KBD_CMD_RESET_ENABLE then
    kqueue KBD_REPLY_ACK (set_scan_enabled 1 (ps2_reset_keyboard s))
  else if val =? KBD_CMD_RESET then
    kqueue KBD_REPLY_POR (kqueue KBD_REPLY_ACK (ps2_reset_keyboard s))
  else kqueue KBD_REPLY_ACK s.

Definition ps2_write_keyboard (val : Z) (s : PS2KbdState) : PS2KbdState :=
  let cmd := write_cmd (kcommon s) in
  if cmd =? KBD_CMD_SCANCODE then
    let s :=
      if val =? 0 then
        if scancode_set s =? 1 then ps2_put_keycode s 67
        else if scancode_set s =? 2 then ps2_put_keycode s 65
        else if scancode_set s =? 3 then ps2_put_keycode s 63
        else s
      else
        kqueue KBD_REPLY_ACK
          (if (1 <=? val) && (val <=? 3) then set_scancode_set val s else s) in
    set_kcmd (-1) s
  else if cmd =? KBD_CMD_SET_LEDS then
    set_kcmd (-1) (kqueue KBD_REPLY_ACK (ps2_set_ledstate val s))
  else if cmd =? KBD_CMD_SET_RATE then set_kcmd (-1) (kqueue KBD_REPLY_ACK s)
  else kbd_command val s.

Definition ps2_keyboard_set_translation (mode : Z) (s : PS2KbdState) : PS2KbdState :=
  mk_kbd (kcommon s) (scan_enabled s) mode (scancode_set s) (ledstate s) (led_calls s).

(** ** Mouse *)

Definition mqueue (b : Z) (s : PS2MouseState) : PS2MouseState := set_mcommon (ps2_queue b (mcommon s)) s.

Definition clamp (n v : Z) : Z := if n <? v then n else if v <? - n then - n else v.

(** The bytes of the packet for the current state, and the reported motion. *)
Definition packet (s : PS2MouseState) : list Z * (Z * Z * Z) :=
  let dx1 := clamp 127 (mouse_dx s) in
  let dy1 := clamp 127 (mouse_dy s) in
  let b := Z.lor (Z.lor (Z.lor 8 (Z.shiftl (b2z (dx1 <? 0)) 4)) (Z.shiftl (b2z (dy1 <? 0)) 5))
             (Z.land (mouse_buttons s) 7) in
  let head := [b; Z.land dx1 255; Z.land dy1 255] in
  if mouse_type s =? 3 then
    let dz1 := clamp 127 (mouse_dz s) in (head ++ [Z.land dz1 255], (dx1, dy1, dz1))
  else if mouse_type s =? 4 then
    let dz1 := clamp 7 (mouse_dz s) in
    (head ++ [Z.lor (Z.land dz1 15) (Z.shiftl (Z.land (mouse_buttons s) 24) 1)], (dx1, dy1, dz1))
  else (head, (dx1, dy1, mouse_dz s)).

Definition ps2_mouse_send_packet (s : PS2MouseState) : PS2MouseState :=
  let '(bytes, (dx1, dy1, dz1)) := packet s in
  let s' := fold_left (fun s b => mqueue b s) bytes s in
  set_deltas (mouse_dx s - dx1) (mouse_dy s - dy1) (mouse_dz s - dz1) s'.

(** Motion is kept in an [int]. *)
Definition ps2_mouse_event (evt : InputEvent) (s : PS2MouseState) : PS2MouseState :=
  if negb (nz (Z.land (mouse_status s) MOUSE_STATUS_ENABLED)) then s
  else match evt with
  | EvRel INPUT_AXIS_X v => set_deltas (s32 (mouse_dx s + v)) (mouse_dy s) (mouse_dz s) s
  | EvRel INPUT_AXIS_Y v => set_deltas (mouse_dx s) (s32 (mouse_dy s - v)) (mouse_dz s) s
  | EvBtn b true =>
      let s := set_buttons (Z.lor (mouse_buttons s) (mouse_bmap b)) s in
      match b with
      | INPUT_BUTTON_WHEEL_UP => set_deltas (mouse_dx s) (mouse_dy s) (s32 (mouse_dz s - 1)) s
      | INPUT_BUTTON_WHEEL_DOWN => set_deltas (mouse_dx s) (mouse_dy s) (s32 (mouse_dz s + 1)) s
      | _ => s
      end
  | EvBtn b false => set_buttons (Z.land (mouse_buttons s) (Z.lnot (mouse_bmap b))) s
  | _ => s
  end.

Definition no_motion (s : PS2MouseState) : bool :=
  (mouse_dx s =? 0) && (mouse_dy s =? 0) && (mouse_dz s =? 0).

(** The sending loop.  Every packet adds at least three bytes to the queue,
    so fewer than [PS2_QUEUE_SIZE] rounds are possible. *)
Fixpoint send_loop (fuel : nat) (s : PS2MouseState) : PS2MouseState :=
  match fuel with
  | O => s
  | S f =>
      if count (queue (mcommon s)) <? PS2_QUEUE_SIZE - 4 then
        let s := ps2_mouse_send_packet s in
        if no_motion s then s else send_loop f s
      else s
  end.

Definition ps2_mouse_sync (s : PS2MouseState) : PS2MouseState :=
  if nz (Z.land (mouse_status s) MOUSE_STATUS_REMOTE) then s
  else send_loop (Z.to_nat PS2_QUEUE_SIZE) s.

Definition ps2_mouse_fake_event (s : PS2MouseState) : PS2MouseState :=
  ps2_mouse_sync (set_deltas (s32 (mouse_dx s + 1)) (mouse_dy s) (mouse_dz s) s).

Definition AUX_SET_SCALE11 : Z := 230.
Definition AUX_SET_SCALE21 : Z := 231.
Definition AUX_SET_RES : Z := 232.
Definition AUX_GET_SCALE : Z := 233.
Definition AUX_SET_STREAM : Z := 234.
Definition AUX_POLL : Z := 235.
Definition AUX_RESET_WRAP : Z := 236.
Definition AUX_SET_WRAP : Z := 238.
Definition AUX_SET_REMOTE : Z := 240.
Definition AUX_GET_TYPE : Z := 242.
Definition AUX_SET_SAMPLE : Z := 243.
Definition AUX_ENABLE_DEV : Z := 244.
Definition AUX_DISABLE_DEV : Z := 245.
Definition AUX_SET_DEFAULT : Z := 246.
Definition AUX_RESET : Z := 255.
Definition AUX_ACK : Z := 250.

Definition set_mcmd (v : Z) (s : PS2MouseState) : PS2MouseState := set_mcommon (set_write_cmd v (mcommon s)) s.
Definition mouse_defaults (s : PS2MouseState) : PS2MouseState :=
  set_status 0 (set_resolution 2 (set_sample_rate 100 s)).

(** The inner switch: a command byte. *)
Definition mouse_command (val : Z) (s : PS2MouseState) : PS2MouseState :=
  if val =? AUX_SET_SCALE11 then
    mqueue AUX_ACK (set_status (Z.land (mouse_status s) (Z.lnot MOUSE_STATUS_SCALE21)) s)
  else if val =? AUX_SET_SCALE21 then
    mqueue AUX_ACK (set_status (Z.lor (mouse_status s) MOUSE_STATUS_SCALE21) s)
  else if val =? AUX_SET_STREAM then
    mqueue AUX_ACK (set_status (Z.land (mouse_status s) (Z.lnot MOUSE_STATUS_REMOTE)) s)
  else if val =? AUX_SET_WRAP then mqueue AUX_ACK (set_wrap 1 s)
  else if val =? AUX_SET_REMOTE then
    mqueue AUX_ACK (set_status (Z.lor (mouse_status s) MOUSE_STATUS_REMOTE) s)
  else if val =? AUX_GET_TYPE then mqueue (mouse_type s) (mqueue AUX_ACK s)
  else if (val =? AUX_SET_RES) || (val =? AUX_SET_SAMPLE) then mqueue AUX_ACK (set_mcmd val s)
  else if val =? AUX_GET_SCALE then
    mqueue (mouse_sample_rate s) (mqueue (mouse_resolution s) (mqueue (mouse_status s) (mqueue AUX_ACK s)))
  else if val =? AUX_POLL then ps2_mouse_send_packet (mqueue AUX_ACK s)
  else if val =? AUX_ENABLE_DEV then
    mqueue AUX_ACK (set_status (Z.lor (mouse_status s) MOUSE_STATUS_ENABLED) s)
  else if val =? AUX_DISABLE_DEV then
    mqueue AUX_ACK (set_status (Z.land (mouse_status s) (Z.lnot MOUSE_STATUS_ENABLED)) s)
  else if val =? AUX_SET_DEFAULT then mqueue AUX_ACK (mouse_defaults s)
  else if val =? AUX_RESET then
    mqueue 0 (mqueue 170 (mqueue AUX_ACK (set_type 0 (mouse_defaults s))))
  else s.

(** The detection sequence of the wheel protocols. *)
Definition detect_step (val : Z) (s : PS2MouseState) : PS2MouseState :=
  let d := mouse_detect_state s in
  if d =? 1 then set_detect (if val =? 100 then 2 else if val =? 200 then 3 else 0) s
  else if d =? 2 then set_detect 0 (if val =? 80 then set_type 3 s else s)
  else if d =? 3 then set_detect 0 (if val =? 80 then set_type 4 s else s)
  else if val =? 200 then set_detect 1 s else s.

Definition ps2_write_mouse (val : Z) (s : PS2MouseState) : PS2MouseState :=
  let cmd := write_cmd (mcommon s) in
  if cmd =? AUX_SET_SAMPLE then
    set_mcmd (-1) (mqueue AUX_ACK (detect_step val (set_sample_rate (u8 val) s)))
  else if cmd =? AUX_SET_RES then set_mcmd (-1) (mqueue AUX_ACK (set_resolution (u8 val) s))
  else if nz (mouse_wrap s) && (val =? AUX_RESET_WRAP) then mqueue AUX_ACK (set_wrap 0 s)
  else if nz (mouse_wrap s) && negb (val =? AUX_RESET) then mqueue val s
  else mouse_command val s.

(** ** Reset and migration *)

Definition ps2_common_reset (s : PS2State) : PS2State :=
  mk_ps2 (mk_queue (data (queue s)) 0 0 0) (-1) (irq_calls s ++ [false]).

Definition ps2_kbd_reset (s : PS2KbdState) : PS2KbdState :=
  mk_kbd (ps2_common_reset (kcommon s)) 0 0 0 (ledstate s) (led_calls s).

Definition ps2_mouse_reset (s : PS2MouseState) : PS2MouseState :=
  mk_mouse (ps2_common_reset (mcommon s)) 0 0 0 0 0 0 0 0 0 0.

(** The loop that fills [tmp_data]: [size] elements from [rptr] on, the index
    going back to 0 after 255. *)
Fixpoint collect (n : nat) (l : list Z) (p : Z) : outcome (list Z) :=
  match n with
  | O => Ok []
  | S n' =>
      v ← aget_chk l p;
      r ← collect n' l (if p + 1 =? 256 then 0 else p + 1);
      Ok (v :: r)
  end.

(** An [int] in memory on a little-endian host. *)
Definition int_bytes (v : Z) : list Z :=
  [u8 v; u8 (Z.shiftr v 8); u8 (Z.shiftr v 16); u8 (Z.shiftr v 24)].

(** [memcpy(q->data, tmp_data, size)] copies [size] bytes, and [tmp_data] is an
    array of [int]. *)
Definition ps2_common_post_load (s : PS2State) : outcome PS2State :=
  let q := queue s in
  let size := if PS2_QUEUE_SIZE <? count q then 0 else count q in
  d ← (if 0 <? size then
         tmp_data ← collect (Z.to_nat size) (data q) (rptr q);
         Ok (take (Z.to_nat size) (tmp_data ≫= int_bytes) ++ drop (Z.to_nat size) (data q))
       else Ok (data q));
  Ok (mk_ps2 (mk_queue d 0 size size) (write_cmd s) (irq_calls s ++ [nz size])).

Definition ps2_kbd_post_load (version_id : Z) (s : PS2KbdState) : outcome PS2KbdState :=
  let s := if version_id =? 2 then set_scancode_set 2 s else s in
  c ← ps2_common_post_load (kcommon s); Ok (set_kcommon c s).

Definition ps2_kbd_pre_save (s : PS2KbdState) : outcome PS2KbdState :=
  c ← ps2_common_post_load (kcommon s); Ok (set_kcommon c s).

Definition ps2_mouse_post_load (s : PS2MouseState) : outcome PS2MouseState :=
  c ← ps2_common_post_load (mcommon s); Ok (set_mcommon c s).

Definition ps2_mouse_pre_save (s : PS2MouseState) : outcome PS2MouseState :=
  c ← ps2_common_post_load (mcommon s); Ok (set_mcommon c s).

Definition ps2_keyboard_ledstate_needed (s : PS2KbdState) : bool := negb (ledstate s =? 0).

Definition ps2_kbd_ledstate_post_load (s : PS2KbdState) : PS2KbdState :=
  mk_kbd (kcommon s) (scan_enabled s) (translate s) (scancode_set s) (ledstate s)
    (led_calls s ++ [ledstate s]).

(** ** Creation *)

Definition ps2_zero : PS2State := mk_ps2 (mk_queue (replicate 256 0) 0 0 0) 0 [].
Definition ps2_kbd_init : PS2KbdState := mk_kbd ps2_zero 0 0 2 0 [].
Definition ps2_mouse_init : PS2MouseState := mk_mouse ps2_zero 0 0 0 0 0 0 0 0 0 0.

(** ** The queue as a bounded FIFO *)

(** The queued bytes, oldest first. *)
Fixpoint slice (n : nat) (l : list Z) (p : Z) : list Z :=
  match n with
  | O => []
  | S n' => aget l p :: slice n' l (next_ptr p)
  end.

Definition contents (s : PS2State) : list Z :=
  slice (Z.to_nat (count (queue s))) (data (queue s)) (rptr (queue s)).

(** The pointers are inside the first sixteen bytes and [count] apart. *)
Definition queue_wf (s : PS2State) : Prop :=
  let q := queue s in
  length (data q) = 256%nat /\ 0 <= rptr q < PS2_QUEUE_SIZE /\ 0 <= wptr q < PS2_QUEUE_SIZE /\
  0 <= count q < PS2_QUEUE_SIZE /\ (rptr q + count q) mod PS2_QUEUE_SIZE = wptr q.

Lemma next_ptr_mod p : 0 <= p < PS2_QUEUE_SIZE -> next_ptr p = (p + 1) mod PS2_QUEUE_SIZE.
Proof.
  intros Hp. unfold next_ptr, PS2_QUEUE_SIZE in *. destruct (Z.eqb_spec (p + 1) 16) as [->|]; [done|].
  rewrite Z.mod_small; lia.
Qed.

Lemma next_ptr_range p : 0 <= p < PS2_QUEUE_SIZE -> 0 <= next_ptr p < PS2_QUEUE_SIZE.
Proof. intros Hp. unfold next_ptr, PS2_QUEUE_SIZE in *. destruct (Z.eqb_spec (p + 1) 16); lia. Qed.

Lemma slice_snoc n l p :
  0 <= p < PS2_QUEUE_SIZE ->
  slice (S n) l p = slice n l p ++ [aget l ((p + Z.of_nat n) mod PS2_QUEUE_SIZE)].
Proof.
  revert p. induction n as [|n IH]; intros p Hp.
  - simpl. rewrite Z.add_0_r, Z.mod_small by done. done.
  - change (slice (S (S n)) l p) with (aget l p :: slice (S n) l (next_ptr p)).
    rewrite IH by (by apply next_ptr_range). cbn [slice app]. do 4 f_equal.
    rewrite next_ptr_mod by done. rewrite Zplus_mod_idemp_l. f_equal. lia.
Qed.

(** A store at a pointer outside the slice does not change it. *)
Lemma slice_aset n l p w v :
  0 <= p < PS2_QUEUE_SIZE -> 0 <= w ->
  (forall i, (i < n)%nat -> (p + Z.of_nat i) mod PS2_QUEUE_SIZE <> w) ->
  slice n (aset l w v) p = slice n l p.
Proof.
  revert p. induction n as [|n IH]; intros p Hp Hw Hne; [done|]. cbn [slice]. f_equal.
  - apply aget_aset_ne; [lia|lia|]. intros ->. apply (Hne 0%nat); [lia|].
    rewrite Z.add_0_r. by apply Z.mod_small.
  - apply IH; [by apply next_ptr_range|done|]. intros i Hi. rewrite next_ptr_mod by done.
    rewrite Zplus_mod_idemp_l. replace (p + 1 + Z.of_nat i) with (p + Z.of_nat (S i)) by lia.
    apply Hne. lia.
Qed.

Lemma mod_distinct p a b :
  0 <= a -> a < b -> b < PS2_QUEUE_SIZE -> (p + a) mod PS2_QUEUE_SIZE <> (p + b) mod PS2_QUEUE_SIZE.
Proof.
  unfold PS2_QUEUE_SIZE. intros Ha Hab Hb E.
  pose proof (Z.div_mod (p + a) 16 ltac:(lia)). pose proof (Z.div_mod (p + b) 16 ltac:(lia)). lia.
Qed.

Lemma contents_length s : queue_wf s -> Z.of_nat (length (contents s)) = count (queue s).
Proof.
  intros (_ & _ & _ & Hc & _). unfold contents. rewrite <- (Z2Nat.id (count (queue s))) at 2 by lia.
  f_equal. generalize (rptr (queue s)). generalize (Z.to_nat (count (queue s))) as n.
  induction n as [|n IH]; intros p; simpl; [done|]. by rewrite IH.
Qed.

Lemma ps2_queue_wf b s : queue_wf s -> queue_wf (ps2_queue b s).
Proof.
  intros Hwf. pose proof Hwf as (Hl & Hr & Hw & Hc & Hm). unfold ps2_queue.
  destruct (Z.leb_spec (PS2_QUEUE_SIZE - 1) (count (queue s))); [done|].
  unfold queue_wf. cbn [queue data rptr wptr count]. rewrite length_aset.
  split; [done|]. split; [done|]. split; [by apply next_ptr_range|].
  split; [unfold PS2_QUEUE_SIZE in *; lia|].
  rewrite next_ptr_mod, <- Hm, Zplus_mod_idemp_l by done. f_equal. lia.
Qed.

(** A byte goes to the end, unless fifteen are waiting. *)
Lemma ps2_queue_contents b s :
  queue_wf s ->
  contents (ps2_queue b s) =
  if PS2_QUEUE_SIZE - 1 <=? count (queue s) then contents s else contents s ++ [u8 b].
Proof.
  intros (Hl & Hr & Hw & Hc & Hm). unfold ps2_queue, contents.
  destruct (Z.leb_spec (PS2_QUEUE_SIZE - 1) (count (queue s))) as [|Hlt]; [done|].
  cbn [queue data rptr wptr count].
  replace (Z.to_nat (count (queue s) + 1)) with (S (Z.to_nat (count (queue s)))) by lia.
  rewrite slice_snoc, Z2Nat.id, Hm, aget_aset_eq by (unfold PS2_QUEUE_SIZE in *; lia). f_equal.
  apply slice_aset; [done|lia|]. intros i Hi. rewrite <- Hm.
  apply mod_distinct; unfold PS2_QUEUE_SIZE in *; lia.
Qed.

Lemma ps2_read_wf s : queue_wf s -> queue_wf (ps2_read_data s).2.
Proof.
  intros Hwf. pose proof Hwf as (Hl & Hr & Hw & Hc & Hm). unfold ps2_read_data.
  destruct (Z.eqb_spec (count (queue s)) 0); [done|].
  unfold queue_wf. cbn [snd queue data rptr wptr count].
  split; [done|]. split; [by apply next_ptr_range|]. split; [done|].
  split; [unfold PS2_QUEUE_SIZE in *; lia|].
  rewrite next_ptr_mod, Zplus_mod_idemp_l by done. rewrite <- Hm. f_equal. lia.
Qed.

(** A read takes the oldest byte. *)
Lemma ps2_read_contents s :
  queue_wf s ->
  match contents s with
  | [] => (ps2_read_data s).2 = s
  | b :: l => (ps2_read_data s).1 = b /\ contents (ps2_read_data s).2 = l
  end.
Proof.
  intros (Hl & Hr & Hw & Hc & Hm). unfold contents, ps2_read_data.
  destruct (Z.eqb_spec (count (queue s)) 0) as [E|Hne]; [by rewrite E|].
  destruct (Z.to_nat (count (queue s))) as [|n] eqn:En; [lia|].
  cbn [slice fst snd queue data rptr count]. split; [done|].
  by replace (Z.to_nat (count (queue s) - 1)) with n by lia.
Qed.

(** The abstract queue: the waiting bytes and the byte read last. *)
Definition fifo : Type := list Z * Z.
Definition fifo_put (b : Z) (f : fifo) : fifo :=
  if decide (15 <= length f.1)%nat then f else (f.1 ++ [u8 b], f.2).
Definition fifo_get (f : fifo) : Z * fifo :=
  match f.1 with
  | [] => (f.2, f)
  | b :: l => (b, (l, b))
  end.

Definition last_slot (s : PS2State) : Z :=
  aget (data (queue s)) ((rptr (queue s) - 1) mod PS2_QUEUE_SIZE).
Definition abs (s : PS2State) : fifo := (contents s, last_slot s).

Lemma abs_put b s : queue_wf s -> abs (ps2_queue b s) = fifo_put b (abs s).
Proof.
  intros Hwf. pose proof (contents_length s Hwf) as Hcl. unfold fifo_put, abs. cbn [fst snd].
  rewrite ps2_queue_contents by done. pose proof Hwf as (Hl & Hr & Hw & Hc & Hm).
  unfold ps2_queue.
  destruct (Z.leb_spec (PS2_QUEUE_SIZE - 1) (count (queue s))) as [Hge|Hlt];
    (case_decide; [|]); try (unfold PS2_QUEUE_SIZE in *; lia); [done|].
  f_equal. unfold last_slot. cbn [queue data rptr]. apply aget_aset_ne; [lia| |].
  { apply Z.mod_pos_bound. done. }
  rewrite <- Hm. replace (rptr (queue s) - 1) with (rptr (queue s) + 15 + -1 * PS2_QUEUE_SIZE)
    by (unfold PS2_QUEUE_SIZE; lia).
  rewrite Z.mod_add by done. apply mod_distinct; unfold PS2_QUEUE_SIZE in *; lia.
Qed.

Lemma abs_get s :
  queue_wf s -> ((ps2_read_data s).1, abs (ps2_read_data s).2) = fifo_get (abs s).
Proof.
  intros Hwf. pose proof (ps2_read_contents s Hwf) as Hrd. pose proof (contents_length s Hwf) as Hcl.
  pose proof Hwf as (Hl & Hr & Hw & Hc & Hm). unfold fifo_get, abs at 2 3. cbn [fst snd].
  destruct (contents s) as [|b l] eqn:E.
  - rewrite Hrd. unfold abs. rewrite E. f_equal. unfold ps2_read_data, last_slot.
    simpl in Hcl. destruct (Z.eqb_spec (count (queue s)) 0); [|lia]. cbn [fst]. f_equal.
    unfold PS2_QUEUE_SIZE in *. destruct (Z.ltb_spec (rptr (queue s) - 1) 0) as [Hlt|].
    + by replace (rptr (queue s)) with 0 by lia.
    + by rewrite Z.mod_small by lia.
  - destruct Hrd as [Hv Hcont]. unfold abs. rewrite Hv, Hcont. do 2 f_equal. rewrite <- Hv.
    unfold ps2_read_data, last_slot. simpl in Hcl.
    destruct (Z.eqb_spec (count (queue s)) 0); [lia|]. cbn [fst snd queue data rptr]. f_equal.
    rewrite next_ptr_mod, Zminus_mod_idemp_l by done.
    replace (rptr (queue s) + 1 - 1) with (rptr (queue s)) by lia. by apply Z.mod_small.
Qed.

(** Sequences of queue operations, with the values read. *)
Inductive qop := QPut (b : Z) | QGet.

Fixpoint qrun (ops : list qop) (s : PS2State) : list Z * PS2State :=
  match ops with
  | [] => ([], s)
  | QPut b :: ops => qrun ops (ps2_queue b s)
  | QGet :: ops => let '(v, s) := ps2_read_data s in let '(vs, s) := qrun ops s in (v :: vs, s)
  end.
Fixpoint frun (ops : list qop) (f : fifo) : list Z * fifo :=
  match ops with
  | [] => ([], f)
  | QPut b :: ops => frun ops (fifo_put b f)
  | QGet :: ops => let '(v, f) := fifo_get f in let '(vs, f) := frun ops f in (v :: vs, f)
  end.

(** C28: the ring of a PS/2 device implements a FIFO of fifteen bytes that
    drops what does not fit, and a read of the empty queue repeats the byte
    read last (the sixteenth slot keeps it).  For every sequence of stores and
    reads the values read are those of the abstract queue. *)
Theorem ps2_queue_refines_fifo ops s :
  queue_wf s ->
  (qrun ops s).1 = (frun ops (abs s)).1 /\ abs (qrun ops s).2 = (frun ops (abs s)).2 /\
  queue_wf (qrun ops s).2.
Proof.
  revert s. induction ops as [|[b|] ops IH]; intros s Hwf; [done| |].
  - cbn [qrun frun]. rewrite <- abs_put by done. by apply IH, ps2_queue_wf.
  - cbn [qrun frun]. rewrite <- abs_get by done.
    pose proof (ps2_read_wf s Hwf) as Hwf'. destruct (ps2_read_data s) as [v s'].
    cbn [fst snd] in *. destruct (IH s' Hwf') as (H1 & H2 & H3).
    destruct (qrun ops s'), (frun ops (abs s')). simpl in *. by subst.
Qed.

Lemma ps2_zero_wf : queue_wf ps2_zero.
Proof. unfold queue_wf, PS2_QUEUE_SIZE. simpl. rewrite ?length_replicate. repeat split; lia. Qed.

Lemma ps2_queue_refines_fifo_witness :
  let ops := [QPut 30; QGet; QGet; QPut 158; QPut 300; QGet; QGet] in
  (qrun ops ps2_zero).1 = [30; 30; 158; 44] /\
  abs (qrun ops ps2_zero).2 = (frun ops (abs ps2_zero)).2 /\ queue_wf (qrun ops ps2_zero).2.
Proof. intros ops. apply (ps2_queue_refines_fifo ops ps2_zero). exact ps2_zero_wf. Defined.

(** ** Keyboard *)

(** Several bytes into a queue with room for all of them. *)
Lemma queue_many bs s :
  queue_wf s -> count (queue s) + Z.of_nat (length bs) < PS2_QUEUE_SIZE ->
  let s' := fold_left (fun s b => ps2_queue b s) bs s in
  queue_wf s' /\ contents s' = contents s ++ (u8 <$> bs) /\
  count (queue s') = count (queue s) + Z.of_nat (length bs) /\ write_cmd s' = write_cmd s.
Proof.
  revert s. induction bs as [|b bs IH]; intros s Hwf Hroom.
  { cbn. rewrite app_nil_r, Z.add_0_r. done. }
  cbn [length] in Hroom. cbn [fold_left].
  pose proof (ps2_queue_contents b s Hwf) as Hc.
  assert (count (queue (ps2_queue b s)) = count (queue s) + 1 /\ write_cmd (ps2_queue b s) = write_cmd s)
    as [Hcount Hcmd].
  { unfold ps2_queue. destruct (Z.leb_spec (PS2_QUEUE_SIZE - 1) (count (queue s))); [lia|done]. }
  destruct (Z.leb_spec (PS2_QUEUE_SIZE - 1) (count (queue s))); [lia|].
  destruct (IH (ps2_queue b s)) as (H1 & H2 & H3 & H4); [by apply ps2_queue_wf|lia|].
  split; [done|]. rewrite H2, Hc, H3, H4, Hcount. cbn [fmap list_fmap length].
  rewrite <- app_assoc. split; [done|]. split; [lia|done].
Qed.

(** The bytes the keyboard sends for one scancode byte. *)
Definition keycode_bytes (tr set keycode : Z) : list Z :=
  if (tr =? 0) && (keycode <? 224) && (1 <? set) then
    (if nz (Z.land keycode 128) then [240] else []) ++
    [if set =? 2 then aget ps2_raw_keycode (Z.land keycode 127)
     else if set =? 3 then aget ps2_raw_keycode_set3 (Z.land keycode 127) else keycode]
  else [keycode].

Lemma ps2_put_keycode_eq s c :
  ps2_put_keycode s c =
  set_kcommon (fold_left (fun s b => ps2_queue b s)
    (keycode_bytes (translate s) (scancode_set s) c) (kcommon s)) s.
Proof.
  unfold ps2_put_keycode, keycode_bytes.
  destruct ((translate s =? 0) && (c <? 224) && (1 <? scancode_set s)); [|done].
  by destruct (nz (Z.land c 128)).
Qed.

Lemma put_keycodes_eq cs s :
  fold_left ps2_put_keycode cs s =
  set_kcommon (fold_left (fun s b => ps2_queue b s)
    (cs ≫= keycode_bytes (translate s) (scancode_set s)) (kcommon s)) s.
Proof.
  revert s. induction cs as [|c cs IH]; intros s; [by destruct s|].
  cbn [fold_left]. rewrite ps2_put_keycode_eq, IH, bind_cons, fold_left_app. by destruct s.
Qed.

(** What the guest receives for a key event. *)
Definition key_stream (tr set n : Z) (down : bool) : list Z :=
  u8 <$> (qemu_input_key_value_to_scancode (KEY_NUMBER n) down ≫= keycode_bytes tr set).

(** Raw scancode set 2: the release of a key is marked by [0xf0], but the keys
    [0x60 .. 0x7f] are released with an untranslated byte. *)
Definition raw2_stream (n : Z) (down : bool) : list Z :=
  let k := Z.land n 127 in
  (if n <? 128 then [] else [224]) ++
  (if down then [aget ps2_raw_keycode k]
   else if k <? 96 then [240; aget ps2_raw_keycode k] else [k + 128]).

Lemma key_stream_raw2 n down : 0 <= n < 256 -> key_stream 0 2 n down = raw2_stream n down.
Proof. destruct down; apply (byte_ind (fun n => _ = _) n); vm_compute; reflexivity. Qed.

Lemma key_stream_translated tr set n down :
  0 <= n < 256 -> tr <> 0 -> key_stream tr set n down = qemu_input_key_value_to_scancode (KEY_NUMBER n) down.
Proof.
  intros Hn Htr. unfold key_stream.
  replace (_ ≫= keycode_bytes tr set) with (qemu_input_key_value_to_scancode (KEY_NUMBER n) down).
  - destruct down; apply (byte_ind (fun n => _ = _) n); (vm_compute; reflexivity) || done.
  - generalize (qemu_input_key_value_to_scancode (KEY_NUMBER n) down) as l.
    assert (forall c, keycode_bytes tr set c = [c]) as Hk.
    { intros c. unfold keycode_bytes. by destruct (Z.eqb_spec tr 0). }
    induction l as [|c l IH]; [done|]. by rewrite bind_cons, Hk, <- IH.
Qed.

Lemma keyboard_event_contents s n down :
  queue_wf (kcommon s) -> 0 <= n < 256 ->
  count (queue (kcommon s)) +
    Z.of_nat (length (key_stream (translate s) (scancode_set s) n down)) < PS2_QUEUE_SIZE ->
  let s' := ps2_keyboard_event (EvKey (KEY_NUMBER n) down) s in
  queue_wf (kcommon s') /\
  contents (kcommon s') = contents (kcommon s) ++ key_stream (translate s) (scancode_set s) n down.
Proof.
  intros Hwf Hn Hroom. cbn [ps2_keyboard_event]. unfold key_stream in *. rewrite length_fmap in Hroom.
  rewrite put_keycodes_eq. cbn [kcommon set_kcommon].
  destruct (queue_many (qemu_input_key_value_to_scancode (KEY_NUMBER n) down
    ≫= keycode_bytes (translate s) (scancode_set s)) (kcommon s)) as (H1 & H2 & _); done.
Qed.

(** What a key event puts into the keyboard queue, when it has room.  In
    translated mode it is the scancodes of the key.  In raw set 2 it is the
    translation of the key, with [0xf0] before a release; the release of a key
    from [0x60] to [0x7f] is sent untranslated and without [0xf0]. *)
Theorem keyboard_event_stream s n down :
  queue_wf (kcommon s) -> 0 <= n < 256 -> count (queue (kcommon s)) + 3 < PS2_QUEUE_SIZE ->
  let s' := ps2_keyboard_event (EvKey (KEY_NUMBER n) down) s in
  (translate s <> 0 -> contents (kcommon s') =
     contents (kcommon s) ++ qemu_input_key_value_to_scancode (KEY_NUMBER n) down) /\
  (translate s = 0 -> scancode_set s = 2 -> contents (kcommon s') =
     contents (kcommon s) ++ raw2_stream n down).
Proof.
  intros Hwf Hn Hroom. cbv zeta.
  assert ((length (qemu_input_key_value_to_scancode (KEY_NUMBER n) down) <= 3)%nat) as L1.
  { rewrite scancode_number by done. rewrite length_app. destruct (n <? 128); simpl; lia. }
  assert ((length (raw2_stream n down) <= 3)%nat) as L2.
  { unfold raw2_stream. rewrite length_app. destruct (n <? 128), down, (Z.land n 127 <? 96); simpl; lia. }
  split.
  - intros Htr. pose proof (key_stream_translated (translate s) (scancode_set s) n down Hn Htr) as E.
    rewrite <- E. apply keyboard_event_contents; [done..|]. rewrite E. lia.
  - intros Htr Hset. pose proof (key_stream_raw2 n down Hn) as E. rewrite <- E.
    rewrite <- Htr, <- Hset at 1. apply keyboard_event_contents; [done..|]. rewrite Htr, Hset, E. lia.
Qed.

Lemma keyboard_event_stream_witness :
  let s := ps2_kbd_init in
  let s' := ps2_keyboard_event (EvKey (KEY_NUMBER 115) false) s in
  (translate s <> 0 -> contents (kcommon s') =
     contents (kcommon s) ++ qemu_input_key_value_to_scancode (KEY_NUMBER 115) false) /\
  (translate s = 0 -> scancode_set s = 2 -> contents (kcommon s') =
     contents (kcommon s) ++ [243]).
Proof.
  intros s s'. apply (keyboard_event_stream s 115 false); [apply ps2_zero_wf|lia|reflexivity].
Defined.

(** ** Mouse *)

(** A packet as the guest driver reads it: buttons, motion, and the rest of
    the stream. *)
Definition decode_packet (t : Z) (l : list Z) : option ((Z * Z * Z * Z) * list Z) :=
  match l with
  | b :: x :: y :: l' =>
      let dx := x - 256 * b2z (Z.testbit b 4) in
      let dy := y - 256 * b2z (Z.testbit b 5) in
      let buttons := Z.land b 7 in
      if t =? 3 then
        match l' with z :: l'' => Some ((buttons, dx, dy, s8 z), l'') | [] => None end
      else if t =? 4 then
        match l' with
        | z :: l'' => Some ((buttons, dx, dy, (Z.land z 15 + 8) mod 16 - 8), l'')
        | [] => None
        end
      else Some ((buttons, dx, dy, 0), l')
  | _ => None
  end.

(** A stream that is a sequence of packets. *)
Inductive packets (t : Z) : list Z -> list (Z * Z * Z * Z) -> Prop :=
| packets_nil : packets t [] []
| packets_cons l p l' ps : decode_packet t l = Some (p, l') -> packets t l' ps -> packets t l (p :: ps).

Definition p_buttons (p : Z * Z * Z * Z) : Z := let '(b, _, _, _) := p in b.
Definition p_dx (p : Z * Z * Z * Z) : Z := let '(_, dx, _, _) := p in dx.
Definition p_dy (p : Z * Z * Z * Z) : Z := let '(_, _, dy, _) := p in dy.
Definition p_dz (p : Z * Z * Z * Z) : Z := let '(_, _, _, dz) := p in dz.
Definition total {A} (f : A -> Z) (l : list A) : Z := foldr (fun x a => f x + a) 0 l.

Lemma clamp_range n v : 0 <= n -> - n <= clamp n v <= n.
Proof. intros Hn. unfold clamp. zdecide; lia. Qed.

Lemma head_byte bx by_ m :
  0 <= m < 8 ->
  let b := Z.lor (Z.lor (Z.lor 8 (Z.shiftl (b2z bx) 4)) (Z.shiftl (b2z by_) 5)) m in
  Z.testbit b 4 = bx /\ Z.testbit b 5 = by_ /\ Z.land b 7 = m /\ u8 b = b.
Proof.
  intros Hm.
  assert (m = 0 \/ m = 1 \/ m = 2 \/ m = 3 \/ m = 4 \/ m = 5 \/ m = 6 \/ m = 7) as Hms by lia.
  destruct bx, by_; repeat destruct Hms as [->|Hms]; subst; done.
Qed.

Lemma signed_byte d : -127 <= d <= 127 -> Z.land d 255 - 256 * b2z (d <? 0) = d.
Proof.
  intros Hd. change 255 with (Z.ones 8). rewrite Z.land_ones by lia. change (2 ^ 8) with 256.
  destruct (Z.ltb_spec d 0); simpl b2z.
  - rewrite <- (Z.mod_add d 1), Z.mod_small by lia. lia.
  - rewrite Z.mod_small by lia. lia.
Qed.

Lemma byte_u8 d : u8 (Z.land d 255) = Z.land d 255.
Proof. apply u8_small, land_range_u8_r. lia. Qed.

Lemma land_24 b : Z.land b 24 = 0 \/ Z.land b 24 = 8 \/ Z.land b 24 = 16 \/ Z.land b 24 = 24.
Proof.
  change 24 with (Z.lor (2 ^ 3) (2 ^ 4)). rewrite Z.land_lor_distr_r.
  rewrite !land_pow2_testbit by lia. destruct (Z.testbit b 3), (Z.testbit b 4); simpl; auto.
Qed.

Lemma wheel3 d : -127 <= d <= 127 -> s8 (Z.land d 255) = d.
Proof.
  intros Hd. change 255 with (Z.ones 8). rewrite Z.land_ones by lia. change (2 ^ 8) with 256.
  unfold s8. rewrite Zplus_mod_idemp_l, Z.mod_small by lia. lia.
Qed.

Lemma wheel4 d b :
  -7 <= d <= 7 ->
  let z := Z.lor (Z.land d 15) (Z.shiftl (Z.land b 24) 1) in
  u8 z = z /\ (Z.land z 15 + 8) mod 16 - 8 = d.
Proof.
  intros Hd. assert (d = -7 \/ d = -6 \/ d = -5 \/ d = -4 \/ d = -3 \/ d = -2 \/ d = -1 \/ d = 0 \/
    d = 1 \/ d = 2 \/ d = 3 \/ d = 4 \/ d = 5 \/ d = 6 \/ d = 7) as Hds by lia.
  destruct (land_24 b) as [->|[->|[->| ->]]]; repeat destruct Hds as [->|Hds]; subst; done.
Qed.

Definition has_wheel (t : Z) : bool := (t =? 3) || (t =? 4).

(** The guest decodes a packet to the clamped motion and the buttons. *)
Lemma packet_decode s rest :
  let '(bytes, (dx1, dy1, dz1)) := packet s in
  decode_packet (mouse_type s) ((u8 <$> bytes) ++ rest) =
    Some ((Z.land (mouse_buttons s) 7, dx1, dy1, if has_wheel (mouse_type s) then dz1 else 0), rest) /\
  (3 <= length bytes <= 4)%nat.
Proof.
  unfold packet. pose proof (clamp_range 127 (mouse_dx s)). pose proof (clamp_range 127 (mouse_dy s)).
  pose proof (clamp_range 127 (mouse_dz s)). pose proof (clamp_range 7 (mouse_dz s)).
  set (dx1 := clamp 127 (mouse_dx s)) in *. set (dy1 := clamp 127 (mouse_dy s)) in *.
  destruct (head_byte (dx1 <? 0) (dy1 <? 0) (Z.land (mouse_buttons s) 7)) as (B4 & B5 & B7 & B8).
  { apply (land_range_r _ 7 3); lia. }
  set (b := Z.lor _ (Z.land (mouse_buttons s) 7)) in *.
  destruct (wheel4 (clamp 7 (mouse_dz s)) (mouse_buttons s)) as [W1 W2]; [lia|].
  unfold has_wheel, decode_packet.
  destruct (Z.eqb_spec (mouse_type s) 3) as [E3|]; [|destruct (Z.eqb_spec (mouse_type s) 4) as [E4|]];
    cbn [app fmap list_fmap orb length]; rewrite ?B8, ?byte_u8, ?B4, ?B5, ?B7, !signed_byte by lia.
  - rewrite wheel3 by lia. split; [done|lia].
  - rewrite W1, W2. split; [done|lia].
  - split; [done|lia].
Qed.

Lemma mqueue_fold bs s :
  fold_left (fun s b => mqueue b s) bs s =
  set_mcommon (fold_left (fun c b => ps2_queue b c) bs (mcommon s)) s.
Proof.
  revert s. induction bs as [|b bs IH]; intros s; [by destruct s|]. cbn [fold_left]. by rewrite IH.
Qed.

Lemma send_packet_spec s :
  queue_wf (mcommon s) -> count (queue (mcommon s)) < PS2_QUEUE_SIZE - 4 ->
  let s' := ps2_mouse_send_packet s in
  exists bs p, queue_wf (mcommon s') /\ contents (mcommon s') = contents (mcommon s) ++ bs /\
    (forall l, decode_packet (mouse_type s) (bs ++ l) = Some (p, l)) /\
    p_buttons p = Z.land (mouse_buttons s) 7 /\
    p_dx p + mouse_dx s' = mouse_dx s /\ p_dy p + mouse_dy s' = mouse_dy s /\
    (has_wheel (mouse_type s) = true -> p_dz p + mouse_dz s' = mouse_dz s) /\
    count (queue (mcommon s)) + 3 <= count (queue (mcommon s')) /\
    mouse_type s' = mouse_type s /\ mouse_buttons s' = mouse_buttons s.
Proof.
  intros Hwf Hroom. cbv zeta. unfold ps2_mouse_send_packet.
  pose proof (packet_decode s) as Hdec. destruct (packet s) as [bytes [[dx1 dy1] dz1]].
  rewrite mqueue_fold. pose proof (Hdec []) as [_ Hlen].
  destruct (queue_many bytes (mcommon s)) as (H1 & H2 & H3 & _); [done|lia|].
  exists (u8 <$> bytes), (Z.land (mouse_buttons s) 7, dx1, dy1,
    if has_wheel (mouse_type s) then dz1 else 0).
  cbn [set_deltas set_mcommon mcommon mouse_dx mouse_dy mouse_dz mouse_type mouse_buttons
       p_buttons p_dx p_dy p_dz].
  split; [done|]. split; [done|]. split; [intros l; apply Hdec|].
  split; [done|]. split; [lia|]. split; [lia|]. split; [intros ->; lia|]. split; [lia|done].
Qed.

(** What [ps2_mouse_sync] does when it sends the packets [ps]. *)
Definition sync_sent (ps : list (Z * Z * Z * Z)) (s s' : PS2MouseState) : Prop :=
  exists bs, contents (mcommon s') = contents (mcommon s) ++ bs /\
    packets (mouse_type s) bs ps /\ Forall (fun p => p_buttons p = Z.land (mouse_buttons s) 7) ps /\
    total p_dx ps + mouse_dx s' = mouse_dx s /\ total p_dy ps + mouse_dy s' = mouse_dy s /\
    (has_wheel (mouse_type s) = true -> total p_dz ps + mouse_dz s' = mouse_dz s) /\
    (no_motion s' = true \/ PS2_QUEUE_SIZE - 4 <= count (queue (mcommon s'))).

Lemma sync_sent_stop s :
  no_motion s = true \/ PS2_QUEUE_SIZE - 4 <= count (queue (mcommon s)) -> sync_sent [] s s.
Proof.
  intros Hstop. exists []. rewrite app_nil_r. repeat split; (done || constructor).
Qed.

Lemma send_loop_spec fuel s :
  queue_wf (mcommon s) -> PS2_QUEUE_SIZE - 4 <= count (queue (mcommon s)) + 3 * Z.of_nat fuel ->
  exists ps, sync_sent ps s (send_loop fuel s) /\
    (count (queue (mcommon s)) < PS2_QUEUE_SIZE - 4 -> ps <> []).
Proof.
  revert s. induction fuel as [|f IH]; intros s Hwf Hfuel.
  { cbn [send_loop]. exists []. split; [apply sync_sent_stop; right; lia|lia]. }
  cbn [send_loop]. destruct (Z.ltb_spec (count (queue (mcommon s))) (PS2_QUEUE_SIZE - 4)) as [Hlt|Hge].
  2: { exists []. split; [apply sync_sent_stop; by right|lia]. }
  destruct (send_packet_spec s Hwf Hlt) as (bs & p & Hwf1 & Hc & Hdec & Hb & Hx & Hy & Hz & Hcnt & Ht & Hbt).
  set (s1 := ps2_mouse_send_packet s) in *.
  assert (exists ps, sync_sent ps s1 (if no_motion s1 then s1 else send_loop f s1)) as (ps & bs' & R1 & R2 & R3 & R4 & R5 & R6 & R7).
  { destruct (no_motion s1) eqn:E; [exists []; apply sync_sent_stop; by left|].
    destruct (IH s1) as (ps & Hps & _); [done|lia|by exists ps]. }
  exists (p :: ps). split; [|done]. exists (bs ++ bs'). rewrite R1, Hc, app_assoc. rewrite Ht, Hbt in *.
  split; [done|]. split; [by econstructor|]. split; [by constructor|].
  cbn [total foldr]. fold (total p_dx ps) (total p_dy ps) (total p_dz ps).
  split; [lia|]. split; [lia|]. split; [intros Hw; specialize (R6 Hw); specialize (Hz Hw); lia|done].
Qed.

(** C39: [ps2_mouse_sync] reports motion without loss.  In remote mode, where the
    guest polls, it changes nothing.  Otherwise the bytes it adds to the queue are
    whole packets with the current buttons; the motion they report and the motion
    kept for later add up to the motion before (for the wheel, if the mouse is in a
    mode with a wheel; otherwise its motion is dropped); it stops only when nothing
    is left to report or at most four bytes of the queue are free; and when more are
    free at the start it sends at least one packet, so that a change of the buttons
    alone is reported too. *)
Theorem mouse_sync_conserves s :
  queue_wf (mcommon s) ->
  if nz (Z.land (mouse_status s) MOUSE_STATUS_REMOTE) then ps2_mouse_sync s = s
  else exists ps, sync_sent ps s (ps2_mouse_sync s) /\
    (count (queue (mcommon s)) < PS2_QUEUE_SIZE - 4 -> ps <> []).
Proof.
  intros Hwf. unfold ps2_mouse_sync. destruct (nz _); [done|].
  apply send_loop_spec; [done|]. destruct Hwf as (_ & _ & _ & Hc & _). change (Z.of_nat _) with 16.
  unfold PS2_QUEUE_SIZE in *. lia.
Qed.

Lemma mouse_sync_conserves_witness :
  exists ps, sync_sent ps (set_deltas 300 (-5) 0 ps2_mouse_init) (ps2_mouse_sync (set_deltas 300 (-5) 0 ps2_mouse_init)) /\
    (0 < 12 -> ps <> []).
Proof. apply (mouse_sync_conserves (set_deltas 300 (-5) 0 ps2_mouse_init)), ps2_zero_wf. Defined.

(** ** Migration *)

Lemma slice_linear n l p :
  0 <= p -> p + Z.of_nat n <= PS2_QUEUE_SIZE -> PS2_QUEUE_SIZE <= Z.of_nat (length l) ->
  slice n l p = take n (drop (Z.to_nat p) l).
Proof.
  revert p. induction n as [|n IH]; intros p Hp Hn Hl; [by rewrite take_0|]. cbn [slice].
  destruct (lookup_lt_is_Some_2 l (Z.to_nat p)) as [v Hv]; [lia|].
  rewrite (drop_S l v) by done. cbn [take]. unfold aget at 1. rewrite Hv. cbn [default from_option id]. f_equal.
  unfold next_ptr. destruct (Z.eqb_spec (p + 1) PS2_QUEUE_SIZE) as [E|].
  - assert (n = 0)%nat as -> by lia. by rewrite take_0.
  - rewrite IH by lia. by replace (Z.to_nat (p + 1)) with (S (Z.to_nat p)) by lia.
Qed.

Lemma collect_slice n l p :
  0 <= p -> p + Z.of_nat n <= PS2_QUEUE_SIZE -> length l = 256%nat ->
  collect n l p = Ok (slice n l p).
Proof.
  revert p. induction n as [|n IH]; intros p Hp Hn Hl; [done|]. cbn [collect slice].
  unfold PS2_QUEUE_SIZE in *. unfold aget_chk.
  destruct (Z.leb_spec 0 p), (Z.ltb_spec p (Z.of_nat (length l))); try lia. cbn [andb mbind outcome_bind].
  destruct (Z.eqb_spec (p + 1) 256); [lia|]. unfold next_ptr, PS2_QUEUE_SIZE.
  destruct (Z.eqb_spec (p + 1) 16) as [E|].
  - assert (n = 0)%nat as -> by lia. done.
  - by rewrite IH by lia.
Qed.

Lemma int_bytes_length l : length (l ≫= int_bytes) = (4 * length l)%nat.
Proof.
  induction l as [|v l IH]; [done|]. rewrite bind_cons, length_app, IH. simpl. lia.
Qed.

Lemma post_load_contents s :
  queue_wf s -> rptr (queue s) + count (queue s) <= PS2_QUEUE_SIZE ->
  exists s', ps2_common_post_load s = Ok s' /\ queue_wf s' /\
    contents s' = take (length (contents s)) (contents s ≫= int_bytes).
Proof.
  intros Hwf Hnw. pose proof (contents_length s Hwf) as Hcl.
  pose proof Hwf as (Hl & Hr & Hw & Hc & Hm). unfold ps2_common_post_load.
  destruct (Z.ltb_spec PS2_QUEUE_SIZE (count (queue s))); [lia|].
  assert (Z.to_nat (count (queue s)) = length (contents s)) as En by lia.
  destruct (Z.ltb_spec 0 (count (queue s))) as [Hpos|Hz].
  - rewrite collect_slice by lia. fold (contents s). rewrite En. cbn [mbind outcome_bind].
    eexists. split; [reflexivity|]. set (d := take _ _ ++ _).
    assert (length d = 256%nat) as Hd.
    { unfold d. rewrite length_app, length_take, length_drop, int_bytes_length. unfold PS2_QUEUE_SIZE in *. lia. }
    split.
    + unfold queue_wf. cbn [queue data rptr wptr count]. unfold PS2_QUEUE_SIZE in *.
      rewrite Z.add_0_l, Z.mod_small by lia. repeat split; (done || lia).
    + unfold contents at 1. cbn [queue data rptr count]. rewrite En.
      rewrite slice_linear by (unfold PS2_QUEUE_SIZE in *; lia). rewrite drop_0. unfold d.
      apply take_app_length'. rewrite length_take, int_bytes_length. lia.
  - eexists. split; [reflexivity|]. assert (count (queue s) = 0) as E0 by lia.
    assert (contents s = []) as -> by (apply nil_length_inv; lia). split.
    + unfold queue_wf. cbn [queue data rptr wptr count]. rewrite E0. unfold PS2_QUEUE_SIZE in *.
      repeat split; (done || lia).
    + unfold contents. cbn [queue count]. by rewrite E0.
Qed.

(** Saving or loading a machine state damages the PS/2 queues.  The loop
    copies the waiting bytes into an array of [int], but [memcpy] copies as
    many bytes as there are elements: at most one waiting byte survives, and
    with two or more the second one becomes 0. *)
Theorem post_load_damages_queue s :
  queue_wf s -> rptr (queue s) + count (queue s) <= PS2_QUEUE_SIZE ->
  Forall (fun b => 0 <= b < 256) (contents s) ->
  exists s', ps2_common_post_load s = Ok s' /\ queue_wf s' /\
    length (contents s') = length (contents s) /\ head (contents s') = head (contents s) /\
    ((2 <= length (contents s))%nat -> contents s' !! 1%nat = Some 0).
Proof.
  intros Hwf Hnw Hb. destruct (post_load_contents s Hwf Hnw) as (s' & Hs' & Hwf' & Hc).
  exists s'. split; [done|]. split; [done|].
  split; [rewrite Hc, length_take, int_bytes_length; lia|]. rewrite Hc.
  destruct (contents s) as [|b [|b2 l]]; [split; [done|simpl; lia]| |]; apply Forall_inv in Hb;
    rewrite bind_cons; cbn [int_bytes app length take head lookup list_lookup].
  - rewrite u8_small by done. split; [done|lia].
  - rewrite u8_small, Z.shiftr_div_pow2 by lia. split; [done|]. intros _.
    change (2 ^ 8) with 256. by rewrite Z.div_small by lia.
Qed.

(** Two scancodes wait; after the copy the release is gone. *)
Definition demo_waiting : PS2State := (qrun [QPut 30; QPut 158] ps2_zero).2.

Lemma post_load_damages_queue_witness :
  exists s', ps2_common_post_load demo_waiting = Ok s' /\ queue_wf s' /\
    length (contents s') = 2%nat /\ head (contents s') = Some 30 /\
    ((2 <= 2)%nat -> contents s' !! 1%nat = Some 0).
Proof.
  apply (post_load_damages_queue demo_waiting).
  - by apply ps2_queue_wf, ps2_queue_wf, ps2_zero_wf.
  - vm_compute. discriminate.
  - apply Forall_forall. intros b Hb. vm_compute in Hb.
    apply list_elem_of_In in Hb. simpl in Hb. lia.
Defined.
