(* ===== verification/PCKbd.v ===== *)
(** * The PC keyboard controller (hw/input/pckbd.c)

    The i8042 joins the two PS/2 devices: the guest reads their bytes at port
    0x60, the keyboard first, sees what is waiting in the status register at
    port 0x64, and gets IRQ 1 or 12.  The lines the controller drives (two
    interrupts, A20, the reset request) are fields of the state. *)

From S2P Require Import Prelude InputCore PS2.

(** ** Data *)

Definition KBD_CCMD_READ_MODE : Z := 32.
Definition KBD_CCMD_WRITE_MODE : Z := 96.
Definition KBD_CCMD_MOUSE_DISABLE : Z := 167.
Definition KBD_CCMD_MOUSE_ENABLE : Z := 168.
Definition KBD_CCMD_TEST_MOUSE : Z := 169.
Definition KBD_CCMD_SELF_TEST : Z := 170.
Definition KBD_CCMD_KBD_TEST : Z := 171.
Definition KBD_CCMD_KBD_DISABLE : Z := 173.
Definition KBD_CCMD_KBD_ENABLE : Z := 174.
Definition KBD_CCMD_READ_INPORT : Z := 192.
Definition KBD_CCMD_READ_OUTPORT : Z := 208.
Definition KBD_CCMD_WRITE_OUTPORT : Z := 209.
Definition KBD_CCMD_WRITE_OBUF : Z := 210.
Definition KBD_CCMD_WRITE_AUX_OBUF : Z := 211.
Definition KBD_CCMD_WRITE_MOUSE : Z := 212.
Definition KBD_CCMD_DISABLE_A20 : Z := 221.
Definition KBD_CCMD_ENABLE_A20 : Z := 223.
Definition KBD_CCMD_PULSE_BITS_3_0 : Z := 240.
Definition KBD_CCMD_RESET : Z := 254.
Definition KBD_CCMD_NO_OP : Z := 255.

Definition KBD_STAT_OBF : Z := 1.
Definition KBD_STAT_SELFTEST : Z := 4.
Definition KBD_STAT_CMD : Z := 8.
Definition KBD_STAT_UNLOCKED : Z := 16.
Definition KBD_STAT_MOUSE_OBF : Z := 32.
Definition KBD_MODE_KBD_INT : Z := 1.
Definition KBD_MODE_MOUSE_INT : Z := 2.
Definition KBD_MODE_DISABLE_KBD : Z := 16.
Definition KBD_MODE_DISABLE_MOUSE : Z := 32.
Definition KBD_MODE_KCC : Z := 64.
Definition KBD_OUT_RESET : Z := 1.
Definition KBD_OUT_A20 : Z := 2.
Definition KBD_OUT_OBF : Z := 16.
Definition KBD_OUT_MOUSE_OBF : Z := 32.
Definition KBD_OUT_ONES : Z := 204.
Definition KBD_PENDING_KBD : Z := 1.
Definition KBD_PENDING_AUX : Z := 2.

(** [a20_out] is [None] while no line is connected; [resets] counts the calls
    of [qemu_system_reset_request]. *)
Record KBDState := mk_kbc {
  k_write_cmd : Z;
  k_status : Z;
  k_mode : Z;
  k_outport : Z;
  k_outport_present : bool;
  k_pending : Z;
  kbd : PS2KbdState;
  mouse : PS2MouseState;
  irq_kbd : bool;
  irq_mouse : bool;
  a20_out : option bool;
  resets : nat
}.

Definition set_k_write_cmd (v : Z) (s : KBDState) : KBDState :=
  mk_kbc v (k_status s) (k_mode s) (k_outport s) (k_outport_present s) (k_pending s)
    (kbd s) (mouse s) (irq_kbd s) (irq_mouse s) (a20_out s) (resets s).
Definition set_k_status (v : Z) (s : KBDState) : KBDState :=
  mk_kbc (k_write_cmd s) v (k_mode s) (k_outport s) (k_outport_present s) (k_pending s)
    (kbd s) (mouse s) (irq_kbd s) (irq_mouse s) (a20_out s) (resets s).
Definition set_k_mode (v : Z) (s : KBDState) : KBDState :=
  mk_kbc (k_write_cmd s) (k_status s) v (k_outport s) (k_outport_present s) (k_pending s)
    (kbd s) (mouse s) (irq_kbd s) (irq_mouse s) (a20_out s) (resets s).
Definition set_k_outport (v : Z) (s : KBDState) : KBDState :=
  mk_kbc (k_write_cmd s) (k_status s) (k_mode s) v (k_outport_present s) (k_pending s)
    (kbd s) (mouse s) (irq_kbd s) (irq_mouse s) (a20_out s) (resets s).
Definition set_k_pending (v : Z) (s : KBDState) : KBDState :=
  mk_kbc (k_write_cmd s) (k_status s) (k_mode s) (k_outport s) (k_outport_present s) v
    (kbd s) (mouse s) (irq_kbd s) (irq_mouse s) (a20_out s) (resets s).
Definition set_kbd (k : PS2KbdState) (s : KBDState) : KBDState :=
  mk_kbc (k_write_cmd s) (k_status s) (k_mode s) (k_outport s) (k_outport_present s) (k_pending s)
    k (mouse s) (irq_kbd s) (irq_mouse s) (a20_out s) (resets s).
Definition set_mouse (m : PS2MouseState) (s : KBDState) : KBDState :=
  mk_kbc (k_write_cmd s) (k_status s) (k_mode s) (k_outport s) (k_outport_present s) (k_pending s)
    (kbd s) m (irq_kbd s) (irq_mouse s) (a20_out s) (resets s).
Definition set_a20 (level : bool) (s : KBDState) : KBDState :=
  mk_kbc (k_write_cmd s) (k_status s) (k_mode s) (k_outport s) (k_outport_present s) (k_pending s)
    (kbd s) (mouse s) (irq_kbd s) (irq_mouse s) (match a20_out s with Some _ => Some level | None => None end)
    (resets s).
Definition qemu_system_reset_request (s : KBDState) : KBDState :=
  mk_kbc (k_write_cmd s) (k_status s) (k_mode s) (k_outport s) (k_outport_present s) (k_pending s)
    (kbd s) (mouse s) (irq_kbd s) (irq_mouse s) (a20_out s) (S (resets s)).

(** ** Interrupts *)

Definition clear_bits (v mask : Z) : Z := Z.land v (Z.lnot mask).

Definition kbd_update_irq (s : KBDState) : KBDState :=
  let status := clear_bits (k_status s) (Z.lor KBD_STAT_OBF KBD_STAT_MOUSE_OBF) in
  let outport := clear_bits (k_outport s) (Z.lor KBD_OUT_OBF KBD_OUT_MOUSE_OBF) in
  let '(status, outport, irq_kbd_level, irq_mouse_level) :=
    if nz (k_pending s) then
      let status := Z.lor status KBD_STAT_OBF in
      let outport := Z.lor outport KBD_OUT_OBF in
      if k_pending s =? KBD_PENDING_AUX then
        (Z.lor status KBD_STAT_MOUSE_OBF, Z.lor outport KBD_OUT_MOUSE_OBF, false,
         nz (Z.land (k_mode s) KBD_MODE_MOUSE_INT))
      else
        (status, outport,
         nz (Z.land (k_mode s) KBD_MODE_KBD_INT) && negb (nz (Z.land (k_mode s) KBD_MODE_DISABLE_KBD)),
         false)
    else (status, outport, false, false) in
  mk_kbc (k_write_cmd s) status (k_mode s) outport (k_outport_present s) (k_pending s)
    (kbd s) (mouse s) irq_kbd_level irq_mouse_level (a20_out s) (resets s).

Definition kbd_update_kbd_irq (s : KBDState) (level : bool) : KBDState :=
  kbd_update_irq (set_k_pending
    (if level then Z.lor (k_pending s) KBD_PENDING_KBD else clear_bits (k_pending s) KBD_PENDING_KBD) s).

Definition kbd_update_aux_irq (s : KBDState) (level : bool) : KBDState :=
  kbd_update_irq (set_k_pending
    (if level then Z.lor (k_pending s) KBD_PENDING_AUX else clear_bits (k_pending s) KBD_PENDING_AUX) s).

(** Run an operation of a device and its calls of [update_irq]. *)
Definition taken (c : PS2State) : PS2State := mk_ps2 (queue c) (write_cmd c) [].

Definition on_kbd (f : PS2KbdState -> PS2KbdState) (s : KBDState) : KBDState :=
  let k := f (kbd s) in
  fold_left kbd_update_kbd_irq (irq_calls (kcommon k)) (set_kbd (set_kcommon (taken (kcommon k)) k) s).

Definition on_mouse (f : PS2MouseState -> PS2MouseState) (s : KBDState) : KBDState :=
  let m := f (mouse s) in
  fold_left kbd_update_aux_irq (irq_calls (mcommon m)) (set_mouse (set_mcommon (taken (mcommon m)) m) s).

(** ** Ports *)

Definition kbd_read_status (s : KBDState) : Z := k_status s.

Definition kbd_queue (b : Z) (aux : bool) (s : KBDState) : KBDState :=
  if aux then on_mouse (mqueue b) s else on_kbd (kqueue b) s.

Definition outport_write (val : Z) (s : KBDState) : KBDState :=
  let s := set_a20 (nz (Z.land (Z.shiftr val 1) 1)) (set_k_outport (u8 val) s) in
  if nz (Z.land val 1) then s else qemu_system_reset_request s.

Definition kbd_write_command (val : Z) (s : KBDState) : KBDState :=
  let val :=
    if Z.land val KBD_CCMD_PULSE_BITS_3_0 =? KBD_CCMD_PULSE_BITS_3_0
    then if nz (Z.land val 1) then KBD_CCMD_NO_OP else KBD_CCMD_RESET
    else val in
  if val =? KBD_CCMD_READ_MODE then kbd_queue (k_mode s) false s
  else if (val =? KBD_CCMD_WRITE_MODE) || (val =? KBD_CCMD_WRITE_OBUF) ||
          (val =? KBD_CCMD_WRITE_AUX_OBUF) || (val =? KBD_CCMD_WRITE_MOUSE) ||
          (val =? KBD_CCMD_WRITE_OUTPORT) then set_k_write_cmd val s
  else if val =? KBD_CCMD_MOUSE_DISABLE then set_k_mode (Z.lor (k_mode s) KBD_MODE_DISABLE_MOUSE) s
  else if val =? KBD_CCMD_MOUSE_ENABLE then set_k_mode (clear_bits (k_mode s) KBD_MODE_DISABLE_MOUSE) s
  else if val =? KBD_CCMD_TEST_MOUSE then kbd_queue 0 false s
  else if val =? KBD_CCMD_SELF_TEST then
    kbd_queue 85 false (set_k_status (Z.lor (k_status s) KBD_STAT_SELFTEST) s)
  else if val =? KBD_CCMD_KBD_TEST then kbd_queue 0 false s
  else if val =? KBD_CCMD_KBD_DISABLE then
    kbd_update_irq (set_k_mode (Z.lor (k_mode s) KBD_MODE_DISABLE_KBD) s)
  else if val =? KBD_CCMD_KBD_ENABLE then
    kbd_update_irq (set_k_mode (clear_bits (k_mode s) KBD_MODE_DISABLE_KBD) s)
  else if val =? KBD_CCMD_READ_INPORT then kbd_queue 128 false s
  else if val =? KBD_CCMD_READ_OUTPORT then kbd_queue (k_outport s) false s
  else if val =? KBD_CCMD_ENABLE_A20 then
    set_k_outport (Z.lor (k_outport s) KBD_OUT_A20) (set_a20 true s)
  else if val =? KBD_CCMD_DISABLE_A20 then
    set_k_outport (clear_bits (k_outport s) KBD_OUT_A20) (set_a20 false s)
  else if val =? KBD_CCMD_RESET then qemu_system_reset_request s
  else s.

(** The read and its effect on the device that is read. *)
Definition kbd_read_data (s : KBDState) : Z * KBDState :=
  if k_pending s =? KBD_PENDING_AUX then
    ((ps2_read_data (mcommon (mouse s))).1,
     on_mouse (fun m => set_mcommon (ps2_read_data (mcommon m)).2 m) s)
  else
    ((ps2_read_data (kcommon (kbd s))).1,
     on_kbd (fun k => set_kcommon (ps2_read_data (kcommon k)).2 k) s).

Definition kbd_write_data (val : Z) (s : KBDState) : KBDState :=
  let cmd := k_write_cmd s in
  let s :=
    if cmd =? 0 then on_kbd (ps2_write_keyboard val) s
    else if cmd =? KBD_CCMD_WRITE_MODE then
      let s := set_k_mode (u8 val) s in
      kbd_update_irq (on_kbd (ps2_keyboard_set_translation
        (b2z (nz (Z.land (k_mode s) KBD_MODE_KCC)))) s)
    else if cmd =? KBD_CCMD_WRITE_OBUF then kbd_queue val false s
    else if cmd =? KBD_CCMD_WRITE_AUX_OBUF then kbd_queue val true s
    else if cmd =? KBD_CCMD_WRITE_OUTPORT then outport_write val s
    else if cmd =? KBD_CCMD_WRITE_MOUSE then on_mouse (ps2_write_mouse val) s
    else s in
  set_k_write_cmd 0 s.

(** ** Reset and migration *)

Definition kbd_reset (s : KBDState) : KBDState :=
  mk_kbc (k_write_cmd s) (Z.lor KBD_STAT_CMD KBD_STAT_UNLOCKED)
    (Z.lor KBD_MODE_KBD_INT KBD_MODE_MOUSE_INT)
    (Z.lor (Z.lor KBD_OUT_RESET KBD_OUT_A20) KBD_OUT_ONES) false (k_pending s)
    (kbd s) (mouse s) (irq_kbd s) (irq_mouse s) (a20_out s) (resets s).

(** The reset handlers run in the order they were registered. *)
Definition system_reset (s : KBDState) : KBDState :=
  kbd_reset (on_mouse ps2_mouse_reset (on_kbd ps2_kbd_reset s)).

Definition kbd_outport_default (s : KBDState) : Z :=
  Z.lor (Z.lor (Z.lor (Z.lor KBD_OUT_RESET KBD_OUT_A20) KBD_OUT_ONES)
           (if nz (Z.land (k_status s) KBD_STAT_OBF) then KBD_OUT_OBF else 0))
    (if nz (Z.land (k_status s) KBD_STAT_MOUSE_OBF) then KBD_OUT_MOUSE_OBF else 0).

Definition set_present (b : bool) (s : KBDState) : KBDState :=
  mk_kbc (k_write_cmd s) (k_status s) (k_mode s) (k_outport s) b (k_pending s)
    (kbd s) (mouse s) (irq_kbd s) (irq_mouse s) (a20_out s) (resets s).

Definition kbd_outport_post_load (s : KBDState) : KBDState := set_present true s.
Definition kbd_outport_needed (s : KBDState) : bool := negb (k_outport s =? kbd_outport_default s).
Definition kbd_post_load (s : KBDState) : KBDState :=
  set_present false (if k_outport_present s then s else set_k_outport (kbd_outport_default s) s).

(** Creation, before the first reset; [a20] tells whether the line is
    connected. *)
Definition i8042_realizefn (a20 : bool) : KBDState :=
  mk_kbc 0 0 0 0 false 0 ps2_kbd_init ps2_mouse_init false false (if a20 then Some false else None) 0.

Definition i8042_isa_mouse_fake_event (s : KBDState) : KBDState := on_mouse ps2_mouse_fake_event s.

(** Memory-mapped variant of the ports. *)
Definition kbd_mm_readb (mask addr : Z) (s : KBDState) : Z * KBDState :=
  if nz (Z.land addr mask) then (Z.land (kbd_read_status s) 255, s)
  else let '(v, s) := kbd_read_data s in (Z.land v 255, s).
Definition kbd_mm_writeb (mask addr value : Z) (s : KBDState) : KBDState :=
  if nz (Z.land addr mask) then kbd_write_command (Z.land value 255) s
  else kbd_write_data (Z.land value 255) s.

(** ** The devices behind the input core: 0 is the keyboard, 1 the mouse *)

#[export] Instance ps2_devices : InputDevices KBDState := {
  dev_event := fun dev e s =>
    if dev =? 0 then on_kbd (ps2_keyboard_event e) s
    else if dev =? 1 then on_mouse (ps2_mouse_event e) s else s;
  dev_sync := fun dev => if dev =? 1 then Some (on_mouse ps2_mouse_sync) else None
}.

(** ** Devices report every change of "something is waiting" *)

Definition waiting (c : PS2State) : bool := negb (count (queue c) =? 0).

(** The last of the levels [cs], or [d]. *)
Definition last_level (cs : list bool) (d : bool) : bool := fold_left (fun _ level => level) cs d.

(** From [c] to [c'] the device made the calls [cs] of [update_irq], and the
    last of them, if any, tells whether bytes are waiting. *)
Definition reports (c c' : PS2State) : Prop :=
  exists cs, irq_calls c' = irq_calls c ++ cs /\ waiting c' = last_level cs (waiting c) /\
    (queue_wf c -> queue_wf c').

#[export] Instance reports_preorder : PreOrder reports.
Proof.
  split.
  - intros c. exists []. by rewrite app_nil_r.
  - intros a b c (cs1 & E1 & W1 & Q1) (cs2 & E2 & W2 & Q2). exists (cs1 ++ cs2).
    unfold last_level in *. rewrite E2, E1, <- app_assoc, fold_left_app, W2, W1. auto.
Qed.

Create HintDb reports.

Lemma reports_queue b c : queue_wf c -> reports c (ps2_queue b c).
Proof.
  intros Hwf. pose proof (ps2_queue_wf b c Hwf) as Hwf'. destruct Hwf as (_ & _ & _ & Hc & _).
  unfold ps2_queue in *. destruct (PS2_QUEUE_SIZE - 1 <=? count (queue c)); [done|].
  exists [true]. split; [done|]. split; [|done]. unfold waiting. cbn [queue count last_level fold_left].
  destruct (Z.eqb_spec (count (queue c) + 1) 0); [lia|done].
Qed.

Lemma reports_read c : queue_wf c -> reports c (ps2_read_data c).2.
Proof.
  intros Hwf. pose proof (ps2_read_wf c Hwf) as Hwf'. unfold ps2_read_data in *.
  destruct (count (queue c) =? 0); [done|]. eexists. split; [reflexivity|]. split; [|done]. done.
Qed.

Lemma reports_cmd v c : reports c (set_write_cmd v c).
Proof. exists []. split; [by rewrite app_nil_r|]. done. Qed.

Lemma reports_reset c : reports c (ps2_common_reset c).
Proof.
  exists [false]. split; [done|]. split; [done|]. intros (Hl & _). unfold queue_wf, PS2_QUEUE_SIZE. simpl.
  repeat split; (done || lia).
Qed.

Lemma reports_wf c c' : reports c c' -> queue_wf c -> queue_wf c'.
Proof. intros (? & _ & _ & ?). auto. Qed.

(** Operations that report, given a well-formed queue. *)
Definition kbd_reports (f : PS2KbdState -> PS2KbdState) : Prop :=
  forall k, queue_wf (kcommon k) -> reports (kcommon k) (kcommon (f k)).
Definition mouse_reports (f : PS2MouseState -> PS2MouseState) : Prop :=
  forall m, queue_wf (mcommon m) -> reports (mcommon m) (mcommon (f m)).

Lemma kbd_reports_comp f g : kbd_reports f -> kbd_reports g -> kbd_reports (fun k => g (f k)).
Proof.
  intros Hf Hg k Hwf. pose proof (Hf k Hwf) as H1. transitivity (kcommon (f k)); [done|].
  by apply Hg, (reports_wf _ _ H1).
Qed.
Lemma mouse_reports_comp f g : mouse_reports f -> mouse_reports g -> mouse_reports (fun m => g (f m)).
Proof.
  intros Hf Hg m Hwf. pose proof (Hf m Hwf) as H1. transitivity (mcommon (f m)); [done|].
  by apply Hg, (reports_wf _ _ H1).
Qed.

Lemma kqueue_reports b k : queue_wf (kcommon k) -> reports (kcommon k) (kcommon (kqueue b k)).
Proof. apply reports_queue. Qed.
Lemma mqueue_reports b m : queue_wf (mcommon m) -> reports (mcommon m) (mcommon (mqueue b m)).
Proof. apply reports_queue. Qed.
#[export] Hint Resolve kqueue_reports mqueue_reports reports_cmd reports_read reports_reset : reports.


Lemma fold_reports {A} (f : A -> PS2State -> PS2State) l c :
  (forall a c, queue_wf c -> reports c (f a c)) -> queue_wf c ->
  reports c (fold_left (fun c a => f a c) l c).
Proof.
  intros Hf. revert c. induction l as [|a l IH]; intros c Hwf; [done|]. cbn [fold_left].
  transitivity (f a c); [by apply Hf|]. apply IH, (reports_wf c); [by apply Hf|done].
Qed.

Lemma put_keycode_reports c : kbd_reports (fun k => ps2_put_keycode k c).
Proof.
  intros k Hwf. rewrite ps2_put_keycode_eq. apply (fold_reports ps2_queue); [apply reports_queue|done].
Qed.

Lemma keyboard_event_reports e : kbd_reports (ps2_keyboard_event e).
Proof.
  intros k Hwf. destruct e; try done. cbn [ps2_keyboard_event]. rewrite put_keycodes_eq.
  apply (fold_reports ps2_queue); [apply reports_queue|done].
Qed.

(** The same, backwards from a fixed start: these resolve the chains of queue
    operations and field updates in the command interpreters. *)
Section Chains.
Context (c0 : PS2State) (Hwf : queue_wf c0).

Lemma chain_kqueue b k : reports c0 (kcommon k) -> reports c0 (kcommon (kqueue b k)).
Proof. intros Hr. etrans; [done|]. by apply kqueue_reports, (reports_wf c0). Qed.
Lemma chain_kcmd v k : reports c0 (kcommon k) -> reports c0 (kcommon (set_kcmd v k)).
Proof. intros Hr. etrans; [done|]. apply reports_cmd. Qed.
Lemma chain_scan v k : reports c0 (kcommon k) -> reports c0 (kcommon (set_scan_enabled v k)).
Proof. done. Qed.
Lemma chain_set v k : reports c0 (kcommon k) -> reports c0 (kcommon (set_scancode_set v k)).
Proof. done. Qed.
Lemma chain_led v k : reports c0 (kcommon k) -> reports c0 (kcommon (ps2_set_ledstate v k)).
Proof. done. Qed.
Lemma chain_kreset k : reports c0 (kcommon k) -> reports c0 (kcommon (ps2_reset_keyboard k)).
Proof. done. Qed.
Lemma chain_put v k : reports c0 (kcommon k) -> reports c0 (kcommon (ps2_put_keycode k v)).
Proof. intros Hr. etrans; [done|]. by apply put_keycode_reports, (reports_wf c0). Qed.

Lemma chain_mqueue b m : reports c0 (mcommon m) -> reports c0 (mcommon (mqueue b m)).
Proof. intros Hr. etrans; [done|]. by apply mqueue_reports, (reports_wf c0). Qed.
Lemma chain_mcmd v m : reports c0 (mcommon m) -> reports c0 (mcommon (set_mcmd v m)).
Proof. intros Hr. etrans; [done|]. apply reports_cmd. Qed.
Lemma chain_status v m : reports c0 (mcommon m) -> reports c0 (mcommon (set_status v m)).
Proof. done. Qed.
Lemma chain_resolution v m : reports c0 (mcommon m) -> reports c0 (mcommon (set_resolution v m)).
Proof. done. Qed.
Lemma chain_sample v m : reports c0 (mcommon m) -> reports c0 (mcommon (set_sample_rate v m)).
Proof. done. Qed.
Lemma chain_wrap v m : reports c0 (mcommon m) -> reports c0 (mcommon (set_wrap v m)).
Proof. done. Qed.
Lemma chain_type v m : reports c0 (mcommon m) -> reports c0 (mcommon (set_type v m)).
Proof. done. Qed.
Lemma chain_detect v m : reports c0 (mcommon m) -> reports c0 (mcommon (detect_step v m)).
Proof. intros Hr. unfold detect_step. by cases. Qed.
Lemma chain_deltas x y z m : reports c0 (mcommon m) -> reports c0 (mcommon (set_deltas x y z m)).
Proof. done. Qed.
Lemma chain_defaults m : reports c0 (mcommon m) -> reports c0 (mcommon (mouse_defaults m)).
Proof. done. Qed.
Lemma chain_packet m : reports c0 (mcommon m) -> reports c0 (mcommon (ps2_mouse_send_packet m)).
Proof.
  intros Hr. etrans; [done|]. unfold ps2_mouse_send_packet.
  destruct (packet m) as [bytes [[dx dy] dz]]. rewrite mqueue_fold.
  apply (fold_reports ps2_queue); [apply reports_queue|]. by apply (reports_wf c0).
Qed.
End Chains.

#[export] Hint Resolve chain_kqueue chain_kcmd chain_scan chain_set chain_led chain_kreset chain_put
  chain_mqueue chain_mcmd chain_status chain_resolution chain_sample chain_wrap chain_type chain_detect
  chain_deltas chain_defaults chain_packet : reports.
#[export] Hint Extern 0 (reports ?c ?c) => reflexivity : reports.

Lemma write_keyboard_reports v : kbd_reports (ps2_write_keyboard v).
Proof.
  intros k Hwf. unfold ps2_write_keyboard, kbd_command.
  cases; eauto 8 with reports.
Qed.

Lemma set_translation_reports v : kbd_reports (ps2_keyboard_set_translation v).
Proof. by intros k Hwf. Qed.

Lemma kbd_reset_reports : kbd_reports ps2_kbd_reset.
Proof. intros k Hwf. apply reports_reset. Qed.

Lemma write_mouse_reports v : mouse_reports (ps2_write_mouse v).
Proof.
  intros m Hwf. unfold ps2_write_mouse, mouse_command. cases; eauto 8 with reports.
Qed.

Lemma mouse_event_reports e : mouse_reports (ps2_mouse_event e).
Proof. intros m Hwf. unfold ps2_mouse_event. cases; reflexivity. Qed.

Lemma send_loop_reports c0 fuel m :
  queue_wf c0 -> reports c0 (mcommon m) -> reports c0 (mcommon (send_loop fuel m)).
Proof.
  intros Hwf. revert m. induction fuel as [|f IH]; intros m Hr; [done|]. cbn [send_loop].
  cases; eauto with reports.
Qed.

Lemma mouse_sync_reports : mouse_reports ps2_mouse_sync.
Proof. intros m Hwf. unfold ps2_mouse_sync. cases; [done|]. by apply send_loop_reports. Qed.

Lemma mouse_fake_reports : mouse_reports ps2_mouse_fake_event.
Proof. intros m Hwf. unfold ps2_mouse_fake_event. apply (mouse_sync_reports (set_deltas _ _ _ m)). done. Qed.

Lemma mouse_reset_reports : mouse_reports ps2_mouse_reset.
Proof. intros m Hwf. apply reports_reset. Qed.

#[export] Hint Resolve write_keyboard_reports set_translation_reports kbd_reset_reports
  keyboard_event_reports write_mouse_reports mouse_event_reports mouse_sync_reports mouse_fake_reports
  mouse_reset_reports : reports.

(** ** The controller's invariant *)

Definition pend (k m : bool) : Z := b2z k + 2 * b2z m.

(** Status bits and interrupt lines say what is pending. *)
Definition lines_ok (s : KBDState) : Prop :=
  Z.testbit (k_status s) 0 = nz (k_pending s) /\
  Z.testbit (k_status s) 5 = (k_pending s =? KBD_PENDING_AUX) /\
  irq_mouse s = (k_pending s =? KBD_PENDING_AUX) && Z.testbit (k_mode s) 1 /\
  irq_kbd s = nz (k_pending s) && negb (k_pending s =? KBD_PENDING_AUX) &&
              (Z.testbit (k_mode s) 0 && negb (Z.testbit (k_mode s) 4)).

Definition devices_ok (s : KBDState) : Prop :=
  queue_wf (kcommon (kbd s)) /\ queue_wf (mcommon (mouse s)) /\
  irq_calls (kcommon (kbd s)) = [] /\ irq_calls (mcommon (mouse s)) = [].

Definition kbc_inv (s : KBDState) : Prop :=
  devices_ok s /\ lines_ok s /\
  k_pending s = pend (waiting (kcommon (kbd s))) (waiting (mcommon (mouse s))).

Lemma update_irq_lines s : lines_ok (kbd_update_irq s).
Proof.
  pose proof (nz_land_pow2 (k_mode s) 0 ltac:(lia)) as M0.
  pose proof (nz_land_pow2 (k_mode s) 1 ltac:(lia)) as M1.
  pose proof (nz_land_pow2 (k_mode s) 4 ltac:(lia)) as M4.
  change (2 ^ 0) with 1 in M0. change (2 ^ 1) with 2 in M1. change (2 ^ 4) with 16 in M4.
  unfold lines_ok, kbd_update_irq, nz at 1, clear_bits, KBD_MODE_KBD_INT, KBD_MODE_MOUSE_INT,
    KBD_MODE_DISABLE_KBD, KBD_PENDING_AUX. rewrite M0, M1, M4. unfold nz.
  destruct (Z.eqb_spec (k_pending s) 0) as [E0|]; [|destruct (Z.eqb_spec (k_pending s) 2) as [E2|]];
    cbn [negb k_status k_pending k_mode irq_kbd irq_mouse];
    rewrite ?Z.lor_spec, ?Z.land_spec, ?Z.lnot_spec by lia.
  - rewrite E0. simpl. rewrite !andb_false_r. done.
  - rewrite E2. simpl. rewrite !orb_true_r. done.
  - destruct (Z.eqb_spec (k_pending s) 0), (Z.eqb_spec (k_pending s) 2); try done.
    simpl. rewrite !orb_true_r, !andb_false_r. done.
Qed.

(** The fields an interrupt update leaves alone. *)
Definition same_devices (s s' : KBDState) : Prop :=
  kbd s' = kbd s /\ mouse s' = mouse s /\ k_mode s' = k_mode s /\ k_write_cmd s' = k_write_cmd s /\
  a20_out s' = a20_out s /\ resets s' = resets s.

Lemma update_irq_same s : same_devices s (kbd_update_irq s) /\ k_pending (kbd_update_irq s) = k_pending s.
Proof.
  unfold kbd_update_irq. destruct (if nz (k_pending s) then _ else _) as [[[st o] a] b].
  repeat split.
Qed.

Lemma update_kbd_irq_spec s level k m :
  k_pending s = pend k m ->
  let s' := kbd_update_kbd_irq s level in
  k_pending s' = pend level m /\ lines_ok s' /\ same_devices s s'.
Proof.
  intros Hp. cbv zeta. unfold kbd_update_kbd_irq. set (s1 := set_k_pending _ s).
  destruct (update_irq_same s1) as [Hs ->]. split; [|split; [apply update_irq_lines|exact Hs]].
  unfold s1. cbn [k_pending set_k_pending]. rewrite Hp. by destruct level, k, m.
Qed.

Lemma update_aux_irq_spec s level k m :
  k_pending s = pend k m ->
  let s' := kbd_update_aux_irq s level in
  k_pending s' = pend k level /\ lines_ok s' /\ same_devices s s'.
Proof.
  intros Hp. cbv zeta. unfold kbd_update_aux_irq. set (s1 := set_k_pending _ s).
  destruct (update_irq_same s1) as [Hs ->]. split; [|split; [apply update_irq_lines|exact Hs]].
  unfold s1. cbn [k_pending set_k_pending]. rewrite Hp. by destruct level, k, m.
Qed.

Lemma same_devices_trans a b c : same_devices a b -> same_devices b c -> same_devices a c.
Proof. unfold same_devices. intuition congruence. Qed.

Lemma kbd_irq_fold cs s k m :
  k_pending s = pend k m -> lines_ok s ->
  let s' := fold_left kbd_update_kbd_irq cs s in
  k_pending s' = pend (last_level cs k) m /\ lines_ok s' /\ same_devices s s'.
Proof.
  revert s k. induction cs as [|level cs IH]; intros s k Hp Hl; [split; [done|split; [done|repeat split]]|].
  destruct (update_kbd_irq_spec s level k m Hp) as (Hp1 & Hl1 & Hs1).
  destruct (IH _ _ Hp1 Hl1) as (Hp2 & Hl2 & Hs2). split; [done|]. split; [done|].
  by eapply same_devices_trans.
Qed.

Lemma aux_irq_fold cs s k m :
  k_pending s = pend k m -> lines_ok s ->
  let s' := fold_left kbd_update_aux_irq cs s in
  k_pending s' = pend k (last_level cs m) /\ lines_ok s' /\ same_devices s s'.
Proof.
  revert s m. induction cs as [|level cs IH]; intros s m Hp Hl; [split; [done|split; [done|repeat split]]|].
  destruct (update_aux_irq_spec s level k m Hp) as (Hp1 & Hl1 & Hs1).
  destruct (IH _ _ Hp1 Hl1) as (Hp2 & Hl2 & Hs2). split; [done|]. split; [done|].
  by eapply same_devices_trans.
Qed.

(** What an operation on one device does to the controller. *)
Lemma on_kbd_spec f s :
  kbc_inv s -> kbd_reports f ->
  kbc_inv (on_kbd f s) /\ mouse (on_kbd f s) = mouse s /\
  kbd (on_kbd f s) = set_kcommon (taken (kcommon (f (kbd s)))) (f (kbd s)) /\
  k_mode (on_kbd f s) = k_mode s /\ k_write_cmd (on_kbd f s) = k_write_cmd s.
Proof.
  intros ((Hk & Hm & Ek & Em) & Hl & Hp) Hf. unfold on_kbd. set (k := f (kbd s)).
  destruct (Hf (kbd s) Hk) as (cs & Hcs & Hw & Hq). fold k in Hcs, Hw, Hq.
  rewrite Ek in Hcs. cbn [app] in Hcs. rewrite Hcs.
  set (s0 := set_kbd _ s).
  destruct (kbd_irq_fold cs s0 (waiting (kcommon (kbd s))) (waiting (mcommon (mouse s))) Hp Hl)
    as (Hp' & Hl' & Hkb & Hmo & Hmd & Hwc & _).
  rewrite Hkb, Hmo, Hmd, Hwc. split; [|done].
  split; [|split; [done|]].
  - unfold devices_ok. rewrite Hkb, Hmo. split; [by apply Hq|]. done.
  - rewrite Hp', Hkb, Hmo, <- Hw. done.
Qed.

Lemma on_mouse_spec f s :
  kbc_inv s -> mouse_reports f ->
  kbc_inv (on_mouse f s) /\ kbd (on_mouse f s) = kbd s /\
  mouse (on_mouse f s) = set_mcommon (taken (mcommon (f (mouse s)))) (f (mouse s)) /\
  k_mode (on_mouse f s) = k_mode s /\ k_write_cmd (on_mouse f s) = k_write_cmd s.
Proof.
  intros ((Hk & Hm & Ek & Em) & Hl & Hp) Hf. unfold on_mouse. set (m := f (mouse s)).
  destruct (Hf (mouse s) Hm) as (cs & Hcs & Hw & Hq). fold m in Hcs, Hw, Hq.
  rewrite Em in Hcs. cbn [app] in Hcs. rewrite Hcs.
  set (s0 := set_mouse _ s).
  destruct (aux_irq_fold cs s0 (waiting (kcommon (kbd s))) (waiting (mcommon (mouse s))) Hp Hl)
    as (Hp' & Hl' & Hkb & Hmo & Hmd & Hwc & _).
  rewrite Hkb, Hmo, Hmd, Hwc. split; [|done].
  split; [|split; [done|]].
  - unfold devices_ok. rewrite Hkb, Hmo. split; [done|]. split; [by apply Hq|]. done.
  - rewrite Hp', Hkb, Hmo, <- Hw. done.
Qed.

Lemma on_kbd_inv f s : kbc_inv s -> kbd_reports f -> kbc_inv (on_kbd f s).
Proof. intros Hi Hf. apply (on_kbd_spec f s Hi Hf). Qed.
Lemma on_mouse_inv f s : kbc_inv s -> mouse_reports f -> kbc_inv (on_mouse f s).
Proof. intros Hi Hf. apply (on_mouse_spec f s Hi Hf). Qed.

Lemma kqueue_reports' b : kbd_reports (kqueue b).
Proof. intros k. apply kqueue_reports. Qed.
Lemma mqueue_reports' b : mouse_reports (mqueue b).
Proof. intros m. apply mqueue_reports. Qed.
Lemma kread_reports : kbd_reports (fun k => set_kcommon (ps2_read_data (kcommon k)).2 k).
Proof. intros k. apply reports_read. Qed.
Lemma mread_reports : mouse_reports (fun m => set_mcommon (ps2_read_data (mcommon m)).2 m).
Proof. intros m. apply reports_read. Qed.

(** Setting a field the invariant does not mention, or [kbd_update_irq] after a
    change of the mode. *)
Lemma inv_update_irq s :
  devices_ok s -> k_pending s = pend (waiting (kcommon (kbd s))) (waiting (mcommon (mouse s))) ->
  kbc_inv (kbd_update_irq s).
Proof.
  intros Hd Hp. destruct (update_irq_same s) as [(Hk & Hm & _) Hpend].
  split; [|split; [apply update_irq_lines|]].
  - unfold devices_ok. rewrite Hk, Hm. done.
  - by rewrite Hk, Hm, Hpend.
Qed.

Create HintDb kbc.
#[export] Hint Resolve on_kbd_inv on_mouse_inv kqueue_reports' mqueue_reports' kread_reports mread_reports : kbc.

Lemma kbd_queue_inv b aux s : kbc_inv s -> kbc_inv (kbd_queue b aux s).
Proof. intros Hi. unfold kbd_queue. destruct aux; auto with kbc. Qed.

Lemma set_mode_inv v s :
  kbc_inv s -> Z.testbit v 0 = Z.testbit (k_mode s) 0 -> Z.testbit v 1 = Z.testbit (k_mode s) 1 ->
  Z.testbit v 4 = Z.testbit (k_mode s) 4 -> kbc_inv (set_k_mode v s).
Proof.
  intros (Hd & (L1 & L2 & L3 & L4) & Hp) E0 E1 E4. split; [done|]. split; [|done].
  unfold lines_ok. cbn [set_k_mode k_status k_pending k_mode irq_mouse irq_kbd].
  rewrite E0, E1, E4. done.
Qed.

Lemma selftest_inv s : kbc_inv s -> kbc_inv (set_k_status (Z.lor (k_status s) KBD_STAT_SELFTEST) s).
Proof.
  intros (Hd & (L1 & L2 & L3 & L4) & Hp). split; [done|]. split; [|done].
  unfold lines_ok. cbn [set_k_status k_status k_pending k_mode irq_mouse irq_kbd].
  rewrite !Z.lor_spec. change (Z.testbit KBD_STAT_SELFTEST 0) with false.
  change (Z.testbit KBD_STAT_SELFTEST 5) with false. rewrite !orb_false_r. done.
Qed.

Lemma write_command_inv v s : kbc_inv s -> kbc_inv (kbd_write_command v s).
Proof.
  intros Hi. pose proof Hi as (Hd & Hl & Hp). unfold kbd_write_command.
  cbv zeta. set (w := if Z.land v KBD_CCMD_PULSE_BITS_3_0 =? _ then _ else v). clearbody w.
  repeat match goal with
  | |- kbc_inv (if ?c then _ else _) => destruct c
  end; try (by apply kbd_queue_inv); try done.
  - apply set_mode_inv; [done|..]; rewrite Z.lor_spec; apply orb_false_r.
  - apply set_mode_inv; [done|..]; unfold clear_bits; rewrite Z.land_spec, Z.lnot_spec by lia; apply andb_true_r.
  - apply kbd_queue_inv. by apply selftest_inv.
  - by apply inv_update_irq.
  - by apply inv_update_irq.
Qed.

Lemma outport_write_inv v s : kbc_inv s -> kbc_inv (outport_write v s).
Proof. intros Hi. unfold outport_write. by destruct (nz (Z.land v 1)). Qed.

Lemma write_data_inv v s : kbc_inv s -> kbc_inv (kbd_write_data v s).
Proof.
  intros Hi. unfold kbd_write_data. cbv zeta.
  set (s1 := if k_write_cmd s =? 0 then _ else _).
  assert (kbc_inv s1) as Hi1; [|exact Hi1]. unfold s1. clear s1.
  repeat match goal with
  | |- kbc_inv (if ?c then _ else _) => destruct c
  end; auto using kbd_queue_inv, outport_write_inv with kbc reports.
  set (k' := ps2_keyboard_set_translation _).
  pose proof Hi as ((Hk & Hm & Ek & Em) & Hl & Hp).
  assert (on_kbd k' (set_k_mode (u8 v) s) = set_kbd (k' (kbd s)) (set_k_mode (u8 v) s)) as ->.
  { unfold on_kbd, k', ps2_keyboard_set_translation. cbn [kcommon kbd set_k_mode]. rewrite Ek.
    cbn [fold_left]. f_equal. destruct (kbd s) as [[q w ic] ? ? ? ? ?]. simpl in *. by subst. }
  by apply inv_update_irq.
Qed.

Lemma read_data_inv s : kbc_inv s -> kbc_inv (kbd_read_data s).2.
Proof. intros Hi. unfold kbd_read_data. destruct (_ =? _); simpl; auto with kbc. Qed.

Lemma system_reset_inv s : kbc_inv s -> kbc_inv (system_reset s).
Proof.
  intros Hi. unfold system_reset.
  destruct (on_kbd_spec ps2_kbd_reset s Hi kbd_reset_reports) as (Hi1 & _ & Hk1 & _).
  destruct (on_mouse_spec ps2_mouse_reset _ Hi1 mouse_reset_reports) as (Hi2 & Hk2 & Hm2 & _).
  set (s2 := on_mouse ps2_mouse_reset _) in *. destruct Hi2 as (Hd & (_ & _ & L3 & L4) & Hp).
  assert (k_pending s2 = 0) as Hz by (rewrite Hp, Hk2, Hm2, Hk1; done).
  rewrite Hz in L3, L4. split; [exact Hd|]. split; [|exact Hp].
  unfold lines_ok, kbd_reset. cbn [k_status k_pending k_mode irq_mouse irq_kbd]. rewrite Hz, L3, L4. done.
Qed.

(** Everything that can happen to the controller: port accesses of the guest,
    input events of the host, a reset. *)
Inductive kbc_op :=
| OpCommand (v : Z) | OpWrite (v : Z) | OpRead
| OpKey (e : InputEvent) | OpMouse (e : InputEvent) | OpSync | OpFake | OpReset.

Definition kbc_exec (s : KBDState) (op : kbc_op) : KBDState :=
  match op with
  | OpCommand v => kbd_write_command v s
  | OpWrite v => kbd_write_data v s
  | OpRead => (kbd_read_data s).2
  | OpKey e => dev_event 0 e s
  | OpMouse e => dev_event 1 e s
  | OpSync => on_mouse ps2_mouse_sync s
  | OpFake => i8042_isa_mouse_fake_event s
  | OpReset => system_reset s
  end.

Lemma kbc_exec_inv s op : kbc_inv s -> kbc_inv (kbc_exec s op).
Proof.
  intros Hi. destruct op; cbn [kbc_exec dev_event ps2_devices Z.eqb Pos.eqb];
    unfold i8042_isa_mouse_fake_event;
    auto using write_command_inv, write_data_inv, read_data_inv, system_reset_inv with kbc reports.
Qed.

Lemma realize_inv a20 : kbc_inv (i8042_realizefn a20).
Proof. split; [|done]. split; [apply ps2_zero_wf|]. split; [apply ps2_zero_wf|done]. Qed.

Lemma kbc_run_inv ops s : kbc_inv s -> kbc_inv (fold_left kbc_exec ops s).
Proof. revert s. induction ops; intros s Hi; [done|]. simpl. auto using kbc_exec_inv. Qed.

(** C29: from power-on, under every sequence of port accesses, input events and
    resets, the controller's view is right: both device queues are well
    formed, [pending] has a bit for exactly the devices with waiting bytes,
    the output-buffer bits of the status register and the two interrupt lines
    are the ones of [pending] and the mode. *)
Theorem kbc_reachable_inv ops a20 :
  let s := fold_left kbc_exec ops (i8042_realizefn a20) in
  queue_wf (kcommon (kbd s)) /\ queue_wf (mcommon (mouse s)) /\
  k_pending s = pend (waiting (kcommon (kbd s))) (waiting (mcommon (mouse s))) /\
  lines_ok s.
Proof.
  cbv zeta. destruct (kbc_run_inv ops (i8042_realizefn a20)) as ((? & ? & _) & ? & ?);
    [apply realize_inv|done].
Qed.

(** *** Reading port 0x60 *)

Lemma waiting_contents c : queue_wf c -> waiting c = negb (bool_decide (contents c = [])).
Proof.
  intros Hwf. pose proof (contents_length c Hwf) as Hl. unfold waiting.
  case_bool_decide as E; destruct (Z.eqb_spec (count (queue c)) 0) as [Ec|Ec]; try done.
  - rewrite E in Hl. simpl in Hl. lia.
  - rewrite Ec in Hl. destruct E. apply nil_length_inv. lia.
Qed.

Definition kbytes (s : KBDState) : list Z := contents (kcommon (kbd s)).
Definition mbytes (s : KBDState) : list Z := contents (mcommon (mouse s)).

(** One read: the oldest keyboard byte, or else the oldest mouse byte. *)
Lemma read_data_spec s :
  kbc_inv s ->
  match kbytes s, mbytes s with
  | b :: l, m => (kbd_read_data s).1 = b /\ kbytes (kbd_read_data s).2 = l /\
                 mbytes (kbd_read_data s).2 = m /\ k_pending s <> KBD_PENDING_AUX
  | [], b :: l => (kbd_read_data s).1 = b /\ kbytes (kbd_read_data s).2 = [] /\
                  mbytes (kbd_read_data s).2 = l /\ k_pending s = KBD_PENDING_AUX
  | [], [] => True
  end.
Proof.
  intros Hi. pose proof Hi as ((Hk & Hm & _) & _ & Hp).
  rewrite (waiting_contents _ Hk), (waiting_contents _ Hm) in Hp.
  fold (kbytes s) (mbytes s) in Hp. unfold kbd_read_data.
  destruct (kbytes s) as [|b l] eqn:Ek.
  - destruct (mbytes s) as [|b l] eqn:Em; [done|]. rewrite Hp. cbn [Z.eqb Pos.eqb].
    destruct (on_mouse_spec _ s Hi mread_reports) as (_ & Hkb & Hmo & _).
    pose proof (ps2_read_contents _ Hm) as Hr. fold (mbytes s) in Hr. rewrite Em in Hr.
    destruct Hr as [Hv Hc]. unfold kbytes, mbytes in *. simpl (_.1). simpl (_.2). rewrite Hkb, Hmo.
    split; [done|]. split; [done|]. by split.
  - assert (k_pending s <> KBD_PENDING_AUX) as Hne.
    { rewrite Hp. case_bool_decide; [done|]. by case_bool_decide. }
    destruct (Z.eqb_spec (k_pending s) KBD_PENDING_AUX); [done|].
    destruct (on_kbd_spec _ s Hi kread_reports) as (_ & Hmo & Hkb & _).
    pose proof (ps2_read_contents _ Hk) as Hr. fold (kbytes s) in Hr. rewrite Ek in Hr.
    destruct Hr as [Hv Hc]. unfold kbytes, mbytes in *. simpl (_.1). simpl (_.2). rewrite Hkb, Hmo.
    split; [done|]. split; [done|]. by split.
Qed.

(** Reading [n] times, each time with the mouse bit of the status register. *)
Fixpoint reads (n : nat) (s : KBDState) : list (bool * Z) * KBDState :=
  match n with
  | O => ([], s)
  | S n' =>
      let aux := Z.testbit (kbd_read_status s) 5 in
      let '(v, s) := kbd_read_data s in
      let '(l, s) := reads n' s in ((aux, v) :: l, s)
  end.

Lemma reads_spec n s :
  kbc_inv s -> n = (length (kbytes s) + length (mbytes s))%nat ->
  (reads n s).1 = (pair false <$> kbytes s) ++ (pair true <$> mbytes s) /\
  kbc_inv (reads n s).2 /\ kbytes (reads n s).2 = [] /\ mbytes (reads n s).2 = [].
Proof.
  revert s. induction n as [|n IH]; intros s Hi Hn.
  { destruct (kbytes s) eqn:E1; [|simpl in Hn; lia]. destruct (mbytes s) eqn:E2; [|simpl in Hn; lia]. done. }
  pose proof (read_data_spec s Hi) as Hr. pose proof (read_data_inv s Hi) as Hi'.
  pose proof Hi as (_ & (_ & Haux & _) & _). cbn [reads]. unfold kbd_read_status. rewrite Haux.
  destruct (kbd_read_data s) as [v s']. cbn [fst snd] in *.
  destruct (kbytes s) as [|b l] eqn:E1; [destruct (mbytes s) as [|b l] eqn:E2; [simpl in Hn; lia|]|];
    destruct Hr as (-> & K' & M' & Hp); destruct (IH s' Hi') as (H1 & H2 & H3 & H4);
    try (rewrite K', M'; simpl in *; lia).
  - rewrite Hp. destruct (reads n s') as [rs s2]. cbn [fst snd] in *. rewrite H1, K', M'. done.
  - destruct (Z.eqb_spec (k_pending s) KBD_PENDING_AUX); [done|].
    destruct (reads n s') as [rs s2]. cbn [fst snd] in *. rewrite H1, K', M'. done.
Qed.

(** C30: the guest reads everything that is waiting, in order: as many reads of
    port 0x60 as there are waiting bytes return the keyboard bytes and then
    the mouse bytes, oldest first, the status register tells the two apart
    before each read, and afterwards nothing is pending and both interrupt
    lines are low. *)
Theorem port60_drains s :
  kbc_inv s ->
  let r := reads (length (kbytes s) + length (mbytes s)) s in
  r.1 = (pair false <$> kbytes s) ++ (pair true <$> mbytes s) /\
  k_pending r.2 = 0 /\ irq_kbd r.2 = false /\ irq_mouse r.2 = false.
Proof.
  intros Hi. cbv zeta. destruct (reads_spec _ s Hi eq_refl) as (Hr & Hi' & Hk & Hm).
  set (s' := (reads _ s).2) in *. split; [done|].
  pose proof Hi' as ((Hqk & Hqm & _) & (_ & _ & L3 & L4) & Hp).
  rewrite (waiting_contents _ Hqk), (waiting_contents _ Hqm) in Hp.
  fold (kbytes s') (mbytes s') in Hp. rewrite Hk, Hm in Hp. change (pend _ _) with 0 in Hp.
  rewrite Hp in L3, L4. done.
Qed.

Lemma port60_drains_witness :
  let s := fold_left kbc_exec [OpReset; OpCommand 96; OpWrite 71; OpKey (EvKey (KEY_NUMBER 205) true);
    OpCommand 211; OpWrite 77] (i8042_realizefn true) in
  let r := reads 3 s in
  r.1 = [(false, 224); (false, 77); (true, 77)] /\
  k_pending r.2 = 0 /\ irq_kbd r.2 = false /\ irq_mouse r.2 = false.
Proof. intros s. apply (port60_drains s), kbc_run_inv, realize_inv. Defined.
