(* ===== verification/SdlUI.v ===== *)
(** * The SDL display front end (ui/sdl.c, ui/x_keymap.c)

    Window, keyboard and mouse of the emulator: which events go to the guest,
    when the pointer is grabbed, full screen and scaling, and the modifier keys
    the guest believes to be pressed.  The state is the file-scope variables;
    what the code calls outside (input core, SDL, console layer, frame buffer)
    is appended to [calls] in order.  The answers of SDL and of the console
    layer are an [env] given with each event. *)

From coqutil Require Import Datatypes.RecordSettersUsingExistingGetters.
From S2P Require Import Prelude InputCore.

(** ** Calls *)

Inductive cursor := CursorNormal | CursorGuest.
Inductive caption := TitlePlain | TitleStopped | TitleAltGrab | TitleCtrlGrab | TitleGrab.

Inductive ucall :=
| CKeyNumber (num : Z) (down : bool)          (* qemu_input_event_send_key_number *)
| CKeyQcode (q : Z) (down : bool)             (* qemu_input_event_send_key_qcode *)
| CButtons (old new : Z)                      (* qemu_input_update_buttons *)
| CAbs (axis : InputAxis) (v size : Z)        (* qemu_input_queue_abs *)
| CRel (axis : InputAxis) (v : Z)             (* qemu_input_queue_rel *)
| CSync                                       (* qemu_input_event_sync *)
| CKbdPut (keysym : Z)                        (* kbd_put_keysym *)
| CConsoleSelect (i : Z)
| CGrabInput (on : bool)                      (* SDL_WM_GrabInput *)
| CShowCursor (on : bool)
| CSetCursor (c : cursor)
| CWarpMouse (x y : Z)
| CSetCaption (t : caption)
| CSetVideoMode (w h bpp : Z) (fullscreen noframe : bool)
| CCreateGuest (w h bpp : Z)                  (* SDL_CreateRGBSurfaceFrom *)
| CBlit (zoom : bool) (x y w h : Z)
| CUpdateFrame (x y w h : Z)                  (* Update_frameData *)
| CMakeFrame (w h : Z)                        (* make_frameData *)
| CUpdateRect (x y w h : Z)
| CInvalidate | CHwUpdate                     (* graphic_hw_invalidate, graphic_hw_update *)
| CEnableUnicode (on : bool)
| CInterval (ms : Z)                          (* update_displaychangelistener *)
| CShutdown
| CExit.                                      (* exit(1): nothing follows *)

(** ** State *)

Record screen := mk_screen { scr_w : Z; scr_h : Z; scr_bpp : Z }.

(** [real_screen] is the window, [surface] the picture of the guest; both are
    set from the first [sdl_switch] on (the code exits if that fails). *)
Record ui := mk_ui {
  gui_grab : bool;
  last_vm_running : bool;
  gui_saved_scaling : bool;
  gui_saved_width : Z;
  gui_saved_height : Z;
  gui_saved_grab : bool;
  gui_fullscreen : bool;
  gui_noframe : bool;
  gui_key_modifier_pressed : bool;
  gui_keysym : bool;
  modifiers_state : list Z;
  absolute_enabled : bool;
  guest_cursor : bool;
  guest_x : Z;
  guest_y : Z;
  scaling_active : bool;
  screen_mod : Z;
  prev_state : Z;              (* static in sdl_send_mouse_event *)
  real_screen : screen;
  surface : screen;
  guest_screen : bool;         (* not NULL *)
  console : Z;                 (* the active console *)
  calls : list ucall
}.

Record env := mk_env {
  input_absolute : bool;       (* qemu_input_is_absolute() *)
  console_exists : Z -> bool;  (* qemu_console_lookup_by_index *)
  graphic : Z -> bool;         (* is console number i a graphic one *)
  app_focus : bool;            (* SDL_GetAppState() & SDL_APPINPUTFOCUS *)
  mouse_x : Z; mouse_y : Z; mouse_state : Z;   (* SDL_GetMouseState *)
  mod_state : Z;               (* SDL_GetModState() *)
  vm_running : bool;           (* runstate_is_running() *)
  alt_grab : bool; ctrl_grab : bool; no_quit : bool; cursor_hide : bool;
  androidMode : bool;
  g_img_width : Z; g_img_height : Z;
  set_video_mode : Z -> Z -> Z -> option screen;  (* SDL_SetVideoMode *)
  kbd_layout : option (Z -> Z);   (* keysym2scancode of the layout, if any *)
  has_evdev : bool;               (* check_for_evdev() *)
  zoom_ok : bool                  (* sdl_zoom_blit() >= 0 *)
}.

Definition call (c : ucall) (s : ui) : ui := s <| calls ::= fun l => l ++ [c] |>.

(** [qemu_console_is_graphic(NULL)]. *)
Definition is_graphic (e : env) (s : ui) : bool := graphic e (console s).

(** ** Keyboard conversion *)

Definition x_keycode_to_pc_keycode : list Z :=
  [199; 200; 201; 203; 76; 205; 207; 208; 209; 210; 211; 156; 157; 0;
   183; 181; 184; 198; 0; 0; 0; 0; 0; 0; 0; 0; 0; 0;
   0; 0; 0; 0; 121; 0; 123; 0; 125; 0; 0; 71; 72; 73;
   75; 76; 77; 79; 80; 81; 82; 83; 71; 72; 73; 75; 76; 77;
   79; 80; 81; 82; 83; 0; 0; 0; 0; 0; 0; 0; 0; 0;
   0; 0; 0; 0; 0; 0; 0; 0; 0; 0; 0; 0; 0; 0;
   0; 0; 0; 0; 0; 0; 0; 0; 0; 0; 0; 0; 0; 0;
   0; 0; 0; 0; 0; 0; 0; 0; 0; 0; 0; 0; 0; 0;
   0; 0; 0].

Definition evdev_keycode_to_pc_keycode : list Z :=
  [115; 0; 0; 121; 112; 123; 0; 156; 157; 181; 183; 184; 0; 199;
   200; 201; 203; 205; 207; 208; 209; 210; 211; 0; 0; 0; 0; 0;
   0; 0; 0; 0; 126; 241; 242; 125; 219; 220; 221; 0; 0; 0;
   0; 0; 0; 0; 0; 0; 0; 0; 0; 0; 0; 0; 0; 0;
   0; 0; 0; 0; 0].

Definition translate_xfree86_keycode (key : Z) : Z := aget x_keycode_to_pc_keycode key.
Definition translate_evdev_keycode (key : Z) : Z := aget evdev_keycode_to_pc_keycode key.

(** An [SDL_KeyboardEvent]. *)
Record keyev := mk_keyev { sym : Z; scancode : Z; kmod : Z; unicode : Z; key_down : bool }.

Definition SDLK_BACKSPACE : Z := 8.
Definition SDLK_PAUSE : Z := 19.
Definition SDLK_DELETE : Z := 127.
Definition SDLK_UP : Z := 273.
Definition SDLK_DOWN : Z := 274.
Definition SDLK_RIGHT : Z := 275.
Definition SDLK_LEFT : Z := 276.
Definition SDLK_HOME : Z := 278.
Definition SDLK_END : Z := 279.
Definition SDLK_PAGEUP : Z := 280.
Definition SDLK_PAGEDOWN : Z := 281.
Definition SDLK_MODE : Z := 313.
Definition KMOD_LSHIFT : Z := 1.
Definition KMOD_LCTRL : Z := 64.
Definition KMOD_RCTRL : Z := 128.
Definition KMOD_LALT : Z := 256.
Definition gui_grab_code : Z := Z.lor KMOD_LALT KMOD_LCTRL.

Definition sdl_keyevent_to_keycode_generic (layout : Z -> Z) (ev : keyev) : Z :=
  let keysym := sym ev in
  let keysym := if (keysym =? 0) && (scancode ev =? 113) then SDLK_MODE else keysym in
  let keysym := if (keysym =? 92) && (scancode ev =? 133) then 165 else keysym in
  Z.land (layout keysym) 255.

Definition sdl_keyevent_to_keycode (evdev : bool) (ev : keyev) : Z :=
  let keycode := scancode ev in
  if keycode <? 9 then 0
  else if keycode <? 97 then keycode - 8
  else if keycode <? 158 then
    if evdev then translate_evdev_keycode (keycode - 97)
    else translate_xfree86_keycode (keycode - 97)
  else if keycode =? 208 then 112
  else if keycode =? 211 then 115
  else 0.

(** Release every modifier the guest was told is pressed. *)
Definition reset_one (i : nat) (s : ui) : ui :=
  if nz (aget (modifiers_state s) (Z.of_nat i)) then
    call (CKeyNumber (Z.of_nat i) false) s <| modifiers_state ::= fun l => aset l (Z.of_nat i) 0 |>
  else s.

Definition reset_keys (s : ui) : ui := fold_left (fun s i => reset_one i s) (seq 0 256) s.

Definition is_modifier (keycode : Z) : bool :=
  (keycode =? 42) || (keycode =? 54) || (keycode =? 29) || (keycode =? 157) ||
  (keycode =? 56) || (keycode =? 184).

(** SDL 1.2.14 or later, which reports the release of the lock keys. *)
Definition sdl_process_key (e : env) (ev : keyev) (s : ui) : ui :=
  if sym ev =? SDLK_PAUSE then call (CKeyQcode Q_KEY_CODE_PAUSE (key_down ev)) s
  else
    let keycode := match kbd_layout e with
                   | Some layout => u8 (sdl_keyevent_to_keycode_generic layout ev)
                   | None => u8 (sdl_keyevent_to_keycode (has_evdev e) ev)
                   end in
    if keycode =? 0 then reset_keys s
    else
      let s := if is_modifier keycode
               then s <| modifiers_state ::= fun l => aset l keycode (b2z (key_down ev)) |>
               else s in
      call (CKeyNumber keycode (key_down ev)) s.

(** ** Caption, cursor, grab *)

Definition sdl_update_caption (e : env) (s : ui) : ui :=
  call (CSetCaption
    (if negb (vm_running e) then TitleStopped
     else if gui_grab s then
       if alt_grab e then TitleAltGrab else if ctrl_grab e then TitleCtrlGrab else TitleGrab
     else TitlePlain)) s.

Definition sdl_hide_cursor (e : env) (s : ui) : ui :=
  if negb (cursor_hide e) then s
  else if input_absolute e then call (CSetCursor CursorNormal) (call (CShowCursor true) s)
  else call (CShowCursor true) s.

Definition sdl_show_cursor (e : env) (s : ui) : ui :=
  if negb (cursor_hide e) then s
  else if negb (input_absolute e) || negb (is_graphic e s) then
    let s := call (CShowCursor true) s in
    if guest_cursor s && (gui_grab s || input_absolute e || absolute_enabled s)
    then call (CSetCursor CursorGuest) s else call (CSetCursor CursorNormal) s
  else s.

Definition sdl_grab_start (e : env) (s : ui) : ui :=
  if negb (app_focus e) then s
  else
    let s :=
      if guest_cursor s then
        let s := call (CSetCursor CursorGuest) s in
        if negb (input_absolute e) && negb (absolute_enabled s)
        then call (CWarpMouse (guest_x s) (guest_y s)) s else s
      else sdl_hide_cursor e s in
    sdl_update_caption e (call (CGrabInput true) s <| gui_grab := true |>).

Definition sdl_grab_end (e : env) (s : ui) : ui :=
  sdl_update_caption e (sdl_show_cursor e (call (CGrabInput false) s <| gui_grab := false |>)).

Definition absolute_mouse_grab (e : env) (s : ui) : ui :=
  if (0 <? mouse_x e) && (mouse_x e <? scr_w (real_screen s) - 1) &&
     (0 <? mouse_y e) && (mouse_y e <? scr_h (real_screen s) - 1)
  then sdl_grab_start e s else s.

Definition sdl_mouse_mode_change (e : env) (s : ui) : ui :=
  if input_absolute e then
    if negb (absolute_enabled s) then
      let s := s <| absolute_enabled := true |> in
      if is_graphic e s then absolute_mouse_grab e s else s
    else s
  else if absolute_enabled s then
    let s := if negb (gui_fullscreen s) then sdl_grab_end e s else s in
    s <| absolute_enabled := false |>
  else s.

(** ** Mouse events *)

(** SDL_BUTTON of the five buttons. *)
Definition sdl_bmap (b : InputButton) : Z :=
  match b with
  | INPUT_BUTTON_LEFT => 1
  | INPUT_BUTTON_MIDDLE => 2
  | INPUT_BUTTON_RIGHT => 4
  | INPUT_BUTTON_WHEEL_UP => 8
  | INPUT_BUTTON_WHEEL_DOWN => 16
  end.

Definition sdl_send_mouse_event (absolute : bool) (dx dy x y state : Z) (s : ui) : ui :=
  let s := if prev_state s =? u32 state then s
           else call (CButtons (prev_state s) (u32 state)) s <| prev_state := u32 state |> in
  let s :=
    if absolute then
      call (CAbs INPUT_AXIS_Y y (scr_h (real_screen s))) (call (CAbs INPUT_AXIS_X x (scr_w (real_screen s))) s)
    else
      let '(dx, dy, s) :=
        if guest_cursor s then
          let x := x - guest_x s in
          let y := y - guest_y s in
          (x, y, s <| guest_x := guest_x s + x |> <| guest_y := guest_y s + y |>)
        else (dx, dy, s) in
      call (CRel INPUT_AXIS_Y dy) (call (CRel INPUT_AXIS_X dx) s) in
  call CSync s.

(** ** Window size *)

(** A failed mode change keeps the previous screen. *)
Definition do_sdl_resize (e : env) (width height bpp : Z) (s : ui) : ui :=
  let s := call (CSetVideoMode width height bpp (gui_fullscreen s) (gui_noframe s)) s in
  match set_video_mode e width height bpp with
  | Some scr => s <| real_screen := scr |>
  | None => s
  end.

Definition sdl_switch (e : env) (new_surface : option screen) (s : ui) : ui :=
  let s := match new_surface with Some d => s <| surface := d |> | None => s end in
  let d := surface s in
  let s :=
    if negb (scaling_active s) then do_sdl_resize e (scr_w d) (scr_h d) 0 s
    else if negb (scr_bpp (real_screen s) =? scr_bpp d)
    then do_sdl_resize e (scr_w (real_screen s)) (scr_h (real_screen s)) (scr_bpp d) s
    else s in
  call (CCreateGuest (scr_w d) (scr_h d) (scr_bpp d)) s <| guest_screen := true |>.

Definition sdl_update (e : env) (x y w h : Z) (s : ui) : ui :=
  let s' := if guest_screen s then call (CBlit (scaling_active s) x y w h) s else s in
  if guest_screen s && scaling_active s && negb (zoom_ok e) then call CExit s'
  else call (CUpdateRect x y w h) (call (CUpdateFrame x y w h) s').

Definition sdl_scale (e : env) (width height : Z) (s : ui) : ui :=
  let bpp := scr_bpp (real_screen s) in
  let bpp := if negb (bpp =? 16) && negb (bpp =? 32) then 32 else bpp in
  (do_sdl_resize e width height bpp s) <| scaling_active := true |>.

Definition refresh_all (s : ui) : ui := call CHwUpdate (call CInvalidate s).

Definition toggle_full_screen (e : env) (s : ui) : ui :=
  let d := surface s in
  let s := s <| gui_fullscreen := negb (gui_fullscreen s) |> in
  let s :=
    if gui_fullscreen s then
      let s := s <| gui_saved_width := scr_w (real_screen s) |>
                 <| gui_saved_height := scr_h (real_screen s) |>
                 <| gui_saved_scaling := scaling_active s |> in
      let s := (do_sdl_resize e (scr_w d) (scr_h d) (scr_bpp d) s) <| scaling_active := false |> in
      sdl_grab_start e (s <| gui_saved_grab := gui_grab s |>)
    else
      let s := if gui_saved_scaling s then sdl_scale e (gui_saved_width s) (gui_saved_height s) s
               else do_sdl_resize e (scr_w d) (scr_h d) 0 s in
      if negb (gui_saved_grab s) || negb (is_graphic e s) then sdl_grab_end e s else s in
  refresh_all s.

(** ** Keyboard events *)

(** [console_select]: an unknown number is ignored. *)
Definition console_select (e : env) (i : Z) (s : ui) : ui :=
  let s := call (CConsoleSelect i) s in
  if console_exists e i then s <| console := i |> else s.

Definition grab_modifiers (e : env) : bool :=
  if alt_grab e then
    Z.land (mod_state e) (Z.lor gui_grab_code KMOD_LSHIFT) =? Z.lor gui_grab_code KMOD_LSHIFT
  else if ctrl_grab e then Z.land (mod_state e) KMOD_RCTRL =? KMOD_RCTRL
  else Z.land (mod_state e) gui_grab_code =? gui_grab_code.

(** The hot keys, pressed together with the grab modifiers. *)
Definition hot_key (e : env) (keycode : Z) (s : ui) : ui :=
  if keycode =? 33 then (toggle_full_screen e s) <| gui_keysym := true |>
  else if keycode =? 22 then
    let s := if scaling_active s
             then refresh_all (sdl_switch e None (s <| scaling_active := false |>)) else s in
    s <| gui_keysym := true |>
  else if (2 <=? keycode) && (keycode <=? 10) then
    let s := (console_select e (keycode - 2) (reset_keys s)) <| gui_keysym := true |> in
    if gui_fullscreen s then s
    else if negb (is_graphic e s) then
      if gui_grab s then sdl_grab_end e s
      else if absolute_enabled s then sdl_show_cursor e s else s
    else if absolute_enabled s then absolute_mouse_grab e (sdl_hide_cursor e s)
    else s
  else if (keycode =? 27) || (keycode =? 53) then
    if negb (gui_fullscreen s) then
      let width := Z.max (scr_w (real_screen s) + (if keycode =? 27 then 50 else -50)) 160 in
      let height := Z.quot (scr_h (surface s) * width) (scr_w (surface s)) in
      (refresh_all (sdl_scale e width height s)) <| gui_keysym := true |>
    else s
  else s.

(** Keys of a text console. *)
Definition QEMU_KEY_ESC1 (c : Z) : Z := Z.lor c 57600.

Definition text_keysym (ev : keyev) : Z :=
  let k := sym ev in
  if nz (Z.land (kmod ev) (Z.lor KMOD_LCTRL KMOD_RCTRL)) then
    if k =? SDLK_UP then 58368 else if k =? SDLK_DOWN then 58369
    else if k =? SDLK_LEFT then 58370 else if k =? SDLK_RIGHT then 58371
    else if k =? SDLK_HOME then 58372 else if k =? SDLK_END then 58373
    else if k =? SDLK_PAGEUP then 58374 else if k =? SDLK_PAGEDOWN then 58375 else 0
  else
    if k =? SDLK_UP then QEMU_KEY_ESC1 65 else if k =? SDLK_DOWN then QEMU_KEY_ESC1 66
    else if k =? SDLK_LEFT then QEMU_KEY_ESC1 68 else if k =? SDLK_RIGHT then QEMU_KEY_ESC1 67
    else if k =? SDLK_HOME then QEMU_KEY_ESC1 1 else if k =? SDLK_END then QEMU_KEY_ESC1 4
    else if k =? SDLK_PAGEUP then QEMU_KEY_ESC1 5 else if k =? SDLK_PAGEDOWN then QEMU_KEY_ESC1 6
    else if k =? SDLK_BACKSPACE then 127 else if k =? SDLK_DELETE then QEMU_KEY_ESC1 3 else 0.

Definition handle_keydown (e : env) (ev : keyev) (s : ui) : ui :=
  let s := s <| gui_key_modifier_pressed := grab_modifiers e |> in
  let s :=
    if gui_key_modifier_pressed s then hot_key e (u8 (sdl_keyevent_to_keycode (has_evdev e) ev)) s
    else if negb (is_graphic e s) then
      let keysym := text_keysym ev in
      if nz keysym then call (CKbdPut keysym) s
      else if nz (unicode ev) then call (CKbdPut (unicode ev)) s else s
    else s in
  if is_graphic e s && negb (gui_keysym s) then sdl_process_key e ev s else s.

Definition handle_keyup (e : env) (ev : keyev) (s : ui) : ui :=
  let mods := Z.land (kmod ev)
    (if negb (alt_grab e) then gui_grab_code else Z.lor gui_grab_code KMOD_LSHIFT) in
  let tail s := if is_graphic e s && negb (gui_keysym s) then sdl_process_key e ev s else s in
  if (mods =? 0) && gui_key_modifier_pressed s then
    let s := s <| gui_key_modifier_pressed := false |> in
    if negb (gui_keysym s) then
      let s :=
        if negb (gui_grab s) then if is_graphic e s then sdl_grab_start e s else s
        else if negb (gui_fullscreen s) then sdl_grab_end e s else s in
      reset_keys s
    else tail (s <| gui_keysym := false |>)
  else tail s.

(** ** Pointer and window events *)

Record motionev := mk_motion { m_x : Z; m_y : Z; m_xrel : Z; m_yrel : Z; m_state : Z }.

Definition handle_mousemotion (e : env) (ev : motionev) (s : ui) : ui :=
  let s :=
    if is_graphic e s && (input_absolute e || absolute_enabled s) then
      let max_x := scr_w (real_screen s) - 1 in
      let max_y := scr_h (real_screen s) - 1 in
      let s := if gui_grab s && ((m_x ev =? 0) || (m_y ev =? 0) || (m_x ev =? max_x) || (m_y ev =? max_y))
               then sdl_grab_end e s else s in
      if negb (gui_grab s) && ((0 <? m_x ev) && (m_x ev <? max_x) && (0 <? m_y ev) && (m_y ev <? max_y))
      then sdl_grab_start e s else s
    else s in
  if gui_grab s || input_absolute e || absolute_enabled s
  then sdl_send_mouse_event (input_absolute e) (m_xrel ev) (m_yrel ev) (m_x ev) (m_y ev) (m_state ev) s
  else s.

Record buttonev := mk_button { b_down : bool; b_button : Z; b_x : Z; b_y : Z }.

Definition SDL_BUTTON (n : Z) : Z := Z.shiftl 1 (n - 1).
Definition SDL_BUTTON_LEFT : Z := 1.

Definition handle_mousebutton (e : env) (ev : buttonev) (s : ui) : ui :=
  if negb (is_graphic e s) then s
  else if negb (gui_grab s) && negb (input_absolute e) then
    if negb (b_down ev) && (b_button ev =? SDL_BUTTON_LEFT) then sdl_grab_start e s else s
  else
    let buttonstate := if b_down ev then Z.lor (mouse_state e) (SDL_BUTTON (b_button ev))
                       else Z.land (mouse_state e) (Z.lnot (SDL_BUTTON (b_button ev))) in
    sdl_send_mouse_event (input_absolute e) 0 0 (b_x ev) (b_y ev) buttonstate s.

Definition SDL_APPACTIVE : Z := 4.
Definition GUI_REFRESH_INTERVAL_DEFAULT : Z := 30.

(** The branch for Windows is not compiled on the host of this system. *)
Definition handle_activation (e : env) (gain : bool) (state : Z) (s : ui) : ui :=
  let s := if negb (gui_grab s) && gain && is_graphic e s && (input_absolute e || absolute_enabled s)
           then absolute_mouse_grab e s else s in
  if nz (Z.land state SDL_APPACTIVE)
  then call (CInterval (if gain then GUI_REFRESH_INTERVAL_DEFAULT else 500)) s else s.

Inductive sdl_event :=
| VideoExpose
| KeyDown (ev : keyev) | KeyUp (ev : keyev)
| Quit
| MouseMotion (ev : motionev)
| MouseButton (ev : buttonev)
| Active (gain : bool) (state : Z)
| VideoResize (w h : Z)
| OtherEvent.

(** The first event of all sizes the window and creates the frame file. *)
Definition first_event (e : env) (s : ui) : ui :=
  if screen_mod s =? 0 then
    let s := sdl_scale e (g_img_width e) (g_img_height e) (s <| screen_mod := screen_mod s + 1 |>) in
    let r := real_screen s in
    let s := if androidMode e then call (CMakeFrame (scr_h r) (scr_w r)) s
             else call (CMakeFrame (scr_w r) (scr_h r)) s in
    refresh_all s
  else s.

Definition handle_event (e : env) (ev : sdl_event) (s : ui) : ui :=
  let s := first_event e s in
  match ev with
  | VideoExpose => sdl_update e 0 0 (scr_w (real_screen s)) (scr_h (real_screen s)) s
  | KeyDown ev => handle_keydown e ev s
  | KeyUp ev => handle_keyup e ev s
  | Quit => if no_quit e then s else call CShutdown s
  | MouseMotion ev => handle_mousemotion e ev s
  | MouseButton ev => handle_mousebutton e ev s
  | Active gain state => handle_activation e gain state s
  | VideoResize w h =>
      refresh_all (sdl_scale e w h
        (call (CMakeFrame (scr_w (real_screen s)) (scr_h (real_screen s))) s))
  | OtherEvent => s
  end.

(** [evs] are the pending events, each with the environment it is handled in;
    [e] is the one of the start of the call. *)
Definition sdl_refresh (e : env) (evs : list (env * sdl_event)) (s : ui) : ui :=
  let s := if Bool.eqb (last_vm_running s) (vm_running e) then s
           else sdl_update_caption e (s <| last_vm_running := vm_running e |>) in
  let s := call (CEnableUnicode (negb (is_graphic e s))) (call CHwUpdate s) in
  fold_left (fun s '(e, ev) => handle_event e ev s) evs s.

(** ** Cursor of the guest *)

Definition sdl_mouse_warp (e : env) (x y : Z) (on : bool) (s : ui) : ui :=
  let s :=
    if on then
      let s := if negb (guest_cursor s) then sdl_show_cursor e s else s in
      if gui_grab s || input_absolute e || absolute_enabled s then
        let s := call (CSetCursor CursorGuest) s in
        if negb (input_absolute e) && negb (absolute_enabled s) then call (CWarpMouse x y) s else s
      else s
    else if gui_grab s then sdl_hide_cursor e s else s in
  s <| guest_cursor := on |> <| guest_x := x |> <| guest_y := y |>.

Definition sdl_mouse_define (e : env) (s : ui) : ui :=
  if guest_cursor s && (gui_grab s || input_absolute e || absolute_enabled s)
  then call (CSetCursor CursorGuest) s else s.

(** ** Start *)

Definition ui_zero (full_screen no_frame : bool) : ui :=
  mk_ui false false false 0 0 false full_screen no_frame false false (replicate 256 0)
    false false 0 0 false 0 0 (mk_screen 0 0 0) (mk_screen 0 0 0) false 0 [].

(** The display listener is registered between the grab of the full screen and
    the end; registering it switches to the surface [d]. *)
Definition sdl_display_init (e : env) (full_screen no_frame : bool) (d : screen) : ui :=
  let s := ui_zero full_screen no_frame in
  let s := if full_screen then sdl_grab_start e s else s in
  let s := sdl_switch e (Some d) s in
  (sdl_update_caption e s) <| gui_grab := false |>.

(** ** What the guest and the window system were told *)

(** Is key [k] pressed, after these calls? *)
Definition held (k : Z) (l : list ucall) : bool :=
  fold_left (fun b c => match c with CKeyNumber n down => if n =? k then down else b | _ => b end) l false.

(** Is the input grabbed? *)
Definition grabbed (l : list ucall) : bool :=
  fold_left (fun b c => match c with CGrabInput on => on | _ => b end) l false.

(** The buttons of the last update, if every update started from the one
    before it. *)
Definition buttons_now (l : list ucall) : option Z :=
  fold_left (fun b c => match b, c with
    | Some cur, CButtons old new => if old =? cur then Some new else None
    | b, _ => b end) l (Some 0).

(** Modifiers, grab and buttons are what the state says; [net] are the keys that
    were pressed or released from the network, which bypasses [modifiers_state]. *)
Definition mods_ok (net : Z -> bool) (m : list Z) (l : list ucall) : Prop :=
  length m = 256%nat /\
  forall k, 0 <= k < 256 ->
    if is_modifier k then net k = false -> nz (aget m k) = held k l else aget m k = 0.

Definition view_ok (net : Z -> bool) (m : list Z) (grab : bool) (prev : Z) (l : list ucall) : Prop :=
  mods_ok net m l /\ grabbed l = grab /\ buttons_now l = Some prev.

Definition ui_inv (net : Z -> bool) (s : ui) : Prop :=
  view_ok net (modifiers_state s) (gui_grab s) (prev_state s) (calls s).

Lemma held_snoc k l c :
  held k (l ++ [c]) = match c with CKeyNumber n down => if n =? k then down else held k l | _ => held k l end.
Proof. unfold held. by rewrite fold_left_app. Qed.
Lemma grabbed_snoc l c : grabbed (l ++ [c]) = match c with CGrabInput on => on | _ => grabbed l end.
Proof. unfold grabbed. by rewrite fold_left_app. Qed.
Lemma buttons_snoc l c :
  buttons_now (l ++ [c]) = match buttons_now l, c with
    | Some cur, CButtons old new => if old =? cur then Some new else None | b, _ => b end.
Proof. unfold buttons_now. rewrite fold_left_app. cbn [fold_left]. by destruct (fold_left _ l _), c. Qed.

(** Calls that say nothing about modifiers, grab and buttons. *)
Definition neutral (c : ucall) : bool :=
  match c with CKeyNumber n _ => negb (is_modifier n) | CGrabInput _ | CButtons _ _ => false | _ => true end.

Lemma view_neutral {net} m g p l c : view_ok net m g p l -> neutral c = true -> view_ok net m g p (l ++ [c]).
Proof.
  intros ([Hl Hm] & Hg & Hb) Hc. split; [split; [done|]|split].
  - intros k Hk. specialize (Hm k Hk). destruct (is_modifier k) eqn:E; [|done].
    rewrite held_snoc. destruct c; try done. simpl in Hc. destruct (Z.eqb_spec num k) as [->|]; [|done].
    by rewrite E in Hc.
  - rewrite grabbed_snoc. by destruct c.
  - rewrite buttons_snoc, Hb. by destruct c.
Qed.

Lemma inv_call {net} c s : ui_inv net s -> neutral c = true -> ui_inv net (call c s).
Proof. apply view_neutral. Qed.

Lemma inv_grab {net} on s : ui_inv net s -> ui_inv net (call (CGrabInput on) (s <| gui_grab := on |>)).
Proof.
  intros ([Hl Hm] & Hg & Hb). split; [split; [done|]|split].
  - intros k Hk. specialize (Hm k Hk). cbn [call]. simpl. rewrite held_snoc. exact Hm.
  - simpl. by rewrite grabbed_snoc.
  - simpl. rewrite buttons_snoc. simpl in Hb. by rewrite Hb.
Qed.

Lemma inv_buttons {net} new s :
  ui_inv net s -> ui_inv net (call (CButtons (prev_state s) new) (s <| prev_state := new |>)).
Proof.
  intros ([Hl Hm] & Hg & Hb). split; [split; [done|]|split].
  - intros k Hk. specialize (Hm k Hk). simpl. rewrite held_snoc. exact Hm.
  - simpl. by rewrite grabbed_snoc.
  - simpl. rewrite buttons_snoc. simpl in Hb. rewrite Hb. by rewrite Z.eqb_refl.
Qed.

(** A modifier goes up or down. *)
Lemma inv_modifier {net} k down s :
  0 <= k < 256 -> is_modifier k = true -> ui_inv net s ->
  ui_inv net (call (CKeyNumber k down) (s <| modifiers_state ::= fun l => aset l k (b2z down) |>)).
Proof.
  intros Hk Hmod ([Hl Hm] & Hg & Hb). split; [split; [|]|split]; simpl.
  - by rewrite length_aset.
  - intros j Hj. specialize (Hm j Hj). rewrite held_snoc.
    destruct (Z.eqb_spec k j) as [->|Hne].
    + rewrite Hmod, aget_aset_eq by lia. by destruct down.
    + rewrite aget_aset_ne by lia. exact Hm.
  - by rewrite grabbed_snoc.
  - rewrite buttons_snoc. by rewrite Hb.
Qed.

(** Walk through an operation: calls, tests, and updates of other fields. *)
Ltac ui_walk :=
  repeat lazymatch goal with
  | |- ui_inv _ (call (CGrabInput _) (set gui_grab _ _)) => apply inv_grab
  | |- ui_inv _ (call _ _) => apply inv_call; [|reflexivity]
  | |- ui_inv _ (if ?c then _ else _) => destruct c
  | |- ui_inv _ (match ?x with _ => _ end) => destruct x
  | |- ui_inv ?net (set _ _ ?s) => change (ui_inv net s)
  end.

Lemma inv_caption {net} e s : ui_inv net s -> ui_inv net (sdl_update_caption e s).
Proof. intros Hi. unfold sdl_update_caption. by ui_walk. Qed.
Lemma inv_hide {net} e s : ui_inv net s -> ui_inv net (sdl_hide_cursor e s).
Proof. intros Hi. unfold sdl_hide_cursor. by ui_walk. Qed.
Lemma inv_show {net} e s : ui_inv net s -> ui_inv net (sdl_show_cursor e s).
Proof. intros Hi. unfold sdl_show_cursor. cbv zeta. by ui_walk. Qed.
Lemma inv_grab_start {net} e s : ui_inv net s -> ui_inv net (sdl_grab_start e s).
Proof.
  intros Hi. unfold sdl_grab_start. cbv zeta. destruct (negb (app_focus e)); [done|].
  apply inv_caption, inv_grab. ui_walk; auto using inv_hide.
Qed.
Lemma inv_grab_end {net} e s : ui_inv net s -> ui_inv net (sdl_grab_end e s).
Proof. intros Hi. unfold sdl_grab_end. by apply inv_caption, inv_show, inv_grab. Qed.
Lemma inv_abs_grab {net} e s : ui_inv net s -> ui_inv net (absolute_mouse_grab e s).
Proof. intros Hi. unfold absolute_mouse_grab. ui_walk; auto using inv_grab_start. Qed.
Lemma inv_mode_change {net} e s : ui_inv net s -> ui_inv net (sdl_mouse_mode_change e s).
Proof.
  intros Hi. unfold sdl_mouse_mode_change. cbv zeta.
  ui_walk; auto using inv_grab_end. by apply inv_abs_grab.
Qed.

Lemma inv_send_mouse {net} a dx dy x y st s : ui_inv net s -> ui_inv net (sdl_send_mouse_event a dx dy x y st s).
Proof.
  intros Hi. unfold sdl_send_mouse_event. cbv zeta.
  set (s1 := if prev_state s =? u32 st then s else _).
  assert (ui_inv net s1) as Hi1.
  { unfold s1. destruct (prev_state s =? u32 st); [done|]. by apply inv_buttons. }
  clearbody s1. apply inv_call; [|done].
  destruct a; [by ui_walk|]. by destruct (guest_cursor s1); ui_walk.
Qed.

Lemma inv_resize {net} e w h b s : ui_inv net s -> ui_inv net (do_sdl_resize e w h b s).
Proof. intros Hi. unfold do_sdl_resize. cbv zeta. by ui_walk. Qed.
Lemma inv_switch {net} e d s : ui_inv net s -> ui_inv net (sdl_switch e d s).
Proof.
  intros Hi. unfold sdl_switch. cbv zeta.
  set (s1 := match d with Some d => _ | None => s end).
  assert (ui_inv net s1) as Hi1 by (unfold s1; by ui_walk). clearbody s1. clear Hi.
  ui_walk; try done; by apply inv_resize.
Qed.
Lemma inv_update {net} e x y w h s : ui_inv net s -> ui_inv net (sdl_update e x y w h s).
Proof. intros Hi. unfold sdl_update. cbv zeta. by ui_walk. Qed.
Lemma inv_scale {net} e w h s : ui_inv net s -> ui_inv net (sdl_scale e w h s).
Proof. intros Hi. unfold sdl_scale. cbv zeta. ui_walk. by apply inv_resize. Qed.
Lemma inv_refresh_all {net} s : ui_inv net s -> ui_inv net (refresh_all s).
Proof. intros Hi. unfold refresh_all. by ui_walk. Qed.

Create HintDb ui.
#[export] Hint Resolve inv_caption inv_hide inv_show inv_grab_start inv_grab_end inv_abs_grab
  inv_mode_change inv_send_mouse inv_resize inv_switch inv_update inv_scale inv_refresh_all : ui.

Lemma inv_toggle {net} e s : ui_inv net s -> ui_inv net (toggle_full_screen e s).
Proof.
  intros Hi. unfold toggle_full_screen. cbv zeta. apply inv_refresh_all.
  set (s1 := set gui_fullscreen _ s). assert (ui_inv net s1) as Hi1 by exact Hi. clearbody s1. clear Hi.
  destruct (gui_fullscreen s1).
  - apply inv_grab_start. ui_walk. by apply inv_resize.
  - set (s2 := if gui_saved_scaling s1 then _ else _).
    assert (ui_inv net s2) by (unfold s2; ui_walk; auto with ui). ui_walk; auto with ui.
Qed.

(** *** Modifiers *)

Definition zero_below (n : nat) (s : ui) : Prop :=
  forall k, 0 <= k < Z.of_nat n -> aget (modifiers_state s) k = 0.

Lemma reset_one_spec {net} n s :
  (n < 256)%nat -> ui_inv net s -> zero_below n s ->
  ui_inv net (reset_one n s) /\ zero_below (S n) (reset_one n s) /\ gui_grab (reset_one n s) = gui_grab s.
Proof.
  intros Hn Hi Hz. unfold reset_one. pose proof Hi as ([Hl Hm] & _).
  destruct (nz (aget (modifiers_state s) (Z.of_nat n))) eqn:E.
  - assert (is_modifier (Z.of_nat n) = true) as Hmod.
    { specialize (Hm (Z.of_nat n) ltac:(lia)). destruct (is_modifier (Z.of_nat n)); [done|].
      unfold nz in E. by rewrite Hm in E. }
    split; [apply (inv_modifier _ false); [lia|done|done]|]. split; [|done].
    intros k Hk. cbn [call]. simpl. destruct (decide (k = Z.of_nat n)) as [->|Hne].
    + apply aget_aset_eq. lia.
    + rewrite aget_aset_ne by lia. apply Hz. lia.
  - split; [done|]. split; [|done]. intros k Hk. destruct (decide (k = Z.of_nat n)) as [->|Hne].
    + unfold nz in E. apply negb_false_iff, Z.eqb_eq in E. done.
    + apply Hz. lia.
Qed.

Lemma reset_from {net} n m s :
  (n + m <= 256)%nat -> ui_inv net s -> zero_below n s ->
  let s' := fold_left (fun s i => reset_one i s) (seq n m) s in
  ui_inv net s' /\ zero_below (n + m) s' /\ gui_grab s' = gui_grab s.
Proof.
  revert n s. induction m as [|m IH]; intros n s Hn Hi Hz.
  { by rewrite Nat.add_0_r. }
  cbn [seq fold_left]. destruct (reset_one_spec (net := net) n s) as (Hi1 & Hz1 & Hg1); [lia|done|done|].
  destruct (IH (S n) (reset_one n s)) as (Hi2 & Hz2 & Hg2); [lia|done|done|].
  rewrite Nat.add_succ_r. split; [done|]. split; [done|]. by rewrite Hg2.
Qed.

Lemma reset_keys_spec {net} s :
  ui_inv net s -> ui_inv net (reset_keys s) /\ zero_below 256 (reset_keys s) /\
  gui_grab (reset_keys s) = gui_grab s.
Proof. intros Hi. apply (reset_from 0 256 s); [lia|done|]. intros k Hk. lia. Qed.

Lemma inv_reset_keys {net} s : ui_inv net s -> ui_inv net (reset_keys s).
Proof. intros Hi. apply (reset_keys_spec s Hi). Qed.
#[export] Hint Resolve inv_reset_keys inv_toggle : ui.

Lemma inv_process_key {net} e ev s : ui_inv net s -> ui_inv net (sdl_process_key e ev s).
Proof.
  intros Hi. unfold sdl_process_key. cbv zeta. destruct (sym ev =? SDLK_PAUSE); [by ui_walk|].
  set (k := match kbd_layout e with Some _ => _ | None => _ end).
  assert (0 <= k < 256) as Hk by (unfold k; destruct (kbd_layout e); apply u8_range). clearbody k.
  destruct (k =? 0); [by apply inv_reset_keys|].
  destruct (is_modifier k) eqn:E; [by apply inv_modifier|].
  apply inv_call; [done|]. simpl. by rewrite E.
Qed.
#[export] Hint Resolve inv_process_key : ui.

Lemma inv_console_select {net} e i s : ui_inv net s -> ui_inv net (console_select e i s).
Proof. intros Hi. unfold console_select. cbv zeta. by ui_walk. Qed.

Lemma inv_hot_key {net} e k s : ui_inv net s -> ui_inv net (hot_key e k s).
Proof.
  intros Hi. unfold hot_key. cbv zeta.
  set (s1 := set gui_keysym _ (console_select e (k - 2) (reset_keys s))).
  assert (ui_inv net s1) as Hi1 by (by apply inv_console_select, inv_reset_keys). clearbody s1.
  ui_walk; auto with ui.
Qed.

Lemma inv_keydown {net} e ev s : ui_inv net s -> ui_inv net (handle_keydown e ev s).
Proof.
  intros Hi. unfold handle_keydown. cbv zeta.
  set (s1 := if gui_key_modifier_pressed _ then _ else _).
  assert (ui_inv net s1) as Hi1 by (unfold s1; ui_walk; auto with ui; by apply inv_hot_key).
  clearbody s1. ui_walk; auto with ui.
Qed.

Lemma inv_keyup {net} e ev s : ui_inv net s -> ui_inv net (handle_keyup e ev s).
Proof.
  intros Hi. unfold handle_keyup. cbv zeta. ui_walk; auto with ui;
    apply inv_reset_keys; ui_walk; auto with ui.
Qed.

Lemma inv_motion {net} e ev s : ui_inv net s -> ui_inv net (handle_mousemotion e ev s).
Proof.
  intros Hi. unfold handle_mousemotion. cbv zeta.
  set (s1 := if gui_grab s && (_ || _) then _ else _).
  assert (ui_inv net s1) as Hi1 by (unfold s1; ui_walk; auto with ui). clearbody s1.
  set (s2 := if is_graphic e s && _ then _ else s).
  assert (ui_inv net s2) as Hi2 by (unfold s2; ui_walk; auto with ui). clearbody s2.
  ui_walk; auto with ui.
Qed.

Lemma inv_button {net} e ev s : ui_inv net s -> ui_inv net (handle_mousebutton e ev s).
Proof. intros Hi. unfold handle_mousebutton. cbv zeta. ui_walk; auto with ui. Qed.

Lemma inv_activation {net} e g st s : ui_inv net s -> ui_inv net (handle_activation e g st s).
Proof. intros Hi. unfold handle_activation. cbv zeta. ui_walk; auto with ui. Qed.

Lemma inv_first {net} e s : ui_inv net s -> ui_inv net (first_event e s).
Proof.
  intros Hi. unfold first_event. cbv zeta. destruct (screen_mod s =? 0); [|done].
  apply inv_refresh_all. ui_walk; by apply inv_scale.
Qed.
#[export] Hint Resolve inv_keydown inv_keyup inv_motion inv_button inv_activation inv_first : ui.

Lemma inv_event {net} e ev s : ui_inv net s -> ui_inv net (handle_event e ev s).
Proof.
  intros Hi. unfold handle_event. cbv zeta.
  pose proof (inv_first e s Hi) as Hi1. set (s1 := first_event e s) in *. clearbody s1.
  destruct ev; ui_walk; auto with ui.
  apply inv_refresh_all, inv_scale. by ui_walk.
Qed.

Lemma inv_refresh {net} e evs s : ui_inv net s -> ui_inv net (sdl_refresh e evs s).
Proof.
  intros Hi. unfold sdl_refresh. cbv zeta.
  set (s1 := call (CEnableUnicode _) _). assert (ui_inv net s1) as Hi1.
  { unfold s1. ui_walk; auto with ui. }
  clearbody s1. clear Hi. revert s1 Hi1. induction evs as [|[e' ev] evs IH]; intros s1 Hi1; [done|].
  cbn [fold_left]. apply IH. by apply inv_event.
Qed.

Lemma inv_warp {net} e x y on s : ui_inv net s -> ui_inv net (sdl_mouse_warp e x y on s).
Proof.
  intros Hi. unfold sdl_mouse_warp. cbv zeta.
  set (s1 := if negb (guest_cursor s) then _ else s).
  assert (ui_inv net s1) as Hi1 by (unfold s1; ui_walk; auto with ui). clearbody s1.
  ui_walk; auto with ui.
Qed.

Lemma inv_define {net} e s : ui_inv net s -> ui_inv net (sdl_mouse_define e s).
Proof. intros Hi. unfold sdl_mouse_define. by ui_walk. Qed.

(** ** Properties *)

(** Everything the display layer is asked to do: its callbacks, the notifier
    of the input core, and the mouse and key events of the network thread. *)
Inductive ui_op :=
| OpRefresh (e : env) (evs : list (env * sdl_event))
| OpSwitch (e : env) (d : option screen)
| OpUpdate (e : env) (x y w h : Z)
| OpWarp (e : env) (x y : Z) (on : bool)
| OpDefine (e : env)
| OpModeChange (e : env)
| OpNetMouse (absolute : bool) (x y state : Z)
| OpNetKey (keycode : Z) (down : bool).

Definition ui_exec (s : ui) (op : ui_op) : ui :=
  match op with
  | OpRefresh e evs => sdl_refresh e evs s
  | OpSwitch e d => sdl_switch e d s
  | OpUpdate e x y w h => sdl_update e x y w h s
  | OpWarp e x y on => sdl_mouse_warp e x y on s
  | OpDefine e => sdl_mouse_define e s
  | OpModeChange e => sdl_mouse_mode_change e s
  | OpNetMouse a x y state => sdl_send_mouse_event a 0 0 x y state s
  | OpNetKey keycode down => call (CKeyNumber keycode down) s
  end.

(** The keys of the network thread are among [net]. *)
Definition known (net : Z -> bool) (op : ui_op) : Prop :=
  match op with OpNetKey keycode _ => net keycode = true | _ => True end.

Lemma inv_network {net} keycode down s :
  net keycode = true -> ui_inv net s -> ui_inv net (call (CKeyNumber keycode down) s).
Proof.
  intros Hn ([Hl Hm] & Hg & Hb). split; [split; [done|]|split]; simpl.
  - intros k Hk. specialize (Hm k Hk). destruct (is_modifier k); [|done]. intros Hk'.
    rewrite held_snoc. destruct (Z.eqb_spec keycode k) as [->|]; [congruence|auto].
  - by rewrite grabbed_snoc.
  - by rewrite buttons_snoc, Hb.
Qed.

Lemma inv_run {net} ops s : Forall (known net) ops -> ui_inv net s -> ui_inv net (fold_left ui_exec ops s).
Proof.
  intros Hops. revert s. induction Hops as [|op ops Hop _ IH]; intros s Hi; [done|]. cbn [fold_left]. apply IH.
  destruct op; cbn [ui_exec known] in *; auto using inv_refresh, inv_warp, inv_define, inv_network with ui.
Qed.

Lemma held_nil k : held k [] = false.
Proof. done. Qed.

Lemma inv_zero {net} fs nf : ui_inv net (ui_zero fs nf).
Proof.
  split; [split|split; done]; [apply length_replicate|].
  intros k Hk. cbn [ui_zero modifiers_state calls]. assert (aget (replicate 256 0) k = 0) as ->.
  { unfold aget. destruct (replicate 256 0 !! Z.to_nat k) eqn:E; [|done].
    by apply lookup_replicate in E as [-> _]. }
  by destruct (is_modifier k).
Qed.

Lemma inv_grab_cleared {net} s : ui_inv net s -> gui_grab s = false -> ui_inv net (s <| gui_grab := false |>).
Proof. intros (? & Hg & ?) E. split; [done|]. split; [|done]. rewrite E in Hg. exact Hg. Qed.

Lemma switch_gui_grab e d s : gui_grab (sdl_switch e (Some d) s) = gui_grab s.
Proof.
  unfold sdl_switch, do_sdl_resize. cbv zeta. by cases.
Qed.

Lemma inv_init {net} e nf d : ui_inv net (sdl_display_init e false nf d).
Proof.
  apply inv_grab_cleared; [by apply inv_caption, inv_switch, inv_zero|].
  exact (switch_gui_grab e d (ui_zero false nf)).
Qed.

(** Is key [k] pressed or released from the network in these steps? *)
Definition from_network (ops : list ui_op) (k : Z) : bool :=
  existsb (fun op => match op with OpNetKey keycode _ => keycode =? k | _ => false end) ops.

(** C36: a windowed display never loses track of what it told others.  After
    any sequence of display callbacks, window events, and mouse and key events of
    the network thread, every modifier key that the network thread has not sent is
    pressed in the guest exactly when it is in [modifiers_state], the input is
    grabbed exactly when [gui_grab] is set, and the button updates form a
    chain that ends in the current button state.  (The keys of the network thread
    go to the guest without [modifiers_state].) *)
Theorem ui_view_reachable e0 nf d ops :
  let s := fold_left ui_exec ops (sdl_display_init e0 false nf d) in
  (forall k, is_modifier k = true -> from_network ops k = false ->
     held k (calls s) = nz (aget (modifiers_state s) k)) /\
  grabbed (calls s) = gui_grab s /\ buttons_now (calls s) = Some (prev_state s).
Proof.
  cbv zeta. set (s := fold_left _ _ _).
  assert (ui_inv (from_network ops) s) as ([_ Hm] & Hg & Hb).
  { apply inv_run; [|apply inv_init]. apply Forall_forall. intros [] Hin; cbn [known]; try done.
    unfold from_network. apply existsb_exists. exists (OpNetKey keycode down).
    split; [by apply list_elem_of_In|apply Z.eqb_refl]. }
  split; [|done]. intros k Hk Hnet.
  assert (0 <= k < 256) as Hr by (unfold is_modifier in Hk; zdecide_in Hk; (lia || done)).
  specialize (Hm k Hr). rewrite Hk in Hm. by rewrite Hm.
Qed.

(** In full screen the two can differ from the start: [sdl_display_init]
    grabs the input and then sets [gui_grab] to 0 without releasing it. *)
Theorem full_screen_grab_forgotten e nf d :
  app_focus e = true ->
  let s := sdl_display_init e true nf d in grabbed (calls s) = true /\ gui_grab s = false.
Proof.
  intros Hf. cbv zeta. unfold sdl_display_init. cbv zeta. split; [|done].
  set (s0 := sdl_grab_start e (ui_zero true nf)).
  assert (ui_inv (fun _ => false) s0) as Hi0 by apply inv_grab_start, inv_zero.
  assert (gui_grab s0 = true) as Hg0 by (unfold s0, sdl_grab_start; rewrite Hf; done). clearbody s0.
  pose proof (inv_switch e (Some d) s0 Hi0) as Hi1.
  pose proof (inv_caption e _ Hi1) as (_ & Hg & _). simpl in Hg |- *. rewrite Hg.
  unfold sdl_switch, do_sdl_resize. cases; simpl; done.
Qed.

Definition demo_env : env :=
  mk_env false (fun i => i =? 0) (fun _ => true) true 10 10 0 0 true false false false true false 1280 768
    (fun w h b => Some (mk_screen w h (if b =? 0 then 32 else b))) None true true.

(** Two keys from the network, a modifier among them, and a key of the window. *)
Lemma ui_view_reachable_witness :
  let s := fold_left ui_exec
    [OpNetKey 54 true; OpNetKey 30 true; OpRefresh demo_env [(demo_env, KeyDown (mk_keyev 304 50 0 0 true))]]
    (sdl_display_init demo_env false false (mk_screen 640 480 32)) in
  held 42 (calls s) = nz (aget (modifiers_state s) 42) /\ held 54 (calls s) = true.
Proof.
  cbv zeta. split; [|vm_compute; reflexivity].
  apply (ui_view_reachable demo_env false (mk_screen 640 480 32)
    [OpNetKey 54 true; OpNetKey 30 true; OpRefresh demo_env [(demo_env, KeyDown (mk_keyev 304 50 0 0 true))]]);
    reflexivity.
Defined.

Lemma full_screen_grab_forgotten_witness :
  let s := sdl_display_init demo_env true false (mk_screen 640 480 32) in
  grabbed (calls s) = true /\ gui_grab s = false.
Proof. apply (full_screen_grab_forgotten demo_env false (mk_screen 640 480 32)). reflexivity. Defined.

(** *** The grab combination *)

Lemma grab_hide e s : gui_grab (sdl_hide_cursor e s) = gui_grab s.
Proof. unfold sdl_hide_cursor. by cases. Qed.
Lemma grab_show e s : gui_grab (sdl_show_cursor e s) = gui_grab s.
Proof. unfold sdl_show_cursor. by cases. Qed.
Lemma grab_after_start e s : gui_grab (sdl_grab_start e s) = app_focus e || gui_grab s.
Proof. unfold sdl_grab_start. by destruct (app_focus e). Qed.
Lemma grab_after_end e s : gui_grab (sdl_grab_end e s) = false.
Proof. unfold sdl_grab_end, sdl_update_caption. simpl. by rewrite grab_show. Qed.

(** Releasing the grab combination without a hot key toggles the grab and
    releases every modifier in the guest.  A window that grabs gives the input
    back unless it is in full screen; one that does not grabs it if its console
    is graphic and it has the focus. *)
Theorem grab_combination e ev s :
  ui_inv (fun _ => false) s -> gui_key_modifier_pressed s = true -> gui_keysym s = false ->
  Z.land (kmod ev) (if negb (alt_grab e) then gui_grab_code else Z.lor gui_grab_code KMOD_LSHIFT) = 0 ->
  let s' := handle_keyup e ev s in
  (forall k, is_modifier k = true -> held k (calls s') = false) /\
  grabbed (calls s') = (if gui_grab s then gui_fullscreen s else is_graphic e s && app_focus e).
Proof.
  intros Hi Hp Hk Hmods. cbv zeta. unfold handle_keyup. cbv zeta. rewrite Hmods, Hp.
  cbn [Z.eqb andb]. change (gui_keysym (set _ _ s)) with (gui_keysym s). rewrite Hk. cbn [negb].
  set (s0 := set gui_key_modifier_pressed _ s). assert (ui_inv (fun _ => false) s0) as Hi0 by exact Hi.
  set (s1 := if negb (gui_grab s0) then _ else _).
  assert (ui_inv (fun _ => false) s1 /\ gui_grab s1 =
    (if gui_grab s then gui_fullscreen s else is_graphic e s && app_focus e)) as [Hi1 Hg1].
  { unfold s1. change (gui_grab s0) with (gui_grab s). change (gui_fullscreen s0) with (gui_fullscreen s).
    change (is_graphic e s0) with (is_graphic e s).
    destruct (gui_grab s) eqn:Eg; cbn [negb].
    - destruct (gui_fullscreen s); cbn [negb]; [done|]. split; [by apply inv_grab_end|]. apply grab_after_end.
    - destruct (is_graphic e s); cbn [andb]; [|done]. split; [by apply inv_grab_start|].
      rewrite grab_after_start. change (gui_grab s0) with (gui_grab s). rewrite Eg. apply orb_false_r. }
  destruct (reset_keys_spec s1 Hi1) as (([_ Hm] & Hg & _) & Hz & Hgk). split.
  - intros k Hmod. assert (0 <= k < 256) as Hr by (unfold is_modifier in Hmod; zdecide_in Hmod; (lia || done)).
    specialize (Hm k Hr). rewrite Hmod in Hm. rewrite <- Hm, Hz by (simpl; lia). done.
  - by rewrite Hg, Hgk.
Qed.

Lemma grab_combination_witness :
  let s := (ui_zero false false) <| gui_key_modifier_pressed := true |> in
  let s' := handle_keyup demo_env (mk_keyev 306 37 0 0 false) s in
  (forall k, is_modifier k = true -> held k (calls s') = false) /\
  grabbed (calls s') = (if gui_grab s then gui_fullscreen s else is_graphic demo_env s && app_focus demo_env).
Proof.
  intros s. apply (grab_combination demo_env (mk_keyev 306 37 0 0 false) s); try reflexivity.
  exact (inv_zero false false).
Defined.

(** *** Full screen *)

(** The geometry of the window. *)
Definition geom (s : ui) : bool * (bool * Z * Z * bool) * bool * screen * screen * Z :=
  (gui_fullscreen s, (gui_saved_scaling s, gui_saved_width s, gui_saved_height s, gui_saved_grab s),
   scaling_active s, real_screen s, surface s, console s).

Lemma geom_fields s s' :
  geom s = geom s' ->
  gui_fullscreen s = gui_fullscreen s' /\ scaling_active s = scaling_active s' /\
  real_screen s = real_screen s'.
Proof. unfold geom. by intros [=]. Qed.
Lemma geom_hide e s : geom (sdl_hide_cursor e s) = geom s.
Proof. unfold sdl_hide_cursor. by cases. Qed.
Lemma geom_show e s : geom (sdl_show_cursor e s) = geom s.
Proof. unfold sdl_show_cursor. by cases. Qed.
Lemma geom_start e s : geom (sdl_grab_start e s) = geom s.
Proof.
  unfold sdl_grab_start. destruct (app_focus e); [|done]. destruct (guest_cursor s).
  - by destruct (negb (input_absolute e) && _).
  - exact (geom_hide e s).
Qed.
Lemma geom_end e s : geom (sdl_grab_end e s) = geom s.
Proof. exact (geom_show e (call (CGrabInput false) (s <| gui_grab := false |>))). Qed.

Section FullScreen.
Context (e : env) (Hmode : forall w h b, exists b', set_video_mode e w h b = Some (mk_screen w h b')).

Lemma resize_granted w h b s :
  exists b', do_sdl_resize e w h b s =
    (call (CSetVideoMode w h b (gui_fullscreen s) (gui_noframe s)) s) <| real_screen := mk_screen w h b' |>.
Proof. unfold do_sdl_resize. destruct (Hmode w h b) as [b' ->]. by exists b'. Qed.

Lemma toggle_enter s :
  gui_fullscreen s = false ->
  exists scr, geom (toggle_full_screen e s) =
    (true, (scaling_active s, scr_w (real_screen s), scr_h (real_screen s), gui_grab s),
     false, scr, surface s, console s) /\
  gui_grab (toggle_full_screen e s) = app_focus e || gui_grab s.
Proof.
  intros Hf. unfold toggle_full_screen. cbv zeta. rewrite Hf. cbn [negb].
  change (gui_fullscreen (set gui_fullscreen _ s)) with true. cbv iota.
  set (s1 := set gui_saved_scaling _ _).
  destruct (resize_granted (scr_w (surface s)) (scr_h (surface s)) (scr_bpp (surface s)) s1) as [b' ->].
  eexists. split.
  - etrans; [exact (geom_start e _)|]. reflexivity.
  - etrans; [exact (grab_after_start e _)|]. reflexivity.
Qed.

Lemma toggle_leave s :
  gui_fullscreen s = true -> graphic e (console s) = true ->
  let s' := toggle_full_screen e s in
  gui_fullscreen s' = false /\ scaling_active s' = (gui_saved_scaling s || scaling_active s) /\
  gui_grab s' = (gui_saved_grab s && gui_grab s) /\
  (scr_w (real_screen s'), scr_h (real_screen s')) =
    if gui_saved_scaling s then (gui_saved_width s, gui_saved_height s)
    else (scr_w (surface s), scr_h (surface s)).
Proof.
  intros Hf Hg. cbv zeta. unfold toggle_full_screen. cbv zeta. rewrite Hf. cbn [negb].
  change (gui_fullscreen (set gui_fullscreen _ s)) with false. cbv iota.
  set (s0 := set gui_fullscreen _ s). set (s1 := if gui_saved_scaling s0 then _ else _).
  assert (gui_fullscreen s1 = false /\ scaling_active s1 = (gui_saved_scaling s || scaling_active s) /\
    gui_grab s1 = gui_grab s /\ gui_saved_grab s1 = gui_saved_grab s /\ console s1 = console s /\
    (scr_w (real_screen s1), scr_h (real_screen s1)) =
      if gui_saved_scaling s then (gui_saved_width s, gui_saved_height s)
      else (scr_w (surface s), scr_h (surface s))) as (F1 & F2 & F3 & F4 & F5 & F6).
  { unfold s1. change (gui_saved_scaling s0) with (gui_saved_scaling s).
    destruct (gui_saved_scaling s); unfold sdl_scale; cbv zeta;
      match goal with |- context [do_sdl_resize e ?w ?h ?b ?x] =>
        destruct (resize_granted w h b x) as [b' ->] end; repeat split. }
  clearbody s1. unfold is_graphic. rewrite F4, F5, Hg. rewrite orb_false_r.
  destruct (gui_saved_grab s); cbn [negb andb]; [done|].
  pose proof (geom_end e s1) as Hge. pose proof (grab_after_end e s1) as Hgr.
  destruct (geom_fields _ _ Hge) as (E1 & E2 & E3).
  change (gui_grab (refresh_all ?x)) with (gui_grab x). change (real_screen (refresh_all ?x)) with (real_screen x).
  change (scaling_active (refresh_all ?x)) with (scaling_active x).
  change (gui_fullscreen (refresh_all ?x)) with (gui_fullscreen x).
  rewrite E1, E2, E3. done.
Qed.

End FullScreen.

(** Leaving full screen undoes entering it.  When SDL grants the requested
    sizes and the console is graphic, switching to full screen and back gives
    the same scaling mode, the same grab, and the window size it had (or, when
    not scaled, the size of the guest's picture). *)
Theorem full_screen_round_trip e s :
  (forall w h b, exists b', set_video_mode e w h b = Some (mk_screen w h b')) ->
  gui_fullscreen s = false -> graphic e (console s) = true ->
  let s' := toggle_full_screen e (toggle_full_screen e s) in
  gui_fullscreen s' = false /\ scaling_active s' = scaling_active s /\ gui_grab s' = gui_grab s /\
  (if scaling_active s then scr_w (real_screen s') = scr_w (real_screen s) /\
                            scr_h (real_screen s') = scr_h (real_screen s)
   else scr_w (real_screen s') = scr_w (surface s) /\ scr_h (real_screen s') = scr_h (surface s)).
Proof.
  intros Hmode Hf Hg. cbv zeta.
  destruct (toggle_enter e Hmode s Hf) as (scr & Hge & Hgr). set (s1 := toggle_full_screen e s) in *.
  clearbody s1. unfold geom in Hge. injection Hge as E1 E2 E3 E4 E5 E6 E7 E8 E9.
  destruct (toggle_leave e Hmode s1 E1) as (F1 & F2 & F3 & F4); [by rewrite E9|].
  split; [done|]. split; [rewrite F2, E2, E6; apply orb_false_r|].
  split; [rewrite F3, E5, Hgr; by destruct (gui_grab s), (app_focus e)|].
  rewrite E2, E3, E4, E8 in F4. by destruct (scaling_active s); injection F4.
Qed.

Lemma full_screen_round_trip_witness :
  let s := (ui_zero false false) <| scaling_active := true |> <| real_screen := mk_screen 1280 768 32 |>
             <| surface := mk_screen 640 480 32 |> in
  let s' := toggle_full_screen demo_env (toggle_full_screen demo_env s) in
  gui_fullscreen s' = false /\ scaling_active s' = scaling_active s /\ gui_grab s' = gui_grab s /\
  (if scaling_active s then scr_w (real_screen s') = scr_w (real_screen s) /\
                            scr_h (real_screen s') = scr_h (real_screen s)
   else scr_w (real_screen s') = scr_w (surface s) /\ scr_h (real_screen s') = scr_h (surface s)).
Proof.
  intros s. apply (full_screen_round_trip demo_env s); [|reflexivity|reflexivity].
  intros w h b. eexists. reflexivity.
Defined.
