(* ===== verification/NetInput.v ===== *)
(** * Input from the browser (thread_sdl of ui/sdl.c)

    A thread of the emulator reads text messages from the web server: mouse
    events [0 x y state] and key events [1 state keycode].  [net_event] is one
    turn of its loop on a given buffer; [fill] is what [read] leaves in the
    buffer, which is declared inside the loop and uninitialised in every turn.  The messages are
    those of the browser pages, as the web server passes them on.  The last
    section follows a key from the socket to the port the guest reads. *)

From coqutil Require Import Datatypes.RecordSettersUsingExistingGetters.
From S2P Require Import Prelude CString Js WebServer InputCore PS2 PCKbd SdlUI.

(** ** Key map *)

Definition km_entries : list (Z * Z) :=
  [(27, 1); (145, 70); (112, 59); (113, 60); (114, 61); (115, 62); (116, 63); (117, 64); (118, 65);
   (119, 66); (120, 67); (121, 68); (122, 87); (123, 88); (192, 41); (49, 2); (50, 3); (51, 4);
   (52, 5); (53, 6); (54, 7); (55, 8); (56, 9); (57, 10); (48, 11); (189, 12); (187, 13);
   (220, 43); (8, 14); (9, 15); (81, 16); (87, 17); (69, 18); (82, 19); (84, 20); (89, 21);
   (85, 22); (73, 23); (79, 24); (80, 25); (219, 26); (221, 27); (13, 28); (20, 58); (65, 30);
   (83, 31); (68, 32); (70, 33); (71, 34); (72, 35); (74, 36); (75, 37); (76, 38); (186, 39);
   (222, 40); (16, 42); (90, 44); (88, 45); (67, 46); (86, 47); (66, 48); (78, 49); (77, 50);
   (188, 51); (190, 52); (191, 53); (16, 54); (17, 29); (91, 219); (18, 56); (25, 242); (32, 57);
   (21, 184); (92, 220); (93, 221); (25, 157); (37, 203); (40, 208); (39, 205); (38, 200); (144, 69);
   (111, 181); (106, 55); (109, 74); (103, 71); (104, 72); (105, 73); (107, 78); (100, 75); (101, 76);
   (102, 77); (97, 79); (98, 80); (99, 81); (96, 82); (110, 83); (45, 210); (36, 199); (33, 201);
   (46, 211); (35, 207); (34, 209)].

(** Browser key codes to PC scancodes; later assignments win. *)
Definition Make_keymap : list Z :=
  fold_left (fun km '(i, v) => aset km i v) km_entries (replicate 250 0).

Definition ENTERKEY : Z := 28.
Definition F11KEY : Z := 87.
Definition ESCKEY : Z := 1.
Definition KINPUT : Z := 1.
Definition MINPUT : Z := 0.

(** ** Messages *)

Inductive netev := NetMouse (x y state : Z) | NetKey (keycode : Z) (down : bool) | NetNone.

(** [read(sockfd, buf, 100)]: at most 100 bytes of the message overwrite the
    front of the buffer; the rest keeps its bytes and no terminator is added. *)
Definition fill (msg buf : list Z) : list Z := take 100 msg ++ drop (length (take 100 msg)) buf.

(** Mouse fields; [g_scaleConstant_X] and [_Y] are 1. *)
Definition net_mouse (android : bool) (real_h : Z) (buf : list Z) (sv : nat) : outcome (netev * list Z) :=
  '(t, buf, sv) ← strtok 32 buf sv; x ← atoi_at buf t;
  '(t, buf, sv) ← strtok 32 buf sv; y ← atoi_at buf t;
  '(t, buf, sv) ← strtok 32 buf sv; state ← atoi_at buf t;
  Ok (if android then NetMouse y (real_h - x) state else NetMouse x y state, buf).

(** Key fields; the index into [km] is not checked. *)
Definition net_key (buf : list Z) (sv : nat) : outcome (netev * list Z) :=
  '(t, buf, sv) ← strtok 32 buf sv; state ← atoi_at buf t;
  '(t, buf, sv) ← strtok 32 buf sv; keycode ← atoi_at buf t;
  keycode ← aget_chk Make_keymap keycode;
  Ok (if state =? 0 then NetKey keycode false
      else if state =? 1 then NetKey keycode true else NetNone, buf).

(** One turn of the loop after [read]: the event and the buffer it leaves. *)
Definition net_event (android : bool) (real_h : Z) (buf : list Z) : outcome (netev * list Z) :=
  _ ← cstr_at buf 0;                                 (* printf("event : %s") *)
  '(t, buf, sv) ← strtok 32 buf 0; type ← atoi_at buf t;
  if type =? MINPUT then net_mouse android real_h buf sv
  else if type =? KINPUT then net_key buf sv
  else Ok (NetNone, buf).

(** ** Commands *)

Definition key_down_command (keycode : Z) : ui -> ui := call (CKeyNumber keycode true).
Definition key_up_command (keycode : Z) : ui -> ui := call (CKeyNumber keycode false).
Definition back_button_down_handler : ui -> ui := key_down_command ESCKEY.
Definition back_button_up_handler : ui -> ui := key_up_command ESCKEY.
Definition touch_down_handler (absolute : bool) (x y : Z) : ui -> ui := sdl_send_mouse_event absolute 0 0 x y 1.
Definition touch_up_handler (absolute : bool) (x y : Z) : ui -> ui := sdl_send_mouse_event absolute 0 0 x y 0.

(** The keys pressed when the thread starts. *)
Definition thread_start (android : bool) (s : ui) : ui :=
  let press k s := key_up_command k (key_down_command k s) in
  let s := press ENTERKEY s in
  if android then press F11KEY (press F11KEY s) else s.

Definition net_apply (absolute : bool) (ev : netev) (s : ui) : ui :=
  match ev with
  | NetMouse x y state => sdl_send_mouse_event absolute 0 0 x y state s
  | NetKey k true => key_down_command k s
  | NetKey k false => key_up_command k s
  | NetNone => s
  end.

(** The loop [while (sockfd > 0)] on a sequence of turns, each given by the
    message [read] returns and the bytes the uninitialised [buf] holds before;
    [absolute] is [qemu_input_is_absolute()]. *)
Fixpoint thread_sdl (absolute android : bool) (turns : list (list Z * list Z)) (s : ui) : outcome ui :=
  match turns with
  | [] => Ok s
  | (msg, buf) :: turns =>
      '(ev, _) ← net_event android (scr_h (real_screen s)) (fill msg buf);
      thread_sdl absolute android turns (net_apply absolute ev s)
  end.

(** ** Messages of the browser *)

(** A message as the web server writes it to the socket. *)
Definition line (m : Browser.msg) : list Z := Browser.render m ++ [10].

(** Messages with coordinates that fit an [int] together with the height of the
    screen ([NaN] is read as 0), and key codes inside the key map. *)
Definition coord_ok (v : option Z) : Prop :=
  match v with Some n => -1073741824 <= n < 2147483648 | None => True end.

Definition valid (m : Browser.msg) : Prop :=
  match m with
  | Browser.Mouse x y state => coord_ok x /\ coord_ok y /\ 0 <= state < 2147483648
  | Browser.Key _ key => 0 <= key < 250
  end.

(** What the thread is to make of a message. *)
Definition meaning (android : bool) (real_h : Z) (m : Browser.msg) : netev :=
  match m with
  | Browser.Mouse x y state =>
      let x := default 0 x in let y := default 0 y in
      if android then NetMouse y (real_h - x) state else NetMouse x y state
  | Browser.Key down key => NetKey (aget Make_keymap key) down
  end.

(** ** Parsing the messages *)

(** The first field of a buffer. *)
Lemma first_field {B} (k : Z -> list Z -> nat -> outcome B) n post :
  0 <= n < 2147483648 ->
  ('(t, buf, sv) ← strtok 32 (dec n ++ 32 :: post) 0; v ← atoi_at buf t; k v buf sv) =
  k n ((dec n ++ [0]) ++ post) (length (dec n ++ [0])).
Proof. exact (num_field k [] n post). Qed.

Lemma first_field_last {B} (k : Z -> list Z -> nat -> outcome B) n post :
  0 <= n < 2147483648 ->
  ('(t, buf, sv) ← strtok 32 (dec n ++ 0 :: post) 0; v ← atoi_at buf t; k v buf sv) =
  k n (dec n ++ 0 :: post) (length (dec n)).
Proof. exact (num_field_last k [] n post). Qed.

(** The buffer can be printed. *)
Lemma printable l : 0 ∈ l -> exists s, cstr_at l 0 = Ok s.
Proof. intros Hz. apply cstr_total. by rewrite drop_0. Qed.

Lemma coord_field {B} (k : Z -> list Z -> nat -> outcome B) pre v post :
  coord_ok v ->
  ('(t, buf, sv) ← strtok 32 (pre ++ Browser.num_text v ++ 32 :: post) (length pre); x ← atoi_at buf t; k x buf sv) =
  k (default 0 v) ((pre ++ Browser.num_text v ++ [0]) ++ post) (length (pre ++ Browser.num_text v ++ [0])).
Proof.
  intros Hv. destruct v as [n|]; cbn [Browser.num_text default coord_ok] in *.
  - apply text_field; [apply dec_nonempty|apply dec_tok_byte|apply (atoi_dec n); lia].
  - apply text_field; [done| |reflexivity]. change (Forall (tok_byte 32) [78; 97; 78]). unfold tok_byte.
    repeat (apply Forall_cons; split); try lia. by apply Forall_nil.
Qed.

Lemma net_mouse_msg android rh x y state rest :
  coord_ok x -> coord_ok y -> 0 <= state < 2147483648 -> 0 ∈ rest ->
  exists rest', net_event android rh (Browser.render (Browser.Mouse x y state) ++ rest) =
    Ok (meaning android rh (Browser.Mouse x y state), dec 0 ++ 0 :: rest').
Proof.
  intros Hx Hy Hs Hz. unfold net_event. cbn [Browser.render meaning].
  change (bytes "0") with (dec 0). change (bytes " ") with [32].
  repeat (rewrite <- app_assoc; cbn [app]).
  match goal with |- context [cstr_at ?l 0] => destruct (printable l) as [s0 ->] end.
  { do 4 (apply elem_of_app; right; apply elem_of_cons; right). done. }
  cbn [mbind outcome_bind].
  rewrite (first_field (fun type buf sv => if type =? MINPUT then net_mouse android rh buf sv
    else if type =? KINPUT then net_key buf sv else Ok (NetNone, buf))) by lia.
  cbn [MINPUT Z.eqb]. unfold net_mouse.
  set (fin := fun x y state (buf : list Z) =>
    Ok (if android then NetMouse y (rh - x) state else NetMouse x y state, buf)).
  rewrite (coord_field (fun x buf sv =>
    '(t, buf, sv) ← strtok 32 buf sv; y ← atoi_at buf t;
    '(t, buf, sv) ← strtok 32 buf sv; state ← atoi_at buf t; fin x y state buf)) by done.
  rewrite (coord_field (fun y buf sv =>
    '(t, buf, sv) ← strtok 32 buf sv; state ← atoi_at buf t; fin (default 0 x) y state buf)) by done.
  rewrite (num_field (fun state buf sv => fin (default 0 x) (default 0 y) state buf)) by lia.
  repeat (rewrite <- app_assoc; cbn [app]). eexists. reflexivity.
Qed.

Lemma net_key_msg android rh down key rest :
  0 <= key < 250 -> 0 ∈ rest ->
  exists rest', net_event android rh (Browser.render (Browser.Key down key) ++ 10 :: rest) =
    Ok (NetKey (aget Make_keymap key) down, dec 1 ++ 0 :: rest').
Proof.
  intros Hk Hz. destruct (split_token rest Hz) as (junk & e & post & -> & Hj & He).
  unfold net_event. cbn [Browser.render]. change (bytes "1") with (dec 1). change (bytes " ") with [32].
  replace (bytes (if down then _ else _)) with (dec (b2z down)) by (by destruct down).
  repeat (rewrite <- app_assoc; cbn [app]).
  match goal with |- context [cstr_at ?l 0] => destruct (printable l) as [s0 ->] end.
  { do 2 (apply elem_of_app; right; apply elem_of_cons; right). apply elem_of_app. right.
    apply elem_of_cons. by right. }
  cbn [mbind outcome_bind].
  rewrite (first_field (fun type buf sv => if type =? MINPUT then net_mouse android rh buf sv
    else if type =? KINPUT then net_key buf sv else Ok (NetNone, buf))) by lia.
  cbn [MINPUT KINPUT Z.eqb Pos.eqb]. unfold net_key.
  set (fin := fun state keycode (buf : list Z) => k ← aget_chk Make_keymap keycode;
    Ok (if state =? 0 then NetKey k false else if state =? 1 then NetKey k true else NetNone, buf)).
  rewrite (num_field (fun state buf sv =>
    '(t, buf, sv) ← strtok 32 buf sv; keycode ← atoi_at buf t; fin state keycode buf))
    by (destruct down; simpl; lia).
  destruct (num_field_junk (fun keycode buf sv => fin (b2z down) keycode buf)
    ((dec 1 ++ [0]) ++ dec (b2z down) ++ [0]) key (10 :: junk) e post) as (buf & sv & E & Eb);
    [lia|done|by constructor|done|].
  repeat (rewrite <- app_assoc in E; cbn [app] in E). repeat (rewrite <- app_assoc; cbn [app]).
  rewrite E. unfold fin, aget_chk. change (Z.of_nat (length Make_keymap)) with 250.
  destruct (Z.leb_spec 0 key), (Z.ltb_spec key 250); try lia. cbn [andb mbind outcome_bind].
  rewrite Eb. repeat (rewrite <- app_assoc; cbn [app]). eexists. f_equal. f_equal. by destruct down.
Qed.

(** One turn of the loop on a relayed message. *)
Lemma net_event_line android rh m rest :
  valid m -> 0 ∈ rest ->
  exists rest', net_event android rh (line m ++ rest) =
    Ok (meaning android rh m, dec (match m with Browser.Mouse _ _ _ => 0 | _ => 1 end) ++ 0 :: rest').
Proof.
  intros Hv Hz. unfold line. rewrite <- app_assoc. cbn [app].
  destruct m as [x y state|down key].
  - destruct Hv as (Hx & Hy & Hs). apply net_mouse_msg; try done. apply elem_of_cons. by right.
  - by apply net_key_msg.
Qed.

(** The buffer after an event: the type, a NUL, anything.  Its first token is
    its only one. *)
Lemma net_event_again android rh type rest :
  type = 0 \/ type = 1 -> net_event android rh (dec type ++ 0 :: rest) = Crash.
Proof.
  intros Ht. assert (0 <= type < 2147483648) by lia. unfold net_event.
  assert (exists s, cstr_at (dec type ++ 0 :: rest) 0 = Ok s) as [s0 ->].
  { apply cstr_total. rewrite drop_0. apply elem_of_app. right. apply elem_of_cons. by left. }
  cbn [mbind outcome_bind].
  rewrite (first_field_last (fun type buf sv => if type =? MINPUT then net_mouse android rh buf sv
    else if type =? KINPUT then net_key buf sv else Ok (NetNone, buf))) by lia.
  unfold net_mouse, net_key. rewrite !strtok_end by lia. by destruct Ht as [-> | ->].
Qed.

(** ** From the call to the devices *)

(** The calls of the display layer that reach the input core; the display's
    console is NULL. *)
Definition run_call {D} `{InputDevices D} (m : icore D) (c : ucall) : icore D :=
  match c with
  | CKeyNumber n down => qemu_input_event_send_key_number None n down m
  | CKeyQcode q down => qemu_input_event_send_key_qcode None q down m
  | CButtons old new => qemu_input_update_buttons None sdl_bmap old new m
  | CAbs axis v size => qemu_input_queue_abs None axis v size m
  | CRel axis v => qemu_input_queue_rel None axis v m
  | CSync => qemu_input_event_sync m
  | _ => m
  end.

Lemma sync_fold_kbd hs d :
  kbc_inv d ->
  kbc_inv (fold_left (fun d h => sync_one h d) hs d) /\
  kbytes (fold_left (fun d h => sync_one h d) hs d) = kbytes d.
Proof.
  revert d. induction hs as [|h hs IH]; intros d Hi; [done|]. cbn [fold_left].
  assert (kbc_inv (sync_one h d) /\ kbytes (sync_one h d) = kbytes d) as [Hi1 Hk1].
  { unfold sync_one. destruct (h_events h =? 0); [done|]. cbn [dev_sync ps2_devices].
    destruct (h_dev h =? 1); [|done].
    destruct (on_mouse_spec ps2_mouse_sync d Hi mouse_sync_reports) as (Hi' & Hk & _).
    split; [done|]. unfold kbytes. by rewrite Hk. }
  destruct (IH _ Hi1) as [Hi2 Hk2]. split; [done|]. by rewrite Hk2.
Qed.

(** The machine is running, its keyboard takes key events, no delayed events
    wait, and the keyboard is in translated mode with room for two bytes. *)
Record keyboard_ready (m : icore KBDState) : Prop := mk_ready {
  ready_running : running m = true;
  ready_queue : InputCore.kbd_queue m = [];
  ready_handler : exists i h, qemu_input_find_handler INPUT_EVENT_MASK_KEY None m = Some i /\
    handlers m !! i = Some h /\ h_dev h = 0;
  ready_inv : kbc_inv (devs m);
  ready_mode : translate (kbd (devs m)) <> 0;
  ready_room : count (PS2.queue (kcommon (kbd (devs m)))) + 2 < PS2_QUEUE_SIZE
}.

Lemma key_call_spec m n down :
  keyboard_ready m -> 0 <= n < 256 ->
  let m' := run_call m (CKeyNumber n down) in
  kbc_inv (devs m') /\
  kbytes (devs m') = kbytes (devs m) ++ qemu_input_key_value_to_scancode (KEY_NUMBER n) down.
Proof.
  intros [Hrun Hq (i & h & Hfind & Hh & Hdev) Hi Htr Hroom] Hn. cbv zeta. cbn [run_call].
  unfold qemu_input_event_send_key_number, qemu_input_event_send_key. rewrite Hq.
  unfold qemu_input_event_send. rewrite Hrun. cbn [negb].
  replace (if nz (graphic_rotate m) then _ else _) with (EvKey (KEY_NUMBER n) down)
    by (by destruct (nz (graphic_rotate m))).
  cbn [event_kind]. change (Z.shiftl 1 0) with INPUT_EVENT_MASK_KEY. rewrite Hfind, Hh, Hdev.
  cbn [dev_event ps2_devices Z.eqb]. unfold qemu_input_event_sync.
  cbn [running set_handlers set_devs handlers devs]. rewrite Hrun. cbn [negb devs set_handlers set_devs].
  destruct (on_kbd_spec _ (devs m) Hi (keyboard_event_reports (EvKey (KEY_NUMBER n) down)))
    as (Hi1 & _ & Hk1 & _).
  destruct (sync_fold_kbd (<[i:=bump h]> (handlers m)) _ Hi1) as [Hi2 Hk2].
  split; [exact Hi2|]. rewrite Hk2. unfold kbytes. rewrite Hk1.
  pose proof Hi as ((Hwf & _) & _).
  destruct (keyboard_event_contents (kbd (devs m)) n down Hwf Hn) as [_ Hc].
  { rewrite key_stream_translated by done. rewrite scancode_number by done.
    rewrite length_app. destruct (n <? 128); simpl; lia. }
  rewrite key_stream_translated in Hc by done. exact Hc.
Qed.

Lemma keymap_ok k : 0 <= k < 250 -> key_ok (KEY_NUMBER (aget Make_keymap k)) = true.
Proof.
  intros Hk. apply (all_below_spec 250 (fun k => key_ok (KEY_NUMBER (aget Make_keymap k))) k); [|lia].
  vm_compute. reflexivity.
Qed.

Lemma keymap_range k : 0 <= k < 250 -> 0 <= aget Make_keymap k < 256.
Proof.
  intros Hk. pose proof (keymap_ok k Hk) as Hok. unfold key_ok in Hok.
  cbn [qemu_input_key_value_to_number] in Hok.
  rewrite !andb_true_iff, Z.leb_le, Z.ltb_lt in Hok. lia.
Qed.

(** Different browser keys are different keys in the guest. *)
Lemma keymap_injective k k' :
  0 <= k < 250 -> 0 <= k' < 250 -> aget Make_keymap k = aget Make_keymap k' ->
  aget Make_keymap k <> 0 -> k = k'.
Proof.
  intros Hk Hk' E Hnz.
  assert (all_below 250 (fun k => (aget Make_keymap k =? 0) ||
    all_below 250 (fun k' => negb (aget Make_keymap k =? aget Make_keymap k') || (k =? k'))) = true)
    as Hall by (vm_compute; reflexivity).
  apply (all_below_spec 250 _ k) in Hall; [|lia].
  apply orb_true_iff in Hall as [Hall%Z.eqb_eq|Hall]; [done|].
  apply (all_below_spec 250 _ k') in Hall; [|lia]. rewrite E, Z.eqb_refl in Hall. cbn [negb orb] in Hall.
  by apply Z.eqb_eq.
Qed.

(** A key pressed from the network is unknown to [modifiers_state]:
    [reset_keys] does not release it. *)
Lemma net_modifier_not_reset :
  let s := reset_keys (key_down_command 54 (ui_zero false false)) in held 54 (calls s) = true.
Proof. vm_compute. reflexivity. Qed.

(** ** The receive buffer *)

(** A buffer of 100 bytes with a NUL behind the [n] bytes of a message. *)
Definition ends (n : nat) (buf : list Z) : Prop := length buf = 100%nat /\ 0 ∈ drop n buf.

Lemma fill_short msg buf : (length msg <= 100)%nat -> fill msg buf = msg ++ drop (length msg) buf.
Proof. intros H. unfold fill. by rewrite take_ge. Qed.

(** It is enough that the last byte is NUL. *)
Definition rbuf (buf : list Z) : Prop := length buf = 100%nat /\ buf !! 99%nat = Some 0.

Lemma rbuf_ends n buf : rbuf buf -> (n <= 99)%nat -> ends n buf.
Proof.
  intros [Hl Hz] Hn. split; [done|]. apply (list_elem_of_lookup_2 _ (99 - n)).
  rewrite lookup_drop. by replace (n + (99 - n))%nat with 99%nat by lia.
Qed.

Lemma num_text_length v : coord_ok v -> (length (Browser.num_text v) <= 11)%nat.
Proof.
  destruct v as [n|]; cbn [coord_ok Browser.num_text]; [|cbn; lia]. intros Hn.
  unfold dec. destruct (Z.ltb_spec n 0); cbn [length].
  - pose proof (dec_digits_length 20 10 (- n) ltac:(lia) ltac:(simpl; lia)). lia.
  - pose proof (dec_digits_length 20 10 n ltac:(lia) ltac:(simpl; lia)). lia.
Qed.

Lemma line_length m : valid m -> (length (line m) <= 99)%nat.
Proof.
  intros Hv. unfold line. rewrite length_app. destruct m as [x y state|down key];
    cbn [Browser.render]; repeat rewrite length_app; cbn [length].
  - destruct Hv as (Hx & Hy & Hs). pose proof (num_text_length x Hx). pose proof (num_text_length y Hy).
    pose proof (dec_length 10 state ltac:(lia) ltac:(simpl; lia)).
    change (length (bytes "0")) with 1%nat. change (length (bytes " ")) with 1%nat. lia.
  - cbn [valid] in Hv. pose proof (dec_length 10 key ltac:(lia) ltac:(simpl; lia)).
    change (length (bytes "1")) with 1%nat. change (length (bytes " ")) with 1%nat.
    destruct down; cbn [length bytes]; lia.
Qed.

(** One turn, on one relayed message with anything valid or not behind it. *)
Lemma turn_line android rh m more buf :
  valid m -> (length (line m ++ more) <= 99)%nat -> ends (length (line m ++ more)) buf ->
  exists buf', net_event android rh (fill (line m ++ more) buf) = Ok (meaning android rh m, buf').
Proof.
  intros Hv Hl [_ Hz]. rewrite fill_short, <- app_assoc by lia.
  destruct (net_event_line android rh m (more ++ drop (length (line m ++ more)) buf) Hv) as [rest' E]; [|by eauto].
  apply elem_of_app. by right.
Qed.

(** ** Properties *)

(** The display after a sequence of messages. *)
Definition follow (absolute android : bool) (u : ui) (m : Browser.msg) : ui :=
  net_apply absolute (meaning android (scr_h (real_screen u)) m) u.

Lemma thread_follows absolute android turns u :
  Forall (fun '(m, buf) => valid m /\ ends (length (line m)) buf) turns ->
  thread_sdl absolute android ((fun '(m, buf) => (line m, buf)) <$> turns) u =
    Ok (fold_left (follow absolute android) turns.*1 u).
Proof.
  intros Hms. revert u. induction Hms as [|[m buf] turns [Hm Hb] _ IH]; intros u; [done|].
  cbn [fmap list_fmap thread_sdl fold_left fst].
  destruct (turn_line android (scr_h (real_screen u)) m [] buf Hm) as (b1 & E);
    rewrite ?app_nil_r; [by apply line_length|done|].
  rewrite app_nil_r in E. rewrite E. cbn [mbind outcome_bind]. apply IH.
Qed.

(** C11: a key pressed in the browser reaches the guest.  The thread turns the
    relayed message (with a key code below 250, the size of the key map) into one
    key event, whatever its uninitialised buffer held, as long as its last byte
    is NUL; if the machine's keyboard is ready, the bytes the guest will read
    at port 0x60 grow by the scancodes of the mapped key, which decode to
    exactly this key and direction. *)
Theorem browser_key_reaches_guest absolute android key down buf u m :
  0 <= key < 250 -> keyboard_ready m -> rbuf buf ->
  let n := aget Make_keymap key in
  thread_sdl absolute android [(line (Browser.Key down key), buf)] u = Ok (call (CKeyNumber n down) u) /\
  let m' := run_call m (CKeyNumber n down) in
  kbc_inv (devs m') /\
  kbytes (devs m') = kbytes (devs m) ++ qemu_input_key_value_to_scancode (KEY_NUMBER n) down /\
  decode_scancodes (qemu_input_key_value_to_scancode (KEY_NUMBER n) down) = [(KEY_NUMBER n, down)].
Proof.
  intros Hk Hm Hb. cbv zeta.
  assert (valid (Browser.Key down key)) as Hv by done.
  pose proof (thread_follows absolute android [(Browser.Key down key, buf)] u) as E.
  cbn [fmap list_fmap] in E. rewrite E.
  2: { repeat constructor; [apply Hv..|apply Hb|apply rbuf_ends; [done|by apply line_length]]. }
  split.
  - cbn [fold_left fmap list_fmap fst]. unfold follow, meaning, net_apply. by destruct down.
  - destruct (key_call_spec m (aget Make_keymap key) down Hm (keymap_range key Hk)) as [Hi Hc].
    split; [done|]. split; [done|].
    pose proof (decode_one (aget Make_keymap key) down [] (keymap_ok key Hk)) as Hd.
    by rewrite app_nil_r in Hd.
Qed.

(** A machine after the guest has set up its keyboard controller. *)
Definition demo_machine : icore KBDState :=
  mk_icore [mk_handler 0 INPUT_EVENT_MASK_KEY 1 0 None;
            mk_handler 1 (Z.lor INPUT_EVENT_MASK_BTN INPUT_EVENT_MASK_REL) 2 0 None] 3 [] None false 0 true 0
    (fold_left kbc_exec [OpReset; OpCommand 96; OpWrite 71] (i8042_realizefn true)).

Lemma browser_key_reaches_guest_witness :
  thread_sdl false false [(line (Browser.Key true 39), replicate 99 57 ++ [0])] (ui_zero false false)
    = Ok (call (CKeyNumber 205 true) (ui_zero false false)) /\
    let m' := run_call demo_machine (CKeyNumber 205 true) in
    kbc_inv (devs m') /\
    kbytes (devs m') = kbytes (devs demo_machine) ++ qemu_input_key_value_to_scancode (KEY_NUMBER 205) true /\
    decode_scancodes (qemu_input_key_value_to_scancode (KEY_NUMBER 205) true) = [(KEY_NUMBER 205, true)].
Proof.
  apply (browser_key_reaches_guest false false 39 true (replicate 99 57 ++ [0]) (ui_zero false false) demo_machine);
    [lia| |by split].
  constructor; try reflexivity.
  - exists 0%nat. eexists. repeat split.
  - apply kbc_run_inv, realize_inv.
  - vm_compute. discriminate.
Defined.

(** C12: the thread follows the browser.  When every [read] returns one relayed
    message, the thread applies each message of the browser, in order, as it
    was meant, for any sequence of mouse and key messages; in Android mode
    coordinates are turned by a quarter like the picture.  Coordinates are in the
    range of [int] or [NaN] (read as 0) and key codes below 250, the size of the key
    map.  [read] adds no terminator: in every turn the uninitialised buffer may hold
    anything, as long as some byte behind the message is NUL. *)
Theorem thread_follows_browser absolute android turns u :
  Forall (fun '(m, buf) => valid m /\ ends (length (line m)) buf) turns ->
  thread_sdl absolute android ((fun '(m, buf) => (line m, buf)) <$> turns) u =
    Ok (fold_left (follow absolute android) turns.*1 u).
Proof. apply thread_follows. Qed.

Definition demo_turns : list (Browser.msg * list Z) :=
  [(Browser.Mouse (Some 640) None 1, replicate 99 57 ++ [0]); (Browser.Key true 65, replicate 100 0);
   (Browser.Key false 65, replicate 50 120 ++ [0] ++ replicate 49 32)].

Lemma thread_follows_browser_witness :
  thread_sdl true true ((fun '(m, buf) => (line m, buf)) <$> demo_turns) (ui_zero false false) =
    Ok (fold_left (follow true true)
      [Browser.Mouse (Some 640) None 1; Browser.Key true 65; Browser.Key false 65] (ui_zero false false)).
Proof.
  apply (thread_follows_browser true true demo_turns (ui_zero false false)).
  assert (forall n buf, length buf = 100%nat -> existsb (Z.eqb 0) (drop n buf) = true -> ends n buf) as Hends.
  { intros n buf Hl (z & Hz & <-%Z.eqb_eq)%existsb_exists. split; [done|]. by apply list_elem_of_In. }
  repeat (apply Forall_cons; split); [| | |apply Forall_nil; done];
    (split; [cbn; lia|apply Hends; reflexivity]).
Defined.

(** Messages that arrive together are lost.  When one [read] returns two
    relayed messages or more, only the first is applied: the release of a key
    or button that follows its press closely never reaches the guest. *)
Theorem coalesced_messages_lost absolute android m ms buf u :
  valid m -> (length (line m ++ (ms ≫= line)) <= 99)%nat -> ends (length (line m ++ (ms ≫= line))) buf ->
  thread_sdl absolute android [(line m ++ (ms ≫= line), buf)] u = Ok (follow absolute android u m).
Proof.
  intros Hm Hl Hb. cbn [thread_sdl].
  by destruct (turn_line android (scr_h (real_screen u)) m (ms ≫= line) buf Hm Hl Hb) as (b1 & ->).
Qed.

Lemma coalesced_messages_lost_witness :
  thread_sdl true false [(line (Browser.Key true 65) ++ ([Browser.Key false 65] ≫= line), replicate 100 0)]
      (ui_zero false false) =
    Ok (follow true false (ui_zero false false) (Browser.Key true 65)).
Proof.
  apply (coalesced_messages_lost true false (Browser.Key true 65) [Browser.Key false 65]
    (replicate 100 0) (ui_zero false false)); [simpl; lia|vm_compute; lia|].
  apply rbuf_ends; [by split|vm_compute; lia].
Defined.

(** When the browser's connection ends, the emulator crashes: [read]
    returns 0, and when the array still holds the last message with its
    delimiters overwritten by [strtok], the first token is found and the next is
    NULL. *)
Theorem closed_connection_crashes absolute android m buf u :
  valid m -> ends (length (line m)) buf ->
  exists buf', net_event android (scr_h (real_screen u)) (fill (line m) buf)
                 = Ok (meaning android (scr_h (real_screen u)) m, buf') /\
    thread_sdl absolute android [(line m, buf); ([], buf')] u = Crash.
Proof.
  intros Hm [_ Hz]. rewrite fill_short by (pose proof (line_length m Hm); lia).
  destruct (net_event_line android (scr_h (real_screen u)) m _ Hm Hz) as [rest' E].
  eexists. split; [exact E|]. cbn [thread_sdl]. rewrite (fill_short (line m)) by (pose proof (line_length m Hm); lia).
  rewrite E. cbn [mbind outcome_bind]. unfold fill. cbn [take length drop app].
  rewrite drop_0, net_event_again by (destruct m; auto). done.
Qed.

Lemma closed_connection_crashes_witness :
  exists buf', net_event false 0 (fill (line (Browser.Mouse (Some 3) (Some 4) 0)) (replicate 100 0))
                 = Ok (NetMouse 3 4 0, buf') /\
    thread_sdl true false [(line (Browser.Mouse (Some 3) (Some 4) 0), replicate 100 0); ([], buf')]
      (ui_zero false false) = Crash.
Proof.
  apply (closed_connection_crashes true false (Browser.Mouse (Some 3) (Some 4) 0) (replicate 100 0)
    (ui_zero false false)); [simpl; lia|]. apply rbuf_ends; [by split|vm_compute; lia].
Defined.

(** Key codes from 250 on index the key map out of range. *)
Lemma key_code_not_checked android rh :
  net_event android rh (fill (line (Browser.Key true 255)) (replicate 100 0)) = Crash.
Proof. vm_compute. reflexivity. Qed.
