(* ===== verification/I8259.v ===== *)
(** * The interrupt controllers (hw/intc/i8259.c, i8259_common.c)

    Two cascaded i8259: eight request lines each, the output of the second one
    wired to line 2 of the first, whose output interrupts the processor.
    [int_out] is the level of a chip's output; a change of it on the slave is
    passed on to the master. *)

From coqutil Require Import Datatypes.RecordSettersUsingExistingGetters.
From S2P Require Import Prelude.

Record PICCommonState := mk_pic {
  last_irr : Z;
  irr : Z;
  imr : Z;
  isr : Z;
  priority_add : Z;
  irq_base : Z;
  read_reg_select : Z;
  poll : Z;
  special_mask : Z;
  init_state : Z;
  auto_eoi : Z;
  rotate_on_auto_eoi : Z;
  special_fully_nested_mode : Z;
  init4 : Z;
  single_mode : Z;
  elcr : Z;
  elcr_mask : Z;
  master : bool;
  int_out : bool
}.

(** [1 << irq]. *)
Definition bit (irq : Z) : Z := Z.shiftl 1 irq.
Definition without (v irq : Z) : Z := Z.land v (Z.lnot (bit irq)).

(** The search of [get_priority]; a mask with a bit in 0..7 ends it within
    eight turns. *)
Fixpoint priority_loop (fuel : nat) (add mask priority : Z) : Z :=
  match fuel with
  | O => priority
  | S f =>
      if Z.land mask (bit (Z.land (priority + add) 7)) =? 0
      then priority_loop f add mask (priority + 1) else priority
  end.

Definition get_priority (s : PICCommonState) (mask : Z) : Z :=
  if mask =? 0 then 8 else priority_loop 8 (priority_add s) mask 0.

Definition pic_get_irq (s : PICCommonState) : Z :=
  let mask := Z.land (irr s) (Z.lnot (imr s)) in
  let priority := get_priority s mask in
  if priority =? 8 then -1
  else
    let mask := isr s in
    let mask := if nz (special_mask s) then Z.land mask (Z.lnot (imr s)) else mask in
    let mask := if nz (special_fully_nested_mode s) && master s then without mask 2 else mask in
    let cur_priority := get_priority s mask in
    if priority <? cur_priority then Z.land (priority + priority_add s) 7 else -1.

Definition pic_update_irq (s : PICCommonState) : PICCommonState :=
  s <| int_out := 0 <=? pic_get_irq s |>.

Definition pic_set_irq (irq : Z) (level : bool) (s : PICCommonState) : PICCommonState :=
  let mask := bit irq in
  let s :=
    if nz (Z.land (elcr s) mask) then
      if level then s <| irr := Z.lor (irr s) mask |> <| last_irr := Z.lor (last_irr s) mask |>
      else s <| irr := without (irr s) irq |> <| last_irr := without (last_irr s) irq |>
    else if level then
      let s := if Z.land (last_irr s) mask =? 0 then s <| irr := Z.lor (irr s) mask |> else s in
      s <| last_irr := Z.lor (last_irr s) mask |>
    else s <| last_irr := without (last_irr s) irq |> in
  pic_update_irq s.

Definition pic_intack (irq : Z) (s : PICCommonState) : PICCommonState :=
  let s :=
    if nz (auto_eoi s) then
      if nz (rotate_on_auto_eoi s) then s <| priority_add := Z.land (irq + 1) 7 |> else s
    else s <| isr := Z.lor (isr s) (bit irq) |> in
  let s := if nz (Z.land (elcr s) (bit irq)) then s else s <| irr := without (irr s) irq |> in
  pic_update_irq s.

Definition pic_reset_common (s : PICCommonState) : PICCommonState :=
  mk_pic 0 (Z.land (irr s) (elcr s)) 0 0 0 0 0 0 0 0 0 0 0 0 0 (elcr s) (elcr_mask s) (master s) (int_out s).

Definition pic_init_reset (s : PICCommonState) : PICCommonState := pic_update_irq (pic_reset_common s).
Definition pic_reset (s : PICCommonState) : PICCommonState := pic_init_reset (s <| elcr := 0 |>).

(** ** Ports *)

(** OCW2: end of interrupt and rotation. *)
Definition ocw2 (val : Z) (s : PICCommonState) : PICCommonState :=
  let cmd := Z.shiftr val 5 in
  if (cmd =? 0) || (cmd =? 4) then s <| rotate_on_auto_eoi := Z.shiftr cmd 2 |>
  else if (cmd =? 1) || (cmd =? 5) then
    let priority := get_priority s (isr s) in
    if priority =? 8 then s
    else
      let irq := Z.land (priority + priority_add s) 7 in
      let s := s <| isr := without (isr s) irq |> in
      let s := if cmd =? 5 then s <| priority_add := Z.land (irq + 1) 7 |> else s in
      pic_update_irq s
  else if cmd =? 3 then pic_update_irq (s <| isr := without (isr s) (Z.land val 7) |>)
  else if cmd =? 6 then pic_update_irq (s <| priority_add := Z.land (val + 1) 7 |>)
  else if cmd =? 7 then
    let irq := Z.land val 7 in
    pic_update_irq (s <| isr := without (isr s) irq |> <| priority_add := Z.land (irq + 1) 7 |>)
  else s.

(** OCW3: poll, register selection, special mask mode. *)
Definition ocw3 (val : Z) (s : PICCommonState) : PICCommonState :=
  let s := if nz (Z.land val 4) then s <| poll := 1 |> else s in
  let s := if nz (Z.land val 2) then s <| read_reg_select := Z.land val 1 |> else s in
  if nz (Z.land val 64) then s <| special_mask := Z.land (Z.shiftr val 5) 1 |> else s.

Definition pic_ioport_write (addr val : Z) (s : PICCommonState) : PICCommonState :=
  if addr =? 0 then
    if nz (Z.land val 16) then
      (pic_init_reset s) <| init_state := 1 |> <| init4 := Z.land val 1 |> <| single_mode := Z.land val 2 |>
    else if nz (Z.land val 8) then ocw3 val s
    else ocw2 val s
  else if init_state s =? 0 then pic_update_irq (s <| imr := u8 val |>)
  else if init_state s =? 1 then
    s <| irq_base := Z.land val 248 |>
      <| init_state := if nz (single_mode s) then (if nz (init4 s) then 3 else 0) else 2 |>
  else if init_state s =? 2 then s <| init_state := if nz (init4 s) then 3 else 0 |>
  else if init_state s =? 3 then
    s <| special_fully_nested_mode := Z.land (Z.shiftr val 4) 1 |>
      <| auto_eoi := Z.land (Z.shiftr val 1) 1 |> <| init_state := 0 |>
  else s.

(** The value read and the new state. *)
Definition pic_ioport_read (addr : Z) (s : PICCommonState) : Z * PICCommonState :=
  if nz (poll s) then
    let ret := pic_get_irq s in
    if 0 <=? ret then (Z.lor ret 128, (pic_intack ret s) <| poll := 0 |>)
    else (0, s <| poll := 0 |>)
  else if addr =? 0 then (if nz (read_reg_select s) then isr s else irr s, s)
  else (imr s, s).

Definition pic_get_output (s : PICCommonState) : bool := 0 <=? pic_get_irq s.

Definition elcr_ioport_write (val : Z) (s : PICCommonState) : PICCommonState :=
  s <| elcr := Z.land val (elcr_mask s) |>.
Definition elcr_ioport_read (s : PICCommonState) : Z := elcr s.

Definition i8259_init_chip (is_master : bool) : PICCommonState :=
  mk_pic 0 0 0 0 0 0 0 0 0 0 0 0 0 0 0 0 (if is_master then 248 else 222) is_master false.

(** ** The pair *)






(** ** Priorities *)

(** The line that has priority [p], and the priority of line [i], when line
    [add] is the highest. *)
Definition line (add p : Z) : Z := Z.land (p + add) 7.
Definition rank (add i : Z) : Z := Z.land (i - add) 7.

Definition small_check (add : Z) : bool :=
  all_below 8 (fun i => (line add (rank add i) =? i) && (rank add (line add i) =? i) &&
    (0 <=? rank add i) && (rank add i <? 8) && (0 <=? line add i) && (line add i <? 8)).

Definition priority_check (add mask : Z) : bool :=
  let p := if mask =? 0 then 8 else priority_loop 8 add mask 0 in
  (p =? 8) && (mask =? 0) ||
  (0 <=? p) && (p <? 8) && Z.testbit mask (line add p) && all_below 8 (fun i =>
    negb (Z.testbit mask i) || (p <=? rank add i)).

Lemma line_rank add i :
  0 <= add < 8 -> 0 <= i < 8 ->
  line add (rank add i) = i /\ rank add (line add i) = i /\ 0 <= rank add i < 8 /\ 0 <= line add i < 8.
Proof.
  intros Ha Hi. assert (all_below 8 small_check = true) as Hall by (vm_compute; reflexivity).
  apply (all_below_spec 8 _ add) in Hall; [|lia].
  apply (all_below_spec 8 _ i) in Hall; [|lia].
  rewrite !andb_true_iff, !Z.eqb_eq, !Z.leb_le, !Z.ltb_lt in Hall. lia.
Qed.

(** The search finds the highest-priority line of a mask. *)
Lemma get_priority_spec s mask :
  0 <= priority_add s < 8 -> 0 <= mask < 256 ->
  let p := get_priority s mask in
  (p = 8 /\ mask = 0) \/
  (0 <= p < 8 /\ Z.testbit mask (line (priority_add s) p) = true /\
   forall i, 0 <= i < 8 -> Z.testbit mask i = true -> p <= rank (priority_add s) i).
Proof.
  intros Ha Hm. cbv zeta. unfold get_priority.
  assert (all_below 8 (fun add => all_below 256 (priority_check add)) = true) as Hall
    by (vm_compute; reflexivity).
  apply (all_below_spec 8 _ (priority_add s)) in Hall; [|lia].
  apply (all_below_spec 256 _ mask) in Hall; [|lia]. unfold priority_check in Hall.
  set (p := if mask =? 0 then 8 else _) in *. clearbody p.
  apply orb_true_iff in Hall as [Hall|Hall].
  - left. rewrite andb_true_iff, !Z.eqb_eq in Hall. done.
  - right. rewrite !andb_true_iff, Z.leb_le, Z.ltb_lt in Hall. destruct Hall as [[[? ?] ?] Hall].
    split; [lia|]. split; [done|]. intros i Hi Hb.
    apply (all_below_spec 8 _ i) in Hall; [|lia]. cbv beta in Hall. rewrite Hb in Hall. cbn [negb orb] in Hall.
    by apply Z.leb_le.
Qed.

(** Registers hold bytes. *)
Record pic_wf (s : PICCommonState) : Prop := mk_wf {
  wf_last : 0 <= last_irr s < 256;
  wf_irr : 0 <= irr s < 256;
  wf_imr : 0 <= imr s < 256;
  wf_isr : 0 <= isr s < 256;
  wf_elcr : 0 <= elcr s < 256;
  wf_add : 0 <= priority_add s < 8
}.

(** Line [i] asks for an interrupt and is not masked. *)
Definition requested (s : PICCommonState) (i : Z) : bool := Z.testbit (irr s) i && negb (Z.testbit (imr s) i).

(** The lines in service that hold others back. *)
Definition serving (s : PICCommonState) : Z :=
  let mask := if nz (special_mask s) then Z.land (isr s) (Z.lnot (imr s)) else isr s in
  if nz (special_fully_nested_mode s) && master s then without mask 2 else mask.

Lemma request_mask s i :
  0 <= i -> Z.testbit (Z.land (irr s) (Z.lnot (imr s))) i = requested s i.
Proof. intros Hi. by rewrite Z.land_spec, Z.lnot_spec. Qed.

Lemma serving_range s : pic_wf s -> 0 <= serving s < 256.
Proof.
  intros []. unfold serving, without. cases; auto with wrap.
Qed.

Lemma pic_get_irq_eq s :
  pic_get_irq s =
  let p := get_priority s (Z.land (irr s) (Z.lnot (imr s))) in
  if p =? 8 then -1
  else if p <? get_priority s (serving s) then line (priority_add s) p else -1.
Proof. reflexivity. Qed.

(** What the chip decides, in terms of lines. *)
Lemma get_irq_some s :
  pic_wf s -> 0 <= pic_get_irq s ->
  let i := pic_get_irq s in
  0 <= i < 8 /\ requested s i = true /\
  (forall j, 0 <= j < 8 -> requested s j = true -> rank (priority_add s) i <= rank (priority_add s) j) /\
  (forall j, 0 <= j < 8 -> Z.testbit (serving s) j = true -> rank (priority_add s) i < rank (priority_add s) j).
Proof.
  intros Hwf Hge. pose proof Hwf as [_ Hirr _ _ _ Hadd]. cbv zeta. rewrite pic_get_irq_eq in *.
  cbv zeta in *. set (mask := Z.land (irr s) (Z.lnot (imr s))) in *.
  destruct (get_priority_spec s mask) as [[E _]|(Hp & Hbit & Hmin)]; [done|by apply land_range_u8|..].
  { rewrite E in Hge. simpl in Hge. lia. }
  set (p := get_priority s mask) in *.
  destruct (Z.eqb_spec p 8); [lia|].
  destruct (get_priority_spec s (serving s)) as [[Ec Es]|(Hc & _ & Hcmin)];
    [done|by apply serving_range|..]; set (c := get_priority s (serving s)) in *;
    destruct (Z.ltb_spec p c) as [Hlt|]; try lia;
    destruct (line_rank (priority_add s) p) as (_ & Hrp & _ & Hlp); try lia;
    rewrite <- request_mask by lia; (split; [done|]); (split; [done|]); rewrite Hrp; split.
  - intros j Hj Hr. apply Hmin; [done|]. unfold mask. by rewrite request_mask by lia.
  - intros j Hj Hs. by rewrite Es, Z.testbit_0_l in Hs.
  - intros j Hj Hr. apply Hmin; [done|]. unfold mask. by rewrite request_mask by lia.
  - intros j Hj Hs. pose proof (Hcmin j Hj Hs). lia.
Qed.

Lemma get_irq_none s :
  pic_wf s -> pic_get_irq s < 0 -> forall i, 0 <= i < 8 -> requested s i = true ->
  exists j, 0 <= j < 8 /\ Z.testbit (serving s) j = true /\
    rank (priority_add s) j <= rank (priority_add s) i.
Proof.
  intros Hwf Hlt i Hi Hr. pose proof Hwf as [_ Hirr _ _ _ Hadd]. rewrite pic_get_irq_eq in *.
  cbv zeta in *. set (mask := Z.land (irr s) (Z.lnot (imr s))) in *.
  rewrite <- request_mask in Hr by lia. fold mask in Hr.
  destruct (get_priority_spec s mask) as [[_ E]|(Hp & Hbit & Hmin)]; [done|by apply land_range_u8|..].
  { by rewrite E, Z.testbit_0_l in Hr. }
  set (p := get_priority s mask) in *. pose proof (Hmin i Hi Hr) as Hpi.
  destruct (Z.eqb_spec p 8); [lia|].
  destruct (line_rank (priority_add s) p) as (_ & _ & _ & Hlp); [lia|lia|].
  destruct (get_priority_spec s (serving s)) as [[Ec Es]|(Hc & Hcb & _)];
    [done|by apply serving_range|..]; set (c := get_priority s (serving s)) in *;
    destruct (Z.ltb_spec p c) as [|Hge]; try lia.
  destruct (line_rank (priority_add s) c) as (_ & Hrc & _ & Hlc); [lia|lia|].
  exists (line (priority_add s) c). rewrite Hrc. split; [done|]. split; [done|lia].
Qed.

(** C31: the interrupt controller serves the right line.  If it offers an
    interrupt, it is an unmasked requesting line of highest priority, and of
    higher priority than everything in service; if it offers none, every
    unmasked request is held back by a line in service of at least its
    priority. *)
Theorem highest_priority_first s :
  pic_wf s ->
  let i := pic_get_irq s in
  (0 <= i -> 0 <= i < 8 /\ requested s i = true /\
    (forall j, 0 <= j < 8 -> requested s j = true -> rank (priority_add s) i <= rank (priority_add s) j) /\
    (forall j, 0 <= j < 8 -> Z.testbit (serving s) j = true ->
       rank (priority_add s) i < rank (priority_add s) j)) /\
  (i < 0 -> forall j, 0 <= j < 8 -> requested s j = true ->
    exists k, 0 <= k < 8 /\ Z.testbit (serving s) k = true /\
      rank (priority_add s) k <= rank (priority_add s) j).
Proof. intros Hwf. split; [by apply get_irq_some|by apply get_irq_none]. Qed.

(** The keyboard (1) and the disk (6) ask, the timer (0) is masked, line 5 is
    being served. *)
Definition demo_pic : PICCommonState :=
  (i8259_init_chip true) <| irr := 67 |> <| imr := 1 |> <| isr := 32 |>.

Lemma demo_pic_wf : pic_wf demo_pic.
Proof. constructor; vm_compute; (split; [discriminate|reflexivity]). Qed.

Lemma highest_priority_first_witness :
  let i := pic_get_irq demo_pic in
  (0 <= i -> 0 <= i < 8 /\ requested demo_pic i = true /\
    (forall j, 0 <= j < 8 -> requested demo_pic j = true -> rank 0 i <= rank 0 j) /\
    (forall j, 0 <= j < 8 -> Z.testbit (serving demo_pic) j = true -> rank 0 i < rank 0 j)) /\
  (i < 0 -> forall j, 0 <= j < 8 -> requested demo_pic j = true ->
    exists k, 0 <= k < 8 /\ Z.testbit (serving demo_pic) k = true /\ rank 0 k <= rank 0 j).
Proof. apply (highest_priority_first demo_pic), demo_pic_wf. Defined.

(** ** Acknowledge and end of interrupt *)

Lemma bit_spec i j : 0 <= i -> 0 <= j -> Z.testbit (bit i) j = (i =? j).
Proof.
  intros Hi Hj. unfold bit. rewrite Z.shiftl_1_l, Z.pow2_bits_eqb by lia. done.
Qed.

Lemma bit_range i : 0 <= i < 8 -> 0 <= bit i < 256.
Proof.
  intros Hi. assert (i = 0 \/ i = 1 \/ i = 2 \/ i = 3 \/ i = 4 \/ i = 5 \/ i = 6 \/ i = 7) as His by lia.
  repeat destruct His as [->|His]; subst; done.
Qed.

Lemma without_lor v i : 0 <= i -> Z.testbit v i = false -> without (Z.lor v (bit i)) i = v.
Proof.
  intros Hi Hv. apply Z.bits_inj'. intros n Hn. unfold without.
  rewrite Z.land_spec, Z.lor_spec, Z.lnot_spec, bit_spec by lia.
  destruct (Z.eqb_spec i n) as [->|]; [by rewrite Hv|]. by rewrite orb_false_r, andb_true_r.
Qed.

Lemma get_priority_unique s mask p :
  0 <= priority_add s < 8 -> 0 <= mask < 256 -> 0 <= p < 8 ->
  Z.testbit mask (line (priority_add s) p) = true ->
  (forall j, 0 <= j < 8 -> Z.testbit mask j = true -> p <= rank (priority_add s) j) ->
  get_priority s mask = p.
Proof.
  intros Ha Hm Hp Hb Hmin. destruct (line_rank (priority_add s) p) as (_ & Hr & _ & Hl); [lia|lia|].
  destruct (get_priority_spec s mask Ha Hm) as [[_ E]|(Hq & Hqb & Hqmin)].
  { by rewrite E, Z.testbit_0_l in Hb. }
  set (q := get_priority s mask) in *.
  destruct (line_rank (priority_add s) q) as (_ & Hrq & _ & Hlq); [lia|lia|].
  pose proof (Hqmin _ Hl Hb). pose proof (Hmin _ Hlq Hqb). lia.
Qed.

(** Acknowledging the offered interrupt and ending it restores the service
    register.  In normal mode the acknowledge puts the line into service, it
    becomes the highest-priority line there, and a non-specific end of
    interrupt (0x20) takes exactly this line out again. *)
Theorem acknowledge_then_eoi s :
  pic_wf s -> 0 <= pic_get_irq s -> auto_eoi s = 0 -> special_mask s = 0 ->
  special_fully_nested_mode s = 0 ->
  let i := pic_get_irq s in
  Z.testbit (isr s) i = false /\ Z.testbit (isr (pic_intack i s)) i = true /\
  isr (pic_ioport_write 0 32 (pic_intack i s)) = isr s.
Proof.
  intros Hwf Hge Ha Hsm Hfn. cbv zeta. pose proof (get_irq_some s Hwf Hge) as (Hi & Hr & _ & Hs).
  set (i := pic_get_irq s) in *. clearbody i.
  assert (serving s = isr s) as Es by (unfold serving; by rewrite Hsm, Hfn). rewrite Es in Hs.
  pose proof Hwf as [_ _ _ Hisr _ Hadd].
  destruct (line_rank (priority_add s) i) as (Hlr & _ & Hrr & _); [lia|lia|].
  assert (Z.testbit (isr s) i = false) as Hni.
  { destruct (Z.testbit (isr s) i) eqn:E; [|done]. specialize (Hs i Hi E). lia. }
  assert (isr (pic_intack i s) = Z.lor (isr s) (bit i) /\ priority_add (pic_intack i s) = priority_add s)
    as [E1 E2].
  { unfold pic_intack. rewrite Ha. cbn [nz Z.eqb negb]. by destruct (nz (Z.land _ (bit i))). }
  split; [done|]. split; [rewrite E1, Z.lor_spec, bit_spec, Z.eqb_refl by lia; apply orb_true_r|].
  unfold pic_ioport_write. cbn [Z.eqb]. change (nz (Z.land 32 16)) with false.
  change (nz (Z.land 32 8)) with false. cbv iota. unfold ocw2. change (Z.shiftr 32 5) with 1.
  cbn [Z.eqb Pos.eqb orb]. cbv zeta.
  rewrite (get_priority_unique (pic_intack i s) (isr (pic_intack i s)) (rank (priority_add s) i)).
  - destruct (Z.eqb_spec (rank (priority_add s) i) 8); [lia|].
    change (without (isr (pic_intack i s))
      (line (priority_add (pic_intack i s)) (rank (priority_add s) i)) = isr s).
    rewrite E2, Hlr, E1. by apply without_lor.
  - by rewrite E2.
  - rewrite E1. apply lor_range_u8; [done|by apply bit_range].
  - lia.
  - rewrite E2, Hlr, E1, Z.lor_spec, bit_spec, Z.eqb_refl by lia. apply orb_true_r.
  - intros j Hj. rewrite E1, E2, Z.lor_spec, bit_spec by lia.
    destruct (Z.eqb_spec i j) as [->|]; [lia|]. rewrite orb_false_r. intros Hb. specialize (Hs j Hj Hb). lia.
Qed.

Lemma acknowledge_then_eoi_witness :
  let i := pic_get_irq demo_pic in
  Z.testbit (isr demo_pic) i = false /\ Z.testbit (isr (pic_intack i demo_pic)) i = true /\
  isr (pic_ioport_write 0 32 (pic_intack i demo_pic)) = isr demo_pic.
Proof.
  apply (acknowledge_then_eoi demo_pic); try reflexivity; [apply demo_pic_wf|].
  vm_compute. discriminate.
Defined.

(** ** The output follows the registers *)

(** What a guest or a device can do to a chip. *)
Inductive pic_op :=
  | OpSetIrq (irq : Z) (level : bool)
  | OpAck
  | OpWrite (addr val : Z)
  | OpRead (addr : Z)
  | OpElcr (val : Z)
  | OpReset.

Definition pic_apply (op : pic_op) (s : PICCommonState) : PICCommonState :=
  match op with
  | OpSetIrq irq level => pic_set_irq irq level s
  | OpAck => let irq := pic_get_irq s in if 0 <=? irq then pic_intack irq s else s
  | OpWrite addr val => pic_ioport_write addr val s
  | OpRead addr => (pic_ioport_read addr s).2
  | OpElcr val => elcr_ioport_write val s
  | OpReset => pic_reset s
  end.

Definition op_ok (op : pic_op) : Prop :=
  match op with
  | OpSetIrq irq _ => 0 <= irq < 8
  | OpWrite _ val | OpElcr val => 0 <= val < 256
  | _ => True
  end.

(** The writes that change the special mask mode (OCW3) or the special fully
    nested mode (ICW4). *)
Definition sets_mode (s : PICCommonState) (op : pic_op) : bool :=
  match op with
  | OpWrite addr val =>
      if addr =? 0 then
        negb (nz (Z.land val 16)) && nz (Z.land val 8) && nz (Z.land val 64) &&
        negb (Z.land (Z.shiftr val 5) 1 =? special_mask s)
      else (init_state s =? 3) && negb (Z.land (Z.shiftr val 4) 1 =? special_fully_nested_mode s)
  | _ => false
  end.

Inductive pic_reachable : PICCommonState -> Prop :=
  | pic_start is_master : pic_reachable (pic_reset (i8259_init_chip is_master))
  | pic_step s op : pic_reachable s -> op_ok op -> sets_mode s op = false ->
      pic_reachable (pic_apply op s).

(** The output line has the level the registers call for. *)
Definition settled (s : PICCommonState) : Prop := int_out s = pic_get_output s.

Lemma update_settled s : settled (pic_update_irq s).
Proof. reflexivity. Qed.

(** The decision depends on six registers and the chip's role. *)
Lemma settled_frame s s' :
  irr s' = irr s -> imr s' = imr s -> isr s' = isr s -> priority_add s' = priority_add s ->
  special_mask s' = special_mask s -> special_fully_nested_mode s' = special_fully_nested_mode s ->
  master s' = master s -> int_out s' = int_out s -> settled s -> settled s'.
Proof.
  unfold settled, pic_get_output, pic_get_irq, get_priority.
  intros E1 E2 E3 E4 E5 E6 E7 E8 Hs. rewrite E1, E2, E3, E4, E5, E6, E7, E8. exact Hs.
Qed.

Lemma land7_range v : 0 <= Z.land v 7 < 8.
Proof. change 7 with (Z.ones 3). rewrite Z.land_ones by lia. apply Z.mod_pos_bound. lia. Qed.

Lemma without_range v i : 0 <= v < 256 -> 0 <= without v i < 256.
Proof. intros Hv. by apply land_range_u8. Qed.

Create HintDb pic.
#[export] Hint Resolve bit_range without_range land7_range land_range_u8 lor_range_u8 : pic.

Lemma update_wf s : pic_wf s -> pic_wf (pic_update_irq s).
Proof. by intros []. Qed.

(** Reads the fields of an updated record. *)
Ltac pic_fields := simpl; unfold RecordSettersUsingExistingGetters.const.
Ltac pic_wf_tac := cases; try apply update_wf; constructor; pic_fields; auto with pic wrap.

Lemma set_irq_wf irq level s : 0 <= irq < 8 -> pic_wf s -> pic_wf (pic_set_irq irq level s).
Proof.
  intros Hi []. apply update_wf. pic_wf_tac.
Qed.

Lemma intack_wf irq s : 0 <= irq < 8 -> pic_wf s -> pic_wf (pic_intack irq s).
Proof. intros Hi []. apply update_wf. pic_wf_tac. Qed.

Lemma init_reset_wf s : pic_wf s -> pic_wf (pic_init_reset s).
Proof. intros []. apply update_wf. constructor; pic_fields; auto with pic; lia. Qed.

Lemma ocw2_wf val s : pic_wf s -> pic_wf (ocw2 val s).
Proof. intros []. unfold ocw2. pic_wf_tac. Qed.

Lemma ocw3_wf val s : pic_wf s -> pic_wf (ocw3 val s).
Proof. intros []. unfold ocw3. pic_wf_tac. Qed.

Lemma write_wf addr val s : 0 <= val < 256 -> pic_wf s -> pic_wf (pic_ioport_write addr val s).
Proof.
  intros Hv Hs. pose proof (init_reset_wf s Hs) as []. pose proof (ocw2_wf val s Hs).
  pose proof (ocw3_wf val s Hs). destruct Hs. unfold pic_ioport_write.
  cases; try done; try apply update_wf; constructor; pic_fields; auto with wrap.
Qed.

Lemma read_wf addr s : pic_wf s -> pic_wf (pic_ioport_read addr s).2.
Proof.
  intros Hs. unfold pic_ioport_read. destruct (nz (poll s)); [|by destruct (addr =? 0)].
  destruct (Z.leb_spec 0 (pic_get_irq s)) as [Hge|].
  - pose proof (get_irq_some s Hs Hge) as (Hi & _).
    destruct (intack_wf _ s Hi Hs). constructor; pic_fields; auto.
  - destruct Hs. by constructor.
Qed.

Lemma apply_wf op s : op_ok op -> pic_wf s -> pic_wf (pic_apply op s).
Proof.
  intros Hop Hs. destruct op; simpl in *.
  - by apply set_irq_wf.
  - destruct (Z.leb_spec 0 (pic_get_irq s)) as [Hge|]; [|done].
    pose proof (get_irq_some s Hs Hge) as (Hi & _). by apply intack_wf.
  - by apply write_wf.
  - by apply read_wf.
  - destruct Hs. constructor; pic_fields; auto with pic.
  - apply init_reset_wf. destruct Hs. constructor; pic_fields; auto; lia.
Qed.

Lemma ocw2_settled val s : settled s -> settled (ocw2 val s).
Proof. intros Hs. unfold ocw2. cases; try apply update_settled; try done; by apply (settled_frame s). Qed.

Lemma write_settled addr val s :
  settled s -> sets_mode s (OpWrite addr val) = false -> settled (pic_ioport_write addr val s).
Proof.
  intros Hs Hm. unfold pic_ioport_write. simpl in Hm. destruct (addr =? 0).
  - destruct (nz (Z.land val 16)); [by apply (settled_frame (pic_init_reset s))|].
    destruct (nz (Z.land val 8)); [|by apply ocw2_settled].
    simpl in Hm. unfold ocw3. destruct (nz (Z.land val 64)) eqn:E64; [|cases; by apply (settled_frame s)].
    simpl in Hm. apply negb_false_iff, Z.eqb_eq in Hm. cases; by apply (settled_frame s).
  - destruct (init_state s =? 0); [apply update_settled|].
    destruct (init_state s =? 1); [by apply (settled_frame s)|].
    destruct (init_state s =? 2); [by apply (settled_frame s)|].
    destruct (init_state s =? 3); [|done]. simpl in Hm. apply negb_false_iff, Z.eqb_eq in Hm.
    by apply (settled_frame s).
Qed.

Lemma apply_settled op s : settled s -> sets_mode s op = false -> settled (pic_apply op s).
Proof.
  intros Hs Hm. destruct op; simpl; try apply update_settled.
  - destruct (0 <=? _); [apply update_settled|done].
  - by apply write_settled.
  - unfold pic_ioport_read. cases; try done; try by apply (settled_frame s).
  - by apply (settled_frame s).
Qed.

(** C33: the output of an interrupt controller always tells the truth.
    Whatever sequence of line changes, acknowledges, port reads and writes a
    chip goes through from reset (initialisations by ICW1 to ICW4 included), as
    long as no write changes the special mask mode or the special fully nested
    mode, its registers hold bytes and its output is high exactly when it has an
    interrupt to offer. *)
Theorem output_follows_registers s :
  pic_reachable s -> pic_wf s /\ int_out s = pic_get_output s.
Proof.
  induction 1 as [is_master|s op _ [IHw IHs] Hop Hm].
  - split; [|reflexivity]. destruct is_master; (constructor; vm_compute; (split; [discriminate|reflexivity])).
  - split; [by apply apply_wf|by apply apply_settled].
Qed.

(** The BIOS initialises the master (ICW1 to ICW4), unmasks lines 0 to 2, and the
    keyboard raises its line. *)
Definition demo_ops : list pic_op :=
  [OpWrite 0 17; OpWrite 1 8; OpWrite 1 4; OpWrite 1 1; OpWrite 1 248].

Lemma output_follows_registers_witness :
  let s := pic_apply (OpSetIrq 1 true) (foldl (fun s op => pic_apply op s) (pic_reset (i8259_init_chip true)) demo_ops) in
  int_out s = true /\ pic_wf s /\ int_out s = pic_get_output s.
Proof.
  intros s. split; [reflexivity|]. apply (output_follows_registers s).
  repeat (apply pic_step; [|simpl; lia|reflexivity]). apply pic_start.
Defined.

(** Switching the special mask mode leaves the output stale.  A line in
    service is masked and special mask mode entered, so that lower requests are
    to be let through; the controller now has an interrupt to offer, and its
    output stays low, because this write does not update it. *)
Theorem special_mask_output_stale :
  exists s val, pic_reachable s /\ 0 <= val < 256 /\
    int_out (pic_ioport_write 0 val s) = false /\
    pic_get_output (pic_ioport_write 0 val s) = true.
Proof.
  exists (foldl (fun s op => pic_apply op s) (pic_reset (i8259_init_chip true))
    [OpSetIrq 1 true; OpAck; OpSetIrq 6 true; OpWrite 1 2]), 104.
  split; [|split; [lia|by split]].
  repeat (apply pic_step; [|simpl; lia|reflexivity]). apply pic_start.
Qed.

(** ** From a device's line to the processor's vector *)









(** *** Until the end of interrupt *)















